(** * MWEngine: AudioBuffer mixing and SynthEvent rendering

    A shallow embedding of [audiobuffer.cpp] (AudioBuffer) and
    [jni/synthevent.cpp] (SynthEvent), and the properties of the engine's
    specification that concern them.

    Conventions of the embedding.
    - A C++ [int] is a [Z]; the arithmetic of the source goes through
      [Int.add], [Int.sub], [Int.mul], which reduce their result to the
      32-bit two's complement range, and [Int.div], which has no result for
      a zero divisor.  Loop counters that the loop guard keeps below an
      [int] bound are stepped with [+ 1].
    - [float] and [SAMPLE_TYPE] (a macro of global.h) are one abstract
      floating type with abstract operations, class [FloatOps]; the module
      [Binary32] instantiates it with IEEE single precision.
    - AudioBuffer objects live in a heap indexed by address; the channel
      arrays of one buffer are owned by it and stored inside it.
    - An access outside an array, a dereferenced null or dangling pointer
      and a division by zero are undefined in C++; the embedding stops with
      [Fault] there. *)

From Stdlib Require Import ZArith List Bool Lia.
From Stdlib.Floats Require Import SpecFloat.
From stdpp Require Import base option list gmap.

Local Open Scope Z_scope.
Set Warnings "-register-all".

(** ** Results of a call *)

Inductive Res (A : Type) : Type :=
| Ok (a : A)
| Fault
| OutOfFuel.
Arguments Ok {A} a.
Arguments Fault {A}.
Arguments OutOfFuel {A}.

#[global] Instance Res_ret : MRet Res := λ A a, Ok a.
#[global] Instance Res_bind : MBind Res := λ A B f m,
  match m with
  | Ok a => f a
  | Fault => Fault
  | OutOfFuel => OutOfFuel
  end.

Definition lift {A} (o : option A) : Res A :=
  match o with
  | Some a => Ok a
  | None => Fault
  end.

(** ** 32-bit integers *)

Module Int.
Definition INT_MAX : Z := 2147483647.
Definition INT_MIN : Z := -2147483648.

Definition fits (z : Z) : Prop := INT_MIN ≤ z ≤ INT_MAX.

Definition wrap (z : Z) : Z := (z + 2147483648) mod 4294967296 - 2147483648.

Definition add (a b : Z) : Z := wrap (a + b).
Definition sub (a b : Z) : Z := wrap (a - b).
Definition mul (a b : Z) : Z := wrap (a * b).

(** [a / b] of C++: the quotient truncated toward zero. *)
Definition div (a b : Z) : Res Z :=
  if b =? 0 then Fault else Ok (wrap (Z.quot a b)).
End Int.

(** ** Floating point *)

Class FloatOps := {
  SAMPLE_TYPE : Type;
  fadd : SAMPLE_TYPE → SAMPLE_TYPE → SAMPLE_TYPE;
  fsub : SAMPLE_TYPE → SAMPLE_TYPE → SAMPLE_TYPE;
  fmul : SAMPLE_TYPE → SAMPLE_TYPE → SAMPLE_TYPE;
  fdiv : SAMPLE_TYPE → SAMPLE_TYPE → SAMPLE_TYPE;
  fneg : SAMPLE_TYPE → SAMPLE_TYPE;
  fabs : SAMPLE_TYPE → SAMPLE_TYPE;
  fltb : SAMPLE_TYPE → SAMPLE_TYPE → bool;
  (** conversion of an [int] to the floating type *)
  of_int : Z → SAMPLE_TYPE;
  (** the cast [( int ) x] *)
  to_int : SAMPLE_TYPE → Z;
  (** the constant written [m * 10^-d] in the source, e.g. [.5] is [dec 5 1] *)
  dec : Z → nat → SAMPLE_TYPE;
  (** [sin] of cmath *)
  fsin : SAMPLE_TYPE → SAMPLE_TYPE;
}.

Declare Scope float_ops_scope.
Delimit Scope float_ops_scope with F.
Infix "+" := fadd : float_ops_scope.
Infix "-" := fsub : float_ops_scope.
Infix "*" := fmul : float_ops_scope.
Infix "/" := fdiv : float_ops_scope.
Infix "<?" := fltb : float_ops_scope.
Notation "x >? y" := (fltb y x) : float_ops_scope.

(** ** AudioBuffer *)

Section AudioBuffer.
Context {FO : FloatOps}.

Record AudioBuffer := mkAudioBuffer {
  loopeable : bool;
  amountOfChannels : Z;
  bufferSize : Z;
  _buffers : list (list SAMPLE_TYPE);
}.

(** Modelled from the spec: BufferPool::getSilentBuffer and
    BufferUtility::generateSilentBuffer (utilities/, not among the sources)
    supply a zero-filled array of the requested length. *)
Definition generateSilentBuffer (aBufferSize : Z) : list SAMPLE_TYPE :=
  replicate (Z.to_nat aBufferSize) (dec 0 1).

(** [AudioBuffer::AudioBuffer]: both branches of the constructor fill every
    channel with a copy of a silent buffer.  A negative count or size makes
    the allocation throw. *)
Definition AudioBuffer_new (aAmountOfChannels aBufferSize : Z) : Res AudioBuffer :=
  if (aAmountOfChannels <? 0) || (aBufferSize <? 0) then Fault
  else Ok {| loopeable := false;
             amountOfChannels := aAmountOfChannels;
             bufferSize := aBufferSize;
             _buffers := replicate (Z.to_nat aAmountOfChannels)
                                   (generateSilentBuffer aBufferSize) |}.

(** [_buffers->at( aChannelNum )] *)
Definition getBufferForChannel (b : AudioBuffer) (aChannelNum : Z) : Res (list SAMPLE_TYPE) :=
  if aChannelNum <? 0 then Fault else lift (_buffers b !! Z.to_nat aChannelNum).

Definition set_buffers (b : AudioBuffer) (bs : list (list SAMPLE_TYPE)) : AudioBuffer :=
  {| loopeable := loopeable b;
     amountOfChannels := amountOfChannels b;
     bufferSize := bufferSize b;
     _buffers := bs |}.

(** The shape the constructor gives a buffer with at least one channel,
    kept by every method; the channel count is an [int], and so is the
    byte count of the sample storage (at least four bytes a sample). *)
Record wf_buffer (b : AudioBuffer) : Prop := {
  wf_channels : 1 ≤ amountOfChannels b ≤ Int.INT_MAX;
  wf_size : 0 ≤ bufferSize b;
  wf_vector : Z.of_nat (length (_buffers b)) = amountOfChannels b;
  wf_arrays : ∀ c ch, _buffers b !! c = Some ch → Z.of_nat (length ch) = bufferSize b;
  wf_bytes : 4 * (amountOfChannels b * bufferSize b) ≤ Int.INT_MAX;
}.

(** *** The heap of buffers *)

Definition load (h : gmap nat AudioBuffer) (p : nat) (c i : Z) : Res SAMPLE_TYPE :=
  b ← lift (h !! p);
  ch ← getBufferForChannel b c;
  if i <? 0 then Fault else lift (ch !! Z.to_nat i).

Definition store (h : gmap nat AudioBuffer) (p : nat) (c i : Z) (v : SAMPLE_TYPE)
  : Res (gmap nat AudioBuffer) :=
  b ← lift (h !! p);
  ch ← getBufferForChannel b c;
  if (i <? 0) || (Z.of_nat (length ch) <=? i) then Fault
  else Ok (<[p := set_buffers b (<[Z.to_nat c := <[Z.to_nat i := v]> ch]> (_buffers b))]> h).

(** *** [AudioBuffer::mergeBuffers] *)

(** The sample loop of one channel,
    [for ( int i = aWriteOffset, r = aReadOffset; i < maxWriteOffset; ++i, ++r )],
    with [n] the distance of [i] to [maxWriteOffset]. *)
Fixpoint merge_samples (n : nat) (this aBuffer : nat) (c : Z)
         (sourceLength : Z) (loops : bool) (aMixVolume : SAMPLE_TYPE)
         (i r writtenSamples : Z) (h : gmap nat AudioBuffer)
  : Res (gmap nat AudioBuffer * Z) :=
  match n with
  | O => Ok (h, writtenSamples)
  | S n' =>
      let step (r : Z) :=
        s ← load h aBuffer c r;
        t ← load h this c i;
        h' ← store h this c i (t + s * aMixVolume)%F;
        merge_samples n' this aBuffer c sourceLength loops aMixVolume
                      (i + 1) (r + 1) (Int.add writtenSamples 1) h' in
      if sourceLength <=? r then
        if loops then step 0 else Ok (h, writtenSamples)
      else step r
  end.

(** The channel loop, [for ( c = 0; c < amountOfChannels; ++c )], with [n]
    the distance of [c] to [amountOfChannels]; the final [c] is returned. *)
Fixpoint merge_channels (n : nat) (this aBuffer : nat)
         (maxSourceChannel sourceLength : Z) (loops : bool)
         (aReadOffset aWriteOffset maxWriteOffset : Z) (aMixVolume : SAMPLE_TYPE)
         (c writtenSamples : Z) (h : gmap nat AudioBuffer)
  : Res (gmap nat AudioBuffer * Z * Z) :=
  match n with
  | O => Ok (h, writtenSamples, c)
  | S n' =>
      if maxSourceChannel <? c then Ok (h, writtenSamples, c)
      else
        src ← lift (h !! aBuffer);
        _ ← getBufferForChannel src c;
        tgt ← lift (h !! this);
        _ ← getBufferForChannel tgt c;
        '(h', w') ← merge_samples (Z.to_nat (maxWriteOffset - aWriteOffset))
                      this aBuffer c sourceLength loops aMixVolume
                      aWriteOffset aReadOffset writtenSamples h;
        merge_channels n' this aBuffer maxSourceChannel sourceLength loops
                       aReadOffset aWriteOffset maxWriteOffset aMixVolume
                       (c + 1) w' h'
  end.

(** [this->mergeBuffers( aBuffer, aReadOffset, aWriteOffset, aMixVolume )];
    [aBuffer] is [None] for the null pointer. *)
Definition mergeBuffers (this : nat) (aBuffer : option nat)
           (aReadOffset aWriteOffset : Z) (aMixVolume : SAMPLE_TYPE)
           (h : gmap nat AudioBuffer) : Res (gmap nat AudioBuffer * Z) :=
  match aBuffer with
  | None => Ok (h, 0)
  | Some src =>
      tgt ← lift (h !! this);
      if bufferSize tgt <=? aWriteOffset then Ok (h, 0)
      else
        sb ← lift (h !! src);
        let sourceLength := bufferSize sb in
        let maxSourceChannel := Int.sub (amountOfChannels sb) 1 in
        let writeLength :=
          if bufferSize tgt <? Int.add aWriteOffset sourceLength
          then Int.sub (bufferSize tgt) aWriteOffset
          else sourceLength in
        let maxWriteOffset := Int.add aWriteOffset writeLength in
        '(h', writtenSamples, c) ←
          merge_channels (Z.to_nat (amountOfChannels tgt)) this src
                         maxSourceChannel sourceLength (loopeable sb)
                         aReadOffset aWriteOffset maxWriteOffset aMixVolume
                         0 0 h;
        (* return writtenSamples / c *)
        n ← Int.div writtenSamples c;
        Ok (h', n)
  end.

(** The mix as the specification words it: [k] samples of the channel [s],
    read from [ro], are scaled by [vol] and added into the channel [t] from
    [wo]; the rest of [t] stays. *)
Definition mixed (t s : list SAMPLE_TYPE) (wo ro k : nat) (vol : SAMPLE_TYPE)
  : list SAMPLE_TYPE :=
  take wo t
  ++ zip_with (λ a b, (a + b * vol)%F) (take k (drop wo t)) (take k (drop ro s))
  ++ drop (wo + k) t.

(** The channels of the target after the mix: the channels that the source
    has too are mixed, the others stay. *)
Definition mixed_buffers (ts ss : list (list SAMPLE_TYPE)) (wo ro k : nat)
           (vol : SAMPLE_TYPE) : list (list SAMPLE_TYPE) :=
  imap (λ c t, match ss !! c with
               | Some s => mixed t s wo ro k vol
               | None => t
               end) ts.

(** The number of passes of the sample loop: [n] passes are due, the
    source has [M] samples and is read from [r]. *)
Definition merge_count (loops : bool) (M r : Z) (n : nat) : nat :=
  if loops then n else Nat.min n (Z.to_nat (M - r)).

(** The length of the region [mergeBuffers] writes, before the source runs
    out. *)
Definition write_length (N M wo : Z) : Z := Z.min M (N - wo).

(** The counter [writtenSamples] after [n] increments. *)
Fixpoint count_up (n : nat) (w : Z) : Z :=
  match n with
  | O => w
  | S n' => count_up n' (Int.add w 1)
  end.

(** The channel [c] of the object at [p] exists and has [len] samples. *)
Definition has_channel (h : gmap nat AudioBuffer) (p : nat) (c : Z) (len : Z) : Prop :=
  ∃ b t, h !! p = Some b ∧ _buffers b !! Z.to_nat c = Some t ∧ Z.of_nat (length t) = len.

(** A channel after a mix of [k] samples at [wo]: the length and every
    sample outside the region are kept. *)
Definition framed (wo k : nat) (t t' : list SAMPLE_TYPE) : Prop :=
  length t' = length t ∧ ∀ j, (j < wo ∨ wo + k ≤ j)%nat → t' !! j = t !! j.

(** The channels after a mix into the channels below [c]: those are
    framed, the others are kept. *)
Definition framed_upto (c wo k : nat) (bs bs' : list (list SAMPLE_TYPE)) : Prop :=
  length bs' = length bs
  ∧ ∀ j t, bs !! j = Some t →
           ∃ t', bs' !! j = Some t'
                 ∧ if bool_decide (j < c)%nat then framed wo k t t' else t' = t.

(** The channels below [c] mixed, the others as they were. *)
Definition mixed_upto (c : nat) (ts ss : list (list SAMPLE_TYPE)) (wo ro k : nat)
           (vol : SAMPLE_TYPE) : list (list SAMPLE_TYPE) :=
  imap (λ j t, if bool_decide (j < c)%nat
               then match ss !! j with
                    | Some s => mixed t s wo ro k vol
                    | None => t
                    end
               else t) ts.

(** The channel [t] with the values [vs] stored from index [start] on. *)
Definition spliced (t : list SAMPLE_TYPE) (start : nat) (vs : list SAMPLE_TYPE)
  : list SAMPLE_TYPE :=
  take start t ++ vs ++ drop (start + length vs) t.

(** *** [AudioBuffer::silenceBuffers]

    Either branch overwrites the first [bufferSize] samples of each of the
    [amountOfChannels] channels with silence. *)
Fixpoint silence_channels (n : nat) (i : Z) (b : AudioBuffer) : Res AudioBuffer :=
  match n with
  | O => Ok b
  | S n' =>
      ch ← getBufferForChannel b i;
      if Z.of_nat (length ch) <? bufferSize b then Fault
      else silence_channels n' (i + 1)
             (set_buffers b (<[Z.to_nat i := generateSilentBuffer (bufferSize b)
                                              ++ drop (Z.to_nat (bufferSize b)) ch]>
                               (_buffers b)))
  end.

Definition silenceBuffers (b : AudioBuffer) : Res AudioBuffer :=
  silence_channels (Z.to_nat (amountOfChannels b)) 0 b.
(** *** [memcpy], [adjustBufferVolumes], [applyMonoSource] and [clone] *)

(** [memcpy( target, source, n * sizeof( SAMPLE_TYPE ))] on two arrays: the
    first [n] samples of [target] become those of [source].  A count that
    is negative, or larger than one of the arrays, is undefined. *)
Definition memcpy (target source : list SAMPLE_TYPE) (n : Z) : Res (list SAMPLE_TYPE) :=
  if (n <? 0) || (Z.of_nat (length target) <? n) || (Z.of_nat (length source) <? n)
  then Fault
  else Ok (take (Z.to_nat n) source ++ drop (Z.to_nat n) target).

(** [for ( int j = 0; j < bufferSize; ++j ) buffer[ j ] *= amp], with [n]
    the distance of [j] to [bufferSize]. *)
Fixpoint scale_samples (n : nat) (j : Z) (amp : SAMPLE_TYPE) (buffer : list SAMPLE_TYPE)
  : Res (list SAMPLE_TYPE) :=
  match n with
  | O => Ok buffer
  | S n' =>
      if j <? 0 then Fault
      else
        s ← lift (buffer !! Z.to_nat j);
        scale_samples n' (j + 1) amp (<[Z.to_nat j := (s * amp)%F]> buffer)
  end.

(** [AudioBuffer::adjustBufferVolumes( amp )]; [n] is the distance of the
    channel counter [i] to [amountOfChannels]. *)
Fixpoint adjust_channels (n : nat) (i : Z) (amp : SAMPLE_TYPE) (b : AudioBuffer)
  : Res AudioBuffer :=
  match n with
  | O => Ok b
  | S n' =>
      buffer ← getBufferForChannel b i;
      buffer' ← scale_samples (Z.to_nat (bufferSize b)) 0 amp buffer;
      adjust_channels n' (i + 1) amp
                      (set_buffers b (<[Z.to_nat i := buffer']> (_buffers b)))
  end.

Definition adjustBufferVolumes (amp : SAMPLE_TYPE) (b : AudioBuffer) : Res AudioBuffer :=
  adjust_channels (Z.to_nat (amountOfChannels b)) 0 amp b.

(** [AudioBuffer::applyMonoSource]: the loop over the channels from 1 on;
    the mono buffer is fetched once, before the loop. *)
Fixpoint copy_mono (n : nat) (i : Z) (monoBuffer : list SAMPLE_TYPE) (b : AudioBuffer)
  : Res AudioBuffer :=
  match n with
  | O => Ok b
  | S n' =>
      targetBuffer ← getBufferForChannel b i;
      copied ← memcpy targetBuffer monoBuffer (bufferSize b);
      copy_mono n' (i + 1) monoBuffer
                (set_buffers b (<[Z.to_nat i := copied]> (_buffers b)))
  end.

Definition applyMonoSource (b : AudioBuffer) : Res AudioBuffer :=
  if amountOfChannels b =? 1 then Ok b
  else
    monoBuffer ← getBufferForChannel b 0;
    copy_mono (Z.to_nat (amountOfChannels b - 1)) 1 monoBuffer b.

(** [AudioBuffer::clone]: the loop that copies the channels of [b] into
    the new buffer [output]. *)
Fixpoint clone_channels (n : nat) (i : Z) (b output : AudioBuffer) : Res AudioBuffer :=
  match n with
  | O => Ok output
  | S n' =>
      sourceBuffer ← getBufferForChannel b i;
      targetBuffer ← getBufferForChannel output i;
      copied ← memcpy targetBuffer sourceBuffer (bufferSize b);
      clone_channels n' (i + 1) b
                     (set_buffers output (<[Z.to_nat i := copied]> (_buffers output)))
  end.

(** [this->clone()] on the heap: the new object is placed at an address
    not in use, which is returned. *)
Definition clone (this : nat) (h : gmap nat AudioBuffer) : Res (nat * gmap nat AudioBuffer) :=
  b ← lift (h !! this);
  output ← AudioBuffer_new (amountOfChannels b) (bufferSize b);
  output ← clone_channels (Z.to_nat (amountOfChannels b)) 0 b output;
  let p := fresh (dom h) in
  Ok (p, <[p := output]> h).
(** *** The mix of a source that loops *)

(** The channel [t] after [k] samples of a loopable source [s], read from
    [ro], were mixed into it from [wo] on: first the samples up to the end
    of the source, then the samples from index 0 on. *)
Definition mixed_looped (t s : list SAMPLE_TYPE) (wo ro k : nat) (vol : SAMPLE_TYPE)
  : list SAMPLE_TYPE :=
  let first := Nat.min k (length s - ro) in
  mixed (mixed t s wo ro first vol) s (wo + first) 0 (k - first) vol.

(** The channels of a target after the channels it has in common with the
    source, those below [c], went through [f]. *)
Definition merged_upto (f : list SAMPLE_TYPE → list SAMPLE_TYPE → list SAMPLE_TYPE)
           (c : nat) (ts ss : list (list SAMPLE_TYPE)) : list (list SAMPLE_TYPE) :=
  imap (λ j t, if bool_decide (j < c)%nat
               then match ss !! j with
                    | Some s => f t s
                    | None => t
                    end
               else t) ts.
End AudioBuffer.

(** ** RingBuffer *)

Section RingBuffer.
Context {FO : FloatOps}.

(** Modelled from the spec: the RingBuffer class (ringbuffer.cpp, not among
    the sources) is a FIFO queue of fixed capacity; [enqueue] pushes and
    evicts the oldest element at capacity, [dequeue] pops the oldest,
    [peek] reads the oldest without removing it, [flush] empties the queue
    and keeps the capacity.  Reading an empty queue yields silence. *)
Record RingBuffer := mkRingBuffer {
  capacity : Z;
  queue : list SAMPLE_TYPE;
}.

Definition RingBuffer_new (aCapacity : Z) : RingBuffer :=
  {| capacity := aCapacity; queue := [] |}.

Definition enqueue (v : SAMPLE_TYPE) (rb : RingBuffer) : RingBuffer :=
  {| capacity := capacity rb;
     queue := if capacity rb <=? Z.of_nat (length (queue rb))
              then tail (queue rb) ++ [v]
              else queue rb ++ [v] |}.

Definition peek (rb : RingBuffer) : SAMPLE_TYPE :=
  default (dec 0 1) (head (queue rb)).

Definition dequeue (rb : RingBuffer) : SAMPLE_TYPE * RingBuffer :=
  (peek rb, {| capacity := capacity rb; queue := tail (queue rb) |}).

Definition flush (rb : RingBuffer) : RingBuffer :=
  {| capacity := capacity rb; queue := [] |}.
End RingBuffer.

(** ** The event classes *)

Inductive WaveForms :=
| SINE_WAVE | SAWTOOTH | SQUARE_WAVE | TRIANGLE | PWM | NOISE | KARPLUS_STRONG.

(** The fields of the base classes that synthevent.cpp reads and writes
    (baseaudioevent.h and basecacheableaudioevent.h are not among the
    sources; the grouping follows the class names). *)
Record BaseAudioEvent := mkBaseAudioEvent {
  _buffer : option nat;
  _sampleStart : Z;
  _sampleEnd : Z;
  _sampleLength : Z;
  _locked : bool;
  _updateAfterUnlock : bool;
  _deleteMe : bool;
}.

Record BaseCacheableAudioEvent := mkBaseCacheableAudioEvent {
  _cancel : bool;
  _caching : bool;
  _cachingCompleted : bool;
  _autoCache : bool;
  _bulkCacheable : bool;
  _cacheWriteIndex : Z;
}.

(** Field updates. *)
Definition set_buffer (v : option nat) (b : BaseAudioEvent) : BaseAudioEvent :=
  {|
     _buffer := v;
     _sampleStart := _sampleStart b;
     _sampleEnd := _sampleEnd b;
     _sampleLength := _sampleLength b;
     _locked := _locked b;
     _updateAfterUnlock := _updateAfterUnlock b;
     _deleteMe := _deleteMe b |}.

Definition set_sampleStart (v : Z) (b : BaseAudioEvent) : BaseAudioEvent :=
  {|
     _buffer := _buffer b;
     _sampleStart := v;
     _sampleEnd := _sampleEnd b;
     _sampleLength := _sampleLength b;
     _locked := _locked b;
     _updateAfterUnlock := _updateAfterUnlock b;
     _deleteMe := _deleteMe b |}.

Definition set_sampleEnd (v : Z) (b : BaseAudioEvent) : BaseAudioEvent :=
  {|
     _buffer := _buffer b;
     _sampleStart := _sampleStart b;
     _sampleEnd := v;
     _sampleLength := _sampleLength b;
     _locked := _locked b;
     _updateAfterUnlock := _updateAfterUnlock b;
     _deleteMe := _deleteMe b |}.

Definition set_sampleLength (v : Z) (b : BaseAudioEvent) : BaseAudioEvent :=
  {|
     _buffer := _buffer b;
     _sampleStart := _sampleStart b;
     _sampleEnd := _sampleEnd b;
     _sampleLength := v;
     _locked := _locked b;
     _updateAfterUnlock := _updateAfterUnlock b;
     _deleteMe := _deleteMe b |}.

Definition set_locked (v : bool) (b : BaseAudioEvent) : BaseAudioEvent :=
  {|
     _buffer := _buffer b;
     _sampleStart := _sampleStart b;
     _sampleEnd := _sampleEnd b;
     _sampleLength := _sampleLength b;
     _locked := v;
     _updateAfterUnlock := _updateAfterUnlock b;
     _deleteMe := _deleteMe b |}.

Definition set_updateAfterUnlock (v : bool) (b : BaseAudioEvent) : BaseAudioEvent :=
  {|
     _buffer := _buffer b;
     _sampleStart := _sampleStart b;
     _sampleEnd := _sampleEnd b;
     _sampleLength := _sampleLength b;
     _locked := _locked b;
     _updateAfterUnlock := v;
     _deleteMe := _deleteMe b |}.

Definition set_deleteMe (v : bool) (b : BaseAudioEvent) : BaseAudioEvent :=
  {|
     _buffer := _buffer b;
     _sampleStart := _sampleStart b;
     _sampleEnd := _sampleEnd b;
     _sampleLength := _sampleLength b;
     _locked := _locked b;
     _updateAfterUnlock := _updateAfterUnlock b;
     _deleteMe := v |}.

Definition set_cancel (v : bool) (b : BaseCacheableAudioEvent) : BaseCacheableAudioEvent :=
  {|
     _cancel := v;
     _caching := _caching b;
     _cachingCompleted := _cachingCompleted b;
     _autoCache := _autoCache b;
     _bulkCacheable := _bulkCacheable b;
     _cacheWriteIndex := _cacheWriteIndex b |}.

Definition set_caching (v : bool) (b : BaseCacheableAudioEvent) : BaseCacheableAudioEvent :=
  {|
     _cancel := _cancel b;
     _caching := v;
     _cachingCompleted := _cachingCompleted b;
     _autoCache := _autoCache b;
     _bulkCacheable := _bulkCacheable b;
     _cacheWriteIndex := _cacheWriteIndex b |}.

Definition set_cachingCompleted (v : bool) (b : BaseCacheableAudioEvent) : BaseCacheableAudioEvent :=
  {|
     _cancel := _cancel b;
     _caching := _caching b;
     _cachingCompleted := v;
     _autoCache := _autoCache b;
     _bulkCacheable := _bulkCacheable b;
     _cacheWriteIndex := _cacheWriteIndex b |}.

Definition set_autoCache (v : bool) (b : BaseCacheableAudioEvent) : BaseCacheableAudioEvent :=
  {|
     _cancel := _cancel b;
     _caching := _caching b;
     _cachingCompleted := _cachingCompleted b;
     _autoCache := v;
     _bulkCacheable := _bulkCacheable b;
     _cacheWriteIndex := _cacheWriteIndex b |}.

Definition set_cacheWriteIndex (v : Z) (b : BaseCacheableAudioEvent) : BaseCacheableAudioEvent :=
  {|
     _cancel := _cancel b;
     _caching := _caching b;
     _cachingCompleted := _cachingCompleted b;
     _autoCache := _autoCache b;
     _bulkCacheable := _bulkCacheable b;
     _cacheWriteIndex := v |}.

(** The collaborators of the event: envelope, arpeggiator, the random source
    of utils.h, and the cache reset of the base class. *)
Class Collaborators {FO : FloatOps} := {
  ADSR : Type;
  (** [adsr->setBufferLength( length )] *)
  ADSR_setBufferLength : Z → ADSR → ADSR;
  (** [adsr->apply( buffer, writeOffset )] on the buffer object *)
  ADSR_apply : ADSR → Z → AudioBuffer → ADSR * AudioBuffer;
  ADSR_clone : ADSR → ADSR;
  (** [adsr->cloneEnvelopes( source )] *)
  ADSR_cloneEnvelopes : ADSR → ADSR → ADSR;
  ADSR_getDecay : ADSR → SAMPLE_TYPE;
  ADSR_setDecay : SAMPLE_TYPE → ADSR → ADSR;
  Arpeggiator : Type;
  Arpeggiator_clone : Arpeggiator → Arpeggiator;
  Arpeggiator_peek : Arpeggiator → bool * Arpeggiator;
  Arpeggiator_getStep : Arpeggiator → Z;
  Arpeggiator_getPitchForStep : Arpeggiator → Z → SAMPLE_TYPE → SAMPLE_TYPE;
  RandomState : Type;
  randomFloat : RandomState → SAMPLE_TYPE * RandomState;
  (** [BaseCacheableAudioEvent::resetCache] and [::setAutoCache( value )] *)
  BaseCacheableAudioEvent_resetCache : BaseCacheableAudioEvent → BaseCacheableAudioEvent;
  BaseCacheableAudioEvent_setAutoCache :
    bool → BaseCacheableAudioEvent → BaseCacheableAudioEvent;
}.

(** The constants of AudioEngineProps and of global.h. *)
Class EngineProps {FO : FloatOps} := {
  EVENT_CACHING : bool;
  BUFFER_SIZE : Z;
  SAMPLE_RATE : Z;
  OUTPUT_CHANNELS : Z;
  MAX_PHASE : SAMPLE_TYPE;
  PI : SAMPLE_TYPE;
  TWO_PI : SAMPLE_TYPE;
}.

Section SynthEvent.
Context {FO : FloatOps} {CO : Collaborators} {EP : EngineProps}.

Inductive SynthEvent := mkSynthEvent {
  base : BaseAudioEvent;
  cacheable : BaseCacheableAudioEvent;
  position : Z;
  (** the field [length] of the source *)
  length_ : SAMPLE_TYPE;
  isSequenced : bool;
  hasParent : bool;
  _type : WaveForms;
  _frequency : SAMPLE_TYPE;
  _baseFrequency : SAMPLE_TYPE;
  _phase : SAMPLE_TYPE;
  _phaseIncr : SAMPLE_TYPE;
  _volume : SAMPLE_TYPE;
  _pwmValue : SAMPLE_TYPE;
  TWO_PI_OVER_SR : SAMPLE_TYPE;
  pwr : SAMPLE_TYPE;
  pwAmp : SAMPLE_TYPE;
  EnergyDecayFactor : SAMPLE_TYPE;
  _minLength : Z;
  _hasMinLength : bool;
  _queuedForDeletion : bool;
  _ringBuffer : option RingBuffer;
  _ringBufferSize : Z;
  _arpeggiator : option Arpeggiator;
  _adsr : ADSR;
  _osc2 : option SynthEvent;
}.

(** Field updates. *)
Definition set_base (v : BaseAudioEvent) (e : SynthEvent) : SynthEvent :=
  {|
     base := v;
     cacheable := cacheable e;
     position := position e;
     length_ := length_ e;
     isSequenced := isSequenced e;
     hasParent := hasParent e;
     _type := _type e;
     _frequency := _frequency e;
     _baseFrequency := _baseFrequency e;
     _phase := _phase e;
     _phaseIncr := _phaseIncr e;
     _volume := _volume e;
     _pwmValue := _pwmValue e;
     TWO_PI_OVER_SR := TWO_PI_OVER_SR e;
     pwr := pwr e;
     pwAmp := pwAmp e;
     EnergyDecayFactor := EnergyDecayFactor e;
     _minLength := _minLength e;
     _hasMinLength := _hasMinLength e;
     _queuedForDeletion := _queuedForDeletion e;
     _ringBuffer := _ringBuffer e;
     _ringBufferSize := _ringBufferSize e;
     _arpeggiator := _arpeggiator e;
     _adsr := _adsr e;
     _osc2 := _osc2 e |}.

Definition set_cacheable (v : BaseCacheableAudioEvent) (e : SynthEvent) : SynthEvent :=
  {|
     base := base e;
     cacheable := v;
     position := position e;
     length_ := length_ e;
     isSequenced := isSequenced e;
     hasParent := hasParent e;
     _type := _type e;
     _frequency := _frequency e;
     _baseFrequency := _baseFrequency e;
     _phase := _phase e;
     _phaseIncr := _phaseIncr e;
     _volume := _volume e;
     _pwmValue := _pwmValue e;
     TWO_PI_OVER_SR := TWO_PI_OVER_SR e;
     pwr := pwr e;
     pwAmp := pwAmp e;
     EnergyDecayFactor := EnergyDecayFactor e;
     _minLength := _minLength e;
     _hasMinLength := _hasMinLength e;
     _queuedForDeletion := _queuedForDeletion e;
     _ringBuffer := _ringBuffer e;
     _ringBufferSize := _ringBufferSize e;
     _arpeggiator := _arpeggiator e;
     _adsr := _adsr e;
     _osc2 := _osc2 e |}.

Definition set_position (v : Z) (e : SynthEvent) : SynthEvent :=
  {|
     base := base e;
     cacheable := cacheable e;
     position := v;
     length_ := length_ e;
     isSequenced := isSequenced e;
     hasParent := hasParent e;
     _type := _type e;
     _frequency := _frequency e;
     _baseFrequency := _baseFrequency e;
     _phase := _phase e;
     _phaseIncr := _phaseIncr e;
     _volume := _volume e;
     _pwmValue := _pwmValue e;
     TWO_PI_OVER_SR := TWO_PI_OVER_SR e;
     pwr := pwr e;
     pwAmp := pwAmp e;
     EnergyDecayFactor := EnergyDecayFactor e;
     _minLength := _minLength e;
     _hasMinLength := _hasMinLength e;
     _queuedForDeletion := _queuedForDeletion e;
     _ringBuffer := _ringBuffer e;
     _ringBufferSize := _ringBufferSize e;
     _arpeggiator := _arpeggiator e;
     _adsr := _adsr e;
     _osc2 := _osc2 e |}.

Definition set_length_ (v : SAMPLE_TYPE) (e : SynthEvent) : SynthEvent :=
  {|
     base := base e;
     cacheable := cacheable e;
     position := position e;
     length_ := v;
     isSequenced := isSequenced e;
     hasParent := hasParent e;
     _type := _type e;
     _frequency := _frequency e;
     _baseFrequency := _baseFrequency e;
     _phase := _phase e;
     _phaseIncr := _phaseIncr e;
     _volume := _volume e;
     _pwmValue := _pwmValue e;
     TWO_PI_OVER_SR := TWO_PI_OVER_SR e;
     pwr := pwr e;
     pwAmp := pwAmp e;
     EnergyDecayFactor := EnergyDecayFactor e;
     _minLength := _minLength e;
     _hasMinLength := _hasMinLength e;
     _queuedForDeletion := _queuedForDeletion e;
     _ringBuffer := _ringBuffer e;
     _ringBufferSize := _ringBufferSize e;
     _arpeggiator := _arpeggiator e;
     _adsr := _adsr e;
     _osc2 := _osc2 e |}.

Definition set_type (v : WaveForms) (e : SynthEvent) : SynthEvent :=
  {|
     base := base e;
     cacheable := cacheable e;
     position := position e;
     length_ := length_ e;
     isSequenced := isSequenced e;
     hasParent := hasParent e;
     _type := v;
     _frequency := _frequency e;
     _baseFrequency := _baseFrequency e;
     _phase := _phase e;
     _phaseIncr := _phaseIncr e;
     _volume := _volume e;
     _pwmValue := _pwmValue e;
     TWO_PI_OVER_SR := TWO_PI_OVER_SR e;
     pwr := pwr e;
     pwAmp := pwAmp e;
     EnergyDecayFactor := EnergyDecayFactor e;
     _minLength := _minLength e;
     _hasMinLength := _hasMinLength e;
     _queuedForDeletion := _queuedForDeletion e;
     _ringBuffer := _ringBuffer e;
     _ringBufferSize := _ringBufferSize e;
     _arpeggiator := _arpeggiator e;
     _adsr := _adsr e;
     _osc2 := _osc2 e |}.

Definition set_frequency (v : SAMPLE_TYPE) (e : SynthEvent) : SynthEvent :=
  {|
     base := base e;
     cacheable := cacheable e;
     position := position e;
     length_ := length_ e;
     isSequenced := isSequenced e;
     hasParent := hasParent e;
     _type := _type e;
     _frequency := v;
     _baseFrequency := _baseFrequency e;
     _phase := _phase e;
     _phaseIncr := _phaseIncr e;
     _volume := _volume e;
     _pwmValue := _pwmValue e;
     TWO_PI_OVER_SR := TWO_PI_OVER_SR e;
     pwr := pwr e;
     pwAmp := pwAmp e;
     EnergyDecayFactor := EnergyDecayFactor e;
     _minLength := _minLength e;
     _hasMinLength := _hasMinLength e;
     _queuedForDeletion := _queuedForDeletion e;
     _ringBuffer := _ringBuffer e;
     _ringBufferSize := _ringBufferSize e;
     _arpeggiator := _arpeggiator e;
     _adsr := _adsr e;
     _osc2 := _osc2 e |}.

Definition set_baseFrequency (v : SAMPLE_TYPE) (e : SynthEvent) : SynthEvent :=
  {|
     base := base e;
     cacheable := cacheable e;
     position := position e;
     length_ := length_ e;
     isSequenced := isSequenced e;
     hasParent := hasParent e;
     _type := _type e;
     _frequency := _frequency e;
     _baseFrequency := v;
     _phase := _phase e;
     _phaseIncr := _phaseIncr e;
     _volume := _volume e;
     _pwmValue := _pwmValue e;
     TWO_PI_OVER_SR := TWO_PI_OVER_SR e;
     pwr := pwr e;
     pwAmp := pwAmp e;
     EnergyDecayFactor := EnergyDecayFactor e;
     _minLength := _minLength e;
     _hasMinLength := _hasMinLength e;
     _queuedForDeletion := _queuedForDeletion e;
     _ringBuffer := _ringBuffer e;
     _ringBufferSize := _ringBufferSize e;
     _arpeggiator := _arpeggiator e;
     _adsr := _adsr e;
     _osc2 := _osc2 e |}.

Definition set_phase (v : SAMPLE_TYPE) (e : SynthEvent) : SynthEvent :=
  {|
     base := base e;
     cacheable := cacheable e;
     position := position e;
     length_ := length_ e;
     isSequenced := isSequenced e;
     hasParent := hasParent e;
     _type := _type e;
     _frequency := _frequency e;
     _baseFrequency := _baseFrequency e;
     _phase := v;
     _phaseIncr := _phaseIncr e;
     _volume := _volume e;
     _pwmValue := _pwmValue e;
     TWO_PI_OVER_SR := TWO_PI_OVER_SR e;
     pwr := pwr e;
     pwAmp := pwAmp e;
     EnergyDecayFactor := EnergyDecayFactor e;
     _minLength := _minLength e;
     _hasMinLength := _hasMinLength e;
     _queuedForDeletion := _queuedForDeletion e;
     _ringBuffer := _ringBuffer e;
     _ringBufferSize := _ringBufferSize e;
     _arpeggiator := _arpeggiator e;
     _adsr := _adsr e;
     _osc2 := _osc2 e |}.

Definition set_phaseIncr (v : SAMPLE_TYPE) (e : SynthEvent) : SynthEvent :=
  {|
     base := base e;
     cacheable := cacheable e;
     position := position e;
     length_ := length_ e;
     isSequenced := isSequenced e;
     hasParent := hasParent e;
     _type := _type e;
     _frequency := _frequency e;
     _baseFrequency := _baseFrequency e;
     _phase := _phase e;
     _phaseIncr := v;
     _volume := _volume e;
     _pwmValue := _pwmValue e;
     TWO_PI_OVER_SR := TWO_PI_OVER_SR e;
     pwr := pwr e;
     pwAmp := pwAmp e;
     EnergyDecayFactor := EnergyDecayFactor e;
     _minLength := _minLength e;
     _hasMinLength := _hasMinLength e;
     _queuedForDeletion := _queuedForDeletion e;
     _ringBuffer := _ringBuffer e;
     _ringBufferSize := _ringBufferSize e;
     _arpeggiator := _arpeggiator e;
     _adsr := _adsr e;
     _osc2 := _osc2 e |}.

Definition set_pwmValue (v : SAMPLE_TYPE) (e : SynthEvent) : SynthEvent :=
  {|
     base := base e;
     cacheable := cacheable e;
     position := position e;
     length_ := length_ e;
     isSequenced := isSequenced e;
     hasParent := hasParent e;
     _type := _type e;
     _frequency := _frequency e;
     _baseFrequency := _baseFrequency e;
     _phase := _phase e;
     _phaseIncr := _phaseIncr e;
     _volume := _volume e;
     _pwmValue := v;
     TWO_PI_OVER_SR := TWO_PI_OVER_SR e;
     pwr := pwr e;
     pwAmp := pwAmp e;
     EnergyDecayFactor := EnergyDecayFactor e;
     _minLength := _minLength e;
     _hasMinLength := _hasMinLength e;
     _queuedForDeletion := _queuedForDeletion e;
     _ringBuffer := _ringBuffer e;
     _ringBufferSize := _ringBufferSize e;
     _arpeggiator := _arpeggiator e;
     _adsr := _adsr e;
     _osc2 := _osc2 e |}.

Definition set_minLength (v : Z) (e : SynthEvent) : SynthEvent :=
  {|
     base := base e;
     cacheable := cacheable e;
     position := position e;
     length_ := length_ e;
     isSequenced := isSequenced e;
     hasParent := hasParent e;
     _type := _type e;
     _frequency := _frequency e;
     _baseFrequency := _baseFrequency e;
     _phase := _phase e;
     _phaseIncr := _phaseIncr e;
     _volume := _volume e;
     _pwmValue := _pwmValue e;
     TWO_PI_OVER_SR := TWO_PI_OVER_SR e;
     pwr := pwr e;
     pwAmp := pwAmp e;
     EnergyDecayFactor := EnergyDecayFactor e;
     _minLength := v;
     _hasMinLength := _hasMinLength e;
     _queuedForDeletion := _queuedForDeletion e;
     _ringBuffer := _ringBuffer e;
     _ringBufferSize := _ringBufferSize e;
     _arpeggiator := _arpeggiator e;
     _adsr := _adsr e;
     _osc2 := _osc2 e |}.

Definition set_hasMinLength (v : bool) (e : SynthEvent) : SynthEvent :=
  {|
     base := base e;
     cacheable := cacheable e;
     position := position e;
     length_ := length_ e;
     isSequenced := isSequenced e;
     hasParent := hasParent e;
     _type := _type e;
     _frequency := _frequency e;
     _baseFrequency := _baseFrequency e;
     _phase := _phase e;
     _phaseIncr := _phaseIncr e;
     _volume := _volume e;
     _pwmValue := _pwmValue e;
     TWO_PI_OVER_SR := TWO_PI_OVER_SR e;
     pwr := pwr e;
     pwAmp := pwAmp e;
     EnergyDecayFactor := EnergyDecayFactor e;
     _minLength := _minLength e;
     _hasMinLength := v;
     _queuedForDeletion := _queuedForDeletion e;
     _ringBuffer := _ringBuffer e;
     _ringBufferSize := _ringBufferSize e;
     _arpeggiator := _arpeggiator e;
     _adsr := _adsr e;
     _osc2 := _osc2 e |}.

Definition set_queuedForDeletion (v : bool) (e : SynthEvent) : SynthEvent :=
  {|
     base := base e;
     cacheable := cacheable e;
     position := position e;
     length_ := length_ e;
     isSequenced := isSequenced e;
     hasParent := hasParent e;
     _type := _type e;
     _frequency := _frequency e;
     _baseFrequency := _baseFrequency e;
     _phase := _phase e;
     _phaseIncr := _phaseIncr e;
     _volume := _volume e;
     _pwmValue := _pwmValue e;
     TWO_PI_OVER_SR := TWO_PI_OVER_SR e;
     pwr := pwr e;
     pwAmp := pwAmp e;
     EnergyDecayFactor := EnergyDecayFactor e;
     _minLength := _minLength e;
     _hasMinLength := _hasMinLength e;
     _queuedForDeletion := v;
     _ringBuffer := _ringBuffer e;
     _ringBufferSize := _ringBufferSize e;
     _arpeggiator := _arpeggiator e;
     _adsr := _adsr e;
     _osc2 := _osc2 e |}.

Definition set_ringBuffer (v : option RingBuffer) (e : SynthEvent) : SynthEvent :=
  {|
     base := base e;
     cacheable := cacheable e;
     position := position e;
     length_ := length_ e;
     isSequenced := isSequenced e;
     hasParent := hasParent e;
     _type := _type e;
     _frequency := _frequency e;
     _baseFrequency := _baseFrequency e;
     _phase := _phase e;
     _phaseIncr := _phaseIncr e;
     _volume := _volume e;
     _pwmValue := _pwmValue e;
     TWO_PI_OVER_SR := TWO_PI_OVER_SR e;
     pwr := pwr e;
     pwAmp := pwAmp e;
     EnergyDecayFactor := EnergyDecayFactor e;
     _minLength := _minLength e;
     _hasMinLength := _hasMinLength e;
     _queuedForDeletion := _queuedForDeletion e;
     _ringBuffer := v;
     _ringBufferSize := _ringBufferSize e;
     _arpeggiator := _arpeggiator e;
     _adsr := _adsr e;
     _osc2 := _osc2 e |}.

Definition set_ringBufferSize (v : Z) (e : SynthEvent) : SynthEvent :=
  {|
     base := base e;
     cacheable := cacheable e;
     position := position e;
     length_ := length_ e;
     isSequenced := isSequenced e;
     hasParent := hasParent e;
     _type := _type e;
     _frequency := _frequency e;
     _baseFrequency := _baseFrequency e;
     _phase := _phase e;
     _phaseIncr := _phaseIncr e;
     _volume := _volume e;
     _pwmValue := _pwmValue e;
     TWO_PI_OVER_SR := TWO_PI_OVER_SR e;
     pwr := pwr e;
     pwAmp := pwAmp e;
     EnergyDecayFactor := EnergyDecayFactor e;
     _minLength := _minLength e;
     _hasMinLength := _hasMinLength e;
     _queuedForDeletion := _queuedForDeletion e;
     _ringBuffer := _ringBuffer e;
     _ringBufferSize := v;
     _arpeggiator := _arpeggiator e;
     _adsr := _adsr e;
     _osc2 := _osc2 e |}.

Definition set_arpeggiator (v : option Arpeggiator) (e : SynthEvent) : SynthEvent :=
  {|
     base := base e;
     cacheable := cacheable e;
     position := position e;
     length_ := length_ e;
     isSequenced := isSequenced e;
     hasParent := hasParent e;
     _type := _type e;
     _frequency := _frequency e;
     _baseFrequency := _baseFrequency e;
     _phase := _phase e;
     _phaseIncr := _phaseIncr e;
     _volume := _volume e;
     _pwmValue := _pwmValue e;
     TWO_PI_OVER_SR := TWO_PI_OVER_SR e;
     pwr := pwr e;
     pwAmp := pwAmp e;
     EnergyDecayFactor := EnergyDecayFactor e;
     _minLength := _minLength e;
     _hasMinLength := _hasMinLength e;
     _queuedForDeletion := _queuedForDeletion e;
     _ringBuffer := _ringBuffer e;
     _ringBufferSize := _ringBufferSize e;
     _arpeggiator := v;
     _adsr := _adsr e;
     _osc2 := _osc2 e |}.

Definition set_adsr (v : ADSR) (e : SynthEvent) : SynthEvent :=
  {|
     base := base e;
     cacheable := cacheable e;
     position := position e;
     length_ := length_ e;
     isSequenced := isSequenced e;
     hasParent := hasParent e;
     _type := _type e;
     _frequency := _frequency e;
     _baseFrequency := _baseFrequency e;
     _phase := _phase e;
     _phaseIncr := _phaseIncr e;
     _volume := _volume e;
     _pwmValue := _pwmValue e;
     TWO_PI_OVER_SR := TWO_PI_OVER_SR e;
     pwr := pwr e;
     pwAmp := pwAmp e;
     EnergyDecayFactor := EnergyDecayFactor e;
     _minLength := _minLength e;
     _hasMinLength := _hasMinLength e;
     _queuedForDeletion := _queuedForDeletion e;
     _ringBuffer := _ringBuffer e;
     _ringBufferSize := _ringBufferSize e;
     _arpeggiator := _arpeggiator e;
     _adsr := v;
     _osc2 := _osc2 e |}.

Definition set_osc2 (v : option SynthEvent) (e : SynthEvent) : SynthEvent :=
  {|
     base := base e;
     cacheable := cacheable e;
     position := position e;
     length_ := length_ e;
     isSequenced := isSequenced e;
     hasParent := hasParent e;
     _type := _type e;
     _frequency := _frequency e;
     _baseFrequency := _baseFrequency e;
     _phase := _phase e;
     _phaseIncr := _phaseIncr e;
     _volume := _volume e;
     _pwmValue := _pwmValue e;
     TWO_PI_OVER_SR := TWO_PI_OVER_SR e;
     pwr := pwr e;
     pwAmp := pwAmp e;
     EnergyDecayFactor := EnergyDecayFactor e;
     _minLength := _minLength e;
     _hasMinLength := _hasMinLength e;
     _queuedForDeletion := _queuedForDeletion e;
     _ringBuffer := _ringBuffer e;
     _ringBufferSize := _ringBufferSize e;
     _arpeggiator := _arpeggiator e;
     _adsr := _adsr e;
     _osc2 := v |}.

(** The engine state outside the event: the buffers, the random source and
    the sequencer's tick lengths (AudioEngine::bytes_per_tick and
    AudioEngine::bytes_per_bar, which follow the tempo). *)
Record World := mkWorld {
  heap : gmap nat AudioBuffer;
  random : RandomState;
  bytes_per_tick : Z;
  bytes_per_bar : Z;
}.

Definition set_heap (v : gmap nat AudioBuffer) (w : World) : World :=
  {| heap := v;
     random := random w;
     bytes_per_tick := bytes_per_tick w;
     bytes_per_bar := bytes_per_bar w |}.

Definition set_random (v : RandomState) (w : World) : World :=
  {| heap := heap w;
     random := v;
     bytes_per_tick := bytes_per_tick w;
     bytes_per_bar := bytes_per_bar w |}.

Definition upd_base (f : BaseAudioEvent → BaseAudioEvent) (e : SynthEvent) : SynthEvent :=
  set_base (f (base e)) e.

Definition upd_cacheable (f : BaseCacheableAudioEvent → BaseCacheableAudioEvent)
           (e : SynthEvent) : SynthEvent :=
  set_cacheable (f (cacheable e)) e.

(** The cast [( int ) x]: the result is an [int]. *)
Definition cast_int (x : SAMPLE_TYPE) : Z := Int.wrap (to_int x).

(** *** [SynthEvent::initKarplusStrong] *)

(** [for ( int i = 0; i < _ringBufferSize; i++ ) _ringBuffer->enqueue( randomFloat())] *)
Fixpoint fill_with_noise (n : nat) (rb : RingBuffer) (r : RandomState)
  : RingBuffer * RandomState :=
  match n with
  | O => (rb, r)
  | S n' => let '(v, r') := randomFloat r in fill_with_noise n' (enqueue v rb) r'
  end.

Definition initKarplusStrong (e : SynthEvent) (r : RandomState) : SynthEvent * RandomState :=
  let prevRingBufferSize := _ringBufferSize e in
  let e := set_ringBufferSize (cast_int (of_int SAMPLE_RATE / _frequency e)%F) e in
  let newSize := negb (_ringBufferSize e =? prevRingBufferSize) in
  let e := if isSequenced e && (bool_decide (is_Some (_ringBuffer e)) && newSize)
           then set_ringBuffer None e else e in
  let rb := match _ringBuffer e with
            | None => RingBuffer_new (_ringBufferSize e)
            | Some rb => flush rb
            end in
  let '(rb, r) := fill_with_noise (Z.to_nat (_ringBufferSize e)) rb r in
  (set_ringBuffer (Some rb) e, r).

(** *** [SynthEvent::setFrequency( aFrequency, allOscillators, storeAsBaseFrequency )] *)

Fixpoint setFrequency (aFrequency : SAMPLE_TYPE) (allOscillators storeAsBaseFrequency : bool)
         (e : SynthEvent) (r : RandomState) {struct e} : SynthEvent * RandomState :=
  match e with
  | mkSynthEvent _ _ _ _ _ _ _ _ _ _ _ _ _ _ _ _ _ _ _ _ _ _ _ _ osc2 =>
      let currentFreq := _frequency e in
      let e := set_frequency aFrequency e in
      let e := set_phaseIncr (aFrequency / of_int SAMPLE_RATE)%F e in
      let e := if storeAsBaseFrequency then set_baseFrequency aFrequency e else e in
      let '(e, r) := match _type e with
                     | KARPLUS_STRONG => initKarplusStrong e r
                     | _ => (e, r)
                     end in
      match osc2 with
      | Some o =>
          if allOscillators then
            let multiplier := (aFrequency / currentFreq)%F in
            let '(o', r') := setFrequency (_frequency o * multiplier)%F true
                                          storeAsBaseFrequency o r in
            (set_osc2 (Some o') e, r')
          else (e, r)
      | None => (e, r)
      end
  end.

(** *** [SynthEvent::setDeletable] *)

Fixpoint setDeletable (value : bool) (e : SynthEvent) {struct e} : SynthEvent :=
  match e with
  | mkSynthEvent _ _ _ _ _ _ _ _ _ _ _ _ _ _ _ _ _ _ _ _ _ _ _ _ osc2 =>
      let e := if isSequenced e || _hasMinLength e
               then upd_base (set_deleteMe value) e
               else set_queuedForDeletion value e in
      match osc2 with
      | Some o => set_osc2 (Some (setDeletable value o)) e
      | None => e
      end
  end.

(** *** [SynthEvent::resetCache] *)

Fixpoint resetCache (e : SynthEvent) {struct e} : SynthEvent :=
  match e with
  | mkSynthEvent _ _ _ _ _ _ _ _ _ _ _ _ _ _ _ _ _ _ _ _ _ _ _ _ osc2 =>
      let e := upd_cacheable BaseCacheableAudioEvent_resetCache e in
      match osc2 with
      | Some o => set_osc2 (Some (resetCache o)) e
      | None => e
      end
  end.

(** Modelled from the spec: BaseAudioEvent::destroyBuffer (baseaudioevent.cpp,
    not among the sources) releases the buffer the event owns, if any, and
    leaves the event without a buffer. *)
Definition destroyBuffer (e : SynthEvent) (w : World) : SynthEvent * World :=
  match _buffer (base e) with
  | Some p => (upd_base (set_buffer None) e, set_heap (delete p (heap w)) w)
  | None => (e, w)
  end.

(** [new AudioBuffer( channels, size )]: the object is placed at an address
    not in use. *)
Definition new_AudioBuffer (aAmountOfChannels aBufferSize : Z) (w : World) : Res (nat * World) :=
  b ← AudioBuffer_new aAmountOfChannels aBufferSize;
  let p := fresh (dom (heap w)) in
  Ok (p, set_heap (<[p := b]> (heap w)) w).

(** *** [SynthEvent::render]: the synthesis loop *)

(** The amplitude of the parabolic carrier that the sine, triangle and noise
    generators share, before their own scaling: the two branches on
    [_phase < .5]. *)
Definition carrier (scale : SAMPLE_TYPE → SAMPLE_TYPE) (phase : SAMPLE_TYPE) : SAMPLE_TYPE :=
  if (phase <? dec 5 1)%F then
    let tmp := scale (phase * dec 40 1 - dec 10 1)%F in
    (dec 10 1 - tmp * tmp)%F
  else
    let tmp := scale (phase * dec 40 1 - dec 30 1)%F in
    (tmp * tmp - dec 10 1)%F.

(** The [switch ( _type )] of the loop body at index [i]. *)
Definition generate (i : Z) (e : SynthEvent) (r : RandomState)
  : Res (SAMPLE_TYPE * SynthEvent * RandomState) :=
  match _type e with
  | SINE_WAVE =>
      Ok ((carrier id (_phase e) * dec 7 1)%F, e, r)
  | SAWTOOTH =>
      let amp := if (_phase e <? of_int 0)%F
                 then (_phase e - of_int (cast_int (_phase e - of_int 1)))%F
                 else (_phase e - of_int (cast_int (_phase e)))%F in
      Ok (amp, e, r)
  | SQUARE_WAVE =>
      Ok ((carrier (fmul TWO_PI) (_phase e) * dec 1 2)%F, e, r)
  | TRIANGLE =>
      let amp := (carrier id (_phase e) * dec 75 2)%F in
      Ok (if (amp <? of_int 0)%F then fneg amp else amp, e, r)
  | PWM =>
      let e := set_pwmValue (_pwmValue e + of_int 1)%F e in
      let pmv := (of_int i + _pwmValue e)%F in
      let dpw := (fsin (pmv / of_int 18432) * pwr e)%F in
      let amp := if (_phase e <? PI - dpw)%F then pwAmp e else fneg (pwAmp e) in
      let e := set_phase (_phase e + TWO_PI_OVER_SR e * _frequency e)%F e in
      let e := set_phase (if (_phase e >? TWO_PI)%F then (_phase e - TWO_PI)%F else _phase e) e in
      Ok ((amp * of_int 4)%F, e, r)
  | NOISE =>
      let amp := carrier id (_phase e) in
      let '(v, r') := randomFloat r in
      Ok ((amp * v)%F, e, r')
  | KARPLUS_STRONG =>
      rb ← lift (_ringBuffer e);
      (* the operands of [dequeue() + peek()] are evaluated left to right *)
      let '(d, rb) := dequeue rb in
      let rb := enqueue (EnergyDecayFactor e * ((d + peek rb) / of_int 2))%F rb in
      Ok (peek rb, set_ringBuffer (Some rb) e, r)
  end.

(** [for ( int c = 0, ca = aOutputBuffer->amountOfChannels; c < ca; ++c )
       aOutputBuffer->getBufferForChannel( c )[ i ] = v] *)
Fixpoint write_channels (n : nat) (aOutputBuffer : nat) (c i : Z) (v : SAMPLE_TYPE)
         (h : gmap nat AudioBuffer) : Res (gmap nat AudioBuffer) :=
  match n with
  | O => Ok h
  | S n' => h' ← store h aOutputBuffer c i v;
            write_channels n' aOutputBuffer (c + 1) i v h'
  end.

(** One pass of the loop body up to the write: the amplitude of the
    generator, with the event (phase advanced, modules updated) and the
    random source as the pass leaves them. *)
Definition next_amplitude (i : Z) (e : SynthEvent) (r : RandomState)
  : Res (SAMPLE_TYPE * SynthEvent * RandomState) :=
  '(amp, e, r) ← generate i e r;
  (* _phase update operations *)
  let e := match _type e with
           | PWM => e
           | _ => let e := set_phase (_phase e + _phaseIncr e)%F e in
                  if (_phase e >? MAX_PHASE)%F
                  then set_phase (_phase e - MAX_PHASE)%F e else e
           end in
  (* update modules *)
  let '(e, r) := match _arpeggiator e with
                 | Some a =>
                     let '(stepped, a) := Arpeggiator_peek a in
                     let e := set_arpeggiator (Some a) e in
                     if stepped
                     then setFrequency (Arpeggiator_getPitchForStep a (Arpeggiator_getStep a)
                                                                    (_baseFrequency e))
                                       true false e r
                     else (e, r)
                 | None => (e, r)
                 end in
  Ok (amp, e, r).

(** [if ( hasOSC2 ) amp *= .5;] and the value [amp * _volume] that is
    written. *)
Definition voice_sample (hasOSC2 : bool) (amp aVolume : SAMPLE_TYPE) : SAMPLE_TYPE :=
  ((if hasOSC2 then (amp * dec 5 1)%F else amp) * aVolume)%F.

(** The value stored at index [i]. *)
Definition next_sample (hasOSC2 : bool) (i : Z) (e : SynthEvent) (r : RandomState)
  : Res (SAMPLE_TYPE * SynthEvent * RandomState) :=
  '(amp, e, r) ← next_amplitude i e r;
  Ok (voice_sample hasOSC2 amp (_volume e), e, r).

(** One pass of the loop body, up to the test of [_cancel]. *)
Definition render_sample (hasOSC2 : bool) (aOutputBuffer : nat) (i : Z)
           (e : SynthEvent) (w : World) : Res (SynthEvent * World) :=
  '(v, e, r) ← next_sample hasOSC2 i e (random w);
  out ← lift (heap w !! aOutputBuffer);
  h ← write_channels (Z.to_nat (amountOfChannels out)) aOutputBuffer 0 i v (heap w);
  Ok (e, set_heap h (set_random r w)).

(** [for ( i = renderStartOffset; i < renderEndOffset; ++i )], with [n] the
    distance of [i] to [renderEndOffset]; the final [i] is returned: the
    [break] on [_cancel] leaves it at the index just written. *)
Fixpoint render_samples (n : nat) (hasOSC2 : bool) (aOutputBuffer : nat) (i : Z)
         (e : SynthEvent) (w : World) : Res (Z * SynthEvent * World) :=
  match n with
  | O => Ok (i, e, w)
  | S n' =>
      '(e, w) ← render_sample hasOSC2 aOutputBuffer i e w;
      if _cancel (cacheable e) then Ok (i, e, w)
      else render_samples n' hasOSC2 aOutputBuffer (i + 1) e w
  end.

(** The values the loop stores in [n] passes from index [i], when no pass
    is cut short. *)
Fixpoint sample_values (n : nat) (hasOSC2 : bool) (i : Z) (e : SynthEvent) (r : RandomState)
  : Res (list SAMPLE_TYPE * SynthEvent * RandomState) :=
  match n with
  | O => Ok ([], e, r)
  | S n' =>
      '(v, e, r) ← next_sample hasOSC2 i e r;
      '(vs, e, r) ← sample_values n' hasOSC2 (i + 1) e r;
      Ok (v :: vs, e, r)
  end.

(** The amplitudes of the generator in [n] passes from index [i]. *)
Fixpoint amplitudes (n : nat) (i : Z) (e : SynthEvent) (r : RandomState)
  : Res (list SAMPLE_TYPE * SynthEvent * RandomState) :=
  match n with
  | O => Ok ([], e, r)
  | S n' =>
      '(a, e, r) ← next_amplitude i e r;
      '(l, e, r) ← amplitudes n' (i + 1) e r;
      Ok (a :: l, e, r)
  end.

(** The number of secondary oscillators below an event. *)
Fixpoint osc_depth (e : SynthEvent) : nat :=
  match e with
  | mkSynthEvent _ _ _ _ _ _ _ _ _ _ _ _ _ _ _ _ _ _ _ _ _ _ _ _ osc2 =>
      match osc2 with
      | Some o => S (osc_depth o)
      | None => O
      end
  end.

(** The plucked-string generator has its ring buffer. *)
Definition ring_ready (e : SynthEvent) : Prop :=
  _type e = KARPLUS_STRONG → is_Some (_ringBuffer e).

(** What the synthesis loop keeps of an event and, below it, of its
    secondary oscillator: the fields of the base classes, the kind of the
    event, the waveform, the volume and the presence of the ring buffer. *)
Fixpoint kept (e e' : SynthEvent) {struct e} : Prop :=
  match e with
  | mkSynthEvent _ _ _ _ _ _ _ _ _ _ _ _ _ _ _ _ _ _ _ _ _ _ _ _ osc2 =>
      base e' = base e ∧ cacheable e' = cacheable e
      ∧ isSequenced e' = isSequenced e ∧ hasParent e' = hasParent e
      ∧ _type e' = _type e ∧ _volume e' = _volume e
      ∧ (ring_ready e → ring_ready e')
      ∧ match osc2 with
        | Some o => ∃ o', _osc2 e' = Some o' ∧ kept o o'
        | None => _osc2 e' = None
        end
  end.

(** The equation of the geometry, in the arithmetic of [int]. *)
Definition geometry_holds (e : SynthEvent) : Prop :=
  Int.sub (_sampleEnd (base e)) (_sampleStart (base e)) = _sampleLength (base e).

(** What a change of the pitch keeps of the event itself: the fields of the
    base classes, the place in the sequencer, the kind of the event and the
    waveform; it adds no secondary oscillator. *)
Definition same_place (e e' : SynthEvent) : Prop :=
  base e' = base e ∧ cacheable e' = cacheable e
  ∧ position e' = position e ∧ length_ e' = length_ e
  ∧ isSequenced e' = isSequenced e ∧ hasParent e' = hasParent e
  ∧ _type e' = _type e
  ∧ (_osc2 e = None → _osc2 e' = None).

(** Every oscillator of the event, the event itself and the secondary
    oscillators below it, has its ring buffer when it is a plucked
    string. *)
Fixpoint all_ready (e : SynthEvent) {struct e} : Prop :=
  match e with
  | mkSynthEvent _ _ _ _ _ _ _ _ _ _ _ _ _ _ _ _ _ _ _ _ _ _ _ _ osc2 =>
      ring_ready e
      ∧ match osc2 with
        | Some o => all_ready o
        | None => True
        end
  end.

(** What the proofs ask of [ADSR::apply] (adsr.cpp is not among the
    sources): the envelope scales the samples where they are, so the
    buffer keeps the constructor's shape, its channel count and its frame
    count. *)
Definition envelope_keeps_shape : Prop :=
  ∀ a i (b : AudioBuffer), wf_buffer b →
    wf_buffer (ADSR_apply a i b).2
    ∧ amountOfChannels (ADSR_apply a i b).2 = amountOfChannels b
    ∧ bufferSize (ADSR_apply a i b).2 = bufferSize b.

(** What the restart of a cache asks of
    [BaseCacheableAudioEvent::resetCache] (basecacheableaudioevent.cpp is
    not among the sources; [calculateBuffers] calls it where it does "as
    cancels might otherwise remain permanent"): the request is cleared and
    the cache is rewound. *)
Definition reset_clears : Prop :=
  ∀ c, _cancel (BaseCacheableAudioEvent_resetCache c) = false
       ∧ _cacheWriteIndex (BaseCacheableAudioEvent_resetCache c) = 0.

(** The call of [render] that [doCache] makes when the engine caches: a
    sequenced event that is no secondary oscillator and has none is
    rendered into its own buffer, which has a frame for each of its
    samples, from a write index inside it; and the cache that a restart
    allocates, for the length of the event at the present tempo, has a
    size that the constructor of the buffer accepts. *)
Record cached_render (e : SynthEvent) (p : nat) (w : World) (out : AudioBuffer) : Prop := {
  cr_sequenced : isSequenced e = true;
  cr_parent : hasParent e = false;
  cr_osc2 : _osc2 e = None;
  cr_buffer : _buffer (base e) = Some p;
  cr_frames : bufferSize out = _sampleLength (base e);
  cr_index : 0 ≤ _cacheWriteIndex (cacheable e) ≤ _sampleLength (base e);
  cr_channels : 1 ≤ OUTPUT_CHANNELS ≤ Int.INT_MAX;
  cr_length : 0 ≤ cast_int (length_ e * of_int (bytes_per_tick w))%F;
  cr_bytes : 4 * (OUTPUT_CHANNELS * cast_int (length_ e * of_int (bytes_per_tick w))%F)
             ≤ Int.INT_MAX;
}.

(** [aOutputBuffer->silenceBuffers()] on the buffer object at an address. *)
Definition silence_at (p : nat) (w : World) : Res World :=
  b ← lift (heap w !! p);
  b' ← silenceBuffers b;
  Ok (set_heap (<[p := b']> (heap w)) w).

(** The clipping of the render window: start and end of the loop, the
    largest sample index of the event, and whether the window was clipped. *)
Definition renderStartOffset (e : SynthEvent) : Z :=
  if EVENT_CACHING && isSequenced e then _cacheWriteIndex (cacheable e) else 0.

Definition maxSampleIndex (e : SynthEvent) : Z :=
  Int.sub (_sampleLength (base e)) 1.

Definition clipped (e : SynthEvent) (bufferLength : Z) : bool :=
  maxSampleIndex e <? Int.add (renderStartOffset e) bufferLength.

Definition renderEndOffset (e : SynthEvent) (bufferLength : Z) : Z :=
  if clipped e bufferLength then maxSampleIndex e
  else Int.add (renderStartOffset e) bufferLength.

(** The first part of [render]: the clipping with its silencing, and the
    synthesis loop. *)
Definition render_loop (e : SynthEvent) (aOutputBuffer : nat) (w : World)
  : Res (Z * SynthEvent * World) :=
  out ← lift (heap w !! aOutputBuffer);
  let bufferLength := bufferSize out in
  w ← (if clipped e bufferLength then silence_at aOutputBuffer w else Ok w);
  render_samples (Z.to_nat (renderEndOffset e bufferLength - renderStartOffset e))
                 (bool_decide (is_Some (_osc2 e))) aOutputBuffer
                 (renderStartOffset e) e w.

(** *** [calculateBuffers], [cache], [doCache] and [render]

    [render] restarts the geometry through [calculateBuffers], which caches
    through [render]; the functions are written over the recursive call
    [render_rec] and tied together by [render] below. *)
Section Recursion.
Variable render_rec : SynthEvent → nat → World → Res (SynthEvent * World).

(** [SynthEvent::doCache]: [render( _buffer )] *)
Definition doCache_with (e : SynthEvent) (w : World) : Res (SynthEvent * World) :=
  p ← lift (_buffer (base e));
  render_rec e p w.

(** [SynthEvent::cache( doCallback )] with [doCallback] false, the only
    value this file passes. *)
Definition cache_with (e : SynthEvent) (w : World) : Res (SynthEvent * World) :=
  match _buffer (base e) with
  | None => Ok (e, w)
  | Some _ => doCache_with (upd_cacheable (set_caching true) e) w
  end.

Definition calculateBuffers_with (e : SynthEvent) (w : World) : Res (SynthEvent * World) :=
  if _locked (base e) then Ok (upd_base (set_updateAfterUnlock true) e, w)
  else
    let '(e, oldLength) :=
      if isSequenced e then
        let e := if _caching (cacheable e) then upd_cacheable (set_cancel true) e else e in
        let oldLength := _sampleLength (base e) in
        let e := upd_base (set_sampleLength
                             (cast_int (length_ e * of_int (bytes_per_tick w))%F)) e in
        let e := upd_base (set_sampleStart (Int.mul (position e) (bytes_per_tick w))) e in
        let e := upd_base (set_sampleEnd
                             (Int.add (_sampleStart (base e)) (_sampleLength (base e)))) e in
        (e, oldLength)
      else
        let e := set_minLength (Z.quot (bytes_per_bar w) 32) e in
        let e := upd_base (set_sampleLength (bytes_per_bar w)) e in
        let e := set_hasMinLength false e in
        (e, BUFFER_SIZE) in
    let e := set_adsr (ADSR_setBufferLength (_sampleLength (base e)) (_adsr e)) e in
    '(e, w) ←
      (if negb (_sampleLength (base e) =? oldLength)
          || negb (bool_decide (is_Some (_buffer (base e))))
       then
         let '(e, w) := destroyBuffer e w in
         if hasParent e then Ok (e, w)
         else
           '(p, w) ← new_AudioBuffer OUTPUT_CHANNELS
                       (if EVENT_CACHING && isSequenced e
                        then _sampleLength (base e) else BUFFER_SIZE) w;
           Ok (upd_base (set_buffer (Some p)) e, w)
       else Ok (e, w));
    if isSequenced e then
      let '(e, r) := match _type e with
                     | KARPLUS_STRONG => initKarplusStrong e (random w)
                     | _ => (e, random w)
                     end in
      let w := set_random r w in
      if EVENT_CACHING then
        let e := resetCache e in
        if _autoCache (cacheable e) && negb (hasParent e) then
          if negb (_caching (cacheable e)) then cache_with e w
          else Ok (upd_cacheable (set_cancel true) e, w)
        else Ok (e, w)
      else Ok (e, w)
    else Ok (e, w).

(** The secondary oscillator: rendered into a temporary buffer that is
    merged into the output and deleted.  [hasOSC2], [renderStart] and
    [renderEnd] are the locals computed when [render] was entered. *)
Definition render_osc2 (hasOSC2 : bool) (renderStart renderEnd bufferLength : Z)
           (e : SynthEvent) (aOutputBuffer : nat) (w : World)
  : Res (SynthEvent * World) :=
  if hasOSC2 && negb (_cancel (cacheable e)) then
    let tempLength :=
      if EVENT_CACHING && isSequenced e
      then Int.sub renderEnd (_cacheWriteIndex (cacheable e))
      else bufferLength in
    out ← lift (heap w !! aOutputBuffer);
    '(tempBuffer, w) ← new_AudioBuffer (amountOfChannels out) tempLength w;
    o ← lift (_osc2 e);
    '(o, w) ← render_rec o tempBuffer w;
    '(h, _) ← mergeBuffers aOutputBuffer (Some tempBuffer) 0 renderStart
                           MAX_PHASE (heap w);
    Ok (set_osc2 (Some o) e, set_heap (delete tempBuffer h) w)
  else Ok (e, w).

(** [_adsr->apply( aOutputBuffer, _cacheWriteIndex ); _cacheWriteIndex += i] *)
Definition render_envelope (i : Z) (e : SynthEvent) (aOutputBuffer : nat) (w : World)
  : Res (SynthEvent * World) :=
  if hasParent e then Ok (e, w)
  else
    out ← lift (heap w !! aOutputBuffer);
    let '(a, out) := ADSR_apply (_adsr e) (_cacheWriteIndex (cacheable e)) out in
    let e := set_adsr a e in
    let e := upd_cacheable (set_cacheWriteIndex (Int.add (_cacheWriteIndex (cacheable e)) i)) e in
    Ok (e, set_heap (<[aOutputBuffer := out]> (heap w)) w).

(** The end of [render]: the state of the cache, then [_cancel = false]. *)
Definition render_epilogue (i maxIndex : Z) (e : SynthEvent) (w : World)
  : Res (SynthEvent * World) :=
  '(e, w) ←
    (if EVENT_CACHING && isSequenced e then
       let e := upd_cacheable (set_caching false) e in
       if _cancel (cacheable e) then calculateBuffers_with e w
       else
         let e := if i =? maxIndex
                  then upd_cacheable (set_cachingCompleted true) e else e in
         let e := if _bulkCacheable (cacheable e)
                  then upd_cacheable (set_autoCache true) e else e in
         Ok (e, w)
     else Ok (e, w));
  Ok (upd_cacheable (set_cancel false) e, w).

(** The two voices of [render]: the synthesis loop of the event and the
    merge of its secondary oscillator, with the locals that [render]
    computes on entry.  The final loop index is returned with the state. *)
Definition render_voices (e : SynthEvent) (aOutputBuffer : nat) (w : World)
  : Res (Z * SynthEvent * World) :=
  out ← lift (heap w !! aOutputBuffer);
  let bufferLength := bufferSize out in
  let hasOSC2 := bool_decide (is_Some (_osc2 e)) in
  let renderStart := renderStartOffset e in
  let renderEnd := renderEndOffset e bufferLength in
  '(i, e, w) ← render_loop e aOutputBuffer w;
  '(e, w) ← render_osc2 hasOSC2 renderStart renderEnd bufferLength e aOutputBuffer w;
  Ok (i, e, w).

Definition render_with (e : SynthEvent) (aOutputBuffer : nat) (w : World)
  : Res (SynthEvent * World) :=
  let maxIndex := maxSampleIndex e in
  '(i, e, w) ← render_voices e aOutputBuffer w;
  '(e, w) ← render_envelope i e aOutputBuffer w;
  render_epilogue i maxIndex e w.
End Recursion.

(** [SynthEvent::render( aOutputBuffer )]; [fuel] bounds the depth of the
    nested calls of [render]. *)
Fixpoint render (fuel : nat) (e : SynthEvent) (aOutputBuffer : nat) (w : World)
  : Res (SynthEvent * World) :=
  match fuel with
  | O => OutOfFuel
  | S fuel' => render_with (render fuel') e aOutputBuffer w
  end.

Definition calculateBuffers (fuel : nat) : SynthEvent → World → Res (SynthEvent * World) :=
  calculateBuffers_with (render fuel).

Definition cache (fuel : nat) : SynthEvent → World → Res (SynthEvent * World) :=
  cache_with (render fuel).

(** [SynthEvent::unlock] *)
Definition unlock (fuel : nat) (e : SynthEvent) (w : World) : Res (SynthEvent * World) :=
  let e := upd_base (set_locked false) e in
  '(e, w) ← (if _updateAfterUnlock (base e) then calculateBuffers fuel e w else Ok (e, w));
  Ok (upd_base (set_updateAfterUnlock false) e, w).

(** [SynthEvent::getBuffer]: when the engine caches, a cache that is not
    complete is filled first. *)
Definition getBuffer (fuel : nat) (e : SynthEvent) (w : World)
  : Res (option nat * SynthEvent * World) :=
  '(e, w) ← (if EVENT_CACHING && negb (_cachingCompleted (cacheable e))
             then doCache_with (render fuel) e w
             else Ok (e, w));
  Ok (_buffer (base e), e, w).

(** *** Construction and property updates *)

(** The fields of SynthInstrument that the event reads (synthinstrument.h
    is not among the sources; the types follow the use of the fields). *)
Record SynthInstrument := mkSynthInstrument {
  waveform : WaveForms;
  osc2waveform : WaveForms;
  osc2active : bool;
  osc2detune : SAMPLE_TYPE;
  osc2octaveShift : Z;
  osc2fineShift : Z;
  volume : SAMPLE_TYPE;
  adsr : ADSR;
  arpeggiator : Arpeggiator;
  arpeggiatorActive : bool;
}.

(** [SynthEvent::applyModules] *)
Fixpoint applyModules (instrument : SynthInstrument) (e : SynthEvent) (r : RandomState)
         {struct e} : SynthEvent * RandomState :=
  match e with
  | mkSynthEvent _ _ _ _ _ _ _ _ _ _ _ _ _ _ _ _ _ _ _ _ _ _ _ _ osc2 =>
      let OSC2freq := match osc2 with
                      | Some o => _baseFrequency o
                      | None => _baseFrequency e
                      end in
      let e := set_arpeggiator None e in
      let e := if arpeggiatorActive instrument
               then set_arpeggiator (Some (Arpeggiator_clone (arpeggiator instrument))) e
               else e in
      let '(e, r) := match osc2 with
                     | Some o => let '(o', r') := applyModules instrument o r in
                                 (set_osc2 (Some o') e, r')
                     | None => (e, r)
                     end in
      match _arpeggiator e with
      | Some a =>
          setFrequency (Arpeggiator_getPitchForStep a (Arpeggiator_getStep a) (_baseFrequency e))
                       true false e r
      | None =>
          let '(e, r) := setFrequency (_baseFrequency e) false true e r in
          match _osc2 e with
          | Some o => let '(o', r') := setFrequency OSC2freq false true o r in
                      (set_osc2 (Some o') e, r')
          | None => (e, r)
          end
      end
  end.

(** The frequency [createOSC2] gives the secondary oscillator: detune in
    cents, octave shift, fine shift. *)
Definition osc2_frequency (frequency : SAMPLE_TYPE) (instrument : SynthInstrument)
  : SAMPLE_TYPE :=
  let lfo2Tmpfreq := (frequency + frequency / of_int 1200 * osc2detune instrument)%F in
  let lfo2freq :=
    if osc2octaveShift instrument =? 0 then lfo2Tmpfreq
    else if osc2octaveShift instrument <? 0
         then (lfo2Tmpfreq / fabs (of_int (Int.mul (osc2octaveShift instrument) 2)))%F
         else (lfo2Tmpfreq
               + lfo2Tmpfreq * fabs (of_int (Int.mul (osc2octaveShift instrument) 2)
                                     - of_int 1))%F in
  let fineShift := (lfo2Tmpfreq / of_int 12 * of_int (Z.abs (osc2fineShift instrument)))%F in
  if osc2fineShift instrument <? 0 then (lfo2freq - fineShift)%F
  else (lfo2freq + fineShift)%F.

(** The fields [init] assigns before its calls.  [rawBase], [rawCacheable]
    and [rawMinLength] carry what the constructors of the base classes left
    in the fields that [init] does not assign. *)
Definition init_fields (rawBase : BaseAudioEvent) (rawCacheable : BaseCacheableAudioEvent)
           (rawMinLength : Z) (aInstrument : SynthInstrument) (aFrequency : SAMPLE_TYPE)
           (aPosition aLength : Z) (aHasParent aIsSequenced : bool) : SynthEvent :=
  let a := ADSR_clone (adsr aInstrument) in
  {| base := set_sampleLength 0
               (set_deleteMe false (set_locked false (set_buffer None rawBase)));
     cacheable := {| _cancel := false;
                     _caching := false;
                     _cachingCompleted := false;
                     _autoCache := false;
                     _bulkCacheable := _bulkCacheable rawCacheable;
                     _cacheWriteIndex := 0 |};
     position := aPosition;
     length_ := of_int aLength;
     isSequenced := aIsSequenced;
     hasParent := aHasParent;
     _type := waveform aInstrument;
     _frequency := aFrequency;
     _baseFrequency := aFrequency;
     _phase := dec 0 1;
     _phaseIncr := dec 0 1;
     _volume := volume aInstrument;
     _pwmValue := dec 0 1;
     TWO_PI_OVER_SR := (TWO_PI / of_int SAMPLE_RATE)%F;
     pwr := (PI / dec 105 2)%F;
     pwAmp := dec 75 3;
     EnergyDecayFactor := dec 990 3;
     _minLength := rawMinLength;
     _hasMinLength := false;
     _queuedForDeletion := false;
     _ringBuffer := None;
     _ringBufferSize := 0;
     _arpeggiator := None;
     _adsr := if negb aIsSequenced && (ADSR_getDecay a <? dec 75 2)%F
              then ADSR_setDecay (of_int 0) a else a;
     _osc2 := None |}.

Section Construction.
Variable fuel : nat.

(** The constructors [SynthEvent( aFrequency, aInstrument, true )] and
    [SynthEvent( aFrequency, aPosition, aLength, aInstrument, false, true )]
    that [createOSC2] calls; the second takes the length as a [float],
    hands it to [init] as an [int] and sets the automatic caching after
    [init]. *)
Variable new_osc2 : SAMPLE_TYPE → Z → Z → SynthInstrument → bool → World
                    → Res (SynthEvent * World).

(** [SynthEvent::createOSC2( aPosition, aLength, aInstrument )] *)
Definition createOSC2_with (aPosition aLength : Z) (aInstrument : SynthInstrument)
           (e : SynthEvent) (w : World) : Res (SynthEvent * World) :=
  if osc2active aInstrument then
    '(o, w) ← match _osc2 e with
              | Some o => Ok (o, w)
              | None =>
                  if negb (isSequenced e)
                  then new_osc2 (_frequency e) 0 1 aInstrument false w
                  else new_osc2 (_frequency e) aPosition (cast_int (of_int aLength))
                                aInstrument true w
              end;
    let o := set_type (osc2waveform aInstrument) o in
    let o := set_position aPosition o in
    let o := set_length_ (of_int aLength) o in
    let '(o, r) := setFrequency (osc2_frequency (_frequency e) aInstrument)
                                true true o (random w) in
    let o := if _caching (cacheable o) then upd_cacheable (set_cancel true) o else o in
    Ok (set_osc2 (Some o) e, set_random r w)
  else Ok (e, w).

(** [SynthEvent::init]; the registration of the event in the lists of
    the instrument, which only the sequencer reads, is left out. *)
Definition init_with (rawBase : BaseAudioEvent) (rawCacheable : BaseCacheableAudioEvent)
           (rawMinLength : Z) (aInstrument : SynthInstrument) (aFrequency : SAMPLE_TYPE)
           (aPosition aLength : Z) (aHasParent aIsSequenced : bool) (w : World)
  : Res (SynthEvent * World) :=
  let e := init_fields rawBase rawCacheable rawMinLength aInstrument aFrequency
                       aPosition aLength aHasParent aIsSequenced in
  '(e, w) ← (if negb (hasParent e) && osc2active aInstrument
             then createOSC2_with (position e) (cast_int (length_ e)) aInstrument e w
             else Ok (e, w));
  let '(e, r) := setFrequency aFrequency true true e (random w) in
  let e := set_arpeggiator None e in
  let '(e, r) := applyModules aInstrument e r in
  let e := set_hasMinLength (isSequenced e) e in
  calculateBuffers fuel e (set_random r w).

(** [SynthEvent::updateProperties( aPosition, aLength, aInstrument, aState )] *)
Definition updateProperties_with (aPosition : Z) (aLength : SAMPLE_TYPE)
           (aInstrument : SynthInstrument) (aState : Z) (e : SynthEvent) (w : World)
  : Res (SynthEvent * World) :=
  let e := set_type (waveform aInstrument) e in
  let e := set_position aPosition e in
  let e := set_length_ aLength e in
  let e := set_adsr (ADSR_cloneEnvelopes (adsr aInstrument) (_adsr e)) e in
  '(e, w) ← (if osc2active aInstrument
             then createOSC2_with aPosition (cast_int aLength) aInstrument e w
             else Ok (set_osc2 None e, w));
  let '(e, r) := applyModules aInstrument e (random w) in
  let w := set_random r w in
  if _caching (cacheable e) then
    let e := match _osc2 e with
             | Some o => set_osc2 (Some (upd_cacheable (set_cancel true) o)) e
             | None => e
             end in
    Ok (upd_cacheable (set_cancel true) e, w)
  else calculateBuffers fuel e w.
End Construction.

(** The construction of a secondary oscillator: [hasParent] is set, so
    [init] does not reach [createOSC2]. *)
Definition new_osc2 (fuel : nat) (rawBase : BaseAudioEvent)
           (rawCacheable : BaseCacheableAudioEvent) (rawMinLength : Z)
           (aFrequency : SAMPLE_TYPE) (aPosition aLength : Z)
           (aInstrument : SynthInstrument) (sequenced : bool) (w : World)
  : Res (SynthEvent * World) :=
  '(o, w) ← init_with fuel (λ _ _ _ _ _ _, Fault) rawBase rawCacheable rawMinLength
                      aInstrument aFrequency aPosition aLength true sequenced w;
  Ok (if sequenced
      then upd_cacheable (BaseCacheableAudioEvent_setAutoCache false) o else o, w).

Definition createOSC2 (fuel : nat) (rawBase : BaseAudioEvent)
           (rawCacheable : BaseCacheableAudioEvent) (rawMinLength : Z) :=
  createOSC2_with (new_osc2 fuel rawBase rawCacheable rawMinLength).

Definition init (fuel : nat) (rawBase : BaseAudioEvent)
           (rawCacheable : BaseCacheableAudioEvent) (rawMinLength : Z) :=
  init_with fuel (new_osc2 fuel rawBase rawCacheable rawMinLength)
            rawBase rawCacheable rawMinLength.

Definition updateProperties (fuel : nat) (rawBase : BaseAudioEvent)
           (rawCacheable : BaseCacheableAudioEvent) (rawMinLength : Z) :=
  updateProperties_with fuel (new_osc2 fuel rawBase rawCacheable rawMinLength).

(** The constructor of a sequenced event,
    [SynthEvent( aFrequency, aPosition, aLength, aInstrument, aAutoCache )]:
    [init] receives the length as an [int]. *)
Definition new_SynthEvent (fuel : nat) (rawBase : BaseAudioEvent)
           (rawCacheable : BaseCacheableAudioEvent) (rawMinLength : Z)
           (aFrequency : SAMPLE_TYPE) (aPosition : Z) (aLength : SAMPLE_TYPE)
           (aInstrument : SynthInstrument) (aAutoCache : bool) (w : World)
  : Res (SynthEvent * World) :=
  '(e, w) ← init fuel rawBase rawCacheable rawMinLength aInstrument aFrequency
                 aPosition (cast_int aLength) false true w;
  Ok (upd_cacheable (BaseCacheableAudioEvent_setAutoCache aAutoCache) e, w).

(** The constructor of a live event, [SynthEvent( aFrequency, aInstrument )]. *)
Definition new_live_SynthEvent (fuel : nat) (rawBase : BaseAudioEvent)
           (rawCacheable : BaseCacheableAudioEvent) (rawMinLength : Z)
           (aFrequency : SAMPLE_TYPE) (aInstrument : SynthInstrument) (w : World)
  : Res (SynthEvent * World) :=
  init fuel rawBase rawCacheable rawMinLength aInstrument aFrequency 0 1 false false w.

(** *** [SynthEvent::synthesize] *)

(** [for ( int c = 0, nc = _buffer->amountOfChannels; c < nc; ++c )
       _buffer->getBufferForChannel( c )[ i ] *= amp] *)
Fixpoint fade_channels (n : nat) (p : nat) (c i : Z) (amp : SAMPLE_TYPE)
         (h : gmap nat AudioBuffer) : Res (gmap nat AudioBuffer) :=
  match n with
  | O => Ok h
  | S n' => s ← load h p c i;
            h' ← store h p c i (s * amp)%F;
            fade_channels n' p (c + 1) i amp h'
  end.

(** [for ( int i = aBufferLength - amt; i < aBufferLength; ++i )], with [n]
    the distance of [i] to [aBufferLength]. *)
Fixpoint fade_out (n : nat) (buffer : option nat) (i : Z) (amp envIncr : SAMPLE_TYPE)
         (h : gmap nat AudioBuffer) : Res (gmap nat AudioBuffer) :=
  match n with
  | O => Ok h
  | S n' => p ← lift buffer;
            b ← lift (h !! p);
            h' ← fade_channels (Z.to_nat (amountOfChannels b)) p 0 i amp h;
            fade_out n' buffer (i + 1) (amp - envIncr)%F envIncr h'
  end.

(** The gains of the fade, pass by pass: [amp], then [amp - envIncr], ... *)
Fixpoint fade_gains (n : nat) (amp envIncr : SAMPLE_TYPE) : list SAMPLE_TYPE :=
  match n with
  | O => []
  | S n' => amp :: fade_gains n' (amp - envIncr)%F envIncr
  end.

(** The channel [t] with the samples from [first] on scaled by the gains. *)
Definition faded (t : list SAMPLE_TYPE) (first : nat) (gains : list SAMPLE_TYPE)
  : list SAMPLE_TYPE :=
  take first t
  ++ zip_with fmul (take (length gains) (drop first t)) gains
  ++ drop (first + length gains) t.

(** The fade of [synthesize].  [ceil( aBufferLength / 4 )] is applied to
    the quotient of two [int]s, an integer already: [amt] is that quotient. *)
Definition fade (aBufferLength : Z) (e : SynthEvent) (w : World) : Res World :=
  let amt := Z.quot aBufferLength 4 in
  let envIncr := (MAX_PHASE / of_int amt)%F in
  let first := Int.sub aBufferLength amt in
  h ← fade_out (Z.to_nat (aBufferLength - first)) (_buffer (base e)) first
               MAX_PHASE envIncr (heap w);
  Ok (set_heap h w).

(** The first part of [synthesize]: the buffer of the requested length and
    the render into it. *)
Definition synthesize_render (fuel : nat) (aBufferLength : Z) (e : SynthEvent) (w : World)
  : Res (SynthEvent * World) :=
  '(e, w) ←
    (if negb (aBufferLength =? BUFFER_SIZE) then
       let '(e, w) := destroyBuffer e w in
       '(p, w) ← new_AudioBuffer OUTPUT_CHANNELS aBufferLength w;
       Ok (upd_base (set_buffer (Some p)) e, w)
     else Ok (e, w));
  p ← lift (_buffer (base e));
  render fuel e p w.

(** The second part: the count-down of the minimum length, the deletion
    and the fade.  The result is the returned [_buffer], the event and
    the world. *)
Definition synthesize_release (aBufferLength : Z) (e : SynthEvent) (w : World)
  : Res (option nat * SynthEvent * World) :=
  let e := if _queuedForDeletion e && (0 <? _minLength e)
           then set_minLength (Int.sub (_minLength e) aBufferLength) e else e in
  '(e, w) ←
    (if _minLength e <=? 0 then
       let e := set_hasMinLength true e in
       let e := setDeletable (_queuedForDeletion e) e in
       (* event is about to be deleted, apply a tiny fadeout *)
       if _queuedForDeletion e then
         w ← fade aBufferLength e w; Ok (e, w)
       else Ok (e, w)
     else Ok (e, w));
  Ok (_buffer (base e), e, w).

Definition synthesize (fuel : nat) (aBufferLength : Z) (e : SynthEvent) (w : World)
  : Res (option nat * SynthEvent * World) :=
  '(e, w) ← synthesize_render fuel aBufferLength e w;
  synthesize_release aBufferLength e w.

(** *** [SynthEvent::mixBuffer] *)

Section MixBuffer.
(** [BaseAudioEvent::mixBuffer], the mix of the cached buffer. *)
Variable BaseAudioEvent_mixBuffer :
  nat → Z → Z → Z → bool → Z → bool → SynthEvent → World → Res (SynthEvent * World).

(** The test of the streaming branch: does the event sound in the window
    that starts at [bufferPos]? *)
Definition in_window (bufferPos : Z) (e : SynthEvent) : bool :=
  let bufferEndPos := Int.add bufferPos BUFFER_SIZE in
  ((_sampleStart (base e) <=? bufferPos) || (_sampleStart (base e) <? bufferEndPos))
  && (bufferPos <? _sampleEnd (base e)).

(** The streaming branch taken: render the snippet and merge it. *)
Definition mix_snippet (fuel : nat) (outputBuffer : nat) (bufferPos : Z)
           (e : SynthEvent) (w : World) : Res (SynthEvent * World) :=
  let sampleStart := _sampleStart (base e) in
  let e := upd_cacheable
             (set_cacheWriteIndex (if bufferPos <? sampleStart then 0
                                   else Int.sub bufferPos sampleStart)) e in
  let writeOffset := if bufferPos <? sampleStart
                     then Int.sub sampleStart bufferPos else 0 in
  p ← lift (_buffer (base e));
  '(e, w) ← render fuel e p w;
  '(h, _) ← mergeBuffers outputBuffer (_buffer (base e)) 0 writeOffset MAX_PHASE (heap w);
  let w := set_heap h w in
  (* reset of properties at end of write *)
  if _sampleLength (base e) <=? _cacheWriteIndex (cacheable e)
  then calculateBuffers fuel e w
  else Ok (e, w).

Definition mixBuffer (fuel : nat) (outputBuffer : nat)
           (bufferPos minBufferPosition maxBufferPosition : Z)
           (loopStarted : bool) (loopOffset : Z) (useChannelRange : bool)
           (e : SynthEvent) (w : World) : Res (SynthEvent * World) :=
  if EVENT_CACHING then
    BaseAudioEvent_mixBuffer outputBuffer bufferPos minBufferPosition maxBufferPosition
                             loopStarted loopOffset useChannelRange e w
  else if in_window bufferPos e then mix_snippet fuel outputBuffer bufferPos e w
  else Ok (e, w).
End MixBuffer.
End SynthEvent.

(** ** IEEE single precision

    An instance of the floating type, from the Standard Library's
    specification of binary floating point at precision 24 and maximal
    exponent 128. *)

Module Binary32.
Definition prec : Z := 24.
Definition emax : Z := 128.

Definition of_Z (z : Z) : spec_float := binary_normalize prec emax z 0 false.

(** Truncation toward zero; NaN and the infinities, whose conversion is
    undefined, give 0. *)
Definition trunc (x : spec_float) : Z :=
  match x with
  | S754_finite s m e =>
      let a := if 0 <=? e then Z.pos m * 2 ^ e else Z.pos m / 2 ^ (- e) in
      if s then - a else a
  | _ => 0
  end.

(** The decimal constant [m * 10^-d], correctly rounded. *)
Definition decimal (m : Z) (d : nat) : spec_float :=
  SFdiv prec emax (of_Z m) (of_Z (10 ^ Z.of_nat d)).

(** [sin] is not implemented here: the placeholder is the identity, and no
    event of the examples uses the pulse-width generator that calls it. *)
#[global] Instance ops : FloatOps := {|
  SAMPLE_TYPE := spec_float;
  fadd := SFadd prec emax;
  fsub := SFsub prec emax;
  fmul := SFmul prec emax;
  fdiv := SFdiv prec emax;
  fneg := SFopp;
  fabs := SFabs;
  fltb := SFltb;
  of_int := of_Z;
  to_int := trunc;
  dec := decimal;
  fsin := id;
|}.
End Binary32.

(** ** Example collaborators and engines

    An envelope that leaves the buffer as it is, no arpeggiator steps, a
    random source that counts, and a cache reset that rewinds the write
    index; with them an engine that streams and an engine that caches. *)

Module Examples.
Import Binary32.

#[global] Instance plain : Collaborators := {|
  ADSR := unit;
  ADSR_setBufferLength := λ _ a, a;
  ADSR_apply := λ a _ b, (a, b);
  ADSR_clone := id;
  ADSR_cloneEnvelopes := λ _ a, a;
  ADSR_getDecay := λ _, decimal 10 1;
  ADSR_setDecay := λ _ a, a;
  Arpeggiator := unit;
  Arpeggiator_clone := id;
  Arpeggiator_peek := λ a, (false, a);
  Arpeggiator_getStep := λ _, 0;
  Arpeggiator_getPitchForStep := λ _ _ f, f;
  RandomState := Z;
  randomFloat := λ s, (SFdiv prec emax (of_Z (s mod 8)) (of_Z 8), s + 1);
  BaseCacheableAudioEvent_resetCache :=
    λ b, set_cachingCompleted false (set_cacheWriteIndex 0 b);
  BaseCacheableAudioEvent_setAutoCache := set_autoCache;
|}.

Definition zero : spec_float := decimal 0 1.
Definition one : spec_float := decimal 10 1.
Definition two : spec_float := decimal 20 1.

(** A silent target of four samples and a loopable source of two, at the
    addresses 0 and 1. *)
Definition quiet4 : AudioBuffer :=
  {| loopeable := false; amountOfChannels := 1; bufferSize := 4;
     _buffers := [[zero; zero; zero; zero]] |}.

Definition loop2 : AudioBuffer :=
  {| loopeable := true; amountOfChannels := 1; bufferSize := 2;
     _buffers := [[one; two]] |}.

Definition two_buffers : gmap nat AudioBuffer :=
  <[1%nat := loop2]> (<[0%nat := quiet4]> ∅).

(** The target after the source was merged into it once, at offset 0. *)
Definition quiet4_merged : AudioBuffer :=
  {| loopeable := false; amountOfChannels := 1; bufferSize := 4;
     _buffers := [[one; two; zero; zero]] |}.

(** The source alone, and what merging it into itself leaves. *)
Definition loop2_alone : gmap nat AudioBuffer := <[0%nat := loop2]> ∅.

Definition loop2_doubled : AudioBuffer :=
  {| loopeable := true; amountOfChannels := 1; bufferSize := 2;
     _buffers := [[two; decimal 40 1]] |}.

(** What the constructors of the base classes leave in an event, an
    instrument of sawtooth oscillators (the second one detuned by nothing),
    a pitch of an eighth of the sample rate, and a world without buffers
    in which a sequencer step lasts two samples. *)
Definition raw_base : BaseAudioEvent :=
  {| _buffer := None; _sampleStart := 0; _sampleEnd := 0; _sampleLength := 0;
     _locked := false; _updateAfterUnlock := false; _deleteMe := false |}.

Definition raw_cacheable : BaseCacheableAudioEvent :=
  {| _cancel := false; _caching := false; _cachingCompleted := false;
     _autoCache := false; _bulkCacheable := false; _cacheWriteIndex := 0 |}.

Definition saw (withOSC2 : bool) : SynthInstrument :=
  {| waveform := SAWTOOTH; osc2waveform := SAWTOOTH; osc2active := withOSC2;
     osc2detune := zero; osc2octaveShift := 0; osc2fineShift := 0;
     volume := one; adsr := tt; arpeggiator := tt; arpeggiatorActive := false |}.

Definition pitch : spec_float := decimal 55125 1.

Definition no_buffers : World :=
  {| heap := ∅; random := 0; bytes_per_tick := 2; bytes_per_bar := 64 |}.

(** A sawtooth voice as [init] leaves it: phase 0, phase increment 1/8. *)
Definition saw_voice (b : BaseAudioEvent) (sequenced parent : bool) (aPosition : Z)
           (aLength : spec_float) (minLength : Z) (o : option SynthEvent) : SynthEvent :=
  {| base := b;
     cacheable := raw_cacheable;
     position := aPosition;
     length_ := aLength;
     isSequenced := sequenced;
     hasParent := parent;
     _type := SAWTOOTH;
     _frequency := pitch;
     _baseFrequency := pitch;
     _phase := zero;
     _phaseIncr := decimal 125 3;
     _volume := one;
     _pwmValue := zero;
     TWO_PI_OVER_SR := SFdiv prec emax (decimal 628318531 8) (of_Z 44100);
     pwr := SFdiv prec emax (decimal 314159265 8) (decimal 105 2);
     pwAmp := decimal 75 3;
     EnergyDecayFactor := decimal 990 3;
     _minLength := minLength;
     _hasMinLength := sequenced;
     _queuedForDeletion := false;
     _ringBuffer := None;
     _ringBufferSize := 0;
     _arpeggiator := None;
     _adsr := tt;
     _osc2 := o |}.

(** The geometry of a note of three steps at step 1, with or without a
    buffer at address 0. *)
Definition three_steps (b : option nat) : BaseAudioEvent :=
  {| _buffer := b; _sampleStart := 2; _sampleEnd := 8; _sampleLength := 6;
     _locked := false; _updateAfterUnlock := false; _deleteMe := false |}.

(** A sequenced note, alone and with a secondary oscillator. *)
Definition saw_note : SynthEvent :=
  saw_voice (three_steps (Some 0%nat)) true false 1 (of_Z 3) 0 None.

Definition saw_second : SynthEvent :=
  saw_voice (three_steps None) true true 1 (of_Z 3) 0 None.

Definition saw_pair : SynthEvent :=
  saw_voice (three_steps (Some 0%nat)) true false 1 (of_Z 3) 0 (Some saw_second).

(** Silent buffers of two channels. *)
Definition silent_buffer (frames : Z) : AudioBuffer :=
  {| loopeable := false; amountOfChannels := 2; bufferSize := frames;
     _buffers := [generateSilentBuffer frames; generateSilentBuffer frames] |}.

(** The target after the looping source was merged into it from its
    second sample on: the read index wraps after one sample. *)
Definition quiet4_wrapped : AudioBuffer :=
  {| loopeable := false; amountOfChannels := 1; bufferSize := 4;
     _buffers := [[two; one; zero; zero]] |}.

(** A buffer whose two channels differ, the same after [applyMonoSource]
    and after a gain of 2. *)
Definition left_right : AudioBuffer :=
  {| loopeable := true; amountOfChannels := 2; bufferSize := 2;
     _buffers := [[one; two]; [zero; one]] |}.

Definition left_left : AudioBuffer :=
  {| loopeable := true; amountOfChannels := 2; bufferSize := 2;
     _buffers := [[one; two]; [one; two]] |}.

Definition left_right_doubled : AudioBuffer :=
  {| loopeable := true; amountOfChannels := 2; bufferSize := 2;
     _buffers := [[two; decimal 40 1]; [zero; two]] |}.

(** A buffer of two channels with the given samples in each. *)
Definition stereo (samples : list spec_float) : AudioBuffer :=
  {| loopeable := false; amountOfChannels := 2;
     bufferSize := Z.of_nat (length samples);
     _buffers := [samples; samples] |}.

(** The sawtooth of the examples over eight frames. *)
Definition ramp : list spec_float :=
  [zero; decimal 125 3; decimal 25 2; decimal 375 3; decimal 5 1;
   decimal 625 3; decimal 75 2; decimal 875 3].

(** The world with one buffer, at address 0. *)
Definition one_buffer (b : AudioBuffer) : World :=
  {| heap := <[0%nat := b]> ∅; random := 0; bytes_per_tick := 2; bytes_per_bar := 64 |}.

(** The note while it is cached and a cancellation has been requested, as
    [cache] and [updateProperties] leave the flags. *)
Definition saw_note_cancelled : SynthEvent :=
  upd_cacheable (set_cancel true) (upd_cacheable (set_caching true) saw_note).

(** A live note: [init] has given it a minimum length of a 32nd of a bar
    and one bar of samples; [setDeletable( true )] queues it for deletion. *)
Definition live_note : SynthEvent :=
  set_hasMinLength false
    (saw_voice {| _buffer := Some 0%nat; _sampleStart := 0; _sampleEnd := 0;
                  _sampleLength := 64; _locked := false;
                  _updateAfterUnlock := false; _deleteMe := false |}
               false false 0 (of_Z 1) 2 None).

(** A plucked string at 260 Hz that has no ring buffer yet. *)
Definition string_note : SynthEvent :=
  set_frequency (of_Z 260) (set_type KARPLUS_STRONG saw_note).

(** The world of a callback: the buffer of the event at address 0 and an
    output buffer that holds 1.0 in every frame at address 1. *)
Definition callback : World :=
  {| heap := <[1%nat := stereo [one; one; one; one; one; one; one; one]]>
               (<[0%nat := silent_buffer 8]> ∅);
     random := 0; bytes_per_tick := 2; bytes_per_bar := 64 |}.

(** Collaborators as [plain], with a cache reset that also withdraws the
    request to cancel. *)
Definition clearing : Collaborators := {|
  ADSR := unit;
  ADSR_setBufferLength := λ _ a, a;
  ADSR_apply := λ a _ b, (a, b);
  ADSR_clone := id;
  ADSR_cloneEnvelopes := λ _ a, a;
  ADSR_getDecay := λ _, decimal 10 1;
  ADSR_setDecay := λ _ a, a;
  Arpeggiator := unit;
  Arpeggiator_clone := id;
  Arpeggiator_peek := λ a, (false, a);
  Arpeggiator_getStep := λ _, 0;
  Arpeggiator_getPitchForStep := λ _ _ f, f;
  RandomState := Z;
  randomFloat := λ s, (SFdiv prec emax (of_Z (s mod 8)) (of_Z 8), s + 1);
  BaseCacheableAudioEvent_resetCache :=
    λ b, set_cancel false (set_cachingCompleted false (set_cacheWriteIndex 0 b));
  BaseCacheableAudioEvent_setAutoCache := set_autoCache;
|}.

(** The sawtooth note of three steps with these collaborators, while its
    cache of six frames is filled on its own account: two frames are
    written, and a change of the tempo has requested a cancellation. *)
Definition restarting_note : @SynthEvent ops clearing :=
  mkSynthEvent (CO := clearing)
    (three_steps (Some 0%nat))
    {| _cancel := true; _caching := true; _cachingCompleted := false;
       _autoCache := true; _bulkCacheable := false; _cacheWriteIndex := 2 |}
    1 (of_Z 3) true false
    SAWTOOTH pitch pitch (decimal 25 2) (decimal 125 3) one zero
    (SFdiv prec emax (decimal 628318531 8) (of_Z 44100))
    (SFdiv prec emax (decimal 314159265 8) (decimal 105 2))
    (decimal 75 3) (decimal 990 3) 0 true false None 0 None tt None.

(** The world of that note: its cache at address 0, and a sequencer step
    that now lasts four samples. *)
Definition restarting_world : @World ops clearing :=
  mkWorld (CO := clearing) (<[0%nat := silent_buffer 6]> ∅) 0 4 128.

(** The buffer at an address after a call, if the call returned. *)
Definition rendered {A} (p : nat) (r : Res (A * World)) : option AudioBuffer :=
  match r with
  | Ok (_, w) => heap w !! p
  | _ => None
  end.

(** No mix of a cached buffer: the engines of the examples that stream
    never reach [BaseAudioEvent::mixBuffer]. *)
Definition no_base_mix (outputBuffer : nat) (bufferPos minPos maxPos : Z) (loopStarted : bool)
           (loopOffset : Z) (useChannelRange : bool) (e : SynthEvent) (w : World)
  : Res (SynthEvent * World) := Fault.

(** The integer nearest to the quotient [a / b] of positive integers. *)
Definition nearest_quotient (a b : Z) : Z := (2 * a + b) / (2 * b).

Definition streaming : EngineProps := {|
  EVENT_CACHING := false;
  BUFFER_SIZE := 8;
  SAMPLE_RATE := 44100;
  OUTPUT_CHANNELS := 2;
  MAX_PHASE := decimal 10 1;
  PI := decimal 314159265 8;
  TWO_PI := decimal 628318531 8;
|}.

Definition caching : EngineProps := {|
  EVENT_CACHING := true;
  BUFFER_SIZE := 8;
  SAMPLE_RATE := 44100;
  OUTPUT_CHANNELS := 2;
  MAX_PHASE := decimal 10 1;
  PI := decimal 314159265 8;
  TWO_PI := decimal 628318531 8;
|}.
End Examples.

(** ** Proof automation *)

(** The shape of a concrete buffer of one or two channels, by cases on the
    channel index. *)
Ltac wf_example :=
  constructor; cbn;
  [ unfold Int.INT_MAX; lia | lia | reflexivity
  | intros [|[|[|c]]] ch Hc; cbn in Hc; try discriminate; injection Hc as <-; reflexivity
  | unfold Int.INT_MAX; lia ].

(** * Properties *)

(** ** Integers *)

Lemma wrap_fits z : Int.fits z → Int.wrap z = z.
Proof.
  unfold Int.fits, Int.wrap, Int.INT_MIN, Int.INT_MAX. intros Hz.
  rewrite Z.mod_small; lia.
Qed.

Lemma wrap_range z : Int.fits (Int.wrap z).
Proof.
  unfold Int.fits, Int.wrap, Int.INT_MIN, Int.INT_MAX.
  pose proof (Z.mod_pos_bound (z + 2147483648) 4294967296). lia.
Qed.

Lemma wrap_eq_mod a b :
  (a - b) mod 4294967296 = 0 → Int.wrap a = Int.wrap b.
Proof.
  unfold Int.wrap. intros Hab. f_equal.
  apply Z.mod_divide in Hab; [|lia]. destruct Hab as [q Hq].
  replace (a + 2147483648) with (b + 2147483648 + q * 4294967296) by lia.
  apply Z_mod_plus_full.
Qed.

Lemma wrap_congr z : (Int.wrap z - z) mod 4294967296 = 0.
Proof.
  unfold Int.wrap.
  pose proof (Z.div_mod (z + 2147483648) 4294967296 ltac:(lia)) as Hdm.
  replace ((z + 2147483648) mod 4294967296 - 2147483648 - z)
    with (- ((z + 2147483648) / 4294967296) * 4294967296) by lia.
  apply Z_mod_mult.
Qed.

Lemma sub_add_cancel a b : Int.fits b → Int.sub (Int.add a b) a = b.
Proof.
  intros Hb. unfold Int.sub, Int.add.
  rewrite <- (wrap_fits b Hb) at 2. apply wrap_eq_mod.
  replace (Int.wrap (a + b) - a - b) with (Int.wrap (a + b) - (a + b)) by lia.
  apply wrap_congr.
Qed.

Lemma add_fits a b : Int.fits (a + b) → Int.add a b = a + b.
Proof. apply wrap_fits. Qed.

Lemma sub_fits a b : Int.fits (a - b) → Int.sub a b = a - b.
Proof. apply wrap_fits. Qed.

(** ** [AudioBuffer::mergeBuffers]: the mix *)

Section MergeProofs.
Context {FO : FloatOps}.
Implicit Types (h : gmap nat AudioBuffer) (tb sb : AudioBuffer)
         (t s : list SAMPLE_TYPE).

Lemma getBufferForChannel_Ok b c t :
  0 ≤ c → _buffers b !! Z.to_nat c = Some t → getBufferForChannel b c = Ok t.
Proof.
  intros Hc Ht. unfold getBufferForChannel.
  destruct (c <? 0) eqn:E; [apply Z.ltb_lt in E; lia|]. by rewrite Ht.
Qed.

Lemma load_Ok h p b c i t v :
  h !! p = Some b → 0 ≤ c → _buffers b !! Z.to_nat c = Some t →
  0 ≤ i → t !! Z.to_nat i = Some v → load h p c i = Ok v.
Proof.
  intros Hp Hc Ht Hi Hv. unfold load. rewrite Hp. cbn.
  rewrite (getBufferForChannel_Ok _ _ _ Hc Ht). cbn.
  destruct (i <? 0) eqn:E; [apply Z.ltb_lt in E; lia|]. by rewrite Hv.
Qed.

Lemma store_Ok h p b c i t v :
  h !! p = Some b → 0 ≤ c → _buffers b !! Z.to_nat c = Some t →
  0 ≤ i < Z.of_nat (length t) →
  store h p c i v
  = Ok (<[p := set_buffers b (<[Z.to_nat c := <[Z.to_nat i := v]> t]> (_buffers b))]> h).
Proof.
  intros Hp Hc Ht Hi. unfold store. rewrite Hp. cbn.
  rewrite (getBufferForChannel_Ok _ _ _ Hc Ht). cbn.
  destruct (i <? 0) eqn:E; [apply Z.ltb_lt in E; lia|].
  destruct (Z.of_nat (length t) <=? i) eqn:E'; [apply Z.leb_le in E'; lia|]. done.
Qed.

Lemma mixed_step t s i r n vol a b :
  t !! i = Some a → s !! r = Some b →
  mixed (<[i := (a + b * vol)%F]> t) s (S i) (S r) n vol = mixed t s i r (S n) vol.
Proof.
  intros Ha Hb. unfold mixed.
  pose proof (lookup_lt_Some _ _ _ Ha) as Hi.
  rewrite (take_S_r _ _ _ (list_lookup_insert_eq t i _ Hi)).
  rewrite take_insert_ge by lia.
  rewrite !drop_insert_lt by lia.
  rewrite (drop_S t a i Ha), (drop_S s b r Hb). cbn.
  rewrite <- app_assoc. cbn. do 4 f_equal. lia.
Qed.

Lemma mixed_0 t s i r vol : mixed t s i r 0 vol = t.
Proof. unfold mixed. cbn. rewrite Nat.add_0_r. apply take_drop. Qed.

Lemma length_mixed t s i r n vol :
  (i + n ≤ length t)%nat → (r + n ≤ length s)%nat →
  length (mixed t s i r n vol) = length t.
Proof.
  intros Hi Hr. unfold mixed.
  rewrite !length_app, length_zip_with, !length_take, !length_drop. lia.
Qed.

(** The sample loop on distinct buffers, while the source lasts. *)
Lemma merge_samples_distinct this src c sourceLength loops vol n :
  ∀ h tb sb t s i r w,
    this ≠ src →
    h !! this = Some tb → h !! src = Some sb → 0 ≤ c →
    _buffers tb !! Z.to_nat c = Some t → _buffers sb !! Z.to_nat c = Some s →
    0 ≤ i → 0 ≤ r →
    i + Z.of_nat n ≤ Z.of_nat (length t) →
    r + Z.of_nat n ≤ Z.of_nat (length s) →
    sourceLength = Z.of_nat (length s) →
    merge_samples n this src c sourceLength loops vol i r w h
    = Ok (<[this := set_buffers tb
                      (<[Z.to_nat c := mixed t s (Z.to_nat i) (Z.to_nat r) n vol]>
                         (_buffers tb))]> h,
          count_up n w).
Proof.
  induction n as [|n IH]; intros h tb sb t s i r w Hne Ht Hs Hc Htc Hsc Hi Hr Hin Hrn HL.
  - cbn. rewrite mixed_0, list_insert_id by done.
    destruct tb; cbn. unfold set_buffers; cbn. by rewrite insert_id.
  - cbn [merge_samples].
    destruct (sourceLength <=? r) eqn:E; [apply Z.leb_le in E; lia|].
    destruct (lookup_lt_is_Some_2 t (Z.to_nat i) ltac:(lia)) as [a Ha].
    destruct (lookup_lt_is_Some_2 s (Z.to_nat r) ltac:(lia)) as [b Hb].
    rewrite (load_Ok _ _ _ _ _ _ _ Hs Hc Hsc Hr Hb). cbn.
    rewrite (load_Ok _ _ _ _ _ _ _ Ht Hc Htc Hi Ha). cbn.
    rewrite (store_Ok _ _ _ _ _ _ _ Ht Hc Htc) by lia. cbn.
    pose proof (lookup_lt_Some _ _ _ Htc) as Hclt.
    erewrite (IH _ (set_buffers tb _) sb (<[Z.to_nat i := _]> t) s (i + 1) (r + 1)); eauto.
    + rewrite insert_insert_eq. cbn. rewrite list_insert_insert_eq.
      replace (Z.to_nat (i + 1)) with (S (Z.to_nat i)) by lia.
      replace (Z.to_nat (r + 1)) with (S (Z.to_nat r)) by lia.
      by rewrite (mixed_step _ _ _ _ _ _ _ _ Ha Hb).
    + by rewrite lookup_insert_eq.
    + by rewrite lookup_insert_ne.
    + cbn. by rewrite list_lookup_insert_eq.
    + lia.
    + lia.
    + rewrite length_insert. lia.
    + lia.
Qed.

Lemma count_up_fits n w :
  0 ≤ w → w + Z.of_nat n ≤ Int.INT_MAX → count_up n w = w + Z.of_nat n.
Proof.
  revert w. induction n as [|n IH]; intros w Hw Hn; cbn [count_up]; [lia|].
  rewrite add_fits by (unfold Int.fits, Int.INT_MIN; lia).
  rewrite IH; lia.
Qed.

Lemma count_up_add n m w : count_up (n + m) w = count_up m (count_up n w).
Proof. revert w. induction n as [|n IH]; intros w; cbn; [done|apply IH]. Qed.

Lemma mixed_upto_0 ts ss wo ro k vol : mixed_upto 0 ts ss wo ro k vol = ts.
Proof.
  unfold mixed_upto. apply list_eq. intros j. rewrite list_lookup_imap.
  destruct (ts !! j); cbn; [|done]. by rewrite bool_decide_eq_false_2 by lia.
Qed.

Lemma mixed_upto_all c ts ss wo ro k vol :
  (length ts ≤ c ∨ length ss ≤ c)%nat →
  mixed_upto c ts ss wo ro k vol = mixed_buffers ts ss wo ro k vol.
Proof.
  intros Hc. unfold mixed_upto, mixed_buffers. apply list_eq. intros j.
  rewrite !list_lookup_imap. destruct (ts !! j) eqn:Ej; cbn; [|done].
  apply lookup_lt_Some in Ej. case_bool_decide; [done|].
  rewrite (lookup_ge_None_2 ss j) by lia. done.
Qed.

Lemma mixed_upto_S c ts ss wo ro k vol t s :
  ts !! c = Some t → ss !! c = Some s →
  <[c := mixed t s wo ro k vol]> (mixed_upto c ts ss wo ro k vol)
  = mixed_upto (S c) ts ss wo ro k vol.
Proof.
  intros Ht Hs. unfold mixed_upto. apply list_eq. intros j.
  destruct (decide (c = j)) as [<-|Hne].
  - rewrite list_lookup_insert_eq by (rewrite length_imap; by eapply lookup_lt_Some).
    rewrite list_lookup_imap, Ht. cbn. rewrite bool_decide_eq_true_2 by lia. by rewrite Hs.
  - rewrite list_lookup_insert_ne by done. rewrite !list_lookup_imap.
    destruct (ts !! j); cbn; [|done].
    repeat case_bool_decide; try done; lia.
Qed.

Lemma mixed_upto_lookup_ge c ts ss wo ro k vol j :
  (c ≤ j)%nat → mixed_upto c ts ss wo ro k vol !! j = ts !! j.
Proof.
  intros Hj. unfold mixed_upto. rewrite list_lookup_imap.
  destruct (ts !! j); cbn; [|done]. by rewrite bool_decide_eq_false_2 by lia.
Qed.

(** The channel loop on distinct buffers of the constructor's shape, while
    the source lasts. *)
Lemma merge_channels_distinct this src sb tb loops vol ro wo maxWriteOffset k n :
  ∀ c w h,
    this ≠ src →
    h !! src = Some sb →
    h !! this = Some (set_buffers tb (mixed_upto (Z.to_nat c) (_buffers tb) (_buffers sb)
                                                 (Z.to_nat wo) (Z.to_nat ro) k vol)) →
    (∀ j t, _buffers tb !! j = Some t → Z.of_nat (length t) = bufferSize tb) →
    (∀ j s, _buffers sb !! j = Some s → Z.of_nat (length s) = bufferSize sb) →
    0 ≤ c → c ≤ Z.of_nat (length (_buffers sb)) →
    c + Z.of_nat n = Z.of_nat (length (_buffers tb)) →
    0 ≤ wo → 0 ≤ ro →
    k = Z.to_nat (maxWriteOffset - wo) →
    wo + Z.of_nat k ≤ bufferSize tb →
    ro + Z.of_nat k ≤ bufferSize sb →
    let cc := Z.min (Z.of_nat (length (_buffers tb))) (Z.of_nat (length (_buffers sb))) in
    merge_channels n this src (Z.of_nat (length (_buffers sb)) - 1) (bufferSize sb) loops
                   ro wo maxWriteOffset vol c w h
    = Ok (<[this := set_buffers tb (mixed_buffers (_buffers tb) (_buffers sb)
                                                  (Z.to_nat wo) (Z.to_nat ro) k vol)]> h,
          count_up (Z.to_nat (cc - c) * k) w, cc).
Proof.
  induction n as [|n IH];
    intros c w h Hne Hs Ht HLt HLs Hc Hcs Hcn Hwo Hro Hk Hwk Hrk cc.
  - cbn. replace (Z.to_nat (cc - c)) with 0%nat by lia. cbn.
    rewrite mixed_upto_all in Ht by lia. rewrite insert_id by done.
    do 3 f_equal. lia.
  - cbn [merge_channels].
    destruct (Z.of_nat (length (_buffers sb)) - 1 <? c) eqn:E.
    + apply Z.ltb_lt in E.
      replace (Z.to_nat (cc - c)) with 0%nat by lia. cbn.
      rewrite mixed_upto_all in Ht by lia. rewrite insert_id by done.
      do 3 f_equal. lia.
    + apply Z.ltb_ge in E.
      destruct (lookup_lt_is_Some_2 (_buffers sb) (Z.to_nat c) ltac:(lia)) as [s Hsc].
      destruct (lookup_lt_is_Some_2 (_buffers tb) (Z.to_nat c) ltac:(lia)) as [t Htc].
      rewrite Hs. cbn. rewrite (getBufferForChannel_Ok _ _ _ Hc Hsc). cbn.
      rewrite Ht. cbn.
      assert (Htc' : _buffers (set_buffers tb (mixed_upto (Z.to_nat c) (_buffers tb)
                         (_buffers sb) (Z.to_nat wo) (Z.to_nat ro) k vol)) !! Z.to_nat c
                     = Some t).
      { cbn. by rewrite mixed_upto_lookup_ge. }
      rewrite (getBufferForChannel_Ok _ _ _ Hc Htc'). cbn.
      pose proof (HLt _ _ Htc) as HLt'. pose proof (HLs _ _ Hsc) as HLs'.
      erewrite (merge_samples_distinct this src (c) (bufferSize sb) loops vol _ h _ sb t s);
        eauto; try lia.
      cbn. rewrite <- Hk.
      rewrite mixed_upto_S by done.
      erewrite IH; eauto; try lia.
      * rewrite insert_insert_eq. do 2 f_equal.
        replace (Z.to_nat (cc - c)) with (S (Z.to_nat (cc - (c + 1)))) by lia.
        cbn. rewrite count_up_add. done.
      * by rewrite lookup_insert_ne.
      * rewrite lookup_insert_eq. do 3 f_equal. lia.
Qed.
End MergeProofs.

(** ** [AudioBuffer::mergeBuffers]: what a call leaves alone *)

Section MergeFrame.
Context {FO : FloatOps}.
Implicit Types (h : gmap nat AudioBuffer) (tb sb : AudioBuffer)
         (t s : list SAMPLE_TYPE).

Lemma has_channel_replace h this tb c t t1 p c' len :
  h !! this = Some tb → _buffers tb !! c = Some t → length t1 = length t →
  has_channel h p c' len →
  has_channel (<[this := set_buffers tb (<[c := t1]> (_buffers tb))]> h) p c' len.
Proof.
  intros Ht Htc Hlen1 (b & t' & Hb & Hc' & Hlen).
  destruct (decide (this = p)) as [<-|Hne].
  - rewrite Ht in Hb. injection Hb as <-.
    destruct (decide (c = Z.to_nat c')) as [Heq|Hneq].
    + rewrite <- Heq in Hc'. rewrite Htc in Hc'. injection Hc' as <-.
      eexists _, _. rewrite lookup_insert_eq. split; [done|]. cbn.
      rewrite <- Heq, list_lookup_insert_eq by (by eapply lookup_lt_Some).
      split; [done|]. by rewrite Hlen1.
    + eexists _, _. rewrite lookup_insert_eq. split; [done|]. cbn.
      rewrite list_lookup_insert_ne by done. done.
  - eexists _, _. rewrite lookup_insert_ne by done. done.
Qed.

(** The sample loop in general: it returns, counts its passes, and changes
    nothing but the samples [i .. i + k - 1] of the channel [c] of the
    target. *)
Lemma merge_samples_frame this src c M loops vol n :
  ∀ h tb t i r w,
    h !! this = Some tb → 0 ≤ c → _buffers tb !! Z.to_nat c = Some t →
    has_channel h src c M →
    0 ≤ i → 0 ≤ r → i + Z.of_nat n ≤ Z.of_nat (length t) →
    (loops = true → (0 < n)%nat → 0 < M) →
    let k := merge_count loops M r n in
    ∃ t', merge_samples n this src c M loops vol i r w h
          = Ok (<[this := set_buffers tb (<[Z.to_nat c := t']> (_buffers tb))]> h,
                count_up k w)
          ∧ length t' = length t
          ∧ ∀ j, (j < Z.to_nat i ∨ Z.to_nat i + k ≤ j)%nat → t' !! j = t !! j.
Proof.
  induction n as [|n IH]; intros h tb t i r w Ht Hc Htc Hsrc Hi Hr Hin HM k.
  - exists t. subst k. unfold merge_count. cbn.
    replace (if loops then 0%nat else 0%nat) with 0%nat by (by destruct loops). cbn.
    rewrite list_insert_id by done.
    destruct tb; unfold set_buffers; cbn in *. by rewrite insert_id.
  - cbn [merge_samples].
    assert (Hstep : ∀ r0, 0 ≤ r0 < M →
              ∃ t', (load h src c r0 ≫= λ x0, load h this c i ≫= λ y0,
                     store h this c i (y0 + x0 * vol)%F ≫= λ h',
                     merge_samples n this src c M loops vol (i + 1) (r0 + 1)
                                   (Int.add w 1) h')
              = Ok (<[this := set_buffers tb (<[Z.to_nat c := t']> (_buffers tb))]> h,
                    count_up (S (merge_count loops M (r0 + 1) n)) w)
              ∧ length t' = length t
              ∧ ∀ j, (j < Z.to_nat i
                      ∨ Z.to_nat i + S (merge_count loops M (r0 + 1) n) ≤ j)%nat
                     → t' !! j = t !! j).
    { intros r0 Hr0. destruct Hsrc as (sb & s & Hs & Hsc & HsL).
      destruct (lookup_lt_is_Some_2 s (Z.to_nat r0) ltac:(lia)) as [x Hx].
      destruct (lookup_lt_is_Some_2 t (Z.to_nat i) ltac:(lia)) as [y Hy].
      rewrite (load_Ok _ _ _ _ _ _ _ Hs Hc Hsc (proj1 Hr0) Hx). cbn.
      rewrite (load_Ok _ _ _ _ _ _ _ Ht Hc Htc Hi Hy). cbn.
      rewrite (store_Ok _ _ _ _ _ _ _ Ht Hc Htc) by lia. cbn.
      pose proof (lookup_lt_Some _ _ _ Htc) as Hclt.
      set (t1 := <[Z.to_nat i := (y + x * vol)%F]> t).
      set (tb1 := set_buffers tb (<[Z.to_nat c := t1]> (_buffers tb))).
      destruct (IH (<[this := tb1]> h) tb1 t1 (i + 1) (r0 + 1) (Int.add w 1))
        as (t' & Hrun & Hlen & Hframe).
      - by rewrite lookup_insert_eq.
      - done.
      - cbn. by rewrite list_lookup_insert_eq.
      - unfold tb1, t1. apply (has_channel_replace h this tb _ t _ src c M Ht Htc).
        + by rewrite length_insert.
        + by exists sb, s.
      - lia.
      - lia.
      - unfold t1. rewrite length_insert. lia.
      - intros Hl Hn. apply HM; [done|lia].
      - exists t'. rewrite Hrun. subst tb1 t1. cbn.
        rewrite insert_insert_eq, list_insert_insert_eq.
        split; [done|]. rewrite Hlen, length_insert. split; [done|].
        intros j Hj. rewrite Hframe by lia. apply list_lookup_insert_ne. lia. }
    destruct (M <=? r) eqn:E.
    + apply Z.leb_le in E. destruct loops eqn:El.
      * destruct (Hstep 0) as (t' & Hrun & Hlen & Hframe); [specialize (HM eq_refl); lia|].
        exists t'. subst k. unfold merge_count in *. cbn in *. done.
      * exists t. subst k. unfold merge_count.
        replace (Z.to_nat (M - r)) with 0%nat by lia. rewrite Nat.min_0_r. cbn.
        rewrite list_insert_id by done.
        destruct tb; unfold set_buffers; cbn in *. by rewrite insert_id.
    + apply Z.leb_gt in E.
      destruct (Hstep r) as (t' & Hrun & Hlen & Hframe); [lia|].
      exists t'. subst k.
      replace (merge_count loops M r (S n)) with (S (merge_count loops M (r + 1) n)).
      * done.
      * unfold merge_count. destruct loops; [done|]. lia.
Qed.

Lemma framed_upto_refl c wo k bs : framed_upto c wo k bs bs.
Proof.
  split; [done|]. intros j t Hj. exists t. split; [done|].
  case_bool_decide; [by split|done].
Qed.

Lemma framed_upto_step c wo k bs bs' t t' :
  framed_upto c wo k bs bs' → bs' !! c = Some t → framed wo k t t' →
  framed_upto (S c) wo k bs (<[c := t']> bs').
Proof.
  intros [Hlen Hall] Hc Hfr. split; [by rewrite length_insert|].
  intros j u Hj. destruct (Hall j u Hj) as (u' & Hu' & Hrel).
  destruct (decide (c = j)) as [<-|Hne].
  - exists t'. rewrite list_lookup_insert_eq by (by eapply lookup_lt_Some).
    split; [done|]. rewrite bool_decide_eq_true_2 by lia.
    rewrite bool_decide_eq_false_2 in Hrel by lia. subst u'.
    rewrite Hc in Hu'. by injection Hu' as <-.
  - exists u'. rewrite list_lookup_insert_ne by done. split; [done|].
    repeat case_bool_decide; try done; lia.
Qed.

Lemma framed_upto_ge c c' wo k bs bs' :
  framed_upto c wo k bs bs' → (length bs ≤ c)%nat → (length bs ≤ c')%nat →
  framed_upto c' wo k bs bs'.
Proof.
  intros [Hlen Hall] Hc Hc'. split; [done|]. intros j t Hj.
  destruct (Hall j t Hj) as (t' & Ht' & Hrel). exists t'. split; [done|].
  apply lookup_lt_Some in Hj.
  rewrite bool_decide_eq_true_2 in Hrel by lia. by rewrite bool_decide_eq_true_2 by lia.
Qed.

(** The channel loop in general. *)
Lemma merge_channels_frame this src tb chS M loops vol ro wo maxWriteOffset n :
  ∀ c w h bs',
    h !! this = Some (set_buffers tb bs') →
    framed_upto (Z.to_nat c) (Z.to_nat wo)
                (merge_count loops M ro (Z.to_nat (maxWriteOffset - wo))) (_buffers tb) bs' →
    (∀ j t, _buffers tb !! j = Some t → Z.of_nat (length t) = bufferSize tb) →
    (∀ c', 0 ≤ c' < chS → has_channel h src c' M) →
    0 ≤ c → c ≤ chS → c + Z.of_nat n = Z.of_nat (length (_buffers tb)) →
    0 ≤ wo → 0 ≤ ro → wo ≤ bufferSize tb → maxWriteOffset ≤ bufferSize tb →
    (loops = true → wo < maxWriteOffset → 0 < M) →
    let k := merge_count loops M ro (Z.to_nat (maxWriteOffset - wo)) in
    let cc := Z.min (Z.of_nat (length (_buffers tb))) chS in
    ∃ bs'', merge_channels n this src (chS - 1) M loops ro wo maxWriteOffset vol c w h
            = Ok (<[this := set_buffers tb bs'']> h, count_up (Z.to_nat (cc - c) * k) w, cc)
            ∧ framed_upto (Z.to_nat cc) (Z.to_nat wo) k (_buffers tb) bs''.
Proof.
  induction n as [|n IH];
    intros c w h bs' Ht Hfr HLt Hsrc Hc Hcs Hcn Hwo Hro HwoN Hmax HM k cc.
  - exists bs'. cbn. replace (Z.to_nat (cc - c)) with 0%nat by lia. cbn.
    rewrite insert_id by done. replace cc with c by lia. done.
  - cbn [merge_channels].
    destruct (chS - 1 <? c) eqn:E.
    + apply Z.ltb_lt in E. exists bs'.
      replace (Z.to_nat (cc - c)) with 0%nat by lia. cbn.
      rewrite insert_id by done. replace cc with c by lia. done.
    + apply Z.ltb_ge in E.
      destruct (Hsrc c ltac:(lia)) as (sb & s & Hs & Hsc & HsL).
      rewrite Hs. cbn. rewrite (getBufferForChannel_Ok _ _ _ Hc Hsc). cbn.
      rewrite Ht. cbn.
      destruct (lookup_lt_is_Some_2 (_buffers tb) (Z.to_nat c) ltac:(lia)) as [t Htc].
      destruct Hfr as [Hlen Hall].
      destruct (Hall _ _ Htc) as (t0 & Ht0 & Hrel).
      rewrite bool_decide_eq_false_2 in Hrel by lia. subst t0.
      assert (Htc' : _buffers (set_buffers tb bs') !! Z.to_nat c = Some t) by done.
      rewrite (getBufferForChannel_Ok _ _ _ Hc Htc'). cbn.
      pose proof (HLt _ _ Htc) as HLt'.
      destruct (merge_samples_frame this src c M loops vol (Z.to_nat (maxWriteOffset - wo))
                  h (set_buffers tb bs') t wo ro w Ht Hc Htc')
        as (t' & Hrun & Hlen' & Hframe).
      { by exists sb, s. }
      { done. } { done. } { lia. }
      { intros Hl Hn. apply HM; [done|lia]. }
      change (set_buffers (set_buffers tb bs')
                          (<[Z.to_nat c := t']> (_buffers (set_buffers tb bs'))))
        with (set_buffers tb (<[Z.to_nat c := t']> bs')) in Hrun.
      rewrite Hrun. fold k. cbn [mbind Res_bind].
      destruct (IH (c + 1) (count_up k w) (<[this := set_buffers tb (<[Z.to_nat c := t']> bs')]> h)
                   (<[Z.to_nat c := t']> bs')) as (bs'' & Hrun' & Hfr').
      * by rewrite lookup_insert_eq.
      * replace (Z.to_nat (c + 1)) with (S (Z.to_nat c)) by lia.
        apply framed_upto_step with t; [by split|done|by split].
      * done.
      * intros c' Hc'.
        apply (has_channel_replace h this (set_buffers tb bs') _ t _ src c' M Ht Htc' Hlen').
        by apply Hsrc.
      * lia.
      * lia.
      * lia.
      * done.
      * done.
      * done.
      * done.
      * done.
      * exists bs''. rewrite Hrun'. rewrite insert_insert_eq. split; [|done].
        do 2 f_equal. fold cc. f_equal.
        replace (Z.to_nat (cc - c)) with (S (Z.to_nat (cc - (c + 1)))) by lia.
        cbn. by rewrite count_up_add.
Qed.
End MergeFrame.

Section MergeBuffers.
Context {FO : FloatOps}.
Implicit Types (h : gmap nat AudioBuffer) (tb sb : AudioBuffer).

Lemma wf_bounds b :
  wf_buffer b →
  0 ≤ bufferSize b ≤ 536870911 ∧ 1 ≤ amountOfChannels b ≤ Int.INT_MAX
  ∧ amountOfChannels b * bufferSize b ≤ 536870911.
Proof.
  intros [Hc Hs _ _ Hb]. unfold Int.INT_MAX in *. split; [|split]; [nia|done|lia].
Qed.

Lemma wf_has_channel h p b c :
  h !! p = Some b → wf_buffer b → 0 ≤ c < amountOfChannels b →
  has_channel h p c (bufferSize b).
Proof.
  intros Hp Hwf Hc.
  destruct (lookup_lt_is_Some_2 (_buffers b) (Z.to_nat c)) as [t Ht].
  { pose proof (wf_vector _ Hwf). lia. }
  exists b, t. split; [done|]. split; [done|]. by eapply wf_arrays.
Qed.

(** [mergeBuffers] on buffers of the constructor's shape: the call returns
    the number of passes of the sample loop, and the target keeps its
    shape and every sample outside the region of the common channels. *)
Lemma mergeBuffers_frame this src ro wo vol h tb sb :
  h !! this = Some tb → h !! src = Some sb → wf_buffer tb → wf_buffer sb →
  0 ≤ wo → 0 ≤ ro →
  let k := if bufferSize tb <=? wo then 0%nat
           else merge_count (loopeable sb) (bufferSize sb) ro
                            (Z.to_nat (write_length (bufferSize tb) (bufferSize sb) wo)) in
  ∃ bs', mergeBuffers this (Some src) ro wo vol h
         = Ok (<[this := set_buffers tb bs']> h, Z.of_nat k)
         ∧ framed_upto (Z.to_nat (Z.min (amountOfChannels tb) (amountOfChannels sb)))
                       (Z.to_nat wo) k (_buffers tb) bs'.
Proof.
  intros Ht Hs Hwt Hws Hwo Hro k.
  destruct (wf_bounds _ Hwt) as (HN & HcT & HbT).
  destruct (wf_bounds _ Hws) as (HM & HcS & HbS).
  unfold mergeBuffers. rewrite Ht. cbn [mbind Res_bind lift].
  subst k. destruct (bufferSize tb <=? wo) eqn:E.
  { exists (_buffers tb). split.
    - do 2 f_equal. destruct tb; unfold set_buffers; cbn. by rewrite insert_id.
    - apply framed_upto_refl. }
  apply Z.leb_gt in E. rewrite Hs. cbn [mbind Res_bind lift].
  unfold Int.INT_MAX in *.
  rewrite (add_fits wo (bufferSize sb)) by (unfold Int.fits, Int.INT_MIN, Int.INT_MAX; lia).
  rewrite (sub_fits (bufferSize tb) wo) by (unfold Int.fits, Int.INT_MIN, Int.INT_MAX; lia).
  rewrite (sub_fits (amountOfChannels sb) 1) by (unfold Int.fits, Int.INT_MIN, Int.INT_MAX; lia).
  set (len := write_length (bufferSize tb) (bufferSize sb) wo).
  assert (Hlen : (if bufferSize tb <? wo + bufferSize sb
                  then bufferSize tb - wo else bufferSize sb) = len).
  { unfold len, write_length. destruct (bufferSize tb <? wo + bufferSize sb) eqn:E'.
    - apply Z.ltb_lt in E'. lia.
    - apply Z.ltb_ge in E'. lia. }
  rewrite Hlen.
  assert (Hlen0 : 0 ≤ len ≤ bufferSize tb - wo) by (unfold len, write_length; lia).
  rewrite (add_fits wo len) by (unfold Int.fits, Int.INT_MIN, Int.INT_MAX; lia).
  pose proof (wf_vector _ Hwt) as HvT.
  destruct (merge_channels_frame this src tb (amountOfChannels sb) (bufferSize sb)
              (loopeable sb) vol ro wo (wo + len) (Z.to_nat (amountOfChannels tb))
              0 0 h (_buffers tb)) as (bs'' & Hrun & Hfr).
  - rewrite Ht. f_equal. by destruct tb.
  - apply framed_upto_refl.
  - intros j t Hj. by eapply wf_arrays.
  - intros c' Hc'. by apply wf_has_channel.
  - lia.
  - lia.
  - lia.
  - lia.
  - lia.
  - lia.
  - lia.
  - intros _ Hlt. unfold len, write_length in Hlt. lia.
  - replace (wo + len - wo) with len in * by lia.
    rewrite HvT in *.
    set (cc := Z.min (amountOfChannels tb) (amountOfChannels sb)) in *.
    set (k := merge_count (loopeable sb) (bufferSize sb) ro (Z.to_nat len)) in *.
    assert (Hk : (k ≤ Z.to_nat len)%nat).
    { unfold k, merge_count. destruct (loopeable sb); lia. }
    exists bs''. rewrite Hrun. cbn [mbind Res_bind]. split; [|done].
    replace (cc - 0) with cc by lia.
    rewrite count_up_fits by (unfold Int.INT_MAX; nia).
    unfold Int.div. destruct (cc =? 0) eqn:Ecc; [apply Z.eqb_eq in Ecc; lia|].
    cbn. do 2 f_equal.
    replace (0 + Z.of_nat (Z.to_nat cc * k)) with (Z.of_nat k * cc) by lia.
    rewrite Z.quot_mul by lia.
    apply wrap_fits. unfold Int.fits, Int.INT_MIN, Int.INT_MAX. lia.
Qed.
End MergeBuffers.

Section MergeTheorems.
Context {FO : FloatOps}.
Implicit Types (h : gmap nat AudioBuffer) (tb sb : AudioBuffer).

Lemma mixed_buffers_0 (ts ss : list (list SAMPLE_TYPE)) wo ro vol :
  mixed_buffers ts ss wo ro 0 vol = ts.
Proof.
  unfold mixed_buffers. apply list_eq. intros j. rewrite list_lookup_imap.
  destruct (ts !! j); cbn; [|done]. destruct (ss !! j); [|done]. by rewrite mixed_0.
Qed.

(** [mergeBuffers] on distinct buffers of the constructor's shape, while
    the source lasts: the target becomes the mix the specification words. *)
Lemma mergeBuffers_exact this src ro wo vol h tb sb :
  this ≠ src → h !! this = Some tb → h !! src = Some sb →
  wf_buffer tb → wf_buffer sb → 0 ≤ wo < bufferSize tb → 0 ≤ ro →
  let len := write_length (bufferSize tb) (bufferSize sb) wo in
  ro + len ≤ bufferSize sb →
  mergeBuffers this (Some src) ro wo vol h
  = Ok (<[this := set_buffers tb (mixed_buffers (_buffers tb) (_buffers sb) (Z.to_nat wo)
                                                (Z.to_nat ro) (Z.to_nat len) vol)]> h, len).
Proof.
  intros Hne Ht Hs Hwt Hws Hwo Hro len Hrl.
  destruct (wf_bounds _ Hwt) as (HN & HcT & HbT).
  destruct (wf_bounds _ Hws) as (HM & HcS & HbS).
  unfold mergeBuffers. rewrite Ht. cbn [mbind Res_bind lift].
  destruct (bufferSize tb <=? wo) eqn:E; [apply Z.leb_le in E; lia|].
  rewrite Hs. cbn [mbind Res_bind lift]. unfold Int.INT_MAX in *.
  rewrite (add_fits wo (bufferSize sb)) by (unfold Int.fits, Int.INT_MIN, Int.INT_MAX; lia).
  rewrite (sub_fits (bufferSize tb) wo) by (unfold Int.fits, Int.INT_MIN, Int.INT_MAX; lia).
  rewrite (sub_fits (amountOfChannels sb) 1) by (unfold Int.fits, Int.INT_MIN, Int.INT_MAX; lia).
  assert (Hlen : (if bufferSize tb <? wo + bufferSize sb
                  then bufferSize tb - wo else bufferSize sb) = len).
  { unfold len, write_length. destruct (bufferSize tb <? wo + bufferSize sb) eqn:E'.
    - apply Z.ltb_lt in E'. lia.
    - apply Z.ltb_ge in E'. lia. }
  rewrite Hlen.
  assert (Hlen0 : 0 ≤ len ≤ bufferSize tb - wo) by (unfold len, write_length; lia).
  rewrite (add_fits wo len) by (unfold Int.fits, Int.INT_MIN, Int.INT_MAX; lia).
  pose proof (wf_vector _ Hwt) as HvT. pose proof (wf_vector _ Hws) as HvS.
  rewrite <- HvS at 1.
  rewrite (merge_channels_distinct this src sb tb (loopeable sb) vol ro wo (wo + len)
             (Z.to_nat len)); try done; try lia.
  - cbn [mbind Res_bind]. rewrite HvT, HvS.
    set (cc := Z.min (amountOfChannels tb) (amountOfChannels sb)).
    replace (cc - 0) with cc by lia.
    rewrite count_up_fits by (unfold Int.INT_MAX; nia).
    unfold Int.div. destruct (cc =? 0) eqn:Ecc; [apply Z.eqb_eq in Ecc; lia|].
    cbn. do 2 f_equal.
    replace (0 + Z.of_nat (Z.to_nat cc * Z.to_nat len)) with (len * cc) by lia.
    rewrite Z.quot_mul by lia.
    apply wrap_fits. unfold Int.fits, Int.INT_MIN, Int.INT_MAX. lia.
  - cbn. rewrite mixed_upto_0, Ht. f_equal. by destruct tb.
  - intros j t Hj. by eapply wf_arrays.
  - intros j t Hj. by eapply wf_arrays.
Qed.
End MergeTheorems.

Section MergeClaims.
Context {FO : FloatOps}.
Implicit Types (h : gmap nat AudioBuffer) (tb sb : AudioBuffer).

(** [mergeBuffers] with read offset 0 and a source that is not longer
    than the target. *)
Lemma mergeBuffers_min this src wo vol h tb sb :
  h !! this = Some tb → h !! src = Some sb → wf_buffer tb → wf_buffer sb →
  bufferSize sb ≤ bufferSize tb → 0 ≤ wo ≤ bufferSize tb →
  let k := Z.min (bufferSize sb) (bufferSize tb - wo) in
  ∃ bs', mergeBuffers this (Some src) 0 wo vol h
         = Ok (<[this := set_buffers tb bs']> h, k)
         ∧ framed_upto (Z.to_nat (Z.min (amountOfChannels tb) (amountOfChannels sb)))
                       (Z.to_nat wo) (Z.to_nat k) (_buffers tb) bs'
         ∧ (this ≠ src →
            bs' = mixed_buffers (_buffers tb) (_buffers sb) (Z.to_nat wo) 0 (Z.to_nat k) vol).
Proof.
  intros Ht Hs Hwt Hws HMN Hwo k.
  destruct (wf_bounds _ Hws) as (HM & _ & _).
  destruct (mergeBuffers_frame this src 0 wo vol h tb sb Ht Hs Hwt Hws)
    as (bs' & Hrun & Hfr); [lia|lia|].
  assert (Hk : (if bufferSize tb <=? wo then 0%nat
                else merge_count (loopeable sb) (bufferSize sb) 0
                       (Z.to_nat (write_length (bufferSize tb) (bufferSize sb) wo)))
               = Z.to_nat k).
  { unfold k, write_length, merge_count.
    destruct (bufferSize tb <=? wo) eqn:E.
    - apply Z.leb_le in E. lia.
    - destruct (loopeable sb); lia. }
  rewrite Hk in Hrun, Hfr. replace (Z.of_nat (Z.to_nat k)) with k in Hrun by (unfold k; lia).
  exists bs'. split; [done|]. split; [done|].
  intros Hne. destruct (decide (wo = bufferSize tb)) as [->|Hlt].
  - replace (Z.to_nat k) with 0%nat by (unfold k; lia). rewrite mixed_buffers_0.
    unfold mergeBuffers in Hrun. rewrite Ht in Hrun. cbn in Hrun.
    rewrite Z.leb_refl in Hrun. injection Hrun as Hh _.
    apply (f_equal (λ m, m !! this)) in Hh. rewrite lookup_insert_eq, Ht in Hh.
    by injection Hh as ->.
  - rewrite (mergeBuffers_exact this src 0 wo vol h tb sb) in Hrun; try done; try lia.
    + injection Hrun as Hh. apply (f_equal (λ m, m !! this)) in Hh.
      rewrite !lookup_insert_eq in Hh. injection Hh as Hh. symmetry. exact Hh.
    + unfold write_length. lia.
Qed.

(** C1 (amended).  For a call of [mergeBuffers] with read offset 0 on a
    target of [N] frames and a source of [M ≤ N] frames, both of the
    constructor's shape, and a write offset in [0, N]: whether or not the
    source is loopable, the call returns [min M (N - writeOffset)], the
    target keeps every sample outside that many samples from the write
    offset in the common channels, and when source and target are two
    objects the target's channels become the mix of exactly that many
    source samples read from index 0 on (the read index never reaches [M],
    so it is never wrapped). *)
Theorem mergeBuffers_writes_min this src wo vol h tb sb :
  h !! this = Some tb → h !! src = Some sb → wf_buffer tb → wf_buffer sb →
  bufferSize sb ≤ bufferSize tb → 0 ≤ wo ≤ bufferSize tb →
  let k := Z.min (bufferSize sb) (bufferSize tb - wo) in
  ∃ bs', mergeBuffers this (Some src) 0 wo vol h
         = Ok (<[this := set_buffers tb bs']> h, k)
         ∧ framed_upto (Z.to_nat (Z.min (amountOfChannels tb) (amountOfChannels sb)))
                       (Z.to_nat wo) (Z.to_nat k) (_buffers tb) bs'
         ∧ (this ≠ src →
            bs' = mixed_buffers (_buffers tb) (_buffers sb) (Z.to_nat wo) 0 (Z.to_nat k) vol).
Proof. apply mergeBuffers_min. Qed.

(** C8.  A call of [mergeBuffers] whose source pointer is null, or whose
    write offset is not below the frame count of the target, returns 0
    and leaves every buffer as it is. *)
Theorem mergeBuffers_noop this aBuffer ro wo vol h :
  aBuffer = None ∨ (∃ tb, h !! this = Some tb ∧ bufferSize tb ≤ wo) →
  mergeBuffers this aBuffer ro wo vol h = Ok (h, 0).
Proof.
  intros [->|(tb & Ht & Hwo)]; [done|].
  unfold mergeBuffers. destruct aBuffer as [src|]; [|done].
  rewrite Ht. cbn. by rewrite (proj2 (Z.leb_le _ _) Hwo).
Qed.

(** C10 (amended).  A call of [mergeBuffers] whose source and target are
    two objects of the constructor's shape, with offsets that are not
    negative, returns a count [n] and leaves the source and every other
    buffer as they were; the target keeps its loop flag, its channel count
    and its frame count, every channel that source and target do not have
    in common, and in the common channels every sample outside the [n]
    samples from the write offset. *)
Theorem mergeBuffers_frame_distinct this src ro wo vol h tb sb :
  this ≠ src → h !! this = Some tb → h !! src = Some sb →
  wf_buffer tb → wf_buffer sb → 0 ≤ wo → 0 ≤ ro →
  ∃ h' n tb',
    mergeBuffers this (Some src) ro wo vol h = Ok (h', Z.of_nat n)
    ∧ h' !! src = Some sb
    ∧ (∀ p, p ≠ this → h' !! p = h !! p)
    ∧ h' !! this = Some tb'
    ∧ loopeable tb' = loopeable tb
    ∧ amountOfChannels tb' = amountOfChannels tb
    ∧ bufferSize tb' = bufferSize tb
    ∧ length (_buffers tb') = length (_buffers tb)
    ∧ ∀ c t, _buffers tb !! c = Some t →
             ∃ t', _buffers tb' !! c = Some t'
                   ∧ length t' = length t
                   ∧ (Z.min (amountOfChannels tb) (amountOfChannels sb) ≤ Z.of_nat c → t' = t)
                   ∧ ∀ j, (j < Z.to_nat wo ∨ Z.to_nat wo + n ≤ j)%nat → t' !! j = t !! j.
Proof.
  intros Hne Ht Hs Hwt Hws Hwo Hro.
  destruct (mergeBuffers_frame this src ro wo vol h tb sb Ht Hs Hwt Hws Hwo Hro)
    as (bs' & Hrun & Hlen & Hall).
  eexists _, _, (set_buffers tb bs'). split; [exact Hrun|].
  split; [by rewrite lookup_insert_ne|].
  split; [intros p Hp; by rewrite lookup_insert_ne|].
  split; [by rewrite lookup_insert_eq|].
  do 4 (split; [done|]).
  intros c t Hc. destruct (Hall c t Hc) as (t' & Ht' & Hrel). exists t'.
  split; [done|]. case_bool_decide as Hlt.
  - destruct Hrel as [Hl Hfr]. split; [done|]. split; [lia|done].
  - subst t'. done.
Qed.
End MergeClaims.

(** ** What the oscillator keeps of an event *)

Section EventFacts.
Context {FO : FloatOps} {CO : Collaborators} {EP : EngineProps}.

(** Induction on an event with its secondary oscillator. *)
Lemma SynthEvent_osc2_ind (P : SynthEvent → Prop) :
  (∀ e, (∀ o, _osc2 e = Some o → P o) → P e) → ∀ e, P e.
Proof.
  intros Hstep. fix IH 1.
  intros [b c po le sq hp ty fr bf ph pi vo pw tp pr pa ed ml hm qd rb rs ar ad o2].
  apply Hstep. cbn. intros o Ho.
  destruct o2 as [o'|]; [|discriminate]. injection Ho as <-. apply IH.
Qed.

(** The unfolding of [setFrequency]. *)
Lemma setFrequency_eq f all store e r :
  setFrequency f all store e r
  = let currentFreq := _frequency e in
    let e1 := set_frequency f e in
    let e2 := set_phaseIncr (f / of_int SAMPLE_RATE)%F e1 in
    let e3 := if store then set_baseFrequency f e2 else e2 in
    let '(e4, r4) := match _type e3 with
                     | KARPLUS_STRONG => initKarplusStrong e3 r
                     | _ => (e3, r)
                     end in
    match _osc2 e with
    | Some o =>
        if all then
          let '(o', r') := setFrequency (_frequency o * (f / currentFreq))%F true store o r4 in
          (set_osc2 (Some o') e4, r')
        else (e4, r4)
    | None => (e4, r4)
    end.
Proof. destruct e; reflexivity. Qed.

(** What [initKarplusStrong] keeps. *)
Lemma initKarplusStrong_keeps e r :
  let e' := (initKarplusStrong e r).1 in
  base e' = base e ∧ cacheable e' = cacheable e ∧ _osc2 e' = _osc2 e
  ∧ isSequenced e' = isSequenced e ∧ hasParent e' = hasParent e
  ∧ _type e' = _type e ∧ _volume e' = _volume e ∧ is_Some (_ringBuffer e')
  ∧ position e' = position e ∧ length_ e' = length_ e
  ∧ _frequency e' = _frequency e.
Proof.
  unfold initKarplusStrong. cbn zeta.
  repeat match goal with
         | |- context [let '(_, _) := ?x in _] => destruct x
         | |- context [if ?c then _ else _] => destruct c
         end; cbn; repeat split; eauto.
Qed.

Lemma kept_eq e e' :
  kept e e' ↔
  base e' = base e ∧ cacheable e' = cacheable e
  ∧ isSequenced e' = isSequenced e ∧ hasParent e' = hasParent e
  ∧ _type e' = _type e ∧ _volume e' = _volume e
  ∧ (ring_ready e → ring_ready e')
  ∧ match _osc2 e with
    | Some o => ∃ o', _osc2 e' = Some o' ∧ kept o o'
    | None => _osc2 e' = None
    end.
Proof. destruct e; reflexivity. Qed.

Lemma kept_refl e : kept e e.
Proof.
  induction e as [e IH] using SynthEvent_osc2_ind. apply kept_eq.
  repeat split; try done. destruct (_osc2 e) as [o|] eqn:Eo; [|done].
  exists o. split; [done|]. by apply IH.
Qed.

Lemma kept_trans e1 : ∀ e2 e3, kept e1 e2 → kept e2 e3 → kept e1 e3.
Proof.
  induction e1 as [e1 IH] using SynthEvent_osc2_ind. intros e2 e3 H12 H23.
  apply kept_eq in H12 as (Hb & Hc & Hs & Hp & Ht & Hv & Hr & Ho).
  apply kept_eq in H23 as (Hb' & Hc' & Hs' & Hp' & Ht' & Hv' & Hr' & Ho').
  apply kept_eq. repeat split; try congruence; [tauto|].
  destruct (_osc2 e1) as [o1|] eqn:E1.
  - destruct Ho as (o2 & E2 & Hk). rewrite E2 in Ho'.
    destruct Ho' as (o3 & E3 & Hk'). exists o3. split; [done|]. by eapply IH.
  - rewrite Ho in Ho'. done.
Qed.

(** An update of the oscillator's own fields keeps the event. *)
Lemma kept_own e e' :
  base e' = base e → cacheable e' = cacheable e →
  isSequenced e' = isSequenced e → hasParent e' = hasParent e →
  _type e' = _type e → _volume e' = _volume e →
  (ring_ready e → ring_ready e') → _osc2 e' = _osc2 e → kept e e'.
Proof.
  intros Hb Hc Hs Hp Ht Hv Hr Ho. apply kept_eq. repeat split; try done.
  rewrite Ho. destruct (_osc2 e) as [o|]; [|done]. exists o. split; [done|apply kept_refl].
Qed.

Lemma initKarplusStrong_kept e r : kept e (initKarplusStrong e r).1.
Proof.
  destruct (initKarplusStrong_keeps e r) as (Hb & Hc & Ho & Hs & Hp & Ht & Hv & Hr & _).
  apply kept_own; try done. intros _ _. done.
Qed.

Lemma setFrequency_kept f all store e : ∀ r, kept e (setFrequency f all store e r).1.
Proof.
  revert f all. induction e as [e IH] using SynthEvent_osc2_ind. intros f all r.
  rewrite setFrequency_eq. cbn zeta.
  set (e3 := if store then _ else _).
  assert (H3 : kept e e3).
  { unfold e3. destruct store; apply kept_own; try done. }
  set (p4 := match _type e3 with KARPLUS_STRONG => _ | _ => _ end).
  assert (H4 : kept e3 p4.1).
  { unfold p4. destruct (_type e3); try apply kept_refl. apply initKarplusStrong_kept. }
  destruct p4 as [e4 r4]. cbn [fst] in H4.
  pose proof (kept_trans _ _ _ H3 H4) as H.
  destruct (_osc2 e) as [o|] eqn:Eo; [|done].
  destruct all; [|done].
  specialize (IH o eq_refl (_frequency o * (f / _frequency e))%F true r4).
  destruct (setFrequency _ true store o r4) as [o' r']. cbn [fst] in *.
  apply kept_eq in H as (Hb & Hc & Hs & Hp & Ht & Hv & Hr & Ho).
  apply kept_eq. rewrite Eo in *. repeat split; try done.
  exists o'. done.
Qed.
End EventFacts.

Section LoopFacts.
Context {FO : FloatOps} {CO : Collaborators} {EP : EngineProps}.

(** The generator returns when the ring buffer is there, and keeps the
    event. *)
Lemma generate_kept i e r :
  ring_ready e →
  ∃ amp e' r', generate i e r = Ok (amp, e', r') ∧ kept e e'.
Proof.
  intros Hr. unfold generate. destruct (_type e) eqn:Et.
  1-4: eexists _, _, _; split; [reflexivity|apply kept_refl].
  - eexists _, _, _. split; [reflexivity|]. apply kept_own; try done.
  - destruct (randomFloat r) as [v r']. eexists _, _, _. split; [reflexivity|apply kept_refl].
  - destruct (Hr Et) as [rb Hrb]. rewrite Hrb. cbn.
    eexists _, _, _. split; [reflexivity|]. apply kept_own; try done.
    intros _ _. done.
Qed.

Lemma next_amplitude_kept i e r :
  ring_ready e →
  ∃ amp e' r', next_amplitude i e r = Ok (amp, e', r') ∧ kept e e'.
Proof.
  intros Hr. unfold next_amplitude.
  destruct (generate_kept i e r Hr) as (amp & e1 & r1 & -> & H1). cbn [mbind Res_bind].
  set (e2 := match _type e1 with PWM => _ | _ => _ end).
  assert (H2 : kept e1 e2).
  { unfold e2. 
    destruct (_type e1) eqn:Et; try apply kept_refl;
      match goal with
      | |- context [if ?c then _ else _] => destruct c
      end; apply kept_own; try done;
      unfold ring_ready; cbn; rewrite ?Et; done. }
  set (p3 := match _arpeggiator e2 with Some _ => _ | None => _ end).
  assert (H3 : kept e2 p3.1).
  { unfold p3. destruct (_arpeggiator e2) as [a|]; [|apply kept_refl].
    destruct (Arpeggiator_peek a) as [stepped a'].
    destruct stepped.
    - eapply kept_trans; [|apply setFrequency_kept]. apply kept_own; done.
    - apply kept_own; done. }
  destruct p3 as [e3 r3]. eexists _, _, _. split; [reflexivity|].
  eapply kept_trans; [exact H1|]. eapply kept_trans; [exact H2|exact H3].
Qed.

Lemma next_sample_kept b i e r :
  ring_ready e →
  ∃ v e' r', next_sample b i e r = Ok (v, e', r') ∧ kept e e'.
Proof.
  intros Hr. unfold next_sample.
  destruct (next_amplitude_kept i e r Hr) as (amp & e' & r' & -> & Hk).
  eexists _, _, _. split; [reflexivity|done].
Qed.

Lemma kept_ring_ready e e' : kept e e' → ring_ready e → ring_ready e'.
Proof. intros Hk. apply kept_eq in Hk. tauto. Qed.

Lemma kept_cacheable e e' : kept e e' → cacheable e' = cacheable e.
Proof. intros Hk. apply kept_eq in Hk. tauto. Qed.

Lemma kept_base e e' : kept e e' → base e' = base e.
Proof. intros Hk. apply kept_eq in Hk. tauto. Qed.

Lemma sample_values_kept b n : ∀ i e r,
  ring_ready e →
  ∃ vs e' r', sample_values n b i e r = Ok (vs, e', r') ∧ kept e e'
              ∧ length vs = n.
Proof.
  induction n as [|n IH]; intros i e r Hr.
  - eexists _, _, _. split; [reflexivity|]. split; [apply kept_refl|done].
  - cbn [sample_values].
    destruct (next_sample_kept b i e r Hr) as (v & e1 & r1 & -> & H1).
    cbn [mbind Res_bind].
    destruct (IH (i + 1) e1 r1 (kept_ring_ready _ _ H1 Hr)) as (vs & e2 & r2 & -> & H2 & Hl).
    cbn [mbind Res_bind]. eexists _, _, _. split; [reflexivity|].
    split; [by eapply kept_trans|]. cbn. by rewrite Hl.
Qed.
End LoopFacts.

(** ** The writes of the synthesis loop *)

Section BufferWrites.
Context {FO : FloatOps}.
Implicit Types (h : gmap nat AudioBuffer) (bs : list (list SAMPLE_TYPE)).

Lemma set_buffers_id (b : AudioBuffer) : set_buffers b (_buffers b) = b.
Proof. by destruct b. Qed.

(** [silenceBuffers] on channels of the buffer's length. *)
Lemma silence_channels_spec (b : AudioBuffer) n : ∀ i bs,
  0 ≤ bufferSize b → (i + n = length bs)%nat →
  Forall (λ t, Z.of_nat (length t) = bufferSize b) bs →
  silence_channels n (Z.of_nat i) (set_buffers b bs)
  = Ok (set_buffers b (take i bs ++ replicate n (generateSilentBuffer (bufferSize b)))).
Proof.
  induction n as [|n IH]; intros i bs HL Hin Hall.
  - cbn. rewrite app_nil_r, take_ge by lia. done.
  - cbn [silence_channels].
    destruct (lookup_lt_is_Some_2 bs i ltac:(lia)) as [t Ht].
    rewrite (getBufferForChannel_Ok _ _ t) by (first [lia | cbn; by rewrite Nat2Z.id]).
    cbn [mbind Res_bind].
    pose proof (proj1 (Forall_lookup _ _) Hall _ _ Ht) as Hlen. cbn in Hlen.
    change (bufferSize (set_buffers b bs)) with (bufferSize b).
    destruct (Z.of_nat (length t) <? bufferSize b) eqn:E; [apply Z.ltb_lt in E; lia|].
    rewrite drop_ge by lia. rewrite app_nil_r, Nat2Z.id.
    change (set_buffers (set_buffers b bs) ?x) with (set_buffers b x).
    cbn [_buffers set_buffers].
    replace (Z.of_nat i + 1) with (Z.of_nat (S i)) by lia.
    rewrite IH.
    + f_equal. f_equal. rewrite take_insert_lt by lia.
      rewrite (take_S_r bs i t Ht).
      rewrite insert_app_r_alt by (rewrite length_take; lia).
      rewrite length_take. replace (i - i `min` length bs)%nat with 0%nat by lia.
      cbn. by rewrite <- app_assoc.
    + done.
    + rewrite length_insert. lia.
    + apply Forall_insert; [done|]. unfold generateSilentBuffer.
      rewrite length_replicate. lia.
Qed.

Lemma silenceBuffers_spec (b : AudioBuffer) :
  0 ≤ bufferSize b → Z.of_nat (length (_buffers b)) = amountOfChannels b →
  Forall (λ t, Z.of_nat (length t) = bufferSize b) (_buffers b) →
  silenceBuffers b
  = Ok (set_buffers b (replicate (length (_buffers b))
                                 (generateSilentBuffer (bufferSize b)))).
Proof.
  intros HL Hv Hall. unfold silenceBuffers.
  pose proof (silence_channels_spec b (Z.to_nat (amountOfChannels b)) 0 (_buffers b) HL)
    as Hrun.
  rewrite set_buffers_id in Hrun. change (Z.of_nat 0) with 0 in Hrun.
  rewrite Hrun; [|lia|done].
  cbn [take app]. replace (Z.to_nat (amountOfChannels b)) with (length (_buffers b)) by lia.
  done.
Qed.

(** The store of one value at index [i] of every channel from [c] on. *)
Lemma write_channels_spec p (out : AudioBuffer) i v L n : ∀ c bs h,
  h !! p = Some (set_buffers out bs) →
  (c + n = length bs)%nat →
  Forall (λ t, Z.of_nat (length t) = L) bs → 0 ≤ i < L →
  write_channels n p (Z.of_nat c) i v h
  = Ok (<[p := set_buffers out (take c bs ++ ((λ t, <[Z.to_nat i := v]> t) <$> drop c bs))]> h).
Proof.
  induction n as [|n IH]; intros c bs h Hp Hcn Hall Hi.
  - cbn. rewrite drop_ge by lia. cbn. rewrite app_nil_r, take_ge by lia.
    by rewrite insert_id.
  - cbn [write_channels].
    destruct (lookup_lt_is_Some_2 bs c ltac:(lia)) as [t Ht].
    pose proof (proj1 (Forall_lookup _ _) Hall _ _ Ht) as Hlen. cbn in Hlen.
    rewrite (store_Ok h p (set_buffers out bs) (Z.of_nat c) i t v); try done; try lia.
    2: { cbn. by rewrite Nat2Z.id. }
    cbn [mbind Res_bind]. rewrite Nat2Z.id.
    change (set_buffers (set_buffers out bs) ?x) with (set_buffers out x).
    cbn [_buffers set_buffers].
    replace (Z.of_nat c + 1) with (Z.of_nat (S c)) by lia.
    rewrite (IH (S c) (<[c := <[Z.to_nat i := v]> t]> bs)).
    + rewrite insert_insert_eq. do 3 f_equal.
      rewrite take_insert_lt by lia. rewrite (take_S_r bs c t Ht).
      rewrite insert_app_r_alt by (rewrite length_take; lia).
      rewrite length_take. replace (c - c `min` length bs)%nat with 0%nat by lia.
      cbn. rewrite <- app_assoc. cbn.
      rewrite drop_insert_lt by lia. by rewrite (drop_S bs t c Ht).
    + by rewrite lookup_insert_eq.
    + rewrite length_insert. lia.
    + apply Forall_insert; [done|]. rewrite length_insert. done.
    + done.
Qed.

Lemma spliced_step (t : list SAMPLE_TYPE) i v vs :
  (i < length t)%nat →
  spliced (<[i := v]> t) (S i) vs = spliced t i (v :: vs).
Proof.
  intros Hi. unfold spliced.
  rewrite (take_S_r _ _ _ (list_lookup_insert_eq t i _ Hi)).
  rewrite take_insert_ge by lia. rewrite drop_insert_lt by lia.
  rewrite <- app_assoc. cbn. repeat f_equal. lia.
Qed.

Lemma spliced_nil (t : list SAMPLE_TYPE) i : spliced t i [] = t.
Proof. unfold spliced. cbn. rewrite Nat.add_0_r. apply take_drop. Qed.

Lemma length_spliced (t : list SAMPLE_TYPE) i vs :
  (i + length vs ≤ length t)%nat → length (spliced t i vs) = length t.
Proof.
  intros Hi. unfold spliced. rewrite !length_app, length_take, length_drop. lia.
Qed.
End BufferWrites.

Section LoopWrites.
Context {FO : FloatOps} {CO : Collaborators} {EP : EngineProps}.

Lemma world_eta (w : World) : set_heap (heap w) (set_random (random w) w) = w.
Proof. by destruct w. Qed.

(** The synthesis loop while no cancellation is requested: it stores the
    sample values of its passes in every channel, from its first index on. *)
Lemma render_samples_spec hasOSC2 p (out : AudioBuffer) L n : ∀ i e w bs vs e' r',
  heap w !! p = Some (set_buffers out bs) →
  Z.of_nat (length bs) = amountOfChannels out →
  Forall (λ t, Z.of_nat (length t) = L) bs →
  0 ≤ i → i + Z.of_nat n ≤ L →
  ring_ready e → _cancel (cacheable e) = false →
  sample_values n hasOSC2 i e (random w) = Ok (vs, e', r') →
  render_samples n hasOSC2 p i e w
  = Ok (i + Z.of_nat n, e',
        set_heap (<[p := set_buffers out ((λ t, spliced t (Z.to_nat i) vs) <$> bs)]> (heap w))
                 (set_random r' w)).
Proof.
  induction n as [|n IH]; intros i e w bs vs e' r' Hp Hv Hall Hi Hin Hr Hc Hvs.
  - cbn in Hvs. injection Hvs as <- <- <-. cbn [render_samples].
    replace ((λ t, spliced t (Z.to_nat i) []) <$> bs) with bs.
    + rewrite insert_id by done. rewrite world_eta. do 3 f_equal. lia.
    + rewrite <- (list_fmap_id bs) at 1. apply list_fmap_ext. intros k t _.
      by rewrite spliced_nil.
  - cbn [sample_values] in Hvs. cbn [render_samples]. unfold render_sample.
    destruct (next_sample_kept hasOSC2 i e (random w) Hr) as (v & e1 & r1 & Hn & H1).
    rewrite Hn in Hvs. rewrite Hn. cbn [mbind Res_bind] in *.
    destruct (sample_values n hasOSC2 (i + 1) e1 r1) as [[[vs1 e2] r2]| |] eqn:Hvs1;
      try discriminate.
    injection Hvs as <- <- <-.
    rewrite Hp. cbn [mbind Res_bind lift].
    change (amountOfChannels (set_buffers out bs)) with (amountOfChannels out).
    rewrite <- Hv, Nat2Z.id.
    change 0 with (Z.of_nat 0) at 1.
    rewrite (write_channels_spec p out i v L (length bs) 0%nat bs (heap w)); try done; [|lia].
    cbn [mbind Res_bind take drop app].
    rewrite (kept_cacheable _ _ H1), Hc.
    rewrite (IH (i + 1) e1 _ ((λ t, <[Z.to_nat i := v]> t) <$> bs) vs1 e2 r2); try done.
    + cbn [heap random set_heap set_random]. rewrite insert_insert_eq.
      replace (i + 1 + Z.of_nat n) with (i + Z.of_nat (S n)) by lia.
      f_equal. f_equal. unfold set_heap, set_random. cbn. f_equal. f_equal. f_equal.
      rewrite <- list_fmap_compose. apply Forall_fmap_ext_1.
      eapply Forall_impl; [exact Hall|]. cbn. intros t Ht.
      replace (Z.to_nat (i + 1)) with (S (Z.to_nat i)) by lia.
      apply spliced_step. lia.
    + cbn. by rewrite lookup_insert_eq.
    + by rewrite length_fmap.
    + apply Forall_fmap. eapply Forall_impl; [exact Hall|]. cbn. intros t Ht.
      by rewrite length_insert.
    + lia.
    + lia.
    + by eapply kept_ring_ready.
    + by rewrite (kept_cacheable _ _ H1).
Qed.
End LoopWrites.

(** ** The window of [render] *)

Section RenderLoop.
Context {FO : FloatOps} {CO : Collaborators} {EP : EngineProps}.

Lemma wf_Forall (b : AudioBuffer) :
  wf_buffer b → Forall (λ t, Z.of_nat (length t) = bufferSize b) (_buffers b).
Proof. intros Hwf. apply Forall_lookup. intros c t Hc. by eapply wf_arrays. Qed.

(** The first part of [render] on a buffer of the constructor's shape, while
    no cancellation is requested. *)
Lemma render_loop_spec e p w out :
  heap w !! p = Some out → wf_buffer out →
  ring_ready e → _cancel (cacheable e) = false →
  let L := bufferSize out in
  let start := renderStartOffset e in
  let n := Z.to_nat (renderEndOffset e L - start) in
  0 ≤ start → start + Z.of_nat n ≤ L →
  ∃ vs e' r',
    sample_values n (bool_decide (is_Some (_osc2 e))) start e (random w) = Ok (vs, e', r')
    ∧ length vs = n ∧ kept e e'
    ∧ render_loop e p w
      = Ok (start + Z.of_nat n, e',
            set_heap
              (<[p := set_buffers out
                        ((λ t, spliced (if clipped e L then generateSilentBuffer L else t)
                                       (Z.to_nat start) vs) <$> _buffers out)]> (heap w))
              (set_random r' w)).
Proof.
  intros Hp Hwf Hr Hc L start n Hs Hn.
  destruct (sample_values_kept (bool_decide (is_Some (_osc2 e))) n start e (random w) Hr)
    as (vs & e' & r' & Hvs & Hk & Hl).
  exists vs, e', r'. split; [done|]. split; [done|]. split; [done|].
  unfold render_loop. rewrite Hp. cbn [mbind Res_bind lift]. fold L start n.
  pose proof (wf_Forall _ Hwf) as Hall. pose proof (wf_vector _ Hwf) as Hv.
  pose proof (wf_size _ Hwf) as HL.
  destruct (clipped e L) eqn:Ecl.
  - unfold silence_at. rewrite Hp. cbn [mbind Res_bind lift].
    rewrite silenceBuffers_spec by done. cbn [mbind Res_bind].
    erewrite (render_samples_spec _ p out L n start e _
                (replicate (length (_buffers out)) (generateSilentBuffer L)) vs e' r');
      try done.
    + cbn [heap random set_heap set_random]. rewrite insert_insert_eq.
      do 2 f_equal. unfold set_heap, set_random. cbn. do 3 f_equal.
      rewrite fmap_replicate. symmetry. by apply const_fmap.
    + cbn. by rewrite lookup_insert_eq.
    + by rewrite length_replicate.
    + apply Forall_replicate. unfold generateSilentBuffer.
      rewrite length_replicate. lia.
  - cbn [mbind Res_bind].
    erewrite (render_samples_spec _ p out L n start e w (_buffers out) vs e' r');
      try done.
    by rewrite set_buffers_id.
Qed.
End RenderLoop.

(** ** The two oscillators *)

Section Voices.
Context {FO : FloatOps} {CO : Collaborators} {EP : EngineProps}.

Lemma kept_volume e e' : kept e e' → _volume e' = _volume e.
Proof. intros Hk. apply kept_eq in Hk. tauto. Qed.

Lemma kept_osc2_None e e' : kept e e' → _osc2 e = None → _osc2 e' = None.
Proof. intros Hk Ho. apply kept_eq in Hk. rewrite Ho in Hk. tauto. Qed.

Lemma kept_osc2_Some e e' o :
  kept e e' → _osc2 e = Some o → ∃ o', _osc2 e' = Some o' ∧ kept o o'.
Proof. intros Hk Ho. apply kept_eq in Hk. rewrite Ho in Hk. tauto. Qed.

Lemma kept_window e e' L :
  kept e e' →
  renderStartOffset e' = renderStartOffset e ∧ renderEndOffset e' L = renderEndOffset e L
  ∧ clipped e' L = clipped e L ∧ hasParent e' = hasParent e.
Proof.
  intros Hk. apply kept_eq in Hk as (Hb & Hc & Hs & Hp & _).
  unfold renderEndOffset, clipped, renderStartOffset, maxSampleIndex.
  by rewrite Hb, Hc, Hs, Hp.
Qed.

Lemma amplitudes_kept n : ∀ i e r,
  ring_ready e →
  ∃ l e' r', amplitudes n i e r = Ok (l, e', r') ∧ kept e e' ∧ length l = n.
Proof.
  induction n as [|n IH]; intros i e r Hr.
  - eexists _, _, _. split; [reflexivity|]. split; [apply kept_refl|done].
  - cbn [amplitudes].
    destruct (next_amplitude_kept i e r Hr) as (a & e1 & r1 & -> & H1).
    cbn [mbind Res_bind].
    destruct (IH (i + 1) e1 r1 (kept_ring_ready _ _ H1 Hr)) as (l & e2 & r2 & -> & H2 & Hl).
    cbn [mbind Res_bind]. eexists _, _, _. split; [reflexivity|].
    split; [by eapply kept_trans|]. cbn. by rewrite Hl.
Qed.

(** The stored values are the amplitudes, halved when the event has a
    secondary oscillator, times the volume. *)
Lemma sample_values_amplitudes b n : ∀ i e r l e' r',
  ring_ready e →
  amplitudes n i e r = Ok (l, e', r') →
  sample_values n b i e r = Ok ((λ a, voice_sample b a (_volume e)) <$> l, e', r').
Proof.
  induction n as [|n IH]; intros i e r l e' r' Hr Ha.
  - cbn in Ha. injection Ha as <- <- <-. done.
  - cbn [amplitudes] in Ha. cbn [sample_values]. unfold next_sample.
    destruct (next_amplitude_kept i e r Hr) as (a & e1 & r1 & Hn & H1).
    rewrite Hn in Ha. rewrite Hn. cbn [mbind Res_bind] in *.
    destruct (amplitudes n (i + 1) e1 r1) as [[[l1 e2] r2]| |] eqn:Ha1; try discriminate.
    injection Ha as <- <- <-.
    rewrite (IH (i + 1) e1 r1 l1 e2 r2 (kept_ring_ready _ _ H1 Hr) Ha1).
    cbn [mbind Res_bind]. by rewrite (kept_volume _ _ H1).
Qed.

Lemma wf_set_buffers (b : AudioBuffer) bs :
  wf_buffer b → length bs = length (_buffers b) →
  Forall (λ t, Z.of_nat (length t) = bufferSize b) bs →
  wf_buffer (set_buffers b bs).
Proof.
  intros [Hc Hs Hv Ha Hb] Hl Hall. constructor; cbn; try done.
  - by rewrite Hl.
  - intros c ch Hch. by apply (proj1 (Forall_lookup _ _) Hall c ch).
Qed.

Lemma AudioBuffer_new_wf ch L :
  1 ≤ ch ≤ Int.INT_MAX → 0 ≤ L → 4 * (ch * L) ≤ Int.INT_MAX →
  ∃ b, AudioBuffer_new ch L = Ok b ∧ wf_buffer b
       ∧ amountOfChannels b = ch ∧ bufferSize b = L
       ∧ _buffers b = replicate (Z.to_nat ch) (generateSilentBuffer L).
Proof.
  intros Hc HL Hb. unfold AudioBuffer_new.
  destruct (ch <? 0) eqn:E1; [apply Z.ltb_lt in E1; lia|].
  destruct (L <? 0) eqn:E2; [apply Z.ltb_lt in E2; lia|]. cbn.
  eexists. split; [reflexivity|]. split; [|done].
  constructor; cbn; try done.
  - rewrite length_replicate. lia.
  - intros c t Ht. apply lookup_replicate in Ht as [-> _].
    unfold generateSilentBuffer. rewrite length_replicate. lia.
Qed.
End Voices.

Section TwoVoices.
Context {FO : FloatOps} {CO : Collaborators} {EP : EngineProps}.

(** The render of a secondary oscillator: the loop, no envelope, and the
    end of [render] without a restart. *)
Lemma render_child_spec fuel o p w out :
  heap w !! p = Some out → wf_buffer out →
  _osc2 o = None → hasParent o = true →
  ring_ready o → _cancel (cacheable o) = false →
  let L := bufferSize out in
  let start := renderStartOffset o in
  let n := Z.to_nat (renderEndOffset o L - start) in
  0 ≤ start → start + Z.of_nat n ≤ L →
  ∃ vs o' r' o'',
    sample_values n false start o (random w) = Ok (vs, o', r')
    ∧ length vs = n ∧ kept o o'
    ∧ render (S fuel) o p w
      = Ok (o'',
            set_heap
              (<[p := set_buffers out
                        ((λ t, spliced (if clipped o L then generateSilentBuffer L else t)
                                       (Z.to_nat start) vs) <$> _buffers out)]> (heap w))
              (set_random r' w)).
Proof.
  intros Hp Hwf Ho Hpar Hr Hc L start n Hs Hn.
  destruct (render_loop_spec o p w out Hp Hwf Hr Hc Hs Hn)
    as (vs & o' & r' & Hvs & Hl & Hk & Hrun).
  fold L start n in Hvs, Hl, Hrun.
  rewrite Ho in Hvs. rewrite bool_decide_eq_false_2 in Hvs by (by intros [? ?]).
  pose proof (kept_cacheable _ _ Hk) as Hca.
  apply kept_eq in Hk as Hk'. destruct Hk' as (_ & _ & _ & Hp' & _).
  assert (Hepi : ∃ o'', render_epilogue (render fuel) (start + Z.of_nat n) (maxSampleIndex o) o'
                          (set_heap
                             (<[p := set_buffers out
                                  ((λ t, spliced (if clipped o L then generateSilentBuffer L
                                                  else t) (Z.to_nat start) vs)
                                     <$> _buffers out)]> (heap w)) (set_random r' w))
                        = Ok (o'', set_heap
                             (<[p := set_buffers out
                                  ((λ t, spliced (if clipped o L then generateSilentBuffer L
                                                  else t) (Z.to_nat start) vs)
                                     <$> _buffers out)]> (heap w)) (set_random r' w))).
  { unfold render_epilogue. destruct (EVENT_CACHING && isSequenced o').
    - change (_cancel (cacheable (upd_cacheable (set_caching false) o')))
        with (_cancel (cacheable o')).
      rewrite Hca, Hc. cbn [mbind Res_bind]. by eexists.
    - cbn [mbind Res_bind]. by eexists. }
  destruct Hepi as (o'' & Hepi).
  exists vs, o', r', o''. split; [done|]. split; [done|]. split; [done|].
  cbn [render]. unfold render_with, render_voices. rewrite Hp. cbn [mbind Res_bind lift].
  rewrite Hrun. cbn [mbind Res_bind].
  rewrite Ho. rewrite bool_decide_eq_false_2 by (by intros [? ?]).
  cbn [render_osc2 andb mbind Res_bind].
  unfold render_envelope. rewrite Hp', Hpar. cbn [mbind Res_bind].
  exact Hepi.
Qed.

Lemma length_spliced_window (t : list SAMPLE_TYPE) L start vs c :
  0 ≤ start → start + Z.of_nat (length vs) ≤ L → Z.of_nat (length t) = L →
  Z.of_nat (length (spliced (if c : bool then generateSilentBuffer L else t)
                            (Z.to_nat start) vs)) = L.
Proof.
  intros Hs Hn Ht.
  assert (Hsil : Z.of_nat (length (generateSilentBuffer L)) = L).
  { unfold generateSilentBuffer. rewrite length_replicate. lia. }
  rewrite length_spliced; destruct c; lia.
Qed.

(** C3 (amended).  When an event has a secondary oscillator (which has
    none of its own) and no cancellation is requested, [render] scales the
    event's own amplitudes by 0.5 and by its volume before it writes them;
    the amplitudes of the secondary oscillator are written into a
    temporary buffer scaled by its volume only, and that buffer is merged
    into the output from the render start on with gain MAX_PHASE.  A
    rendered sample is [a1 * .5 * volume1 + (a2 * volume2) * MAX_PHASE]:
    the secondary oscillator is not halved.  The buffers have the
    constructor's shape and hold the windows of the two loops. *)
Theorem render_voices_osc2_unscaled fuel e o p w out :
  heap w !! p = Some out → wf_buffer out →
  _osc2 e = Some o → _osc2 o = None → hasParent o = true →
  ring_ready e → ring_ready o →
  _cancel (cacheable e) = false → _cancel (cacheable o) = false →
  let L := bufferSize out in
  let start := renderStartOffset e in
  let stop := renderEndOffset e L in
  let T := if EVENT_CACHING && isSequenced e then stop - start else L in
  let start2 := renderStartOffset o in
  let stop2 := renderEndOffset o T in
  0 ≤ start ≤ stop → stop ≤ L →
  0 ≤ start2 → start2 + Z.of_nat (Z.to_nat (stop2 - start2)) ≤ T →
  ∃ a1 a2 e1 o1 o2 o3 r1 r2,
    amplitudes (Z.to_nat (stop - start)) start e (random w) = Ok (a1, e1, r1)
    ∧ _osc2 e1 = Some o1
    ∧ amplitudes (Z.to_nat (stop2 - start2)) start2 o1 r1 = Ok (a2, o2, r2)
    ∧ render_voices (render (S fuel)) e p w
      = Ok (stop, set_osc2 (Some o3) e1,
            set_heap
              (<[p := set_buffers out
                   ((λ t, mixed
                            (spliced (if clipped e L then generateSilentBuffer L else t)
                                     (Z.to_nat start)
                                     ((λ a, (a * dec 5 1 * _volume e)%F) <$> a1))
                            (spliced (generateSilentBuffer T) (Z.to_nat start2)
                                     ((λ a, (a * _volume o)%F) <$> a2))
                            (Z.to_nat start) 0 (Z.to_nat (Z.min T (L - start))) MAX_PHASE)
                      <$> _buffers out)]> (heap w))
              (set_random r2 w)).
Proof.
  intros Hp Hwf Ho Hoo Hpar Hr Hro Hc Hco L start stop T start2 stop2 Hs HL Hs2 Hn2.
  destruct (wf_bounds _ Hwf) as (HLb & Hch & Hbytes). fold L in HLb, Hbytes.
  assert (Hn1 : start + Z.of_nat (Z.to_nat (stop - start)) ≤ L) by lia.
  (* the loop of the event *)
  destruct (amplitudes_kept (Z.to_nat (stop - start)) start e (random w) Hr)
    as (a1 & e1 & r1 & Ha1 & Hk1 & Hl1).
  destruct (render_loop_spec e p w out Hp Hwf Hr Hc (proj1 Hs) Hn1)
    as (vs1 & e1' & r1' & Hvs1 & Hlv1 & _ & Hrun1).
  fold L start stop in Hvs1, Hlv1, Hrun1.
  rewrite (sample_values_amplitudes _ _ _ _ _ _ _ _ Hr Ha1) in Hvs1.
  injection Hvs1 as <- <- <-.
  rewrite Ho in Hrun1. rewrite bool_decide_eq_true_2 in Hrun1 by (by eexists).
  replace (start + Z.of_nat (Z.to_nat (stop - start))) with stop in Hrun1 by lia.
  destruct (kept_osc2_Some _ _ _ Hk1 Ho) as (o1 & Ho1 & Hko).
  destruct (kept_window o o1 T Hko) as (Hst2 & Hend2 & Hclip2 & Hpar1).
  pose proof (kept_cacheable _ _ Hk1) as Hca1.
  apply kept_eq in Hk1 as Hk1'. destruct Hk1' as (_ & _ & Hseq1 & _).
  (* the temporary buffer *)
  assert (HT : 0 ≤ T ≤ L).
  { unfold T. destruct (EVENT_CACHING && isSequenced e); lia. }
  assert (HTcode : (if EVENT_CACHING && isSequenced e1
                    then Int.sub stop (_cacheWriteIndex (cacheable e1)) else L) = T).
  { unfold T. rewrite Hseq1, Hca1. destruct (EVENT_CACHING && isSequenced e) eqn:Emode; [|done].
    assert (Hst : start = _cacheWriteIndex (cacheable e)).
    { unfold start, renderStartOffset. by rewrite Emode. }
    rewrite <- Hst. apply sub_fits. unfold Int.fits, Int.INT_MIN, Int.INT_MAX. lia. }
  (* the loop of the secondary oscillator *)
  destruct (amplitudes_kept (Z.to_nat (stop2 - start2)) start2 o1 r1
              (kept_ring_ready _ _ Hko Hro)) as (a2 & o2 & r2 & Ha2 & Hk2 & Hl2).
  set (P := (λ t, spliced (if clipped e L then generateSilentBuffer L else t) (Z.to_nat start)
                          ((λ a, voice_sample true a (_volume e)) <$> a1)) <$> _buffers out).
  set (h1 := <[p := set_buffers out P]> (heap w)).
  destruct (AudioBuffer_new_wf (amountOfChannels out) T) as (sil & Hnew & Hwsil & Hcs & HLs & Hbs);
    [done|lia|unfold Int.INT_MAX; nia|].
  set (temp := fresh (dom h1)).
  assert (Htemp : h1 !! temp = None).
  { apply not_elem_of_dom. apply is_fresh. }
  assert (Hne : p ≠ temp).
  { intros Heq. rewrite <- Heq in Htemp. unfold h1 in Htemp.
    by rewrite lookup_insert_eq in Htemp. }
  edestruct (render_child_spec fuel o1 temp
               (set_heap (<[temp := sil]> h1) (set_heap h1 (set_random r1 w))) sil)
    as (vs2 & o2' & r2' & o3 & Hvs2 & Hlv2 & _ & Hrun2).
  { cbn. by rewrite lookup_insert_eq. }
  { done. }
  { by eapply kept_osc2_None. }
  { congruence. }
  { by eapply kept_ring_ready. }
  { by rewrite (kept_cacheable _ _ Hko). }
  { by rewrite Hst2. }
  { rewrite HLs, Hst2, Hend2. exact Hn2. }
  rewrite HLs, Hst2 in Hvs2, Hlv2, Hrun2. rewrite Hend2 in Hvs2, Hlv2.
  fold start2 stop2 in Hvs2, Hlv2, Hrun2.
  cbn [random set_heap set_random] in Hvs2.
  rewrite (sample_values_amplitudes _ _ _ _ _ _ _ _ (kept_ring_ready _ _ Hko Hro) Ha2) in Hvs2.
  injection Hvs2 as <- <- <-.
  exists a1, a2, e1, o1, o2, o3, r1, r2. split; [done|]. split; [done|]. split; [done|].
  unfold render_voices. rewrite Hp. cbn [mbind Res_bind lift]. fold L start stop.
  rewrite Hrun1. cbn [mbind Res_bind].
  rewrite Ho. rewrite bool_decide_eq_true_2 by (by eexists).
  unfold render_osc2. rewrite Hca1, Hc. cbn [andb negb].
  rewrite <- Hca1. rewrite HTcode.
  cbn [heap set_heap]. fold P. fold h1.
  assert (Hh1 : h1 !! p = Some (set_buffers out P)) by (unfold h1; by rewrite lookup_insert_eq).
  rewrite Hh1.
  cbn [mbind Res_bind lift].
  change (amountOfChannels (set_buffers out P)) with (amountOfChannels out).
  unfold new_AudioBuffer. rewrite Hnew.
  cbn [mbind Res_bind heap set_heap random set_random]. fold temp.
  rewrite Ho1. cbn [mbind Res_bind lift].
  rewrite Hrun2. cbn [mbind Res_bind heap set_heap random set_random].
  rewrite insert_insert_eq.
  set (Tb := (λ t, spliced (if clipped o1 T then generateSilentBuffer T else t)
                           (Z.to_nat start2)
                           ((λ a, voice_sample false a (_volume o1)) <$> a2)) <$> _buffers sil).
  set (h3 := <[temp := set_buffers sil Tb]> h1).
  destruct (mergeBuffers_min p temp start MAX_PHASE h3 (set_buffers out P) (set_buffers sil Tb))
    as (bs' & Hmerge & _ & Hbs').
  { unfold h3, h1. rewrite lookup_insert_ne by done. by rewrite lookup_insert_eq. }
  { unfold h3. by rewrite lookup_insert_eq. }
  { apply wf_set_buffers; [done|unfold P; by rewrite length_fmap|].
    unfold P. apply Forall_fmap. eapply Forall_impl; [apply (wf_Forall _ Hwf)|].
    intros t Ht. unfold compose. cbn beta in *. fold L in Ht.
    apply length_spliced_window; [lia| |done]. rewrite length_fmap, Hl1. lia. }
  { apply wf_set_buffers; [done|unfold Tb; by rewrite length_fmap|].
    unfold Tb. apply Forall_fmap. eapply Forall_impl; [apply (wf_Forall _ Hwsil)|].
    intros t Ht. unfold compose. cbn beta in *. rewrite HLs in *.
    apply length_spliced_window; [lia| |done]. rewrite length_fmap, Hl2. lia. }
  { cbn. lia. }
  { cbn. fold L. lia. }
  rewrite Hmerge. cbn [mbind Res_bind].
  rewrite (Hbs' Hne). cbn [bufferSize set_buffers _buffers].
  do 2 f_equal. unfold set_heap, set_random. cbn. f_equal.
  (* the heap *)
  unfold h3, h1.
  rewrite delete_insert_ne by done. rewrite delete_insert_eq.
  fold h1. rewrite (delete_id h1) by done. unfold h1. rewrite insert_insert_eq.
  f_equal. change (set_buffers (set_buffers out P) ?x) with (set_buffers out x). f_equal.
  rewrite HLs. fold L.
  unfold mixed_buffers. apply list_eq. intros j.
  rewrite list_lookup_imap. unfold P, Tb. rewrite !list_lookup_fmap.
  destruct (_buffers out !! j) as [t|] eqn:Ej; [|done]. cbn [fmap option_fmap option_map].
  pose proof (lookup_lt_Some _ _ _ Ej) as Hj.
  rewrite Hbs. rewrite lookup_replicate_2 by (pose proof (wf_vector _ Hwf); lia).
  cbn [fmap option_fmap option_map]. f_equal.
  rewrite (kept_volume _ _ Hko).
  replace (if clipped o1 T then generateSilentBuffer T else generateSilentBuffer T)
    with (generateSilentBuffer T) by (by destruct (clipped o1 T)).
  done.
Qed.
End TwoVoices.

Section Streaming.
Context {FO : FloatOps} {CO : Collaborators} {EP : EngineProps}.
Hypothesis streaming : EVENT_CACHING = false.

Lemma renderStartOffset_streaming e : renderStartOffset e = 0.
Proof. unfold renderStartOffset. by rewrite streaming. Qed.

Lemma window_streaming e L :
  0 ≤ L ≤ Int.INT_MAX →
  Z.of_nat (Z.to_nat (renderEndOffset e L - renderStartOffset e)) ≤ L
  ∧ Z.to_nat (renderEndOffset e L - renderStartOffset e) = Z.to_nat (renderEndOffset e L).
Proof.
  intros HL. unfold renderEndOffset, clipped. rewrite renderStartOffset_streaming.
  rewrite (add_fits 0 L) by (unfold Int.fits, Int.INT_MIN; lia).
  rewrite Z.add_0_l, Z.sub_0_r.
  destruct (maxSampleIndex e <? L) eqn:E.
  - apply Z.ltb_lt in E. split; [lia|done].
  - split; [lia|done].
Qed.

(** The first part of [render] when the engine streams. *)
Lemma render_loop_streaming e p w out :
  heap w !! p = Some out → wf_buffer out →
  ring_ready e → _cancel (cacheable e) = false →
  let L := bufferSize out in
  let n := Z.to_nat (renderEndOffset e L) in
  ∃ vs e' r',
    sample_values n (bool_decide (is_Some (_osc2 e))) 0 e (random w) = Ok (vs, e', r')
    ∧ length vs = n ∧ kept e e'
    ∧ render_loop e p w
      = Ok (Z.of_nat n, e',
            set_heap
              (<[p := set_buffers out
                        ((λ t, spliced (if clipped e L then generateSilentBuffer L else t)
                                       0 vs) <$> _buffers out)]> (heap w))
              (set_random r' w)).
Proof.
  intros Hp Hwf Hr Hc L n.
  destruct (wf_bounds _ Hwf) as (HL & _ & _).
  destruct (window_streaming e L) as [Hwin Hn]; [unfold L, Int.INT_MAX; lia|].
  destruct (render_loop_spec e p w out Hp Hwf Hr Hc) as (vs & e' & r' & Hvs & Hl & Hk & Hrun).
  - rewrite renderStartOffset_streaming. lia.
  - fold L. rewrite renderStartOffset_streaming in *. lia.
  - fold L in Hvs, Hl, Hrun. rewrite Hn in Hvs, Hl, Hrun.
    rewrite renderStartOffset_streaming in Hvs, Hrun. fold n in Hvs, Hl, Hrun.
    exists vs, e', r'. by rewrite Z.add_0_l in Hrun.
Qed.
End Streaming.

(** ** The geometry of a sequenced event *)

Section Geometry.
Context {FO : FloatOps} {CO : Collaborators} {EP : EngineProps}.

(** Whatever the synthesis loop returns, it has not touched the fields of
    [BaseAudioEvent] nor the kind of the event. *)
Lemma generate_base i e r amp e' r' :
  generate i e r = Ok (amp, e', r') →
  base e' = base e ∧ isSequenced e' = isSequenced e.
Proof.
  unfold generate. destruct (_type e).
  1-5: by intros [= <- <- <-].
  - destruct (randomFloat r). by intros [= <- <- <-].
  - destruct (_ringBuffer e) as [rb|]; [|discriminate]. cbn [lift mbind Res_bind].
    destruct (dequeue rb). by intros [= <- <- <-].
Qed.

Lemma next_amplitude_base i e r amp e' r' :
  next_amplitude i e r = Ok (amp, e', r') →
  base e' = base e ∧ isSequenced e' = isSequenced e.
Proof.
  unfold next_amplitude.
  destruct (generate i e r) as [[[a e1] r1]| |] eqn:Eg; try discriminate.
  apply generate_base in Eg as [Hb Hs]. cbn [mbind Res_bind].
  set (e2 := match _type e1 with PWM => _ | _ => _ end).
  assert (H2 : base e2 = base e ∧ isSequenced e2 = isSequenced e).
  { unfold e2. destruct (_type e1); try done;
      match goal with |- context [if ?c then _ else _] => by destruct c end. }
  destruct H2 as [Hb2 Hs2].
  destruct (_arpeggiator e2) as [a0|]; [|by intros [= <- <- <-]].
  destruct (Arpeggiator_peek a0) as [stepped a1]. destruct stepped.
  - match goal with |- context [setFrequency ?f ?al ?st ?ev ?rv] =>
      pose proof (setFrequency_kept f al st ev rv) as Hk;
      destruct (setFrequency f al st ev rv) as [e3 r3] end.
    intros [= <- <- <-]. cbn [fst] in Hk. apply kept_eq in Hk as (Hb3 & _ & Hs3 & _).
    split; [by rewrite Hb3|by rewrite Hs3].
  - by intros [= <- <- <-].
Qed.

Lemma render_sample_base b p i e w e' w' :
  render_sample b p i e w = Ok (e', w') →
  base e' = base e ∧ isSequenced e' = isSequenced e.
Proof.
  unfold render_sample, next_sample.
  destruct (next_amplitude i e (random w)) as [[[a e1] r1]| |] eqn:Ea; try discriminate.
  apply next_amplitude_base in Ea. cbn [mbind Res_bind].
  destruct (heap w !! p) as [out|]; [|discriminate]. cbn [lift mbind Res_bind].
  destruct (write_channels _ _ _ _ _ _); try discriminate. cbn [mbind Res_bind].
  by intros [= <- <-].
Qed.

Lemma render_samples_base b p n : ∀ i e w j e' w',
  render_samples n b p i e w = Ok (j, e', w') →
  base e' = base e ∧ isSequenced e' = isSequenced e.
Proof.
  induction n as [|n IH]; intros i e w j e' w'; cbn [render_samples].
  - by intros [= <- <- <-].
  - destruct (render_sample b p i e w) as [[e1 w1]| |] eqn:Es; try discriminate.
    apply render_sample_base in Es as [Hb Hs]. cbn [mbind Res_bind].
    destruct (_cancel (cacheable e1)); [by intros [= <- <- <-]|].
    intros Hrun. apply IH in Hrun as [Hb' Hs']. split; congruence.
Qed.

Lemma render_loop_base e p w j e' w' :
  render_loop e p w = Ok (j, e', w') →
  base e' = base e ∧ isSequenced e' = isSequenced e.
Proof.
  unfold render_loop. destruct (heap w !! p) as [out|]; [|discriminate].
  cbn [lift mbind Res_bind].
  match goal with |- context [if ?c then silence_at p w else Ok w] =>
    destruct (if c then silence_at p w else Ok w) as [w1| |]; try discriminate end.
  cbn [mbind Res_bind]. apply render_samples_base.
Qed.

Lemma resetCache_base e :
  base (resetCache e) = base e ∧ isSequenced (resetCache e) = isSequenced e
  ∧ hasParent (resetCache e) = hasParent e.
Proof. destruct e as [? ? ? ? ? ? ? ? ? ? ? ? ? ? ? ? ? ? ? ? ? ? ? ? [o|]]; done. Qed.

Lemma destroyBuffer_base e w :
  _sampleStart (base (destroyBuffer e w).1) = _sampleStart (base e)
  ∧ _sampleEnd (base (destroyBuffer e w).1) = _sampleEnd (base e)
  ∧ _sampleLength (base (destroyBuffer e w).1) = _sampleLength (base e)
  ∧ isSequenced (destroyBuffer e w).1 = isSequenced e.
Proof. unfold destroyBuffer. by destruct (_buffer (base e)). Qed.

Section Restart.
Variable render_rec : SynthEvent → nat → World → Res (SynthEvent * World).
Hypothesis render_rec_geometry : ∀ e p w e' w',
  render_rec e p w = Ok (e', w') →
  isSequenced e = true → geometry_holds e →
  isSequenced e' = true ∧ geometry_holds e'.

Lemma calculateBuffers_with_geometry e w e' w' :
  calculateBuffers_with render_rec e w = Ok (e', w') →
  isSequenced e = true →
  _locked (base e) = false ∨ geometry_holds e →
  isSequenced e' = true ∧ geometry_holds e'.
Proof.
  intros Hrun Hseq Hpre. unfold calculateBuffers_with in Hrun.
  destruct (_locked (base e)) eqn:El.
  { injection Hrun as <- <-. destruct Hpre as [?|Hg]; [done|]. by split. }
  rewrite Hseq in Hrun.
  match type of Hrun with context [set_adsr ?a ?ev] => set (e1 := set_adsr a ev) in Hrun end.
  assert (H1 : isSequenced e1 = true ∧ geometry_holds e1).
  { split; [by destruct (_caching (cacheable e))|].
    unfold geometry_holds, e1. cbn. apply sub_add_cancel, wrap_range. }
  clearbody e1.
  match type of Hrun with (?m ≫= _) = _ =>
    assert (H2 : ∀ e2 w2, m = Ok (e2, w2) → isSequenced e2 = true ∧ geometry_holds e2);
    [|destruct m as [[e2 w2]| |]; try discriminate;
      specialize (H2 e2 w2 eq_refl); cbn [mbind Res_bind] in Hrun] end.
  { intros e2 w2.
    match goal with |- context [if ?c then _ else _] => destruct c end;
      [|by intros [= <- <-]].
    pose proof (destroyBuffer_base e1 w) as (Hs & He & Hl & Hq).
    destruct (destroyBuffer e1 w) as [e1' w1']. cbn [fst] in *.
    assert (H1' : isSequenced e1' = true ∧ geometry_holds e1').
    { destruct H1 as [H1 H1g]. split; [congruence|].
      unfold geometry_holds in *. congruence. }
    destruct (hasParent e1'); [by intros [= <- <-]|].
    destruct (new_AudioBuffer _ _ _) as [[p w3]| |]; try discriminate.
    cbn [mbind Res_bind]. by intros [= <- <-]. }
  destruct H2 as [Hq2 Hg2]. rewrite Hq2 in Hrun.
  match type of Hrun with context [match _type e2 with _ => _ end] =>
    set (kr := match _type e2 with KARPLUS_STRONG => initKarplusStrong e2 (random w2)
                              | _ => (e2, random w2) end) in Hrun end.
  assert (H3 : isSequenced kr.1 = true ∧ geometry_holds kr.1).
  { unfold kr. destruct (_type e2); try done.
    destruct (initKarplusStrong_keeps e2 (random w2)) as (Hb & _ & _ & Hs & _).
    split; [congruence|]. unfold geometry_holds. by rewrite Hb. }
  destruct kr as [e3 r3]. cbn [fst] in H3. destruct H3 as [Hq3 Hg3].
  destruct EVENT_CACHING; [|by injection Hrun as <- <-].
  destruct (resetCache_base e3) as (Hb4 & Hq4 & _).
  assert (H4 : isSequenced (resetCache e3) = true ∧ geometry_holds (resetCache e3)).
  { split; [congruence|]. unfold geometry_holds. by rewrite Hb4. }
  destruct (_autoCache (cacheable (resetCache e3)) && negb (hasParent (resetCache e3)));
    [|by injection Hrun as <- <-].
  destruct (negb (_caching (cacheable (resetCache e3))));
    [|by injection Hrun as <- <-].
  unfold cache_with in Hrun.
  destruct (_buffer (base (resetCache e3))) as [p|] eqn:Eb; [|by injection Hrun as <- <-].
  unfold doCache_with in Hrun.
  change (base (upd_cacheable (set_caching true) (resetCache e3)))
    with (base (resetCache e3)) in Hrun.
  rewrite Eb in Hrun. cbn [lift mbind Res_bind] in Hrun.
  apply render_rec_geometry in Hrun; [done|apply H4|].
  unfold geometry_holds. apply H4.
Qed.

Lemma render_with_geometry e p w e' w' :
  render_with render_rec e p w = Ok (e', w') →
  isSequenced e = true → geometry_holds e →
  isSequenced e' = true ∧ geometry_holds e'.
Proof.
  intros Hrun Hseq Hg. unfold render_with, render_voices in Hrun.
  destruct (heap w !! p) as [out|]; [|discriminate]. cbn [lift mbind Res_bind] in Hrun.
  destruct (render_loop e p w) as [[[i e1] w1]| |] eqn:El; try discriminate.
  apply render_loop_base in El as [Hb1 Hq1]. cbn [mbind Res_bind] in Hrun.
  match type of Hrun with context [render_osc2 ?r ?a ?b ?c ?d ?ev ?pv ?wv] =>
    destruct (render_osc2 r a b c d ev pv wv) as [[e2 w2]| |] eqn:Eo; try discriminate end.
  cbn [mbind Res_bind] in Hrun.
  assert (H2 : base e2 = base e ∧ isSequenced e2 = isSequenced e).
  { unfold render_osc2 in Eo.
    match type of Eo with (if ?c then _ else _) = _ => destruct c end;
      [|by injection Eo as <- <-].
    destruct (heap w1 !! p) as [out1|]; [|discriminate]. cbn [lift mbind Res_bind] in Eo.
    destruct (new_AudioBuffer _ _ _) as [[t w3]| |]; try discriminate.
    cbn [mbind Res_bind] in Eo.
    destruct (_osc2 e1) as [o|]; [|discriminate]. cbn [lift mbind Res_bind] in Eo.
    destruct (render_rec o t w3) as [[o' w4]| |]; try discriminate.
    cbn [mbind Res_bind] in Eo.
    destruct (mergeBuffers _ _ _ _ _ _) as [[h k]| |]; try discriminate.
    cbn [mbind Res_bind] in Eo. by injection Eo as <- <-. }
  destruct H2 as [Hb2 Hq2].
  destruct (render_envelope i e2 p w2) as [[e3 w3]| |] eqn:Ee; try discriminate.
  cbn [mbind Res_bind] in Hrun.
  assert (H3 : base e3 = base e ∧ isSequenced e3 = isSequenced e).
  { unfold render_envelope in Ee. destruct (hasParent e2); [by injection Ee as <- <-|].
    destruct (heap w2 !! p) as [out2|]; [|discriminate]. cbn [lift mbind Res_bind] in Ee.
    destruct (ADSR_apply _ _ _). by injection Ee as <- <-. }
  destruct H3 as [Hb3 Hq3].
  assert (H3 : isSequenced e3 = true ∧ geometry_holds e3).
  { split; [congruence|]. unfold geometry_holds. by rewrite Hb3. }
  unfold render_epilogue in Hrun.
  match type of Hrun with (?m ≫= _) = _ =>
    assert (H4 : ∀ e4 w4, m = Ok (e4, w4) → isSequenced e4 = true ∧ geometry_holds e4);
    [|destruct m as [[e4 w4]| |]; try discriminate;
      specialize (H4 e4 w4 eq_refl); cbn [mbind Res_bind] in Hrun;
      by injection Hrun as <- <-] end.
  intros e4 w4. destruct (EVENT_CACHING && isSequenced e3); [|by intros [= <- <-]].
  match goal with |- context [if ?c then _ else _] => destruct c end.
  - intros Hc. apply calculateBuffers_with_geometry in Hc; [done|apply H3|].
    right. apply H3.
  - intros [= <- <-].
    repeat match goal with |- context [if ?c then _ else _] => destruct c end; done.
Qed.
End Restart.

Lemma render_geometry fuel : ∀ e p w e' w',
  render fuel e p w = Ok (e', w') →
  isSequenced e = true → geometry_holds e →
  isSequenced e' = true ∧ geometry_holds e'.
Proof.
  induction fuel as [|fuel IH]; intros e p w e' w'; [discriminate|].
  cbn [render]. by apply render_with_geometry.
Qed.

Lemma setFrequency_base f all store e r :
  base (setFrequency f all store e r).1 = base e
  ∧ isSequenced (setFrequency f all store e r).1 = isSequenced e.
Proof.
  pose proof (setFrequency_kept f all store e r) as Hk.
  apply kept_eq in Hk as (Hb & _ & Hs & _). done.
Qed.

Lemma applyModules_base ins e r :
  base (applyModules ins e r).1 = base e
  ∧ isSequenced (applyModules ins e r).1 = isSequenced e.
Proof.
  destruct e as [b c po le sq hp ty fr bf ph pi vo pw tp pr pa ed ml hm qd rb rs ar ad o2].
  cbn [applyModules]. cbv zeta.
  match goal with |- context [if arpeggiatorActive ins then ?a else ?b] =>
    set (e1 := if arpeggiatorActive ins then a else b) end.
  assert (H1 : base e1 = b ∧ isSequenced e1 = sq) by (unfold e1; by destruct (arpeggiatorActive ins)).
  clearbody e1.
  destruct H1 as [Hb1 Hs1].
  destruct o2 as [o|]; [destruct (applyModules ins o r) as [o' r2]|].
  all: match goal with |- context [_arpeggiator ?E] => set (e2 := E) end.
  all: assert (Hb2 : base e2 = b) by done.
  all: assert (Hs2 : isSequenced e2 = sq) by done.
  all: clearbody e2.
  all: cbn [base isSequenced].
  all: destruct (_arpeggiator e2) as [a|].
  all: try (match goal with |- context [setFrequency ?f true false ?ev ?rv] =>
      destruct (setFrequency_base f true false ev rv) as [Hb Hs] end;
    split; congruence).
  all: match goal with |- context [setFrequency ?f false true ?ev ?rv] =>
      destruct (setFrequency_base f false true ev rv) as [Hb Hs];
      destruct (setFrequency f false true ev rv) as [e3 r4] end.
  all: cbn [fst] in Hb, Hs.
  all: (destruct (_osc2 e3) as [o3|]; [|split; cbn [fst]; congruence]).
  all: destruct (setFrequency _ _ _ o3 r4); cbn; split; congruence.
Qed.

Lemma createOSC2_with_base mk aPosition aLength ins e w e' w' :
  createOSC2_with mk aPosition aLength ins e w = Ok (e', w') →
  base e' = base e ∧ isSequenced e' = isSequenced e.
Proof.
  unfold createOSC2_with. destruct (osc2active ins); [|by intros [= <- <-]].
  match goal with |- (?m ≫= _) = _ → _ => destruct m as [[o w1]| |]; try discriminate end.
  cbn [mbind Res_bind]. destruct (setFrequency _ _ _ _ _) as [o1 r1].
  by intros [= <- <-].
Qed.

(** The constructor of a sequenced event leaves the equation of the
    geometry in place: [init] calls [calculateBuffers] on the event, which
    it has unlocked. *)
Lemma new_SynthEvent_geometry fuel rawBase rawCacheable rawMinLength aFrequency
      aPosition aLength aInstrument aAutoCache w e' w' :
  new_SynthEvent fuel rawBase rawCacheable rawMinLength aFrequency aPosition aLength
                 aInstrument aAutoCache w = Ok (e', w') →
  isSequenced e' = true ∧ geometry_holds e'.
Proof.
  unfold new_SynthEvent, init, init_with.
  match goal with |- context [init_fields ?a ?b ?c ?d ?f ?g ?h ?i ?j] =>
    set (e0 := init_fields a b c d f g h i j) end.
  assert (H0 : _locked (base e0) = false ∧ isSequenced e0 = true) by done.
  clearbody e0.
  match goal with |- context [if ?c then ?a else Ok (e0, w)] =>
    destruct (if c then a else Ok (e0, w)) as [[e1 w1]| |] eqn:E1; try discriminate;
    assert (H1 : base e1 = base e0 ∧ isSequenced e1 = isSequenced e0);
    [destruct c; [by apply createOSC2_with_base in E1|by injection E1 as <- <-]|] end.
  cbn [mbind Res_bind].
  destruct (setFrequency_base aFrequency true true e1 (random w1)) as [Hb2 Hs2].
  destruct (setFrequency aFrequency true true e1 (random w1)) as [e2 r2]. cbn [fst] in *.
  destruct (applyModules_base aInstrument (set_arpeggiator None e2) r2) as [Hb3 Hs3].
  destruct (applyModules aInstrument (set_arpeggiator None e2) r2) as [e3 r3].
  cbn [fst base isSequenced set_arpeggiator] in Hb3, Hs3.
  destruct (calculateBuffers fuel _ _) as [[e4 w4]| |] eqn:E4; try discriminate.
  cbn [mbind Res_bind]. intros [= <- <-].
  apply calculateBuffers_with_geometry in E4; [done|apply render_geometry| |].
  - cbn. destruct H0, H1. congruence.
  - left. cbn. destruct H0, H1. congruence.
Qed.

(** [updateProperties] and [unlock] keep it. *)
Lemma updateProperties_geometry fuel rawBase rawCacheable rawMinLength aPosition aLength
      aInstrument aState e w e' w' :
  updateProperties fuel rawBase rawCacheable rawMinLength aPosition aLength aInstrument
                   aState e w = Ok (e', w') →
  isSequenced e = true → geometry_holds e →
  isSequenced e' = true ∧ geometry_holds e'.
Proof.
  unfold updateProperties, updateProperties_with. intros Hrun Hseq Hg.
  match type of Hrun with context [createOSC2_with ?mk ?a ?b ?c ?ev ?wv] =>
    set (e0 := ev) in Hrun end.
  assert (H0 : base e0 = base e ∧ isSequenced e0 = isSequenced e) by done.
  change (set_osc2 None _) with (set_osc2 None e0) in Hrun.
  clearbody e0.
  match type of Hrun with (?m ≫= _) = _ =>
    destruct m as [[e1 w1]| |] eqn:E1; try discriminate end.
  assert (H1 : base e1 = base e0 ∧ isSequenced e1 = isSequenced e0).
  { destruct (osc2active aInstrument);
      [by apply createOSC2_with_base in E1|by injection E1 as <- <-]. }
  cbn [mbind Res_bind] in Hrun.
  destruct (applyModules_base aInstrument e1 (random w1)) as [Hb2 Hs2].
  destruct (applyModules aInstrument e1 (random w1)) as [e2 r2]. cbn [fst] in *.
  assert (H2 : isSequenced e2 = true ∧ geometry_holds e2).
  { destruct H0, H1. split; [congruence|]. unfold geometry_holds in *. congruence. }
  destruct (_caching (cacheable e2)).
  - injection Hrun as <- <-. by destruct (_osc2 e2).
  - apply calculateBuffers_with_geometry in Hrun; [done|apply render_geometry|apply H2|].
    right. apply H2.
Qed.

Lemma unlock_geometry fuel e w e' w' :
  unlock fuel e w = Ok (e', w') →
  isSequenced e = true → geometry_holds e →
  isSequenced e' = true ∧ geometry_holds e'.
Proof.
  unfold unlock. intros Hrun Hseq Hg.
  match type of Hrun with (?m ≫= _) = _ =>
    destruct m as [[e1 w1]| |] eqn:E1; try discriminate end.
  cbn [mbind Res_bind] in Hrun. injection Hrun as <- <-.
  cbn [base upd_base set_base] in E1.
  assert (H1 : isSequenced e1 = true ∧ geometry_holds e1); [|done].
  match type of E1 with (if ?c then _ else _) = _ => destruct c end.
  - apply calculateBuffers_with_geometry in E1; [done|apply render_geometry|done|].
    by right.
  - by injection E1 as <- <-.
Qed.

(** When the engine streams, [calculateBuffers] calls no [render]: it
    returns, whatever the fuel. *)
Lemma calculateBuffers_streaming_returns fuel e w :
  EVENT_CACHING = false → 0 ≤ OUTPUT_CHANNELS → 0 ≤ BUFFER_SIZE →
  ∃ e' w', calculateBuffers fuel e w = Ok (e', w').
Proof.
  intros Hs Hc Hb. unfold calculateBuffers, calculateBuffers_with.
  destruct (_locked (base e)); [by eexists _, _|].
  match goal with |- context [let '(e, oldLength) := ?m in _] => destruct m as [e1 old] end.
  rewrite Hs. cbn [andb].
  match goal with |- ∃ e' w', (?m ≫= _) = _ =>
    assert (H2 : ∃ e2 w2, m = Ok (e2, w2));
    [|destruct H2 as (e2 & w2 & ->); cbn [mbind Res_bind]] end.
  { match goal with |- context [if ?c then _ else _] => destruct c end;
      [|by eexists _, _].
    destruct (destroyBuffer _ w) as [e1' w1']. destruct (hasParent e1'); [by eexists _, _|].
    unfold new_AudioBuffer, AudioBuffer_new.
    destruct (Z.ltb_spec OUTPUT_CHANNELS 0); [lia|].
    destruct (Z.ltb_spec BUFFER_SIZE 0); [lia|].
    cbn [orb mbind Res_bind]. by eexists _, _. }
  destruct (isSequenced e2); [|by eexists _, _].
  match goal with |- context [let '(e0, r) := ?m in _] => destruct m as [e3 r3] end.
  by eexists _, _.
Qed.

(** C4.  For a sequenced event that is not locked, or that is locked and
    satisfies the equation already (every event is built by [init], which
    calls [calculateBuffers] on the unlocked event), every call of
    [calculateBuffers] that returns leaves a sequenced event with
    [_sampleEnd - _sampleStart == _sampleLength] in the arithmetic of
    [int], whatever [position], [length] and the tempo are; so the
    equation holds after any number of calls. *)
Theorem calculateBuffers_geometry fuel e w e' w' :
  isSequenced e = true →
  _locked (base e) = false ∨ geometry_holds e →
  calculateBuffers fuel e w = Ok (e', w') →
  isSequenced e' = true ∧ geometry_holds e'.
Proof.
  intros Hseq Hpre Hrun.
  apply (calculateBuffers_with_geometry (render fuel) (render_geometry fuel) e w e' w' Hrun Hseq Hpre).
Qed.
End Geometry.

(** ** The cancellation flag *)

Section Cancellation.
Context {FO : FloatOps} {CO : Collaborators} {EP : EngineProps}.

Lemma render_epilogue_clears rec i m e w e' w' :
  render_epilogue rec i m e w = Ok (e', w') → _cancel (cacheable e') = false.
Proof.
  unfold render_epilogue.
  match goal with |- (?c ≫= _) = _ → _ => destruct c as [[e1 w1]| |]; try discriminate end.
  cbn [mbind Res_bind]. by intros [= <- <-].
Qed.

(** Whatever [render] returns, the flag is cleared in it. *)
Lemma render_returned_clears fuel e p w e' w' :
  render fuel e p w = Ok (e', w') → _cancel (cacheable e') = false.
Proof.
  destruct fuel as [|fuel]; [discriminate|]. cbn [render]. unfold render_with.
  destruct (render_voices _ e p w) as [[[i e1] w1]| |]; try discriminate.
  cbn [mbind Res_bind].
  destruct (render_envelope i e1 p w1) as [[e2 w2]| |]; try discriminate.
  cbn [mbind Res_bind]. apply render_epilogue_clears.
Qed.
End Cancellation.

Section StreamingRender.
Context {FO : FloatOps} {CO : Collaborators} {EP : EngineProps}.
Hypothesis streaming : EVENT_CACHING = false.

(** When the engine streams, the render of an event without a secondary
    oscillator returns. *)
Lemma render_streaming_returns fuel e p w out :
  heap w !! p = Some out → wf_buffer out →
  _osc2 e = None → ring_ready e → _cancel (cacheable e) = false →
  ∃ e' w', render (S fuel) e p w = Ok (e', w').
Proof.
  intros Hp Hwf Ho Hr Hc.
  destruct (render_loop_streaming streaming e p w out Hp Hwf Hr Hc)
    as (vs & e1 & r1 & _ & _ & Hk & Hrun).
  cbn [render]. unfold render_with, render_voices. rewrite Hp. cbn [mbind Res_bind lift].
  rewrite Hrun. cbn [mbind Res_bind].
  rewrite Ho. rewrite bool_decide_eq_false_2 by (by intros [? ?]).
  cbn [render_osc2 andb mbind Res_bind].
  unfold render_envelope, render_epilogue. rewrite streaming.
  destruct (hasParent e1); cbn [andb mbind Res_bind]; [by eexists _, _|].
  cbn [heap set_heap set_random]. rewrite lookup_insert_eq. cbn [lift mbind Res_bind].
  destruct (ADSR_apply _ _ _). cbn [mbind Res_bind]. by eexists _, _.
Qed.
End StreamingRender.

(** ** The callback window of [mixBuffer] *)

Section MixWindow.
Context {FO : FloatOps} {CO : Collaborators} {EP : EngineProps}.

Lemma in_window_overlap bufferPos e :
  1 ≤ BUFFER_SIZE → Int.fits (bufferPos + BUFFER_SIZE) →
  in_window bufferPos e = true
  ↔ bufferPos < _sampleEnd (base e) ∧ bufferPos + BUFFER_SIZE > _sampleStart (base e).
Proof.
  intros Hsize Hfit. unfold in_window, Int.add. rewrite (wrap_fits _ Hfit).
  rewrite andb_true_iff, orb_true_iff, Z.leb_le, !Z.ltb_lt. lia.
Qed.
End MixWindow.

(** ** The ring buffer of the plucked string *)

Section RingCapacity.
Context {FO : FloatOps} {CO : Collaborators} {EP : EngineProps}.

Lemma fill_with_noise_capacity n : ∀ rb r,
  capacity (fill_with_noise n rb r).1 = capacity rb.
Proof.
  induction n as [|n IH]; intros rb r; [done|]. cbn [fill_with_noise].
  destruct (randomFloat r) as [v r']. by rewrite IH.
Qed.

Lemma fill_with_noise_length n : ∀ rb r,
  n = 0%nat ∨ Z.of_nat (length (queue rb) + n) ≤ capacity rb →
  length (queue (fill_with_noise n rb r).1) = (length (queue rb) + n)%nat.
Proof.
  induction n as [|n IH]; intros rb r Hcap; [cbn; lia|]. cbn [fill_with_noise].
  destruct Hcap as [|Hcap]; [done|].
  destruct (randomFloat r) as [v r'].
  assert (Hq : queue (enqueue v rb) = queue rb ++ [v]).
  { unfold enqueue. cbn [queue]. destruct (Z.leb_spec (capacity rb) (Z.of_nat (length (queue rb))));
      [lia|done]. }
  rewrite IH; rewrite Hq, length_app; cbn [length capacity enqueue]; [lia|right; lia].
Qed.

(** [initKarplusStrong] on an event that is sequenced or has no ring buffer,
    and whose ring buffer, if any, has the capacity [_ringBufferSize]. *)
Lemma initKarplusStrong_fresh e r :
  isSequenced e = true ∨ _ringBuffer e = None →
  (∀ rb, _ringBuffer e = Some rb → capacity rb = _ringBufferSize e) →
  let size := cast_int (of_int SAMPLE_RATE / _frequency e)%F in
  initKarplusStrong e r
  = (set_ringBuffer (Some (fill_with_noise (Z.to_nat size) (RingBuffer_new size) r).1)
                    (set_ringBufferSize size e),
     (fill_with_noise (Z.to_nat size) (RingBuffer_new size) r).2).
Proof.
  intros Hkind Hcap size. unfold initKarplusStrong. fold size.
  match goal with |- context [if ?c then set_ringBuffer None ?a else ?a] =>
    set (e1 := if c then set_ringBuffer None a else a) in *;
    assert (Hc : c = false → is_Some (_ringBuffer e) → size = _ringBufferSize e) end.
  { intros Ec Hsome. cbn [_ringBufferSize set_ringBufferSize isSequenced _ringBuffer] in Ec.
    destruct Hkind as [Hs|Hn]; [|rewrite Hn in Hsome; by destruct Hsome].
    rewrite Hs in Ec. rewrite bool_decide_eq_true_2 in Ec by done. cbn [andb] in Ec.
    by apply negb_false_iff, Z.eqb_eq in Ec. }
  assert (H2 : _ringBufferSize e1 = size).
  { unfold e1. by match goal with |- context [if ?c then _ else _] => destruct c end. }
  assert (Hrb : match _ringBuffer e1 with
                | None => RingBuffer_new size
                | Some rb => flush rb
                end = RingBuffer_new size).
  { unfold e1. match goal with |- context [if ?c then _ else _] => destruct c eqn:Ec end.
    - done.
    - cbn [_ringBuffer set_ringBufferSize].
      destruct (_ringBuffer e) as [rb|] eqn:Erb; [|done].
      unfold flush, RingBuffer_new. rewrite (Hcap rb eq_refl). by rewrite Hc by (done || by eexists). }
  assert (H1 : ∀ rb, set_ringBuffer (Some rb) e1
                     = set_ringBuffer (Some rb) (set_ringBufferSize size e)).
  { intros rb. unfold e1.
    by match goal with |- context [if ?c then _ else _] => destruct c end. }
  clearbody e1. rewrite H2, Hrb.
  destruct (fill_with_noise _ _ r) as [rb' r']. cbn [fst snd]. by rewrite H1.
Qed.

End RingCapacity.

(** ** The fade of [synthesize] *)

Section FadeWrites.
Context {FO : FloatOps}.
Implicit Types (h : gmap nat AudioBuffer) (bs : list (list SAMPLE_TYPE)).

Lemma insert_alter (t : list SAMPLE_TYPE) i s (f : SAMPLE_TYPE → SAMPLE_TYPE) :
  t !! i = Some s → <[i := f s]> t = alter f i t.
Proof.
  revert i. induction t as [|x t IH]; intros [|i] Ht; try done; cbn in *.
  - by injection Ht as ->.
  - by rewrite IH.
Qed.

(** The gain applied at index [i] of every channel from [c] on. *)
Lemma fade_channels_spec p (out : AudioBuffer) i amp L n : ∀ c bs h,
  h !! p = Some (set_buffers out bs) →
  (c + n = length bs)%nat →
  Forall (λ t, Z.of_nat (length t) = L) bs → 0 ≤ i < L →
  fade_channels n p (Z.of_nat c) i amp h
  = Ok (<[p := set_buffers out
                 (take c bs ++ ((λ t, alter (λ s, (s * amp)%F) (Z.to_nat i) t)
                                  <$> drop c bs))]> h).
Proof.
  induction n as [|n IH]; intros c bs h Hp Hcn Hall Hi.
  - cbn. rewrite drop_ge by lia. cbn. rewrite app_nil_r, take_ge by lia.
    by rewrite insert_id.
  - cbn [fade_channels].
    destruct (lookup_lt_is_Some_2 bs c ltac:(lia)) as [t Ht].
    pose proof (proj1 (Forall_lookup _ _) Hall _ _ Ht) as Hlen. cbn in Hlen.
    destruct (lookup_lt_is_Some_2 t (Z.to_nat i) ltac:(lia)) as [s Hs].
    rewrite (load_Ok h p (set_buffers out bs) (Z.of_nat c) i t s); try done; try lia.
    2: { cbn. by rewrite Nat2Z.id. }
    cbn [mbind Res_bind].
    rewrite (store_Ok h p (set_buffers out bs) (Z.of_nat c) i t); try done; try lia.
    2: { cbn. by rewrite Nat2Z.id. }
    cbn [mbind Res_bind]. rewrite Nat2Z.id.
    change (set_buffers (set_buffers out bs) ?x) with (set_buffers out x).
    cbn [_buffers set_buffers].
    rewrite (insert_alter t _ s (λ s, (s * amp)%F) Hs).
    replace (Z.of_nat c + 1) with (Z.of_nat (S c)) by lia.
    rewrite (IH (S c) (<[c := alter (λ s, (s * amp)%F) (Z.to_nat i) t]> bs)).
    + rewrite insert_insert_eq. do 3 f_equal.
      rewrite take_insert_lt by lia. rewrite (take_S_r bs c t Ht).
      rewrite insert_app_r_alt by (rewrite length_take; lia).
      rewrite length_take. replace (c - c `min` length bs)%nat with 0%nat by lia.
      cbn. rewrite <- app_assoc. cbn.
      rewrite drop_insert_lt by lia. by rewrite (drop_S bs t c Ht).
    + by rewrite lookup_insert_eq.
    + rewrite length_insert. lia.
    + apply Forall_insert; [done|]. rewrite length_alter. done.
    + done.
Qed.

Lemma faded_step (t : list SAMPLE_TYPE) i amp gs :
  (i < length t)%nat →
  faded (alter (λ s, (s * amp)%F) i t) (S i) gs = faded t i (amp :: gs).
Proof.
  intros Hi. destruct (lookup_lt_is_Some_2 t i Hi) as [s Hs]. unfold faded.
  rewrite <- (insert_alter t i s _ Hs).
  rewrite (take_S_r _ _ _ (list_lookup_insert_eq t i _ Hi)).
  rewrite take_insert_ge by lia. rewrite !drop_insert_lt by lia.
  rewrite (drop_S t s i Hs). cbn [length take zip_with].
  rewrite <- app_assoc. cbn. repeat f_equal. lia.
Qed.

Lemma faded_nil (t : list SAMPLE_TYPE) i : faded t i [] = t.
Proof. unfold faded. cbn. rewrite Nat.add_0_r. apply take_drop. Qed.

Lemma length_fade_gains n : ∀ amp incr, length (fade_gains n amp incr) = n.
Proof. induction n as [|n IH]; intros amp incr; [done|]. cbn. by rewrite IH. Qed.

(** The loop of the fade over [n] frames from index [i]. *)
Lemma fade_out_spec p (out : AudioBuffer) L incr n : ∀ i amp bs h,
  h !! p = Some (set_buffers out bs) →
  Z.to_nat (amountOfChannels out) = length bs →
  Forall (λ t, Z.of_nat (length t) = L) bs →
  Z.of_nat (i + n) ≤ L →
  fade_out n (Some p) (Z.of_nat i) amp incr h
  = Ok (<[p := set_buffers out ((λ t, faded t i (fade_gains n amp incr)) <$> bs)]> h).
Proof.
  induction n as [|n IH]; intros i amp bs h Hp Hch Hall Hi.
  - cbn. rewrite (list_fmap_ext (λ t, faded t i []) id bs) by (intros; apply faded_nil).
    rewrite list_fmap_id. by rewrite insert_id.
  - cbn [fade_out lift mbind Res_bind]. rewrite Hp. cbn [lift mbind Res_bind].
    change (amountOfChannels (set_buffers out bs)) with (amountOfChannels out).
    rewrite Hch.
    change 0 with (Z.of_nat 0) at 1.
    rewrite (fade_channels_spec p out (Z.of_nat i) amp L (length bs) 0 bs h Hp);
      [|done|done|lia].
    cbn [take drop app mbind Res_bind]. rewrite Nat2Z.id.
    replace (Z.of_nat i + 1) with (Z.of_nat (S i)) by lia.
    rewrite (IH (S i) (amp - incr)%F
                ((λ t, alter (λ s, (s * amp)%F) i t) <$> bs)).
    + rewrite insert_insert_eq. do 3 f_equal. rewrite <- list_fmap_compose.
      apply Forall_fmap_ext_1. eapply Forall_impl; [exact Hall|].
      intros t Ht. cbn in Ht. cbn beta. apply faded_step. lia.
    + by rewrite lookup_insert_eq.
    + by rewrite length_fmap.
    + apply Forall_fmap. eapply Forall_impl; [exact Hall|].
      intros t Ht. unfold compose. cbn beta in *. by rewrite length_alter.
    + lia.
Qed.
End FadeWrites.

Section Release.
Context {FO : FloatOps} {CO : Collaborators} {EP : EngineProps}.

Lemma setDeletable_rung value e :
  _hasMinLength e = true →
  _buffer (base (setDeletable value e)) = _buffer (base e)
  ∧ _queuedForDeletion (setDeletable value e) = _queuedForDeletion e
  ∧ _deleteMe (base (setDeletable value e)) = value
  ∧ _hasMinLength (setDeletable value e) = true.
Proof.
  destruct e as [b c po le sq hp ty fr bf ph pi vo pw tp pr pa ed ml hm qd rb rs ar ad o2].
  cbn. intros ->. rewrite orb_true_r. by destruct o2.
Qed.

(** The fade of [synthesize] on the buffer of the event. *)
Lemma fade_spec L e w p b :
  _buffer (base e) = Some p → heap w !! p = Some b → wf_buffer b → bufferSize b = L →
  let amt := Z.quot L 4 in
  fade L e w
  = Ok (set_heap
          (<[p := set_buffers b
                    ((λ t, faded t (Z.to_nat (L - amt))
                                 (fade_gains (Z.to_nat amt) MAX_PHASE
                                             (MAX_PHASE / of_int amt)%F))
                       <$> _buffers b)]> (heap w)) w).
Proof.
  intros Hb Hp Hwf HL amt. unfold fade. fold amt.
  destruct (wf_bounds _ Hwf) as (Hsize & Hch & _). rewrite HL in Hsize.
  assert (Hamt : 0 ≤ amt ≤ L).
  { unfold amt. rewrite Z.quot_div_nonneg by lia.
    split; [apply Z.div_pos; lia|apply Z.div_le_upper_bound; lia]. }
  assert (Hfirst : Int.sub L amt = L - amt).
  { apply sub_fits. unfold Int.fits, Int.INT_MIN, Int.INT_MAX. lia. }
  rewrite Hfirst, Hb.
  replace (L - (L - amt)) with amt by lia.
  rewrite <- (Z2Nat.id (L - amt)) at 1 by lia.
  rewrite (fade_out_spec p b L _ (Z.to_nat amt) (Z.to_nat (L - amt)) MAX_PHASE
                         (_buffers b) (heap w)).
  - done.
  - by rewrite set_buffers_id.
  - pose proof (wf_vector _ Hwf). lia.
  - rewrite <- HL. by apply wf_Forall.
  - lia.
Qed.

(** The part of [synthesize] after the render, when the minimum length of
    an event queued for deletion is used up. *)
Lemma synthesize_release_spec L e w p b :
  _queuedForDeletion e = true →
  _minLength e ≤ 0 ∨ Int.sub (_minLength e) L ≤ 0 →
  _buffer (base e) = Some p → heap w !! p = Some b → wf_buffer b → bufferSize b = L →
  let amt := Z.quot L 4 in
  let gains := fade_gains (Z.to_nat amt) MAX_PHASE (MAX_PHASE / of_int amt)%F in
  ∃ e',
    synthesize_release L e w
    = Ok (Some p, e',
          set_heap (<[p := set_buffers b ((λ t, faded t (Z.to_nat (L - amt)) gains)
                                            <$> _buffers b)]> (heap w)) w)
    ∧ _deleteMe (base e') = true ∧ _hasMinLength e' = true
    ∧ length gains = Z.to_nat amt
    ∧ (0 < amt → head gains = Some MAX_PHASE).
Proof.
  intros Hq Hmin Hb Hp Hwf HL amt gains. unfold synthesize_release.
  rewrite Hq. cbn [andb].
  match goal with |- context [if 0 <? _minLength e then ?a else e] =>
    set (e1 := if 0 <? _minLength e then a else e) end.
  assert (H1 : _minLength e1 ≤ 0 ∧ _queuedForDeletion e1 = true
               ∧ _buffer (base e1) = Some p).
  { unfold e1. destruct (Z.ltb_spec 0 (_minLength e)); cbn; [|done].
    split; [lia|done]. }
  clearbody e1. destruct H1 as (Hm1 & Hq1 & Hb1).
  destruct (Z.leb_spec (_minLength e1) 0); [|lia].
  destruct (setDeletable_rung (_queuedForDeletion (set_hasMinLength true e1))
                              (set_hasMinLength true e1) eq_refl)
    as (Hb2 & Hq2 & Hd2 & Hh2).
  change (_queuedForDeletion (set_hasMinLength true e1)) with (_queuedForDeletion e1) in *.
  change (base (set_hasMinLength true e1)) with (base e1) in *.
  rewrite Hq1 in *. rewrite Hq2.
  rewrite (fade_spec L _ w p b); [|by rewrite Hb2|done|done|done].
  cbn [mbind Res_bind]. rewrite Hb2, Hb1.
  eexists. split; [reflexivity|]. split; [done|]. split; [done|].
  split; [apply length_fade_gains|].
  intros Hpos. unfold gains. destruct (Z.to_nat amt) eqn:En; [lia|done].
Qed.

(** C9 (amended).  When a call of [synthesize] has rendered a buffer of
    [L] frames for an event that is queued for deletion and whose minimum
    length is used up by this buffer, the fade is applied to the last
    [L / 4] frames (the quotient of the division of [int]s), and to no
    other frame: those frames are multiplied by the gains [MAX_PHASE],
    [MAX_PHASE - MAX_PHASE / amt], ... in this order, one step of
    [MAX_PHASE / amt] apart, so that the first faded sample is its
    amplitude times [MAX_PHASE] and the last one keeps a gain of about
    [MAX_PHASE / amt]: it is not brought to zero.  The event is flagged
    for deletion. *)
Theorem synthesize_fades fuel L e w e1 w1 p b :
  synthesize_render fuel L e w = Ok (e1, w1) →
  _queuedForDeletion e1 = true →
  _minLength e1 ≤ 0 ∨ Int.sub (_minLength e1) L ≤ 0 →
  _buffer (base e1) = Some p → heap w1 !! p = Some b → wf_buffer b → bufferSize b = L →
  let amt := Z.quot L 4 in
  let gains := fade_gains (Z.to_nat amt) MAX_PHASE (MAX_PHASE / of_int amt)%F in
  ∃ e',
    synthesize fuel L e w
    = Ok (Some p, e',
          set_heap (<[p := set_buffers b ((λ t, faded t (Z.to_nat (L - amt)) gains)
                                            <$> _buffers b)]> (heap w1)) w1)
    ∧ _deleteMe (base e') = true ∧ _hasMinLength e' = true
    ∧ length gains = Z.to_nat amt
    ∧ (0 < amt → head gains = Some MAX_PHASE).
Proof.
  intros Hrender Hq Hmin Hb Hp Hwf HL amt gains. unfold synthesize.
  rewrite Hrender. cbn [mbind Res_bind].
  apply synthesize_release_spec; done.
Qed.
End Release.

(** ** The other methods of AudioBuffer *)

Section BufferMethods.
Context {FO : FloatOps}.
Implicit Types (h : gmap nat AudioBuffer) (bs : list (list SAMPLE_TYPE)).

Lemma shape_Forall (b : AudioBuffer) :
  wf_buffer b → Forall (λ t, Z.of_nat (length t) = bufferSize b) (_buffers b).
Proof. intros Hwf. apply Forall_lookup. intros c t Hc. by eapply wf_arrays. Qed.

Lemma shape_set_buffers (b : AudioBuffer) bs :
  wf_buffer b → length bs = length (_buffers b) →
  Forall (λ t, Z.of_nat (length t) = bufferSize b) bs →
  wf_buffer (set_buffers b bs).
Proof.
  intros [Hc Hs Hv Ha Hb] Hl Hall. constructor; cbn; try done.
  - by rewrite Hl.
  - intros c ch Hch. by apply (proj1 (Forall_lookup _ _) Hall c ch).
Qed.

Lemma memcpy_whole (target source : list SAMPLE_TYPE) n :
  Z.of_nat (length target) = n → Z.of_nat (length source) = n →
  memcpy target source n = Ok source.
Proof.
  intros Ht Hs. unfold memcpy.
  destruct (Z.ltb_spec n 0); [lia|]. destruct (Z.ltb_spec (Z.of_nat (length target)) n); [lia|].
  destruct (Z.ltb_spec (Z.of_nat (length source)) n); [lia|]. cbn [orb].
  rewrite take_ge, drop_ge by lia. by rewrite app_nil_r.
Qed.

(** X1.  [silenceBuffers] on a buffer of the constructor's shape returns;
    the buffer keeps its loop flag, its channel count and its frame count,
    and its channels are those of a buffer the constructor has just
    built: every sample is silence. *)
Theorem silenceBuffers_restores (b : AudioBuffer) :
  wf_buffer b →
  ∃ b' made,
    silenceBuffers b = Ok b'
    ∧ AudioBuffer_new (amountOfChannels b) (bufferSize b) = Ok made
    ∧ _buffers b' = _buffers made
    ∧ loopeable b' = loopeable b
    ∧ amountOfChannels b' = amountOfChannels b
    ∧ bufferSize b' = bufferSize b
    ∧ wf_buffer b'
    ∧ (∀ c t j s, _buffers b' !! c = Some t → t !! j = Some s → s = dec 0 1)
    ∧ silenceBuffers b' = Ok b'.
Proof.
  intros Hwf. pose proof (shape_Forall _ Hwf) as Hall.
  pose proof (wf_vector _ Hwf) as Hv. pose proof (wf_size _ Hwf) as HL.
  pose proof (wf_channels _ Hwf) as Hch.
  set (bs := replicate (length (_buffers b)) (generateSilentBuffer (bufferSize b))).
  assert (Hwf' : wf_buffer (set_buffers b bs)).
  { apply shape_set_buffers; [done|unfold bs; by rewrite length_replicate|].
    apply Forall_replicate. unfold generateSilentBuffer. rewrite length_replicate. lia. }
  exists (set_buffers b bs). eexists. split; [by apply silenceBuffers_spec|].
  unfold AudioBuffer_new.
  destruct (Z.ltb_spec (amountOfChannels b) 0); [lia|].
  destruct (Z.ltb_spec (bufferSize b) 0); [lia|]. cbn [orb].
  split; [reflexivity|]. cbn [_buffers set_buffers].
  split; [unfold bs; f_equal; lia|]. do 3 (split; [done|]). split; [done|]. split.
  - intros c t j s Hc Hj. unfold bs in Hc. apply lookup_replicate in Hc as [-> _].
    unfold generateSilentBuffer in Hj. by apply lookup_replicate in Hj as [-> _].
  - rewrite silenceBuffers_spec; [|done|by rewrite (wf_vector _ Hwf')|by apply shape_Forall].
    cbn [_buffers set_buffers bufferSize]. f_equal.
    change (set_buffers (set_buffers b bs) ?x) with (set_buffers b x). f_equal.
    unfold bs. by rewrite length_replicate.
Qed.

(** The gain applied to [n] samples of one array from index [j] on. *)
Lemma scale_samples_spec amp n : ∀ j (t : list SAMPLE_TYPE),
  (j + n ≤ length t)%nat →
  scale_samples n (Z.of_nat j) amp t
  = Ok (take j t ++ ((λ s, (s * amp)%F) <$> take n (drop j t)) ++ drop (j + n) t).
Proof.
  induction n as [|n IH]; intros j t Hj.
  - cbn [scale_samples]. rewrite take_0, fmap_nil, app_nil_l, Nat.add_0_r. by rewrite take_drop.
  - cbn [scale_samples]. destruct (Z.ltb_spec (Z.of_nat j) 0); [lia|].
    rewrite Nat2Z.id.
    destruct (lookup_lt_is_Some_2 t j ltac:(lia)) as [s Hs]. rewrite Hs.
    cbn [lift mbind Res_bind].
    replace (Z.of_nat j + 1) with (Z.of_nat (S j)) by lia.
    rewrite IH by (rewrite length_insert; lia). f_equal.
    rewrite (take_S_r _ _ _ (list_lookup_insert_eq t j _ ltac:(lia))).
    rewrite take_insert_ge by lia. rewrite !drop_insert_lt by lia.
    rewrite (drop_S t s j Hs). cbn [take fmap list_fmap].
    rewrite <- app_assoc. cbn. repeat f_equal. lia.
Qed.

Lemma adjust_channels_spec amp (b : AudioBuffer) n : ∀ i bs,
  (i + n = length bs)%nat →
  Forall (λ t, Z.of_nat (length t) = bufferSize b) bs → 0 ≤ bufferSize b →
  adjust_channels n (Z.of_nat i) amp (set_buffers b bs)
  = Ok (set_buffers b (take i bs ++ ((λ t : list SAMPLE_TYPE, (λ s, (s * amp)%F) <$> t) <$> drop i bs))).
Proof.
  induction n as [|n IH]; intros i bs Hin Hall HL.
  - cbn. rewrite drop_ge by lia. cbn. by rewrite app_nil_r, take_ge by lia.
  - cbn [adjust_channels].
    destruct (lookup_lt_is_Some_2 bs i ltac:(lia)) as [t Ht].
    rewrite (getBufferForChannel_Ok _ _ t) by (first [lia | cbn; by rewrite Nat2Z.id]).
    cbn [mbind Res_bind].
    pose proof (proj1 (Forall_lookup _ _) Hall _ _ Ht) as Hlen. cbn in Hlen.
    change (bufferSize (set_buffers b bs)) with (bufferSize b).
    change 0 with (Z.of_nat 0) at 1.
    rewrite scale_samples_spec by (cbn; lia).
    cbn [take drop app mbind Res_bind Nat.add].
    rewrite take_0, drop_0, app_nil_l.
    rewrite (take_ge t), (drop_ge t), app_nil_r by lia. rewrite Nat2Z.id.
    change (set_buffers (set_buffers b bs) ?x) with (set_buffers b x).
    cbn [_buffers set_buffers].
    replace (Z.of_nat i + 1) with (Z.of_nat (S i)) by lia.
    rewrite IH.
    + do 2 f_equal. rewrite take_insert_lt by lia. rewrite (take_S_r bs i t Ht).
      rewrite insert_app_r_alt by (rewrite length_take; lia).
      rewrite length_take. replace (i - i `min` length bs)%nat with 0%nat by lia.
      cbn. rewrite <- app_assoc. cbn.
      rewrite drop_insert_lt by lia. by rewrite (drop_S bs t i Ht).
    + rewrite length_insert. lia.
    + apply Forall_insert; [done|]. by rewrite length_fmap.
    + done.
Qed.

(** X2.  [adjustBufferVolumes( amp )] on a buffer of the constructor's
    shape multiplies every sample of every channel by [amp] and changes
    nothing else; the shape is kept. *)
Theorem adjustBufferVolumes_scales amp (b : AudioBuffer) :
  wf_buffer b →
  adjustBufferVolumes amp b
  = Ok (set_buffers b ((λ t : list SAMPLE_TYPE, (λ s, (s * amp)%F) <$> t) <$> _buffers b))
  ∧ wf_buffer (set_buffers b ((λ t : list SAMPLE_TYPE, (λ s, (s * amp)%F) <$> t) <$> _buffers b)).
Proof.
  intros Hwf. pose proof (shape_Forall _ Hwf) as Hall.
  pose proof (wf_vector _ Hwf) as Hv. split.
  - unfold adjustBufferVolumes.
    pose proof (adjust_channels_spec amp b (Z.to_nat (amountOfChannels b)) 0 (_buffers b))
      as Hrun.
    rewrite set_buffers_id in Hrun. change (Z.of_nat 0) with 0 in Hrun.
    rewrite Hrun; [done|lia|done|by apply wf_size].
  - apply shape_set_buffers; [done|by rewrite length_fmap|].
    apply Forall_fmap. eapply Forall_impl; [exact Hall|].
    intros t Ht. unfold compose. by rewrite length_fmap.
Qed.

Lemma copy_mono_spec (b : AudioBuffer) (mono : list SAMPLE_TYPE) n : ∀ i bs,
  (i + n = length bs)%nat →
  Forall (λ t, Z.of_nat (length t) = bufferSize b) bs →
  Z.of_nat (length mono) = bufferSize b →
  copy_mono n (Z.of_nat i) mono (set_buffers b bs)
  = Ok (set_buffers b (take i bs ++ replicate n mono)).
Proof.
  induction n as [|n IH]; intros i bs Hin Hall Hm.
  - cbn. by rewrite app_nil_r, take_ge by lia.
  - cbn [copy_mono].
    destruct (lookup_lt_is_Some_2 bs i ltac:(lia)) as [t Ht].
    rewrite (getBufferForChannel_Ok _ _ t) by (first [lia | cbn; by rewrite Nat2Z.id]).
    cbn [mbind Res_bind].
    pose proof (proj1 (Forall_lookup _ _) Hall _ _ Ht) as Hlen. cbn in Hlen.
    change (bufferSize (set_buffers b bs)) with (bufferSize b).
    rewrite memcpy_whole by done. cbn [mbind Res_bind]. rewrite Nat2Z.id.
    change (set_buffers (set_buffers b bs) ?x) with (set_buffers b x).
    cbn [_buffers set_buffers].
    replace (Z.of_nat i + 1) with (Z.of_nat (S i)) by lia.
    rewrite IH.
    + do 2 f_equal. rewrite take_insert_lt by lia. rewrite (take_S_r bs i t Ht).
      rewrite insert_app_r_alt by (rewrite length_take; lia).
      rewrite length_take. replace (i - i `min` length bs)%nat with 0%nat by lia.
      cbn. by rewrite <- app_assoc.
    + rewrite length_insert. lia.
    + by apply Forall_insert.
    + done.
Qed.

(** X3.  [applyMonoSource] on a buffer of the constructor's shape returns
    and makes every channel a copy of the first one, which stays as it is;
    flags, counts and shape are kept. *)
Theorem applyMonoSource_copies (b : AudioBuffer) :
  wf_buffer b →
  ∃ mono,
    _buffers b !! 0%nat = Some mono
    ∧ applyMonoSource b = Ok (set_buffers b (replicate (length (_buffers b)) mono))
    ∧ wf_buffer (set_buffers b (replicate (length (_buffers b)) mono)).
Proof.
  intros Hwf. pose proof (shape_Forall _ Hwf) as Hall.
  pose proof (wf_vector _ Hwf) as Hv. pose proof (wf_channels _ Hwf) as Hch.
  destruct (lookup_lt_is_Some_2 (_buffers b) 0 ltac:(lia)) as [mono Hm].
  pose proof (proj1 (Forall_lookup _ _) Hall _ _ Hm) as Hlen. cbn in Hlen.
  exists mono. split; [done|]. split.
  - unfold applyMonoSource. destruct (Z.eqb_spec (amountOfChannels b) 1) as [H1|H1].
    + f_equal. rewrite <- (set_buffers_id b) at 1. f_equal.
      destruct (_buffers b) as [|t [|t' l]]; cbn in *; try lia. by injection Hm as ->.
    + rewrite (getBufferForChannel_Ok _ _ mono) by (first [lia | done]).
      cbn [mbind Res_bind].
      pose proof (copy_mono_spec b mono (Z.to_nat (amountOfChannels b - 1)) 1 (_buffers b))
        as Hrun.
      rewrite set_buffers_id in Hrun. change (Z.of_nat 1) with 1 in Hrun.
      rewrite Hrun; [|lia|done|done]. do 2 f_equal.
      destruct (_buffers b) as [|t l] eqn:Eb; [cbn in Hv; lia|].
      cbn in Hm. injection Hm as ->. cbn [take length app].
      replace (Z.to_nat (amountOfChannels b - 1)) with (length l) by (cbn in Hv; lia).
      done.
  - apply shape_set_buffers; [done|by rewrite length_replicate|].
    by apply Forall_replicate.
Qed.

Lemma clone_channels_spec (b out : AudioBuffer) n : ∀ i obs,
  (i + n = length obs)%nat → length (_buffers b) = length obs →
  Forall (λ t, Z.of_nat (length t) = bufferSize b) (_buffers b) →
  Forall (λ t, Z.of_nat (length t) = bufferSize b) obs →
  clone_channels n (Z.of_nat i) b (set_buffers out obs)
  = Ok (set_buffers out (take i obs ++ drop i (_buffers b))).
Proof.
  induction n as [|n IH]; intros i obs Hin Hl Hall Hobs.
  - cbn. rewrite drop_ge by lia. by rewrite app_nil_r, take_ge by lia.
  - cbn [clone_channels].
    destruct (lookup_lt_is_Some_2 (_buffers b) i ltac:(lia)) as [s Hs].
    destruct (lookup_lt_is_Some_2 obs i ltac:(lia)) as [t Ht].
    rewrite (getBufferForChannel_Ok b _ s) by (first [lia | by rewrite Nat2Z.id]).
    cbn [mbind Res_bind].
    rewrite (getBufferForChannel_Ok _ _ t) by (first [lia | cbn; by rewrite Nat2Z.id]).
    cbn [mbind Res_bind].
    pose proof (proj1 (Forall_lookup _ _) Hall _ _ Hs) as Hls.
    pose proof (proj1 (Forall_lookup _ _) Hobs _ _ Ht) as Hlt. cbn in Hls, Hlt.
    rewrite memcpy_whole by done. cbn [mbind Res_bind]. rewrite Nat2Z.id.
    change (set_buffers (set_buffers out obs) ?x) with (set_buffers out x).
    cbn [_buffers set_buffers].
    replace (Z.of_nat i + 1) with (Z.of_nat (S i)) by lia.
    rewrite IH.
    + do 2 f_equal. rewrite take_insert_lt by lia. rewrite (take_S_r obs i t Ht).
      rewrite insert_app_r_alt by (rewrite length_take; lia).
      rewrite length_take. replace (i - i `min` length obs)%nat with 0%nat by lia.
      cbn. rewrite <- app_assoc. cbn. by rewrite (drop_S _ s i Hs).
    + rewrite length_insert. lia.
    + by rewrite length_insert.
    + done.
    + by apply Forall_insert.
Qed.

(** X4.  [clone] of a buffer of the constructor's shape returns a new
    object, at an address that was not in use, with the channel count, the
    frame count and the samples of the original; the loop flag is not
    copied: the clone is not loopable.  The original and every other
    object stay as they were. *)
Theorem clone_copies this h (b : AudioBuffer) :
  h !! this = Some b → wf_buffer b →
  ∃ p h',
    clone this h = Ok (p, h')
    ∧ h !! p = None
    ∧ h' !! p = Some {| loopeable := false; amountOfChannels := amountOfChannels b;
                        bufferSize := bufferSize b; _buffers := _buffers b |}
    ∧ ∀ q, q ≠ p → h' !! q = h !! q.
Proof.
  intros Hthis Hwf. pose proof (shape_Forall _ Hwf) as Hall.
  pose proof (wf_vector _ Hwf) as Hv. pose proof (wf_channels _ Hwf) as Hch.
  pose proof (wf_size _ Hwf) as HL.
  exists (fresh (dom h)). eexists. unfold clone. rewrite Hthis. cbn [lift mbind Res_bind].
  unfold AudioBuffer_new.
  destruct (Z.ltb_spec (amountOfChannels b) 0); [lia|].
  destruct (Z.ltb_spec (bufferSize b) 0); [lia|]. cbn [orb mbind Res_bind].
  match goal with |- context [clone_channels _ 0 b ?o] =>
    change o with (set_buffers o (_buffers o)) end.
  cbn [_buffers].
  pose proof (clone_channels_spec b
                {| loopeable := false; amountOfChannels := amountOfChannels b;
                   bufferSize := bufferSize b;
                   _buffers := replicate (Z.to_nat (amountOfChannels b))
                                         (generateSilentBuffer (bufferSize b)) |}
                (Z.to_nat (amountOfChannels b)) 0
                (replicate (Z.to_nat (amountOfChannels b))
                           (generateSilentBuffer (bufferSize b)))) as Hrun.
  change (Z.of_nat 0) with 0 in Hrun. rewrite Hrun.
  - cbn [mbind Res_bind take drop app set_buffers loopeable amountOfChannels bufferSize].
    split; [reflexivity|]. split; [apply not_elem_of_dom, is_fresh|].
    split; [by rewrite lookup_insert_eq|].
    intros q Hq. by rewrite lookup_insert_ne.
  - rewrite length_replicate. lia.
  - rewrite length_replicate. lia.
  - done.
  - apply Forall_replicate. unfold generateSilentBuffer. rewrite length_replicate. lia.
Qed.
End BufferMethods.

(** ** [AudioBuffer::mergeBuffers]: read offsets, loops and empty buffers *)

Section MergeMore.
Context {FO : FloatOps}.
Implicit Types (h : gmap nat AudioBuffer) (tb sb : AudioBuffer).

(** X5.  The count [mergeBuffers] returns, for buffers of the
    constructor's shape (source and target may be one object) and offsets
    that are not negative: 0 when the write offset is not below the frame
    count [N] of the target; otherwise, for a loopable source of [M]
    frames, [min M (N - writeOffset)] whatever the read offset, and for a
    source that does not loop that number cut down to the [M - readOffset]
    samples left after the read offset (none when the read offset is past
    the end). *)
Theorem mergeBuffers_count this src ro wo vol h tb sb :
  h !! this = Some tb → h !! src = Some sb → wf_buffer tb → wf_buffer sb →
  0 ≤ wo → 0 ≤ ro →
  let N := bufferSize tb in
  let M := bufferSize sb in
  ∃ h', mergeBuffers this (Some src) ro wo vol h
        = Ok (h', if N <=? wo then 0
                  else if loopeable sb then Z.min M (N - wo)
                       else Z.min (Z.min M (N - wo)) (Z.max 0 (M - ro))).
Proof.
  intros Ht Hs Hwt Hws Hwo Hro N M.
  destruct (mergeBuffers_frame this src ro wo vol h tb sb Ht Hs Hwt Hws Hwo Hro)
    as (bs' & Hrun & _).
  eexists. rewrite Hrun. do 2 f_equal. fold N M.
  pose proof (wf_size _ Hws). pose proof (wf_size _ Hwt).
  destruct (Z.leb_spec N wo); [done|].
  unfold merge_count, write_length. fold M. destruct (loopeable sb); lia.
Qed.

(** X6.  [mergeBuffers] divides the number of written samples by the
    number of channels it has gone through: when the target or the source
    has no channel, and the write offset is below the frame count of the
    target, that is a division by zero. *)
Theorem mergeBuffers_without_channels this src ro wo vol h tb sb :
  h !! this = Some tb → h !! src = Some sb →
  wo < bufferSize tb →
  amountOfChannels tb = 0 ∨ amountOfChannels sb = 0 →
  mergeBuffers this (Some src) ro wo vol h = Fault.
Proof.
  intros Ht Hs Hwo Hnone. unfold mergeBuffers. rewrite Ht. cbn [lift mbind Res_bind].
  destruct (Z.leb_spec (bufferSize tb) wo); [lia|]. rewrite Hs. cbn [lift mbind Res_bind].
  destruct Hnone as [H0|H0]; rewrite H0.
  - reflexivity.
  - change (Int.sub 0 1) with (-1).
    destruct (Z.to_nat (amountOfChannels tb)); reflexivity.
Qed.
End MergeMore.

(** ** [AudioBuffer::mergeBuffers]: the wrap of the read index *)

Section MergeLoop.
Context {FO : FloatOps}.
Implicit Types (h : gmap nat AudioBuffer) (tb sb : AudioBuffer).

(** The first [n1] passes of the sample loop, when they stay below the end
    of the source, and the passes after them. *)
Lemma merge_samples_split this src c M loops vol n2 n1 : ∀ i r w h,
  r + Z.of_nat n1 ≤ M →
  merge_samples (n1 + n2) this src c M loops vol i r w h
  = '(h1, w1) ← merge_samples n1 this src c M loops vol i r w h;
    merge_samples n2 this src c M loops vol (i + Z.of_nat n1) (r + Z.of_nat n1) w1 h1.
Proof.
  induction n1 as [|n1 IH]; intros i r w h Hr.
  - cbn [merge_samples Nat.add mbind Res_bind]. by rewrite !Z.add_0_r.
  - cbn [merge_samples Nat.add].
    destruct (Z.leb_spec M r); [lia|].
    destruct (load h src c r) as [s| |]; try done. cbn [mbind Res_bind].
    destruct (load h this c i) as [t| |]; try done. cbn [mbind Res_bind].
    destruct (store h this c i _) as [h'| |]; try done. cbn [mbind Res_bind].
    rewrite IH by lia.
    replace (i + 1 + Z.of_nat n1) with (i + Z.of_nat (S n1)) by lia.
    by replace (r + 1 + Z.of_nat n1) with (r + Z.of_nat (S n1)) by lia.
Qed.

(** At the end of a source that loops, the read index starts again at 0. *)
Lemma merge_samples_restart this src c M vol n i r w h :
  0 < M → M ≤ r →
  merge_samples n this src c M true vol i r w h
  = merge_samples n this src c M true vol i 0 w h.
Proof.
  intros HM Hr. destruct n as [|n]; [done|]. cbn [merge_samples].
  destruct (Z.leb_spec M r); [|lia]. by destruct (Z.leb_spec M 0); [lia|].
Qed.

Lemma count_up_twice n2 n1 : ∀ w, count_up n2 (count_up n1 w) = count_up (n1 + n2) w.
Proof. induction n1 as [|n1 IH]; intros w; [done|]. cbn. by rewrite IH. Qed.

(** The sample loop on distinct buffers with a source that loops: at most
    one wrap when no more samples are due than the source has. *)
Lemma merge_samples_looped this src c vol n h tb sb t s i r w :
  this ≠ src →
  h !! this = Some tb → h !! src = Some sb → 0 ≤ c →
  _buffers tb !! Z.to_nat c = Some t → _buffers sb !! Z.to_nat c = Some s →
  0 ≤ i → 0 ≤ r →
  i + Z.of_nat n ≤ Z.of_nat (length t) →
  (n ≤ length s)%nat →
  merge_samples n this src c (Z.of_nat (length s)) true vol i r w h
  = Ok (<[this := set_buffers tb
                    (<[Z.to_nat c := mixed_looped t s (Z.to_nat i) (Z.to_nat r) n vol]>
                       (_buffers tb))]> h,
        count_up n w).
Proof.
  intros Hne Ht Hs Hc Htc Hsc Hi Hr Hin Hn.
  unfold mixed_looped.
  destruct (decide (n = 0%nat)) as [->|Hn0].
  { cbn [merge_samples Nat.min Nat.sub]. rewrite !mixed_0, list_insert_id by done.
    by rewrite set_buffers_id, insert_id. }
  destruct (Z.le_gt_cases r (Z.of_nat (length s))) as [Hrs|Hrs]; cycle 1.
  { replace (length s - Z.to_nat r)%nat with 0%nat by lia.
    rewrite Nat.min_0_r, mixed_0, Nat.add_0_r, Nat.sub_0_r.
    rewrite merge_samples_restart by lia.
    apply (merge_samples_distinct this src c _ true vol n h tb sb t s i 0 w);
      try done; lia. }
  set (n1 := Nat.min n (length s - Z.to_nat r)).
  assert (Hn1 : (n1 ≤ n ∧ n1 ≤ length s - Z.to_nat r
                 ∧ (n1 = n ∨ n1 = length s - Z.to_nat r))%nat) by (unfold n1; lia).
  clearbody n1.
  replace n with (n1 + (n - n1))%nat at 1 by lia.
  rewrite merge_samples_split by lia.
  rewrite (merge_samples_distinct this src c _ true vol n1 h tb sb t s i r w);
    try done; try lia.
  cbn [mbind Res_bind].
  set (t1 := mixed t s (Z.to_nat i) (Z.to_nat r) n1 vol).
  assert (Hl1 : length t1 = length t) by (apply length_mixed; lia).
  destruct (n - n1)%nat as [|n2] eqn:En2.
  - cbn [merge_samples]. rewrite mixed_0. by replace n1 with n by lia.
  - assert (Hrn : r + Z.of_nat n1 = Z.of_nat (length s)) by lia.
    rewrite merge_samples_restart by lia.
    pose proof (lookup_lt_Some _ _ _ Htc) as Hclt.
    rewrite (merge_samples_distinct this src c _ true vol (S n2) _
               (set_buffers tb (<[Z.to_nat c := t1]> (_buffers tb))) sb t1 s
               (i + Z.of_nat n1) 0); try done; try lia.
    + rewrite insert_insert_eq. cbn [_buffers set_buffers].
      rewrite list_insert_insert_eq. rewrite count_up_twice.
      change (set_buffers (set_buffers tb ?y) ?x) with (set_buffers tb x).
      replace (Z.to_nat (i + Z.of_nat n1)) with (Z.to_nat i + n1)%nat by lia.
      change (Z.to_nat 0) with 0%nat. by replace (n1 + S n2)%nat with n by lia.
    + by rewrite lookup_insert_eq.
    + by rewrite lookup_insert_ne.
    + cbn. by rewrite list_lookup_insert_eq.
Qed.

Lemma merged_upto_0 f ts ss : merged_upto f 0 ts ss = ts.
Proof.
  unfold merged_upto. apply list_eq. intros j. rewrite list_lookup_imap.
  destruct (ts !! j); cbn; [|done]. by rewrite bool_decide_eq_false_2 by lia.
Qed.

Lemma merged_upto_more f c c' ts ss :
  (length ts ≤ c ∨ length ss ≤ c)%nat → (c ≤ c')%nat →
  merged_upto f c ts ss = merged_upto f c' ts ss.
Proof.
  intros Hc Hcc. unfold merged_upto. apply list_eq. intros j.
  rewrite !list_lookup_imap. destruct (ts !! j) eqn:Ej; cbn; [|done].
  apply lookup_lt_Some in Ej. do 2 case_bool_decide; try done; try lia.
  by rewrite (lookup_ge_None_2 ss j) by lia.
Qed.

Lemma merged_upto_S f c ts ss t s :
  ts !! c = Some t → ss !! c = Some s →
  <[c := f t s]> (merged_upto f c ts ss) = merged_upto f (S c) ts ss.
Proof.
  intros Ht Hs. unfold merged_upto. apply list_eq. intros j.
  destruct (decide (c = j)) as [<-|Hne].
  - rewrite list_lookup_insert_eq by (rewrite length_imap; by eapply lookup_lt_Some).
    rewrite list_lookup_imap, Ht. cbn. rewrite bool_decide_eq_true_2 by lia. by rewrite Hs.
  - rewrite list_lookup_insert_ne by done. rewrite !list_lookup_imap.
    destruct (ts !! j); cbn; [|done]. do 2 case_bool_decide; try done; lia.
Qed.

Lemma merged_upto_lookup_ge f c ts ss j :
  (c ≤ j)%nat → merged_upto f c ts ss !! j = ts !! j.
Proof.
  intros Hj. unfold merged_upto. rewrite list_lookup_imap.
  destruct (ts !! j); cbn; [|done]. by rewrite bool_decide_eq_false_2 by lia.
Qed.

(** The channel loop, for any sample loop that turns the channels [t] and
    [s] into [f t s] and counts [k] passes. *)
Section ChannelLoop.
Variables (this src : nat) (tb sb : AudioBuffer) (loops : bool) (vol : SAMPLE_TYPE).
Variables (ro wo maxWriteOffset : Z) (k : nat).
Variable f : list SAMPLE_TYPE → list SAMPLE_TYPE → list SAMPLE_TYPE.
Hypothesis distinct : this ≠ src.
Hypothesis sample_loop : ∀ h tb' c t s w,
  h !! this = Some tb' → h !! src = Some sb → 0 ≤ c →
  _buffers tb' !! Z.to_nat c = Some t → _buffers sb !! Z.to_nat c = Some s →
  Z.of_nat (length t) = bufferSize tb → Z.of_nat (length s) = bufferSize sb →
  merge_samples (Z.to_nat (maxWriteOffset - wo)) this src c (bufferSize sb) loops vol
                wo ro w h
  = Ok (<[this := set_buffers tb' (<[Z.to_nat c := f t s]> (_buffers tb'))]> h,
        count_up k w).

Lemma merge_channels_by n : ∀ c w h,
  h !! src = Some sb →
  h !! this = Some (set_buffers tb (merged_upto f (Z.to_nat c) (_buffers tb) (_buffers sb))) →
  (∀ j t, _buffers tb !! j = Some t → Z.of_nat (length t) = bufferSize tb) →
  (∀ j s, _buffers sb !! j = Some s → Z.of_nat (length s) = bufferSize sb) →
  0 ≤ c → c ≤ Z.of_nat (length (_buffers sb)) →
  c + Z.of_nat n = Z.of_nat (length (_buffers tb)) →
  let cc := Z.min (Z.of_nat (length (_buffers tb))) (Z.of_nat (length (_buffers sb))) in
  merge_channels n this src (Z.of_nat (length (_buffers sb)) - 1) (bufferSize sb) loops
                 ro wo maxWriteOffset vol c w h
  = Ok (<[this := set_buffers tb (merged_upto f (length (_buffers tb))
                                              (_buffers tb) (_buffers sb))]> h,
        count_up (Z.to_nat (cc - c) * k) w, cc).
Proof.
  induction n as [|n IH]; intros c w h Hs Ht HLt HLs Hc Hcs Hcn cc.
  - cbn. replace (Z.to_nat (cc - c)) with 0%nat by lia. cbn.
    rewrite (merged_upto_more _ _ (length (_buffers tb))) in Ht by lia.
    rewrite insert_id by done. do 3 f_equal. lia.
  - cbn [merge_channels].
    destruct (Z.of_nat (length (_buffers sb)) - 1 <? c) eqn:E.
    + apply Z.ltb_lt in E.
      replace (Z.to_nat (cc - c)) with 0%nat by lia. cbn.
      rewrite (merged_upto_more _ _ (length (_buffers tb))) in Ht by lia.
      rewrite insert_id by done. do 3 f_equal. lia.
    + apply Z.ltb_ge in E.
      destruct (lookup_lt_is_Some_2 (_buffers sb) (Z.to_nat c) ltac:(lia)) as [s Hsc].
      destruct (lookup_lt_is_Some_2 (_buffers tb) (Z.to_nat c) ltac:(lia)) as [t Htc].
      rewrite Hs. cbn [lift mbind Res_bind].
      rewrite (getBufferForChannel_Ok _ _ _ Hc Hsc). cbn [mbind Res_bind].
      rewrite Ht. cbn [lift mbind Res_bind].
      assert (Htc' : _buffers (set_buffers tb (merged_upto f (Z.to_nat c) (_buffers tb)
                         (_buffers sb))) !! Z.to_nat c = Some t).
      { cbn. by rewrite merged_upto_lookup_ge. }
      rewrite (getBufferForChannel_Ok _ _ _ Hc Htc'). cbn [mbind Res_bind].
      rewrite (sample_loop h _ c t s w Ht Hs Hc Htc' Hsc (HLt _ _ Htc) (HLs _ _ Hsc)).
      cbn [mbind Res_bind _buffers set_buffers].
      change (set_buffers (set_buffers tb ?y) ?x) with (set_buffers tb x).
      rewrite merged_upto_S by done.
      rewrite IH; try done; try lia.
      * rewrite insert_insert_eq. do 2 f_equal.
        replace (Z.to_nat (cc - c)) with (S (Z.to_nat (cc - (c + 1)))) by lia.
        cbn. by rewrite count_up_add.
      * by rewrite lookup_insert_ne.
      * rewrite lookup_insert_eq. do 3 f_equal. lia.
Qed.
End ChannelLoop.

(** X7.  [mergeBuffers] with a source that loops, on two distinct buffers
    of the constructor's shape: it writes [min M (N - writeOffset)]
    samples in each common channel whatever the read offset, and when the
    read index reaches the end of the source it starts again at 0: the
    target gets the samples of the source from the read offset to its end,
    then the samples from index 0 on. *)
Theorem mergeBuffers_loops this src ro wo vol h tb sb :
  this ≠ src → h !! this = Some tb → h !! src = Some sb →
  wf_buffer tb → wf_buffer sb → loopeable sb = true →
  0 ≤ wo < bufferSize tb → 0 ≤ ro →
  let k := Z.min (bufferSize sb) (bufferSize tb - wo) in
  mergeBuffers this (Some src) ro wo vol h
  = Ok (<[this := set_buffers tb
                    (merged_upto (λ t s, mixed_looped t s (Z.to_nat wo) (Z.to_nat ro)
                                                      (Z.to_nat k) vol)
                                 (length (_buffers tb)) (_buffers tb) (_buffers sb))]> h,
        k).
Proof.
  intros Hne Ht Hs Hwt Hws Hloop Hwo Hro k.
  destruct (wf_bounds _ Hwt) as (HN & HcT & HbT).
  destruct (wf_bounds _ Hws) as (HM & HcS & HbS).
  unfold mergeBuffers. rewrite Ht. cbn [mbind Res_bind lift].
  destruct (bufferSize tb <=? wo) eqn:E; [apply Z.leb_le in E; lia|].
  rewrite Hs. cbn [mbind Res_bind lift]. unfold Int.INT_MAX in *.
  rewrite (add_fits wo (bufferSize sb)) by (unfold Int.fits, Int.INT_MIN, Int.INT_MAX; lia).
  rewrite (sub_fits (bufferSize tb) wo) by (unfold Int.fits, Int.INT_MIN, Int.INT_MAX; lia).
  rewrite (sub_fits (amountOfChannels sb) 1) by (unfold Int.fits, Int.INT_MIN, Int.INT_MAX; lia).
  assert (Hlen : (if bufferSize tb <? wo + bufferSize sb
                  then bufferSize tb - wo else bufferSize sb) = k).
  { unfold k. destruct (bufferSize tb <? wo + bufferSize sb) eqn:E'.
    - apply Z.ltb_lt in E'. lia.
    - apply Z.ltb_ge in E'. lia. }
  rewrite Hlen.
  assert (Hk : 0 ≤ k ≤ bufferSize tb - wo ∧ k ≤ bufferSize sb) by (unfold k; lia).
  rewrite (add_fits wo k) by (unfold Int.fits, Int.INT_MIN, Int.INT_MAX; lia).
  pose proof (wf_vector _ Hwt) as HvT. pose proof (wf_vector _ Hws) as HvS.
  rewrite <- HvS at 1. rewrite Hloop.
  rewrite (merge_channels_by this src tb sb true vol ro wo (wo + k) (Z.to_nat k)
             (λ t s, mixed_looped t s (Z.to_nat wo) (Z.to_nat ro) (Z.to_nat k) vol) Hne).
  - cbn [mbind Res_bind]. rewrite HvT, HvS.
    set (cc := Z.min (amountOfChannels tb) (amountOfChannels sb)).
    replace (cc - 0) with cc by lia.
    rewrite count_up_fits by (unfold Int.INT_MAX; nia).
    unfold Int.div. destruct (cc =? 0) eqn:Ecc; [apply Z.eqb_eq in Ecc; lia|].
    cbn. do 2 f_equal.
    replace (0 + Z.of_nat (Z.to_nat cc * Z.to_nat k)) with (k * cc) by lia.
    rewrite Z.quot_mul by lia.
    apply wrap_fits. unfold Int.fits, Int.INT_MIN, Int.INT_MAX. lia.
  - intros h0 tb' c t s w Ht0 Hs0 Hc Htc Hsc Hlt Hls.
    replace (wo + k - wo) with k by lia. rewrite <- Hls.
    apply (merge_samples_looped this src c vol (Z.to_nat k) h0 tb' sb t s wo ro w);
      try done; lia.
  - done.
  - cbn. rewrite merged_upto_0, Ht. f_equal. by destruct tb.
  - intros j t Hj. by eapply wf_arrays.
  - intros j t Hj. by eapply wf_arrays.
  - done.
  - lia.
  - lia.
Qed.
End MergeLoop.

Section Tuning.
Context {FO : FloatOps} {CO : Collaborators} {EP : EngineProps}.

(** What [initKarplusStrong] keeps of the oscillator. *)
Lemma initKarplusStrong_tuning e r :
  let e' := (initKarplusStrong e r).1 in
  _frequency e' = _frequency e ∧ _phaseIncr e' = _phaseIncr e
  ∧ _phase e' = _phase e ∧ _baseFrequency e' = _baseFrequency e.
Proof.
  unfold initKarplusStrong. cbn zeta.
  repeat match goal with
         | |- context [let '(_, _) := ?x in _] => destruct x
         | |- context [if ?c then _ else _] => destruct c
         end; cbn; repeat split; eauto.
Qed.

(** The fields of the event itself after [setFrequency]. *)
Lemma setFrequency_own f all store e r :
  let e' := (setFrequency f all store e r).1 in
  _frequency e' = f
  ∧ _phaseIncr e' = (f / of_int SAMPLE_RATE)%F
  ∧ _phase e' = _phase e
  ∧ _baseFrequency e' = (if store then f else _baseFrequency e).
Proof.
  rewrite setFrequency_eq. cbn zeta.
  set (e3 := if store then _ else _).
  assert (H3 : _frequency e3 = f ∧ _phaseIncr e3 = (f / of_int SAMPLE_RATE)%F
               ∧ _phase e3 = _phase e
               ∧ _baseFrequency e3 = (if store then f else _baseFrequency e)).
  { unfold e3. destruct e. by destruct store. }
  clearbody e3.
  set (p4 := match _type e3 with KARPLUS_STRONG => _ | _ => _ end).
  assert (H4 : _frequency p4.1 = _frequency e3 ∧ _phaseIncr p4.1 = _phaseIncr e3
               ∧ _phase p4.1 = _phase e3 ∧ _baseFrequency p4.1 = _baseFrequency e3).
  { unfold p4. destruct (_type e3); try done. apply initKarplusStrong_tuning. }
  clearbody p4. destruct p4 as [e4 r4]. cbn [fst] in H4.
  destruct H3 as (A1 & A2 & A3 & A4), H4 as (B1 & B2 & B3 & B4).
  assert (H : _frequency e4 = f ∧ _phaseIncr e4 = (f / of_int SAMPLE_RATE)%F
              ∧ _phase e4 = _phase e
              ∧ _baseFrequency e4 = (if store then f else _baseFrequency e))
    by (repeat split; congruence).
  destruct (_osc2 e) as [o|]; [|done].
  destruct all; [|done].
  destruct (setFrequency _ true store o r4) as [o' r']. cbn [fst].
  by destruct e4.
Qed.

(** X8.  [setFrequency] sets the frequency and the phase increment
    [aFrequency / SAMPLE_RATE] of the event, stores the base frequency
    only when asked to, and never changes the phase.  With
    [allOscillators] the secondary oscillator keeps its ratio to the
    event: its frequency is multiplied by [aFrequency / currentFreq]; its
    phase is kept as well.  Without [allOscillators] the secondary
    oscillator is left as it is. *)
Theorem setFrequency_keeps_ratio f all store e r :
  let e' := (setFrequency f all store e r).1 in
  _frequency e' = f
  ∧ _phaseIncr e' = (f / of_int SAMPLE_RATE)%F
  ∧ _phase e' = _phase e
  ∧ _baseFrequency e' = (if store then f else _baseFrequency e)
  ∧ match _osc2 e with
    | None => _osc2 e' = None
    | Some o =>
        if all
        then ∃ o', _osc2 e' = Some o'
                   ∧ _frequency o' = (_frequency o * (f / _frequency e))%F
                   ∧ _phaseIncr o' = (_frequency o' / of_int SAMPLE_RATE)%F
                   ∧ _phase o' = _phase o
                   ∧ _baseFrequency o' = (if store then _frequency o' else _baseFrequency o)
        else _osc2 e' = Some o
    end.
Proof.
  destruct (setFrequency_own f all store e r) as (H1 & H2 & H3 & H4).
  cbn zeta. repeat (split; [done|]). clear H1 H2 H3 H4.
  rewrite setFrequency_eq. cbn zeta.
  set (e3 := if store then _ else _).
  assert (H3 : _osc2 e3 = _osc2 e) by (unfold e3; destruct e; by destruct store).
  clearbody e3.
  set (p4 := match _type e3 with KARPLUS_STRONG => _ | _ => _ end).
  assert (H4 : _osc2 p4.1 = _osc2 e3).
  { unfold p4. destruct (_type e3); try done.
    by destruct (initKarplusStrong_keeps e3 r) as (_ & _ & Ho & _). }
  clearbody p4. destruct p4 as [e4 r4]. cbn [fst] in H4. rewrite H3 in H4.
  destruct (_osc2 e) as [o|] eqn:Eo; [|done].
  destruct all; [|done].
  destruct (setFrequency_own (_frequency o * (f / _frequency e))%F true store o r4)
    as (F1 & F2 & F3 & F4).
  destruct (setFrequency _ true store o r4) as [o' r']. cbn [fst] in *.
  exists o'. split; [by destruct e4|].
  rewrite F1. done.
Qed.
End Tuning.

(** ** [SynthEvent::synthesize], [render] and [getBuffer]: more of their behaviour *)

Section Ringing.
Context {FO : FloatOps} {CO : Collaborators} {EP : EngineProps}.

(** X9.  After the render, [synthesize] leaves every buffer as the render
    left it and returns the buffer of the event, unless the event is
    queued for deletion and its minimum length is used up: an event that
    is not queued, or that is queued and still has more than the rendered
    length to ring, is not faded; it is not flagged for deletion either
    (the flag is cleared when the minimum length was used up without a
    key-up).  A queued event that still rings only has the rendered
    length taken from its minimum length. *)
Theorem synthesize_release_quiet L e w :
  _queuedForDeletion e = false ∨ 0 < _minLength e ∧ 0 < Int.sub (_minLength e) L →
  ∃ e',
    synthesize_release L e w = Ok (_buffer (base e), e', w)
    ∧ _queuedForDeletion e' = _queuedForDeletion e
    ∧ (_deleteMe (base e') = true → _deleteMe (base e) = true)
    ∧ _minLength e'
      = (if _queuedForDeletion e then Int.sub (_minLength e) L else _minLength e).
Proof.
  intros Hpre. unfold synthesize_release.
  destruct (_queuedForDeletion e) eqn:Hq.
  - destruct Hpre as [?|[Hm Hs]]; [done|].
    cbn [andb]. destruct (Z.ltb_spec 0 (_minLength e)); [|lia].
    cbn [_minLength set_minLength].
    replace (_minLength (set_minLength (Int.sub (_minLength e) L) e))
      with (Int.sub (_minLength e) L) by (by destruct e).
    destruct (Z.leb_spec (Int.sub (_minLength e) L) 0); [lia|].
    cbn [mbind Res_bind]. eexists. split; [by destruct e|].
    split; [by destruct e|]. split; [by destruct e|by destruct e].
  - cbn [andb]. destruct (_minLength e <=? 0); cbn [mbind Res_bind].
    + destruct (setDeletable_rung (_queuedForDeletion (set_hasMinLength true e))
                                  (set_hasMinLength true e) eq_refl)
        as (Hb2 & Hq2 & Hd2 & Hh2).
      change (_queuedForDeletion (set_hasMinLength true e)) with (_queuedForDeletion e) in *.
      change (base (set_hasMinLength true e)) with (base e) in *.
      rewrite Hq in *. rewrite Hq2. cbn [mbind Res_bind]. rewrite Hb2.
      eexists. split; [reflexivity|]. split; [done|]. split; [by rewrite Hd2|].
      clear. destruct e as [b c po le sq hp ty fr bf ph pi vo pw tp pr pa ed ml hm qd rb rs ar ad o2].
      cbn. rewrite orb_true_r. by destruct o2.
    + eexists. by split.
Qed.
End Ringing.

Section CacheRender.
Context {FO : FloatOps} {CO : Collaborators} {EP : EngineProps}.

(** X10.  When the engine caches, a render of a sequenced event without
    secondary oscillator into a buffer as long as the event, from a cache
    write index inside the event, reaches the last sample index of the
    event in one call: the cache is marked as completed, the event is no
    longer caching and no cancellation is pending.  The loop index
    [_sampleLength - 1] is added to the cache write index.  A call of
    [getBuffer] after it returns the buffer of the event without another
    render. *)
Theorem render_completes_cache fuel fuel' e p w out :
  EVENT_CACHING = true → isSequenced e = true → hasParent e = false →
  _osc2 e = None → ring_ready e → _cancel (cacheable e) = false →
  heap w !! p = Some out → wf_buffer out →
  bufferSize out = _sampleLength (base e) →
  0 ≤ _cacheWriteIndex (cacheable e) < _sampleLength (base e) →
  ∃ e' w',
    render (S fuel) e p w = Ok (e', w')
    ∧ _cachingCompleted (cacheable e') = true
    ∧ _caching (cacheable e') = false
    ∧ _cancel (cacheable e') = false
    ∧ _cacheWriteIndex (cacheable e')
      = _cacheWriteIndex (cacheable e) + (_sampleLength (base e) - 1)
    ∧ base e' = base e
    ∧ getBuffer fuel' e' w' = Ok (_buffer (base e), e', w').
Proof.
  intros Hc Hs Hp Ho Hr Hn Hh Hwf HL Hcw.
  destruct (wf_bounds _ Hwf) as (Hb & _ & _). rewrite HL in Hb.
  set (L := _sampleLength (base e)) in *. set (cw := _cacheWriteIndex (cacheable e)) in *.
  assert (Hstart : renderStartOffset e = cw)
    by (unfold renderStartOffset; by rewrite Hc, Hs).
  assert (Hmax : maxSampleIndex e = L - 1).
  { unfold maxSampleIndex. apply sub_fits. unfold Int.fits, Int.INT_MIN, Int.INT_MAX. lia. }
  assert (Hcl : clipped e (bufferSize out) = true).
  { unfold clipped. rewrite Hmax, Hstart, HL.
    rewrite add_fits by (unfold Int.fits, Int.INT_MIN, Int.INT_MAX; lia).
    apply Z.ltb_lt. lia. }
  assert (Hend : renderEndOffset e (bufferSize out) = L - 1).
  { unfold renderEndOffset. by rewrite Hcl. }
  destruct (render_loop_spec e p w out Hh Hwf Hr Hn) as (vs & e1 & r1 & _ & _ & Hk & Hrun).
  { rewrite Hstart. lia. }
  { rewrite Hend, Hstart, HL. lia. }
  rewrite Hend, Hstart in Hrun.
  replace (cw + Z.of_nat (Z.to_nat (L - 1 - cw))) with (L - 1) in Hrun by lia.
  apply kept_eq in Hk as (Kb & Kc & Ks & Kp & Kt & Kv & Kr & Ko). rewrite Ho in Ko.
  cbn [render]. unfold render_with, render_voices. rewrite Hh. cbn [mbind Res_bind lift].
  rewrite Hrun. cbn [mbind Res_bind].
  rewrite Ho. rewrite bool_decide_eq_false_2 by (by intros [? ?]).
  cbn [render_osc2 andb mbind Res_bind].
  unfold render_envelope. rewrite Kp, Hp.
  cbn [heap set_heap set_random]. rewrite lookup_insert_eq. cbn [lift mbind Res_bind].
  destruct (ADSR_apply _ _ _) as [a out']. cbn [mbind Res_bind].
  unfold render_epilogue.
  match goal with |- context [isSequenced ?E] =>
    replace (isSequenced E) with true by (by rewrite <- Hs, <- Ks; destruct e1) end.
  rewrite Hc. cbn [andb].
  match goal with |- context [_cancel (cacheable ?E)] =>
    replace (_cancel (cacheable E)) with false
      by (rewrite <- Hn, <- Kc; destruct e1 as [? []]; reflexivity) end.
  rewrite Hmax, Z.eqb_refl.
  cbn [mbind Res_bind].
  eexists _, _. split; [reflexivity|].
  assert (Hcw1 : _cacheWriteIndex (cacheable e1) = cw) by (by rewrite Kc).
  assert (Hadd : Int.add cw (L - 1) = cw + (L - 1)).
  { apply add_fits. unfold Int.fits, Int.INT_MIN, Int.INT_MAX. lia. }
  match goal with |- context [_bulkCacheable (cacheable ?E)] =>
    destruct (_bulkCacheable (cacheable E)) end.
  all: repeat split;
    try (destruct e1 as [? []]; cbn in *; congruence).
  all: unfold getBuffer; rewrite Hc.
  all: match goal with |- context [negb (_cachingCompleted (cacheable ?E))] =>
      replace (_cachingCompleted (cacheable E)) with true
        by (destruct e1 as [? []]; reflexivity) end.
  all: cbn [negb andb mbind Res_bind].
  all: do 3 f_equal; rewrite <- Kb; by destruct e1 as [? []].
Qed.
End CacheRender.

Lemma fmap_const_on {A B} (P : A → Prop) (f : A → B) (c : B) (l : list A) :
  Forall P l → (∀ x, P x → f x = c) → f <$> l = replicate (length l) c.
Proof.
  intros Hall Hf. induction Hall as [|x l Hx _ IH]; [done|].
  cbn. by rewrite Hf, IH.
Qed.

Section StreamRender.
Context {FO : FloatOps} {CO : Collaborators} {EP : EngineProps}.
Hypothesis streaming : EVENT_CACHING = false.

(** X11.  When the engine streams, the render of an event without
    secondary oscillator overwrites the whole output buffer: every
    channel holds the samples of the loop from index 0 on and silence
    after them, whatever the buffer held before.  The envelope is then
    applied to this buffer at the cache write index, which is advanced by
    the number of samples; a secondary oscillator (an event with a
    parent) gets no envelope and keeps its write index.  No cancellation
    is pending afterwards. *)
Theorem render_streaming_overwrites fuel e p w out :
  heap w !! p = Some out → wf_buffer out →
  _osc2 e = None → ring_ready e → _cancel (cacheable e) = false →
  let L := bufferSize out in
  let n := Z.to_nat (renderEndOffset e L) in
  ∃ vs e1 r1,
    sample_values n false 0 e (random w) = Ok (vs, e1, r1)
    ∧ length vs = n
    ∧ let written :=
        set_buffers out (replicate (length (_buffers out))
                                   (vs ++ replicate (Z.to_nat L - n) (dec 0 1))) in
      render (S fuel) e p w
      = Ok (if hasParent e
            then (upd_cacheable (set_cancel false) e1,
                  set_heap (<[p := written]> (heap w)) (set_random r1 w))
            else
              let '(a, out') := ADSR_apply (_adsr e1) (_cacheWriteIndex (cacheable e))
                                           written in
              (upd_cacheable (set_cancel false)
                 (upd_cacheable
                    (set_cacheWriteIndex
                       (Int.add (_cacheWriteIndex (cacheable e)) (Z.of_nat n)))
                    (set_adsr a e1)),
               set_heap (<[p := out']> (heap w)) (set_random r1 w))).
Proof.
  intros Hp Hwf Ho Hr Hc L n.
  destruct (render_loop_streaming streaming e p w out Hp Hwf Hr Hc)
    as (vs & e1 & r1 & Hvs & Hl & Hk & Hrun).
  fold L n in Hvs, Hl, Hrun.
  rewrite Ho in Hvs. rewrite bool_decide_eq_false_2 in Hvs by (by intros [? ?]).
  exists vs, e1, r1. split; [done|]. split; [done|]. cbn zeta.
  apply kept_eq in Hk as (Kb & Kc & Ks & Kp & Kt & Kv & Kr & Ko).
  assert (Hw : (λ t : list SAMPLE_TYPE,
                  spliced (if clipped e L then generateSilentBuffer L else t) 0 vs)
                 <$> _buffers out
               = replicate (length (_buffers out))
                           (vs ++ replicate (Z.to_nat L - n) (dec 0 1))).
  { pose proof (wf_Forall _ Hwf) as Hall. fold L in Hall.
    destruct (wf_bounds _ Hwf) as (HL & _ & _). fold L in HL.
    apply (fmap_const_on _ _ _ _ Hall).
    intros t Ht. unfold spliced. rewrite take_0, app_nil_l, Nat.add_0_l, Hl.
    f_equal. destruct (clipped e L) eqn:Ecl.
    - unfold generateSilentBuffer. by rewrite drop_replicate.
    - assert (n = Z.to_nat L) as ->.
      { unfold n, renderEndOffset. rewrite Ecl. rewrite renderStartOffset_streaming by done.
        rewrite add_fits by (unfold Int.fits, Int.INT_MIN, Int.INT_MAX; lia). done. }
      rewrite Nat.sub_diag. cbn [replicate]. apply drop_ge. lia. }
  rewrite Hw in Hrun. clear Hw.
  cbn [render]. unfold render_with, render_voices. rewrite Hp. cbn [mbind Res_bind lift].
  rewrite Hrun. cbn [mbind Res_bind].
  rewrite Ho. rewrite bool_decide_eq_false_2 by (by intros [? ?]).
  cbn [render_osc2 andb mbind Res_bind].
  unfold render_envelope, render_epilogue. rewrite streaming, Kp.
  destruct (hasParent e); cbn [andb mbind Res_bind].
  { done. }
  cbn [heap set_heap set_random]. rewrite lookup_insert_eq. cbn [lift mbind Res_bind].
  rewrite Kc.
  destruct (ADSR_apply _ _ _) as [a out']. cbn [mbind Res_bind].
  rewrite insert_insert_eq. do 3 f_equal.
  change (cacheable (set_adsr a e1)) with (cacheable e1). by rewrite Kc.
Qed.
End StreamRender.

(** ** [SynthEvent::calculateBuffers], [unlock] and [updateProperties] *)

Section Recalculation.
Context {FO : FloatOps} {CO : Collaborators} {EP : EngineProps}.

Lemma isSequenced_upd_base f e : isSequenced (upd_base f e) = isSequenced e.
Proof. reflexivity. Qed.

Lemma hasParent_upd_base f e : hasParent (upd_base f e) = hasParent e.
Proof. reflexivity. Qed.

Lemma destroyBuffer_Some e w q :
  _buffer (base e) = Some q →
  destroyBuffer e w = (upd_base (set_buffer None) e, set_heap (delete q (heap w)) w).
Proof. unfold destroyBuffer. by intros ->. Qed.

Lemma destroyBuffer_None e w :
  _buffer (base e) = None → destroyBuffer e w = (e, w).
Proof. unfold destroyBuffer. by intros ->. Qed.

Lemma new_AudioBuffer_Ok c n w made :
  AudioBuffer_new c n = Ok made →
  new_AudioBuffer c n w
  = Ok (fresh (dom (heap w)), set_heap (<[fresh (dom (heap w)) := made]> (heap w)) w).
Proof. unfold new_AudioBuffer. by intros ->. Qed.

Lemma AudioBuffer_new_returns c n :
  0 ≤ c → 0 ≤ n → ∃ made, AudioBuffer_new c n = Ok made.
Proof.
  intros Hc Hn. unfold AudioBuffer_new.
  destruct (Z.ltb_spec c 0); [lia|]. destruct (Z.ltb_spec n 0); [lia|]. by eexists.
Qed.

(** The pluck of the string in [calculateBuffers]. *)
Lemma pluck_keeps e r :
  let e' := (match _type e with
             | KARPLUS_STRONG => initKarplusStrong e r
             | _ => (e, r)
             end).1 in
  base e' = base e ∧ cacheable e' = cacheable e ∧ position e' = position e
  ∧ length_ e' = length_ e ∧ _minLength e' = _minLength e
  ∧ _hasMinLength e' = _hasMinLength e
  ∧ isSequenced e' = isSequenced e ∧ hasParent e' = hasParent e
  ∧ _osc2 e' = _osc2 e.
Proof.
  destruct (_type e); try done. cbn zeta.
  destruct (initKarplusStrong_keeps e r)
    as (Hb & Hc & Ho & Hs & Hh & _ & _ & _ & Hp & Hl & _).
  repeat split; try done.
  all: unfold initKarplusStrong; cbn zeta.
  all: repeat match goal with
         | |- context [let '(_, _) := ?x in _] => destruct x
         | |- context [if ?c then _ else _] => destruct c
         end; reflexivity.
Qed.

Lemma calculateBuffers_streaming_spec fuel e w :
  EVENT_CACHING = false → _locked (base e) = false → isSequenced e = true →
  0 ≤ OUTPUT_CHANNELS → 0 ≤ BUFFER_SIZE →
  let len := cast_int (length_ e * of_int (bytes_per_tick w))%F in
  let start := Int.mul (position e) (bytes_per_tick w) in
  let freed := match _buffer (base e) with
               | Some q => delete q (heap w)
               | None => heap w
               end in
  ∃ e' w',
    calculateBuffers fuel e w = Ok (e', w')
    ∧ _sampleLength (base e') = len ∧ _sampleStart (base e') = start
    ∧ _sampleEnd (base e') = Int.add start len
    ∧ _locked (base e') = false
    ∧ _updateAfterUnlock (base e') = _updateAfterUnlock (base e)
    ∧ position e' = position e ∧ length_ e' = length_ e
    ∧ _cancel (cacheable e') = _caching (cacheable e) || _cancel (cacheable e)
    ∧ isSequenced e' = true ∧ hasParent e' = hasParent e
    ∧ _hasMinLength e' = _hasMinLength e
    ∧ _deleteMe (base e') = _deleteMe (base e)
    ∧ _osc2 e' = _osc2 e
    ∧ if (len =? _sampleLength (base e)) && bool_decide (is_Some (_buffer (base e)))
      then _buffer (base e') = _buffer (base e) ∧ heap w' = heap w
      else if hasParent e
           then _buffer (base e') = None ∧ heap w' = freed
           else ∃ made,
               AudioBuffer_new OUTPUT_CHANNELS BUFFER_SIZE = Ok made
               ∧ _buffer (base e') = Some (fresh (dom freed))
               ∧ heap w' = <[fresh (dom freed) := made]> freed.
Proof.
  intros Hs Hl Hq Hc Hb len start freed.
  unfold calculateBuffers, calculateBuffers_with. rewrite Hl, Hq, Hs.
  cbn [andb].
  set (e0 := if _caching (cacheable e) then upd_cacheable (set_cancel true) e else e).
  assert (H0 : base e0 = base e ∧ position e0 = position e ∧ length_ e0 = length_ e
               ∧ hasParent e0 = hasParent e ∧ isSequenced e0 = true
               ∧ _cancel (cacheable e0) = _caching (cacheable e) || _cancel (cacheable e)
               ∧ _hasMinLength e0 = _hasMinLength e ∧ _osc2 e0 = _osc2 e).
  { unfold e0. destruct (_caching (cacheable e)); repeat split; try done.
    all: by destruct e. }
  clearbody e0. destruct H0 as (B0 & P0 & L0 & HP0 & S0 & C0 & M0 & O0).
  destruct e0 as [[bu ss se sl lk ua dm] c0 po le sq hp ty fr bf ph pi vo pw tp pr pa ed ml hm qd rb rs ar ad o2].
  cbn in B0, P0, L0, HP0, S0, C0, M0, O0. subst po le hp sq hm o2.
  cbv zeta. cbn [base upd_base set_base set_sampleLength set_sampleStart set_sampleEnd set_adsr _sampleLength _sampleStart _sampleEnd _buffer length_ position hasParent isSequenced _adsr].
  fold len start. unfold freed. rewrite <- B0 in *.
  cbn [_sampleLength _buffer _updateAfterUnlock _locked] in *. subst lk.
  destruct (AudioBuffer_new_returns _ _ Hc Hb) as [made Hnew].
  destruct (len =? sl); destruct bu as [q|].
  all: try rewrite (bool_decide_eq_true_2 (is_Some (Some q))) by done.
  all: try rewrite (bool_decide_eq_false_2 (is_Some None)) by (by intros [? ?]).
  all: cbn [negb orb andb].
  all: unfold destroyBuffer, new_AudioBuffer;
    cbn [base upd_base set_base set_buffer set_adsr set_sampleEnd set_sampleStart
         set_sampleLength _buffer hasParent heap set_heap].
  all: try rewrite Hnew.
  all: destruct (hasParent e); cbn [mbind Res_bind].
  all: match goal with |- context [if isSequenced ?E then _ else _] => set (e2 := E) end.
  all: assert (He2 : isSequenced e2 = true) by reflexivity.
  all: rewrite He2.
  all: match goal with |- context [initKarplusStrong ?E (random ?W)] =>
         pose proof (pluck_keeps E (random W)) as K; cbv zeta in K;
         destruct (match _type E with
                   | KARPLUS_STRONG => initKarplusStrong E (random W)
                   | _ => (E, random W)
                   end) as [e3 r3]
       end.
  all: cbn [fst] in K; destruct K as (Kb & Kc & Kp & Kl & _ & Km & Ks & Kh & Ko).
  all: exists e3; eexists; (split; [reflexivity|]).
  all: rewrite Kb, Kc, Kp, Kl, Km, Ks, Kh, Ko.
  all: do 7 (split; [reflexivity|]).
  all: (split; [assumption|]).
  all: do 5 (split; [reflexivity|]).
  all: cbn [heap set_heap set_random].
  all: try (exists made).
  all: repeat split; reflexivity.
Qed.

(** X12.  When the engine streams, [calculateBuffers] on a sequenced event
    that is not locked returns and sets the sample range from the place
    in the sequencer and the tempo: [_sampleLength] is
    [length * bytes_per_tick] cast to [int], [_sampleStart] is
    [position * bytes_per_tick] and [_sampleEnd] their sum; a running
    cache is asked to cancel.  The buffer is kept when the length did not
    change and the event has a buffer; otherwise the old buffer is
    released and, unless the event is a secondary oscillator, replaced by
    a silent buffer of [OUTPUT_CHANNELS] channels and [BUFFER_SIZE]
    frames at an address not in use. *)
Theorem calculateBuffers_follows_tempo fuel e w :
  EVENT_CACHING = false → _locked (base e) = false → isSequenced e = true →
  0 ≤ OUTPUT_CHANNELS → 0 ≤ BUFFER_SIZE →
  let len := cast_int (length_ e * of_int (bytes_per_tick w))%F in
  let start := Int.mul (position e) (bytes_per_tick w) in
  let freed := match _buffer (base e) with
               | Some q => delete q (heap w)
               | None => heap w
               end in
  ∃ e' w',
    calculateBuffers fuel e w = Ok (e', w')
    ∧ _sampleLength (base e') = len ∧ _sampleStart (base e') = start
    ∧ _sampleEnd (base e') = Int.add start len
    ∧ _locked (base e') = false
    ∧ _updateAfterUnlock (base e') = _updateAfterUnlock (base e)
    ∧ position e' = position e ∧ length_ e' = length_ e
    ∧ _cancel (cacheable e') = _caching (cacheable e) || _cancel (cacheable e)
    ∧ isSequenced e' = true ∧ hasParent e' = hasParent e
    ∧ _hasMinLength e' = _hasMinLength e
    ∧ _deleteMe (base e') = _deleteMe (base e)
    ∧ _osc2 e' = _osc2 e
    ∧ if (len =? _sampleLength (base e)) && bool_decide (is_Some (_buffer (base e)))
      then _buffer (base e') = _buffer (base e) ∧ heap w' = heap w
      else if hasParent e
           then _buffer (base e') = None ∧ heap w' = freed
           else ∃ made,
               AudioBuffer_new OUTPUT_CHANNELS BUFFER_SIZE = Ok made
               ∧ _buffer (base e') = Some (fresh (dom freed))
               ∧ heap w' = <[fresh (dom freed) := made]> freed.
Proof. apply calculateBuffers_streaming_spec. Qed.

(** X13.  [calculateBuffers] on a locked event changes nothing but the
    flag [_updateAfterUnlock]: the sample range and the buffer stay as
    they are.  The update is not lost: when the engine streams, a later
    [unlock] returns, with the event unlocked, the flag cleared and the
    sample range computed from the place of the event and the tempo at
    the time of the unlock. *)
Theorem unlock_runs_deferred fuel e w w2 :
  EVENT_CACHING = false → _locked (base e) = true → isSequenced e = true →
  0 ≤ OUTPUT_CHANNELS → 0 ≤ BUFFER_SIZE →
  let len := cast_int (length_ e * of_int (bytes_per_tick w2))%F in
  let start := Int.mul (position e) (bytes_per_tick w2) in
  ∃ e1,
    calculateBuffers fuel e w = Ok (e1, w)
    ∧ _updateAfterUnlock (base e1) = true ∧ _locked (base e1) = true
    ∧ _sampleLength (base e1) = _sampleLength (base e)
    ∧ _sampleStart (base e1) = _sampleStart (base e)
    ∧ _sampleEnd (base e1) = _sampleEnd (base e)
    ∧ _buffer (base e1) = _buffer (base e)
    ∧ ∃ e2 w3,
        unlock fuel e1 w2 = Ok (e2, w3)
        ∧ _locked (base e2) = false ∧ _updateAfterUnlock (base e2) = false
        ∧ _sampleLength (base e2) = len ∧ _sampleStart (base e2) = start
        ∧ _sampleEnd (base e2) = Int.add start len.
Proof.
  intros Hs Hl Hq Hc Hb len start.
  exists (upd_base (set_updateAfterUnlock true) e).
  split. { unfold calculateBuffers, calculateBuffers_with. by rewrite Hl. }
  do 6 (split; [by destruct e as [[]]|]).
  unfold unlock.
  set (e1 := upd_base (set_locked false) (upd_base (set_updateAfterUnlock true) e)).
  assert (H1 : _updateAfterUnlock (base e1) = true) by reflexivity.
  rewrite H1.
  destruct (calculateBuffers_streaming_spec fuel e1 w2 Hs eq_refl Hq Hc Hb) as
    (e2 & w3 & Hrun & Hlen & Hstart & Hend & Hlk & _).
  rewrite Hrun. cbn [mbind Res_bind].
  eexists _, _. split; [reflexivity|].
  change (position e1) with (position e) in *.
  change (length_ e1) with (length_ e) in *.
  fold len start in Hlen, Hstart, Hend.
  destruct e2 as [[]]. cbn in *. done.
Qed.

Lemma calculateBuffers_live_spec fuel e w :
  _locked (base e) = false → isSequenced e = false →
  0 ≤ OUTPUT_CHANNELS → 0 ≤ BUFFER_SIZE →
  let freed := match _buffer (base e) with
               | Some q => delete q (heap w)
               | None => heap w
               end in
  ∃ e' w',
    calculateBuffers fuel e w = Ok (e', w')
    ∧ _minLength e' = Z.quot (bytes_per_bar w) 32 ∧ _hasMinLength e' = false
    ∧ _sampleLength (base e') = bytes_per_bar w
    ∧ cacheable e' = cacheable e
    ∧ position e' = position e ∧ length_ e' = length_ e
    ∧ isSequenced e' = false ∧ hasParent e' = hasParent e
    ∧ _osc2 e' = _osc2 e
    ∧ if (bytes_per_bar w =? BUFFER_SIZE) && bool_decide (is_Some (_buffer (base e)))
      then _buffer (base e') = _buffer (base e) ∧ w' = w
      else if hasParent e
           then _buffer (base e') = None ∧ heap w' = freed
           else ∃ made,
               AudioBuffer_new OUTPUT_CHANNELS BUFFER_SIZE = Ok made
               ∧ _buffer (base e') = Some (fresh (dom freed))
               ∧ heap w' = <[fresh (dom freed) := made]> freed.
Proof.
  intros Hl Hq Hc Hb freed.
  destruct (AudioBuffer_new_returns _ _ Hc Hb) as [made Hnew].
  unfold calculateBuffers, calculateBuffers_with. rewrite Hl, Hq.
  cbv beta iota zeta.
  match goal with |- context [destroyBuffer ?E _] => set (e1 := E) end.
  assert (B1 : _buffer (base e1) = _buffer (base e)) by reflexivity.
  assert (S1 : _sampleLength (base e1) = bytes_per_bar w) by reflexivity.
  assert (Q1 : isSequenced e1 = false) by exact Hq.
  assert (C1 : cacheable e1 = cacheable e) by reflexivity.
  assert (M1 : _minLength e1 = Z.quot (bytes_per_bar w) 32) by reflexivity.
  assert (N1 : _hasMinLength e1 = false) by reflexivity.
  assert (P1 : hasParent e1 = hasParent e) by reflexivity.
  assert (Po1 : position e1 = position e) by reflexivity.
  assert (L1 : length_ e1 = length_ e) by reflexivity.
  assert (O1 : _osc2 e1 = _osc2 e) by reflexivity.
  rewrite S1, B1. unfold freed. clear freed. clearbody e1.
  destruct (bytes_per_bar w =? BUFFER_SIZE);
    destruct (_buffer (base e)) as [q|] eqn:Hbuf.
  all: try rewrite (bool_decide_eq_true_2 (is_Some (Some q))) by done.
  all: try rewrite (bool_decide_eq_false_2 (is_Some None)) by (by intros [? ?]).
  all: cbn [negb orb andb].
  all: try rewrite (destroyBuffer_Some e1 w q B1).
  all: try rewrite (destroyBuffer_None e1 w B1).
  all: rewrite ?hasParent_upd_base, ?isSequenced_upd_base, ?P1, ?Q1, ?andb_false_r.
  all: destruct (hasParent e).
  all: try rewrite (new_AudioBuffer_Ok _ _ _ made Hnew).
  all: cbn [mbind Res_bind].
  all: rewrite ?isSequenced_upd_base, ?Q1.
  all: eexists _, _; (split; [reflexivity|]).
  all: do 6 (split; [assumption|]).
  all: (split; [first [assumption | reflexivity]|]).
  all: (split; [first [assumption | reflexivity]|]).
  all: (split; [assumption|]).
  all: cbn [heap set_heap].
  all: try (exists made).
  all: repeat split; first [assumption | reflexivity].
Qed.

(** X14.  [calculateBuffers] on a live event (one that is not sequenced)
    that is not locked returns, in either mode of the engine, with the
    minimum length set to a 32nd of a bar (the quotient of the [int]s),
    the count-down of the minimum length started again and the sample
    length set to a bar.  The buffer is kept only when a bar is exactly
    [BUFFER_SIZE] samples long and the event has a buffer; otherwise the
    old buffer is released and, unless the event is a secondary
    oscillator, replaced by a silent buffer of [OUTPUT_CHANNELS]
    channels and [BUFFER_SIZE] frames. *)
Theorem calculateBuffers_live fuel e w :
  _locked (base e) = false → isSequenced e = false →
  0 ≤ OUTPUT_CHANNELS → 0 ≤ BUFFER_SIZE →
  let freed := match _buffer (base e) with
               | Some q => delete q (heap w)
               | None => heap w
               end in
  ∃ e' w',
    calculateBuffers fuel e w = Ok (e', w')
    ∧ _minLength e' = Z.quot (bytes_per_bar w) 32 ∧ _hasMinLength e' = false
    ∧ _sampleLength (base e') = bytes_per_bar w
    ∧ cacheable e' = cacheable e
    ∧ position e' = position e ∧ length_ e' = length_ e
    ∧ isSequenced e' = false ∧ hasParent e' = hasParent e
    ∧ _osc2 e' = _osc2 e
    ∧ if (bytes_per_bar w =? BUFFER_SIZE) && bool_decide (is_Some (_buffer (base e)))
      then _buffer (base e') = _buffer (base e) ∧ w' = w
      else if hasParent e
           then _buffer (base e') = None ∧ heap w' = freed
           else ∃ made,
               AudioBuffer_new OUTPUT_CHANNELS BUFFER_SIZE = Ok made
               ∧ _buffer (base e') = Some (fresh (dom freed))
               ∧ heap w' = <[fresh (dom freed) := made]> freed.
Proof. apply calculateBuffers_live_spec. Qed.
End Recalculation.

Section WhileCaching.
Context {FO : FloatOps} {CO : Collaborators} {EP : EngineProps}.

Lemma same_place_refl e : same_place e e.
Proof. by repeat split. Qed.

Lemma same_place_trans e1 e2 e3 : same_place e1 e2 → same_place e2 e3 → same_place e1 e3.
Proof.
  intros (A1 & A2 & A3 & A4 & A5 & A6 & A7 & A8) (B1 & B2 & B3 & B4 & B5 & B6 & B7 & B8).
  repeat split; try congruence. auto.
Qed.

Lemma setFrequency_same_place f all store e r :
  same_place e (setFrequency f all store e r).1.
Proof.
  rewrite setFrequency_eq. cbn zeta.
  set (e3 := if store then _ else _).
  assert (H3 : same_place e e3).
  { unfold e3. destruct e. destruct store; by repeat split. }
  clearbody e3.
  set (p4 := match _type e3 with KARPLUS_STRONG => _ | _ => _ end).
  assert (H4 : same_place e3 p4.1).
  { unfold p4. destruct (_type e3); try apply same_place_refl.
    destruct (initKarplusStrong_keeps e3 r)
      as (Hb & Hc & Ho & Hs & Hp & Ht & _ & _ & Hpo & Hl & _).
    repeat split; try done. by rewrite Ho. }
  clearbody p4. destruct p4 as [e4 r4]. cbn [fst] in H4.
  pose proof (same_place_trans _ _ _ H3 H4) as H.
  destruct (_osc2 e) as [o|] eqn:Eo; [|done].
  destruct all; [|done].
  destruct (setFrequency _ true store o r4) as [o' r']. cbn [fst].
  destruct H as (B1 & B2 & B3 & B4 & B5 & B6 & B7 & B8).
  destruct e4. repeat split; try done. intros Hn. congruence.
Qed.

(** The unfolding of [applyModules]. *)
Lemma applyModules_eq ins e r :
  applyModules ins e r
  = let OSC2freq := match _osc2 e with
                    | Some o => _baseFrequency o
                    | None => _baseFrequency e
                    end in
    let e1 := set_arpeggiator None e in
    let e2 := if arpeggiatorActive ins
              then set_arpeggiator (Some (Arpeggiator_clone (arpeggiator ins))) e1
              else e1 in
    let '(e3, r3) := match _osc2 e with
                     | Some o => let '(o', r') := applyModules ins o r in
                                 (set_osc2 (Some o') e2, r')
                     | None => (e2, r)
                     end in
    match _arpeggiator e3 with
    | Some a =>
        setFrequency (Arpeggiator_getPitchForStep a (Arpeggiator_getStep a)
                                                  (_baseFrequency e3))
                     true false e3 r3
    | None =>
        let '(e4, r4) := setFrequency (_baseFrequency e3) false true e3 r3 in
        match _osc2 e4 with
        | Some o => let '(o', r') := setFrequency OSC2freq false true o r4 in
                    (set_osc2 (Some o') e4, r')
        | None => (e4, r4)
        end
    end.
Proof. destruct e; reflexivity. Qed.

Lemma applyModules_same_place ins e r : same_place e (applyModules ins e r).1.
Proof.
  rewrite applyModules_eq. cbv zeta.
  set (e2 := if arpeggiatorActive ins then _ else _).
  assert (H2 : same_place e e2).
  { unfold e2. destruct e. destruct (arpeggiatorActive ins); by repeat split. }
  clearbody e2.
  set (p3 := match _osc2 e with Some o => _ | None => _ end).
  assert (H3 : same_place e p3.1).
  { unfold p3. destruct (_osc2 e) as [o|] eqn:Eo; [|done].
    destruct (applyModules ins o r) as [o' r']. cbn [fst].
    destruct H2 as (B1 & B2 & B3 & B4 & B5 & B6 & B7 & B8).
    destruct e2. repeat split; try done. intros Hn. congruence. }
  clearbody p3. destruct p3 as [e3 r3]. cbn [fst] in H3.
  destruct (_arpeggiator e3) as [a|].
  { eapply same_place_trans; [exact H3|apply setFrequency_same_place]. }
  pose proof (setFrequency_same_place (_baseFrequency e3) false true e3 r3) as H4.
  destruct (setFrequency (_baseFrequency e3) false true e3 r3) as [e4 r4]. cbn [fst] in H4.
  pose proof (same_place_trans _ _ _ H3 H4) as H.
  destruct (_osc2 e4) as [o|] eqn:Eo; [|done].
  destruct (setFrequency _ false true o r4) as [o' r']. cbn [fst].
  destruct H as (B1 & B2 & B3 & B4 & B5 & B6 & B7 & B8).
  repeat split; try (by destruct e4).
  intros Hn. specialize (B8 Hn). congruence.
Qed.

(** X15.  While the event is caching, [updateProperties] does not
    recompute the sample range: it takes over the waveform, the position
    and the length, and asks the running cache to cancel, on the event
    and on its secondary oscillator; the fields of the sample range and
    the buffer stay as they are until the render that is under way
    restarts the cache.  (Here for an instrument without secondary
    oscillator, or an event that has one already, where no oscillator is
    constructed.) *)
Theorem updateProperties_while_caching fuel rawBase rawCacheable rawMinLength
        aPosition aLength ins aState e w :
  _caching (cacheable e) = true →
  osc2active ins = false ∨ is_Some (_osc2 e) →
  ∃ e' w',
    updateProperties fuel rawBase rawCacheable rawMinLength aPosition aLength ins aState e w
    = Ok (e', w')
    ∧ cacheable e' = set_cancel true (cacheable e)
    ∧ base e' = base e
    ∧ position e' = aPosition ∧ length_ e' = aLength ∧ _type e' = waveform ins
    ∧ heap w' = heap w
    ∧ (∀ o, _osc2 e' = Some o → _cancel (cacheable o) = true)
    ∧ (osc2active ins = false → _osc2 e' = None).
Proof.
  intros Hcach Hosc. unfold updateProperties, updateProperties_with.
  set (e1 := set_adsr _ _).
  assert (H1 : base e1 = base e ∧ cacheable e1 = cacheable e ∧ position e1 = aPosition
               ∧ length_ e1 = aLength ∧ _type e1 = waveform ins ∧ _osc2 e1 = _osc2 e)
    by (by destruct e).
  clearbody e1. destruct H1 as (B1 & C1 & P1 & L1 & T1 & O1).
  match goal with |- ∃ e' w', ?m ≫= _ = _ ∧ _ =>
    assert (Hm : ∃ e2 r2,
               m = Ok (e2, set_random r2 w)
               ∧ base e2 = base e ∧ cacheable e2 = cacheable e ∧ position e2 = aPosition
               ∧ length_ e2 = aLength ∧ _type e2 = waveform ins
               ∧ (osc2active ins = false → _osc2 e2 = None)) end.
  { unfold createOSC2, createOSC2_with.
    destruct (osc2active ins) eqn:Ea.
    - destruct Hosc as [?|[o Ho]]; [done|]. rewrite O1, Ho. cbn [mbind Res_bind].
      destruct (setFrequency _ true true _ (random w)) as [o1 r1].
      eexists _, r1. split; [reflexivity|]. by destruct e1.
    - exists (set_osc2 None e1), (random w). split; [by destruct w|].
      by destruct e1. }
  destruct Hm as (e2 & r2 & -> & B2 & C2 & P2 & L2 & T2 & O2).
  cbn [mbind Res_bind].
  pose proof (applyModules_same_place ins e2 (random (set_random r2 w))) as H3.
  destruct (applyModules ins e2 (random (set_random r2 w))) as [e3 r3]. cbn [fst] in H3.
  destruct H3 as (B3 & C3 & P3 & L3 & _ & _ & T3 & O3).
  rewrite C3, C2, Hcach.
  eexists _, _. split; [reflexivity|].
  destruct (_osc2 e3) as [o|] eqn:Eo.
  - repeat split; try (destruct e3; cbn in *; congruence).
    + intros o' [= <-]. by destruct o as [? []].
    + intros Ha. specialize (O3 (O2 Ha)). congruence.
  - repeat split; try (destruct e3; cbn in *; congruence).
Qed.
End WhileCaching.

(** ** The constructor of a sequenced event and [setDeletable] *)

Section Constructor.
Context {FO : FloatOps} {CO : Collaborators} {EP : EngineProps}.

(** X16.  When the engine streams, the constructor of a sequenced event
    for an instrument without secondary oscillator returns.  [init] takes
    the length as an [int], so the event lasts a whole number of steps:
    its length is the length given cast to [int], and its sample range is
    computed from it.  The event is unlocked, not flagged for deletion,
    has no early cancel and owns a silent buffer of [OUTPUT_CHANNELS]
    channels and [BUFFER_SIZE] frames at an address that was not in
    use; no other buffer changes. *)
Theorem new_SynthEvent_whole_steps fuel rawBase rawCacheable rawMinLength aFrequency
        aPosition aLength aInstrument aAutoCache w :
  EVENT_CACHING = false → osc2active aInstrument = false →
  0 ≤ OUTPUT_CHANNELS → 0 ≤ BUFFER_SIZE →
  let steps := cast_int aLength in
  let len := cast_int (of_int steps * of_int (bytes_per_tick w))%F in
  let start := Int.mul aPosition (bytes_per_tick w) in
  let p := fresh (dom (heap w)) in
  ∃ e' w' made,
    new_SynthEvent fuel rawBase rawCacheable rawMinLength aFrequency aPosition aLength
                   aInstrument aAutoCache w = Ok (e', w')
    ∧ isSequenced e' = true ∧ hasParent e' = false ∧ _osc2 e' = None
    ∧ position e' = aPosition ∧ length_ e' = of_int steps
    ∧ _sampleLength (base e') = len ∧ _sampleStart (base e') = start
    ∧ _sampleEnd (base e') = Int.add start len
    ∧ _locked (base e') = false ∧ _deleteMe (base e') = false
    ∧ _hasMinLength e' = true
    ∧ AudioBuffer_new OUTPUT_CHANNELS BUFFER_SIZE = Ok made
    ∧ _buffer (base e') = Some p
    ∧ heap w !! p = None
    ∧ heap w' = <[p := made]> (heap w).
Proof.
  intros Hs Ha Hc Hb steps len start p.
  unfold new_SynthEvent, init, init_with.
  match goal with |- context [init_fields ?a ?b ?c ?d ?f ?g ?h ?i ?j] =>
    set (e0 := init_fields a b c d f g h i j) end.
  assert (H0 : _locked (base e0) = false ∧ _deleteMe (base e0) = false
               ∧ _buffer (base e0) = None ∧ isSequenced e0 = true
               ∧ hasParent e0 = false ∧ position e0 = aPosition
               ∧ length_ e0 = of_int steps ∧ _osc2 e0 = None) by done.
  clearbody e0. destruct H0 as (Hl0 & Hd0 & Hb0 & Hq0 & Hp0 & Hpos0 & Hlen0 & Ho0).
  rewrite Ha, andb_false_r. cbn [mbind Res_bind].
  pose proof (setFrequency_same_place aFrequency true true e0 (random w)) as H1.
  destruct (setFrequency aFrequency true true e0 (random w)) as [e1 r1]. cbn [fst] in H1.
  pose proof (applyModules_same_place aInstrument (set_arpeggiator None e1) r1) as H2.
  destruct (applyModules aInstrument (set_arpeggiator None e1) r1) as [e2 r2].
  cbn [fst] in H2.
  assert (H12 : same_place e0 e2).
  { eapply same_place_trans; [exact H1|].
    eapply same_place_trans; [|exact H2]. by destruct e1. }
  clear H1 H2. destruct H12 as (B & _ & P & L & Q & HP & _ & O).
  set (e3 := set_hasMinLength (isSequenced e2) e2).
  assert (H3 : base e3 = base e0 ∧ position e3 = aPosition ∧ length_ e3 = of_int steps
               ∧ isSequenced e3 = true ∧ hasParent e3 = false ∧ _hasMinLength e3 = true
               ∧ _osc2 e3 = None).
  { unfold e3. rewrite Q, Hq0. destruct e2. cbn in *.
    repeat split; try congruence. auto. }
  clearbody e3. destruct H3 as (B3 & P3 & L3 & Q3 & HP3 & M3 & O3).
  destruct (calculateBuffers_streaming_spec fuel e3 (set_random r2 w) Hs) as
    (e4 & w4 & Hrun & Hlen & Hstart & Hend & Hlk & _ & Hpos & Hlength & _ & Hseq & Hpar
     & Hmin & Hdel & Hosc & Hbuf); try done.
  { by rewrite B3. }
  rewrite Hrun. cbn [mbind Res_bind].
  rewrite B3, Hb0 in Hbuf.
  rewrite (bool_decide_eq_false_2 (is_Some None)), andb_false_r in Hbuf
    by (by intros [? ?]).
  rewrite HP3 in Hbuf. destruct Hbuf as (made & Hnew & Hbuffer & Hheap).
  change (heap (set_random r2 w)) with (heap w) in *.
  change (bytes_per_tick (set_random r2 w)) with (bytes_per_tick w) in *.
  rewrite P3, L3 in *. fold steps len start p in Hlen, Hstart, Hend, Hbuffer, Hheap.
  eexists _, w4, made. split; [reflexivity|].
  assert (Hfresh : heap w !! p = None).
  { apply not_elem_of_dom. apply is_fresh. }
  destruct e4 as [[]]. cbn in *. rewrite B3 in Hdel.
  repeat split; try congruence.
Qed.
End Constructor.

Section SecondOscillator.
Context {FO : FloatOps} {CO : Collaborators} {EP : EngineProps}.

(** When the engine streams, [calculateBuffers] returns and keeps the
    place of the event and its secondary oscillator. *)
Lemma calculateBuffers_streaming_keeps fuel e w :
  EVENT_CACHING = false → 0 ≤ OUTPUT_CHANNELS → 0 ≤ BUFFER_SIZE →
  ∃ e' w',
    calculateBuffers fuel e w = Ok (e', w')
    ∧ position e' = position e ∧ length_ e' = length_ e ∧ _osc2 e' = _osc2 e.
Proof.
  intros Hs Hc Hb.
  destruct (_locked (base e)) eqn:Hl.
  { unfold calculateBuffers, calculateBuffers_with. rewrite Hl.
    eexists _, _. split; [reflexivity|]. by destruct e. }
  destruct (isSequenced e) eqn:Hq.
  - destruct (calculateBuffers_streaming_spec fuel e w Hs Hl Hq Hc Hb)
      as (e' & w' & Hrun & _ & _ & _ & _ & _ & Hp & Hlen & _ & _ & _ & _ & _ & Ho & _).
    by exists e', w'.
  - destruct (calculateBuffers_live_spec fuel e w Hl Hq Hc Hb)
      as (e' & w' & Hrun & _ & _ & _ & _ & Hp & Hlen & _ & _ & Ho & _).
    by exists e', w'.
Qed.

(** The secondary oscillator after [setFrequency] and [applyModules]. *)
Lemma setFrequency_osc2 f all store e r o :
  _osc2 e = Some o →
  ∃ o', _osc2 (setFrequency f all store e r).1 = Some o' ∧ same_place o o'.
Proof.
  intros Ho. rewrite setFrequency_eq. cbn zeta.
  set (e3 := if store then _ else _).
  assert (H3 : _osc2 e3 = _osc2 e) by (unfold e3; destruct e; by destruct store).
  clearbody e3.
  set (p4 := match _type e3 with KARPLUS_STRONG => _ | _ => _ end).
  assert (H4 : _osc2 p4.1 = _osc2 e3).
  { unfold p4. destruct (_type e3); try done.
    by destruct (initKarplusStrong_keeps e3 r) as (_ & _ & Ho' & _). }
  clearbody p4. destruct p4 as [e4 r4]. cbn [fst] in H4. rewrite H3 in H4.
  rewrite Ho in *. destruct all.
  - pose proof (setFrequency_same_place (_frequency o * (f / _frequency e))%F
                                        true store o r4) as Hk.
    destruct (setFrequency _ true store o r4) as [o' r']. cbn [fst] in *.
    exists o'. split; [by destruct e4|done].
  - exists o. split; [done|apply same_place_refl].
Qed.

Lemma applyModules_osc2 ins e r o :
  _osc2 e = Some o →
  ∃ o', _osc2 (applyModules ins e r).1 = Some o' ∧ same_place o o'.
Proof.
  intros Ho. rewrite applyModules_eq. cbv zeta. rewrite Ho.
  pose proof (applyModules_same_place ins o r) as H1.
  destruct (applyModules ins o r) as [o1 r1]. cbn [fst] in H1.
  set (e3 := set_osc2 (Some o1) _).
  assert (H3 : _osc2 e3 = Some o1) by (unfold e3; by destruct (arpeggiatorActive ins)).
  clearbody e3.
  destruct (_arpeggiator e3) as [a|].
  - destruct (setFrequency_osc2
                (Arpeggiator_getPitchForStep a (Arpeggiator_getStep a) (_baseFrequency e3))
                true false e3 r1 o1 H3) as (o' & Ho' & Hk).
    exists o'. split; [done|]. by eapply same_place_trans.
  - destruct (setFrequency_osc2 (_baseFrequency e3) false true e3 r1 o1 H3)
      as (o2 & Ho2 & Hk2).
    destruct (setFrequency (_baseFrequency e3) false true e3 r1) as [e4 r4].
    cbn [fst] in Ho2. rewrite Ho2.
    pose proof (setFrequency_same_place (_baseFrequency o) false true o2 r4) as Hk3.
    destruct (setFrequency (_baseFrequency o) false true o2 r4) as [o3 r3].
    cbn [fst] in *. exists o3. split; [by destruct e4|].
    eapply same_place_trans; [exact H1|]. by eapply same_place_trans.
Qed.

(** X17.  When the engine streams, [updateProperties] on an event that
    has a secondary oscillator, for an instrument that has one, returns
    and gives the secondary oscillator the new position, the waveform of
    the instrument and the new length cast to [int] (the event itself
    takes the length as it is), but does not recompute the sample range
    of the secondary oscillator: its [_sampleStart], [_sampleEnd],
    [_sampleLength] and its other base fields stay as they were. *)
Theorem updateProperties_osc2_range fuel rawBase rawCacheable rawMinLength
        aPosition aLength ins aState e w o :
  EVENT_CACHING = false → 0 ≤ OUTPUT_CHANNELS → 0 ≤ BUFFER_SIZE →
  osc2active ins = true → _osc2 e = Some o →
  ∃ e' w' o',
    updateProperties fuel rawBase rawCacheable rawMinLength aPosition aLength ins aState e w
    = Ok (e', w')
    ∧ position e' = aPosition ∧ length_ e' = aLength
    ∧ _osc2 e' = Some o'
    ∧ position o' = aPosition ∧ length_ o' = of_int (cast_int aLength)
    ∧ _type o' = osc2waveform ins
    ∧ base o' = base o.
Proof.
  intros Hs Hc Hb Ha Ho. unfold updateProperties, updateProperties_with.
  set (e1 := set_adsr _ _).
  assert (H1 : position e1 = aPosition ∧ length_ e1 = aLength ∧ _osc2 e1 = Some o)
    by (by destruct e).
  clearbody e1. destruct H1 as (P1 & L1 & O1).
  unfold createOSC2_with. rewrite Ha, O1. cbn [mbind Res_bind].
  set (oa := set_length_ _ _).
  assert (Ha1 : position oa = aPosition ∧ length_ oa = of_int (cast_int aLength)
                ∧ _type oa = osc2waveform ins ∧ base oa = base o) by (by destruct o).
  clearbody oa. destruct Ha1 as (Pa & La & Ta & Ba).
  pose proof (setFrequency_same_place (osc2_frequency (_frequency e1) ins) true true
                                      oa (random w)) as Hk.
  destruct (setFrequency _ true true oa (random w)) as [ob rb]. cbn [fst] in Hk.
  destruct Hk as (Bb & _ & Pb & Lb & _ & _ & Tb & _).
  set (oc := if _caching (cacheable ob) then _ else ob).
  assert (Hc1 : position oc = aPosition ∧ length_ oc = of_int (cast_int aLength)
                ∧ _type oc = osc2waveform ins ∧ base oc = base o).
  { unfold oc. destruct (_caching (cacheable ob)); destruct ob; cbn in *;
      repeat split; congruence. }
  clearbody oc. destruct Hc1 as (Pc & Lc & Tc & Bc).
  set (e2 := set_osc2 (Some oc) e1).
  assert (H2 : position e2 = aPosition ∧ length_ e2 = aLength ∧ _osc2 e2 = Some oc)
    by (by destruct e1).
  clearbody e2. destruct H2 as (P2 & L2 & O2).
  cbn [mbind Res_bind].
  pose proof (applyModules_same_place ins e2 (random (set_random rb w))) as H3.
  destruct (applyModules_osc2 ins e2 (random (set_random rb w)) oc O2) as (od & Od & Hd).
  destruct (applyModules ins e2 (random (set_random rb w))) as [e3 r3]. cbn [fst] in *.
  destruct H3 as (_ & _ & P3 & L3 & _).
  destruct Hd as (Bd & _ & Pd & Ld & _ & _ & Td & _).
  destruct (_caching (cacheable e3)).
  - rewrite Od. eexists _, _, (upd_cacheable (set_cancel true) od).
    split; [reflexivity|].
    destruct e3, od. cbn in *. repeat split; congruence.
  - destruct (calculateBuffers_streaming_keeps fuel e3 (set_random r3 (set_random rb w))
                                               Hs Hc Hb)
      as (e4 & w4 & Hrun & P4 & L4 & O4).
    rewrite Hrun. exists e4, w4, od. split; [done|].
    repeat split; congruence.
Qed.
End SecondOscillator.

Section Deletion.
Context {FO : FloatOps} {CO : Collaborators} {EP : EngineProps}.

(** The unfolding of [setDeletable]. *)
Lemma setDeletable_eq value e :
  setDeletable value e
  = let e1 := if isSequenced e || _hasMinLength e
              then upd_base (set_deleteMe value) e
              else set_queuedForDeletion value e in
    match _osc2 e with
    | Some o => set_osc2 (Some (setDeletable value o)) e1
    | None => e1
    end.
Proof. destruct e; reflexivity. Qed.

Lemma setDeletable_twice value : ∀ e,
  setDeletable value (setDeletable value e) = setDeletable value e.
Proof.
  intros e. induction e as [e IH] using SynthEvent_osc2_ind.
  rewrite (setDeletable_eq value e). cbv zeta.
  destruct (_osc2 e) as [o|] eqn:Eo.
  - specialize (IH o eq_refl).
    rewrite setDeletable_eq. cbv zeta.
    replace (_osc2 (set_osc2 (Some (setDeletable value o)) _))
      with (Some (setDeletable value o)) by (by destruct (isSequenced e || _hasMinLength e)).
    rewrite IH.
    destruct e as [[] ? ? ? sq ? ? ? ? ? ? ? ? ? ? ? ? ? hm].
    cbn in *. by destruct sq, hm.
  - rewrite setDeletable_eq. cbv zeta.
    destruct e as [[] ? ? ? sq ? ? ? ? ? ? ? ? ? ? ? ? ? hm].
    cbn in *. subst. by destruct sq, hm.
Qed.

(** X18.  [setDeletable] flags a sequenced event, or a live event whose
    minimum length has been rendered, for deletion at once and leaves its
    queue flag alone; a live event that still has to ring is only queued,
    and its deletion flag is left alone.  The secondary oscillator gets
    the same call, and a second call with the same value changes
    nothing. *)
Theorem setDeletable_queues value e :
  let e' := setDeletable value e in
  (if isSequenced e || _hasMinLength e
   then _deleteMe (base e') = value ∧ _queuedForDeletion e' = _queuedForDeletion e
   else _queuedForDeletion e' = value ∧ _deleteMe (base e') = _deleteMe (base e))
  ∧ _buffer (base e') = _buffer (base e)
  ∧ _minLength e' = _minLength e ∧ _hasMinLength e' = _hasMinLength e
  ∧ _osc2 e' = setDeletable value <$> _osc2 e
  ∧ setDeletable value e' = e'.
Proof.
  cbv zeta. split; [|split; [|split; [|split; [|split]]]].
  6: apply setDeletable_twice.
  all: rewrite setDeletable_eq; cbv zeta.
  all: destruct e as [[] ? ? ? sq ? ? ? ? ? ? ? ? ? ? ? ? ? hm ? ? ? ? ? [o|]].
  all: cbn; by destruct sq, hm.
Qed.
End Deletion.

(** ** The synthesis loop, with or without a request to cancel *)

Section AnyLoop.
Context {FO : FloatOps} {CO : Collaborators} {EP : EngineProps}.

Lemma spliced_one (t : list SAMPLE_TYPE) i v :
  (i < length t)%nat → spliced t i [v] = <[i := v]> t.
Proof. intros Hi. rewrite <- spliced_step by done. apply spliced_nil. Qed.

Lemma spliced_lookup_in (t : list SAMPLE_TYPE) i vs k v :
  (i ≤ length t)%nat → vs !! k = Some v → spliced t i vs !! (i + k)%nat = Some v.
Proof.
  intros Hi Hk. unfold spliced.
  rewrite lookup_app_r by (rewrite length_take; lia).
  rewrite length_take. replace (i + k - i `min` length t)%nat with k by lia.
  by rewrite lookup_app_l by (by eapply lookup_lt_Some).
Qed.

Lemma spliced_lookup_out (t : list SAMPLE_TYPE) i vs j :
  (i + length vs ≤ length t)%nat → (j < i ∨ i + length vs ≤ j)%nat →
  spliced t i vs !! j = t !! j.
Proof.
  intros Hi [Hj|Hj]; unfold spliced.
  - rewrite lookup_app_l by (rewrite length_take; lia). by rewrite lookup_take_lt.
  - rewrite lookup_app_r by (rewrite length_take; lia).
    rewrite length_take. rewrite lookup_app_r by lia.
    rewrite lookup_drop. f_equal. lia.
Qed.

(** The loop, whatever the flag: with a request pending it stops after
    the pass in which it sees the flag, and the index stays where it
    was. *)
Lemma render_samples_any hasOSC2 p (out : AudioBuffer) L n i e w bs :
  heap w !! p = Some (set_buffers out bs) →
  Z.of_nat (length bs) = amountOfChannels out →
  Forall (λ t, Z.of_nat (length t) = L) bs →
  0 ≤ i → i + Z.of_nat n ≤ L → ring_ready e →
  let passes := if _cancel (cacheable e) then Nat.min 1 n else n in
  ∃ vs e' r',
    sample_values passes hasOSC2 i e (random w) = Ok (vs, e', r')
    ∧ length vs = passes ∧ kept e e'
    ∧ render_samples n hasOSC2 p i e w
      = Ok (i + (if _cancel (cacheable e) then 0 else Z.of_nat n), e',
            set_heap (<[p := set_buffers out ((λ t, spliced t (Z.to_nat i) vs) <$> bs)]>
                        (heap w))
                     (set_random r' w)).
Proof.
  intros Hp Hv Hall Hi Hin Hr passes.
  destruct (sample_values_kept hasOSC2 passes i e (random w) Hr)
    as (vs & e' & r' & Hvs & Hk & Hl).
  exists vs, e', r'. split; [done|]. split; [done|]. split; [done|].
  destruct (_cancel (cacheable e)) eqn:Hc.
  2: { by apply (render_samples_spec hasOSC2 p out L n i e w bs vs e' r'). }
  destruct n as [|n]; subst passes.
  - cbn in Hvs. injection Hvs as <- <- <-. cbn [render_samples].
    replace ((λ t, spliced t (Z.to_nat i) []) <$> bs) with bs.
    + rewrite insert_id by done. rewrite world_eta. do 3 f_equal. lia.
    + rewrite <- (list_fmap_id bs) at 1. apply list_fmap_ext. intros k t _.
      by rewrite spliced_nil.
  - change (Nat.min 1 (S n)) with 1%nat in Hvs. cbn [sample_values] in Hvs.
    cbn [render_samples]. unfold render_sample.
    destruct (next_sample_kept hasOSC2 i e (random w) Hr) as (v & e1 & r1 & Hn & H1).
    rewrite Hn in Hvs. rewrite Hn. cbn [mbind Res_bind] in *.
    injection Hvs as <- <- <-.
    rewrite Hp. cbn [mbind Res_bind lift].
    change (amountOfChannels (set_buffers out bs)) with (amountOfChannels out).
    rewrite <- Hv, Nat2Z.id.
    change 0 with (Z.of_nat 0) at 1.
    rewrite (write_channels_spec p out i v L (length bs) 0%nat bs (heap w)); try done; [|lia].
    cbn [mbind Res_bind take drop app].
    rewrite (kept_cacheable _ _ H1), Hc.
    rewrite Z.add_0_r. rewrite take_0, drop_0, app_nil_l. do 5 f_equal.
    apply Forall_fmap_ext_1. eapply Forall_impl; [exact Hall|]. cbn. intros t Ht.
    symmetry. apply spliced_one. lia.
Qed.

(** The first part of [render], whatever the flag. *)
Lemma render_loop_any e p w out :
  heap w !! p = Some out → wf_buffer out → ring_ready e →
  let L := bufferSize out in
  let start := renderStartOffset e in
  let n := Z.to_nat (renderEndOffset e L - start) in
  let passes := if _cancel (cacheable e) then Nat.min 1 n else n in
  0 ≤ start → start + Z.of_nat n ≤ L →
  ∃ vs e' r',
    sample_values passes (bool_decide (is_Some (_osc2 e))) start e (random w)
    = Ok (vs, e', r')
    ∧ length vs = passes ∧ kept e e'
    ∧ render_loop e p w
      = Ok (start + (if _cancel (cacheable e) then 0 else Z.of_nat n), e',
            set_heap
              (<[p := set_buffers out
                        ((λ t, spliced (if clipped e L then generateSilentBuffer L else t)
                                       (Z.to_nat start) vs) <$> _buffers out)]> (heap w))
              (set_random r' w)).
Proof.
  intros Hp Hwf Hr L start n passes Hs Hn.
  unfold render_loop. rewrite Hp. cbn [mbind Res_bind lift]. fold L start n.
  pose proof (wf_Forall _ Hwf) as Hall. pose proof (wf_vector _ Hwf) as Hv.
  pose proof (wf_size _ Hwf) as HL.
  destruct (clipped e L) eqn:Ecl.
  - unfold silence_at. rewrite Hp. cbn [mbind Res_bind lift].
    rewrite silenceBuffers_spec by done. cbn [mbind Res_bind].
    set (w1 := set_heap _ w).
    destruct (render_samples_any (bool_decide (is_Some (_osc2 e))) p out L n start e w1
                (replicate (length (_buffers out)) (generateSilentBuffer L)))
      as (vs & e' & r' & Hvs & Hl & Hk & Hrun); try done.
    + unfold w1. cbn. by rewrite lookup_insert_eq.
    + by rewrite length_replicate.
    + apply Forall_replicate. unfold generateSilentBuffer.
      rewrite length_replicate. lia.
    + exists vs, e', r'. split; [exact Hvs|]. split; [done|]. split; [done|].
      rewrite Hrun. unfold w1.
      cbn [heap random set_heap set_random]. rewrite insert_insert_eq.
      do 2 f_equal. unfold set_heap, set_random. cbn. do 3 f_equal.
      rewrite fmap_replicate. symmetry. by apply const_fmap.
  - cbn [mbind Res_bind].
    destruct (render_samples_any (bool_decide (is_Some (_osc2 e))) p out L n start e w
                (_buffers out))
      as (vs & e' & r' & Hvs & Hl & Hk & Hrun); try done.
    + by rewrite set_buffers_id.
    + exists vs, e', r'. by rewrite Hrun.
Qed.

(** The window of the loop, written out: while the sums are [int]s, the
    loop ends at [renderStart + L] or at the last sample index
    [_sampleLength - 1] of the event, whichever is less, and the buffer is
    silenced when the last sample index is below [renderStart + L]. *)
Lemma window_written_out e L :
  Int.fits (_sampleLength (base e) - 1) → Int.fits (renderStartOffset e + L) →
  renderEndOffset e L = Z.min (renderStartOffset e + L) (_sampleLength (base e) - 1)
  ∧ clipped e L = (_sampleLength (base e) - 1 <? renderStartOffset e + L).
Proof.
  intros HS HL. unfold renderEndOffset, clipped, maxSampleIndex.
  rewrite sub_fits, add_fits by done.
  destruct (Z.ltb_spec (_sampleLength (base e) - 1) (renderStartOffset e + L)); split;
    try done; lia.
Qed.

(** C2 (amended).  For a call of [render] on an output buffer of the
    constructor's shape with [L] frames, with [renderStart] the cache
    write index in caching mode for a sequenced event and 0 otherwise
    (not negative, inside the buffer, the sums being [int]s): the loop
    runs over the indices from [renderStart] to
    [min (renderStart + L) (_sampleLength - 1)], so it never reaches the
    last sample index of the event, and the whole buffer is silenced
    before the loop whenever [_sampleLength - 1 < renderStart + L], also
    when the window ends exactly where the event ends.  While no
    cancellation is requested the loop stores the values of its passes,
    in their order, in every channel at every index of that range; with
    a request pending it stores the value of its first pass only and
    stops, the index staying at [renderStart].  Every other index holds
    silence when the buffer was silenced and its old sample otherwise. *)
Theorem render_loop_writes_window e p w out :
  heap w !! p = Some out → wf_buffer out → ring_ready e →
  let L := bufferSize out in
  let M := _sampleLength (base e) in
  let start := if EVENT_CACHING && isSequenced e then _cacheWriteIndex (cacheable e) else 0 in
  let stop := Z.min (start + L) (M - 1) in
  let n := Z.to_nat (stop - start) in
  let passes := if _cancel (cacheable e) then Nat.min 1 n else n in
  let silenced := M - 1 <? start + L in
  Int.fits (M - 1) → Int.fits (start + L) → 0 ≤ start ≤ L → stop ≤ L →
  ∃ vs e' r' out',
    sample_values passes (bool_decide (is_Some (_osc2 e))) start e (random w)
    = Ok (vs, e', r')
    ∧ length vs = passes ∧ kept e e'
    ∧ render_loop e p w
      = Ok (start + (if _cancel (cacheable e) then 0 else Z.of_nat n), e',
            set_heap (<[p := out']> (heap w)) (set_random r' w))
    ∧ out' = set_buffers out
               ((λ t, spliced (if silenced then generateSilentBuffer L else t)
                              (Z.to_nat start) vs) <$> _buffers out)
    ∧ ∀ c t, _buffers out !! c = Some t →
        ∃ t', _buffers out' !! c = Some t' ∧ length t' = length t
              ∧ (∀ k v, vs !! k = Some v → t' !! (Z.to_nat start + k)%nat = Some v)
              ∧ (∀ j, (j < length t)%nat →
                      (j < Z.to_nat start ∨ Z.to_nat start + passes ≤ j)%nat →
                      t' !! j = if silenced then Some (dec 0 1) else t !! j).
Proof.
  intros Hp Hwf Hr L M start stop n passes silenced HM HL Hs Hstop.
  change start with (renderStartOffset e) in HL.
  destruct (window_written_out e L HM HL) as [Hend Hcl].
  fold L in Hcl. change (renderStartOffset e) with start in Hend, Hcl. fold M in Hend, Hcl.
  fold stop in Hend. fold silenced in Hcl.
  destruct (render_loop_any e p w out Hp Hwf Hr) as (vs & e' & r' & Hvs & Hl & Hk & Hrun).
  { change (renderStartOffset e) with start. lia. }
  { fold L. change (renderStartOffset e) with start. rewrite Hend. fold n. lia. }
  fold L in Hvs, Hl, Hrun. change (renderStartOffset e) with start in Hvs, Hl, Hrun.
  rewrite Hend in Hvs, Hl, Hrun. fold n passes in Hvs, Hl, Hrun. rewrite Hcl in Hrun.
  eexists vs, e', r', _. split; [exact Hvs|]. split; [done|]. split; [done|].
  split; [exact Hrun|]. split; [reflexivity|].
  intros c t Hc. cbn [_buffers set_buffers]. rewrite list_lookup_fmap, Hc.
  cbn [fmap option_fmap option_map].
  pose proof (wf_arrays _ Hwf c t Hc) as Ht. fold L in Ht.
  set (t0 := if silenced then generateSilentBuffer L else t).
  assert (Ht0 : length t0 = length t).
  { unfold t0. destruct silenced; [|done]. unfold generateSilentBuffer.
    rewrite length_replicate. lia. }
  assert (Hpn : (passes ≤ n)%nat) by (unfold passes; destruct (_cancel (cacheable e)); lia).
  eexists. split; [reflexivity|]. split; [|split].
  - rewrite length_spliced; [done|]. lia.
  - intros k v Hk'. apply spliced_lookup_in; [lia|done].
  - intros j Hj Hout. rewrite spliced_lookup_out by lia.
    unfold t0. destruct silenced; [|done]. unfold generateSilentBuffer.
    apply lookup_replicate_2. lia.
Qed.
End AnyLoop.

(** ** [render] when the engine streams: every oscillator, any flag *)

Section StreamingTotal.
Context {FO : FloatOps} {CO : Collaborators} {EP : EngineProps}.
Hypothesis streaming : EVENT_CACHING = false.
Hypothesis envelope : envelope_keeps_shape.

Lemma all_ready_eq e :
  all_ready e ↔ ring_ready e ∧ match _osc2 e with
                                | Some o => all_ready o
                                | None => True
                                end.
Proof. destruct e; reflexivity. Qed.

Lemma osc_depth_eq e :
  osc_depth e = match _osc2 e with
                | Some o => S (osc_depth o)
                | None => O
                end.
Proof. destruct e; reflexivity. Qed.

Lemma kept_all_ready e : ∀ e', kept e e' → all_ready e → all_ready e'.
Proof.
  induction e as [e IH] using SynthEvent_osc2_ind. intros e' Hk Ha.
  apply kept_eq in Hk as (_ & _ & _ & _ & _ & _ & Hr & Ho).
  apply all_ready_eq in Ha as [Hre Hao]. apply all_ready_eq. split; [auto|].
  destruct (_osc2 e) as [o|] eqn:Eo.
  - destruct Ho as (o' & -> & Hko). by eapply IH.
  - by rewrite Ho.
Qed.

Lemma kept_osc_depth e : ∀ e', kept e e' → osc_depth e' = osc_depth e.
Proof.
  induction e as [e IH] using SynthEvent_osc2_ind. intros e' Hk.
  apply kept_eq in Hk as (_ & _ & _ & _ & _ & _ & _ & Ho).
  rewrite (osc_depth_eq e), (osc_depth_eq e').
  destruct (_osc2 e) as [o|] eqn:Eo.
  - destruct Ho as (o' & -> & Hko). f_equal. by eapply IH.
  - by rewrite Ho.
Qed.

Lemma framed_upto_wf (tb : AudioBuffer) c wo k bs' :
  wf_buffer tb → framed_upto c wo k (_buffers tb) bs' → wf_buffer (set_buffers tb bs').
Proof.
  intros Hwf [Hlen Hall]. apply wf_set_buffers; [done|done|].
  apply Forall_lookup. intros j t' Hj.
  destruct (lookup_lt_is_Some_2 (_buffers tb) j) as [t Ht].
  { rewrite <- Hlen. by eapply lookup_lt_Some. }
  destruct (Hall j t Ht) as (t'' & Hj' & Hrel). rewrite Hj in Hj'. injection Hj' as <-.
  pose proof (wf_arrays _ Hwf j t Ht) as Hl.
  destruct (bool_decide (j < c)%nat).
  - destruct Hrel as [Hrel _]. by rewrite Hrel.
  - by subst t'.
Qed.

(** The loop of an event when the engine streams. *)
Lemma render_loop_streaming_any e p w out :
  heap w !! p = Some out → wf_buffer out → ring_ready e →
  ∃ i e1 r1 out1,
    render_loop e p w
    = Ok (i, e1, set_heap (<[p := out1]> (heap w)) (set_random r1 w))
    ∧ kept e e1 ∧ wf_buffer out1
    ∧ amountOfChannels out1 = amountOfChannels out
    ∧ bufferSize out1 = bufferSize out.
Proof.
  intros Hp Hwf Hr.
  destruct (wf_bounds _ Hwf) as (HL & _ & _).
  destruct (window_streaming streaming e (bufferSize out)) as [Hwin Hn];
    [unfold Int.INT_MAX; lia|].
  destruct (render_loop_any e p w out Hp Hwf Hr) as (vs & e1 & r1 & Hvs & Hl & Hk & Hrun).
  { rewrite renderStartOffset_streaming by done. lia. }
  { rewrite renderStartOffset_streaming in * by done. lia. }
  eexists _, e1, r1, _. split; [exact Hrun|]. split; [done|].
  split; [|done].
  apply wf_set_buffers; [done|by rewrite length_fmap|].
  apply Forall_fmap. eapply Forall_impl; [apply (wf_Forall _ Hwf)|].
  intros t Ht. cbn beta in *.
  apply length_spliced_window; [rewrite renderStartOffset_streaming by done; lia| |done].
  rewrite Hl. rewrite renderStartOffset_streaming in * by done.
  destruct (_cancel (cacheable e)); lia.
Qed.

(** When the engine streams, [render] returns for every event whose
    oscillators are ready, whatever their flags, once the fuel covers the
    depth of its secondary oscillators: the output buffer keeps its
    shape, no other buffer changes, the tempo and the fields of the base
    class stay, and no request is pending afterwards. *)
Lemma render_streaming_total : ∀ fuel e p w out,
  (osc_depth e < fuel)%nat →
  heap w !! p = Some out → wf_buffer out → all_ready e →
  ∃ e' w' out',
    render fuel e p w = Ok (e', w')
    ∧ heap w' !! p = Some out' ∧ wf_buffer out'
    ∧ amountOfChannels out' = amountOfChannels out
    ∧ bufferSize out' = bufferSize out
    ∧ (∀ q, q ≠ p → heap w' !! q = heap w !! q)
    ∧ bytes_per_tick w' = bytes_per_tick w ∧ bytes_per_bar w' = bytes_per_bar w
    ∧ base e' = base e ∧ isSequenced e' = isSequenced e
    ∧ hasParent e' = hasParent e ∧ _cancel (cacheable e') = false.
Proof.
  induction fuel as [|fuel IH]; intros e p w out Hd Hp Hwf Ha; [lia|].
  apply all_ready_eq in Ha as Ha'. destruct Ha' as [Hr Hao].
  destruct (render_loop_streaming_any e p w out Hp Hwf Hr)
    as (i & e1 & r1 & out1 & Hrun & Hk & Hwf1 & Hch1 & HL1).
  pose proof (kept_cacheable _ _ Hk) as Hca.
  pose proof (kept_base _ _ Hk) as Hba.
  apply kept_eq in Hk as Hk'. destruct Hk' as (_ & _ & Hseq & Hpar & _ & _ & _ & Ho1).
  cbn [render]. unfold render_with, render_voices. rewrite Hp. cbn [mbind Res_bind lift].
  rewrite Hrun. cbn [mbind Res_bind].
  set (w1 := set_heap (<[p := out1]> (heap w)) (set_random r1 w)).
  (* the secondary oscillator *)
  assert (Hosc : ∃ e2 w2 out2,
             render_osc2 (render fuel) (bool_decide (is_Some (_osc2 e)))
                         (renderStartOffset e) (renderEndOffset e (bufferSize out))
                         (bufferSize out) e1 p w1 = Ok (e2, w2)
             ∧ heap w2 !! p = Some out2 ∧ wf_buffer out2
             ∧ amountOfChannels out2 = amountOfChannels out
             ∧ bufferSize out2 = bufferSize out
             ∧ (∀ q, q ≠ p → heap w2 !! q = heap w !! q)
             ∧ bytes_per_tick w2 = bytes_per_tick w ∧ bytes_per_bar w2 = bytes_per_bar w
             ∧ base e2 = base e ∧ cacheable e2 = cacheable e
             ∧ isSequenced e2 = isSequenced e ∧ hasParent e2 = hasParent e).
  { unfold render_osc2.
    assert (Hskip : ∃ e2 w2 out2,
               Ok (e1, w1) = Ok (e2, w2)
               ∧ heap w2 !! p = Some out2 ∧ wf_buffer out2
               ∧ amountOfChannels out2 = amountOfChannels out
               ∧ bufferSize out2 = bufferSize out
               ∧ (∀ q, q ≠ p → heap w2 !! q = heap w !! q)
               ∧ bytes_per_tick w2 = bytes_per_tick w ∧ bytes_per_bar w2 = bytes_per_bar w
               ∧ base e2 = base e ∧ cacheable e2 = cacheable e
               ∧ isSequenced e2 = isSequenced e ∧ hasParent e2 = hasParent e).
    { exists e1, w1, out1. split; [done|]. unfold w1. cbn.
      rewrite lookup_insert_eq. do 4 (split; [done|]).
      split; [intros q Hq; by rewrite lookup_insert_ne|]. done. }
    destruct (_osc2 e) as [o|] eqn:Eo.
    2: { rewrite bool_decide_eq_false_2 by (by intros [? ?]). exact Hskip. }
    rewrite bool_decide_eq_true_2 by (by eexists).
    rewrite Hca. destruct (_cancel (cacheable e)) eqn:Ec; [exact Hskip|]. clear Hskip.
    cbn [andb negb]. rewrite streaming. cbn [andb].
    destruct Ho1 as (o1 & Ho1 & Hko).
    assert (Hh1 : heap w1 !! p = Some out1) by (unfold w1; cbn; by rewrite lookup_insert_eq).
    rewrite Hh1. cbn [mbind Res_bind lift].
    destruct (wf_bounds _ Hwf) as (HLb & Hchb & Hbytes).
    pose proof (wf_channels _ Hwf) as Hchan. pose proof (wf_bytes _ Hwf) as Hby.
    destruct (AudioBuffer_new_wf (amountOfChannels out1) (bufferSize out))
      as (sil & Hnew & Hwsil & Hcs & HLs & _); [lia|lia|rewrite Hch1; lia|].
    rewrite (new_AudioBuffer_Ok _ _ _ sil Hnew). cbn [mbind Res_bind].
    set (temp := fresh (dom (heap w1))).
    assert (Htemp : heap w1 !! temp = None) by (apply not_elem_of_dom, is_fresh).
    assert (Hne : p ≠ temp) by (intros Heq; rewrite Heq in Hh1; congruence).
    set (w2 := set_heap (<[temp := sil]> (heap w1)) w1).
    rewrite Ho1. cbn [mbind Res_bind lift].
    destruct (IH o1 temp w2 sil) as
      (o2 & w3 & sil' & Hrun2 & Hp3 & Hwf3 & Hch3 & HL3 & Hfr3 & Hbt3 & Hbb3 & _).
    { rewrite (kept_osc_depth _ _ Hko). rewrite (osc_depth_eq e), Eo in Hd. lia. }
    { unfold w2. cbn. by rewrite lookup_insert_eq. }
    { done. }
    { by eapply kept_all_ready. }
    rewrite Hrun2. cbn [mbind Res_bind].
    assert (Hp3' : heap w3 !! p = Some out1).
    { rewrite Hfr3 by done. unfold w2. cbn. by rewrite lookup_insert_ne. }
    destruct (mergeBuffers_frame p temp 0 (renderStartOffset e) MAX_PHASE (heap w3) out1 sil'
                Hp3' Hp3 Hwf1 Hwf3) as (bs' & Hmerge & Hframed).
    { rewrite renderStartOffset_streaming by done. lia. }
    { lia. }
    rewrite Hmerge. cbn [mbind Res_bind].
    eexists _, _, (set_buffers out1 bs'). split; [reflexivity|].
    cbn [heap set_heap bytes_per_tick bytes_per_bar].
    split. { rewrite lookup_delete_ne by done. by rewrite lookup_insert_eq. }
    split. { by eapply framed_upto_wf. }
    split; [done|]. split; [done|].
    split.
    { intros q Hq. destruct (decide (q = temp)) as [->|Hqt].
      - rewrite lookup_delete_eq. symmetry.
        unfold w1 in Htemp. cbn in Htemp. by rewrite lookup_insert_ne in Htemp.
      - rewrite lookup_delete_ne by done. rewrite lookup_insert_ne by done.
        rewrite Hfr3 by done. unfold w2, w1. cbn.
        rewrite lookup_insert_ne by done. by rewrite lookup_insert_ne. }
    split. { rewrite Hbt3. by destruct w. }
    split. { rewrite Hbb3. by destruct w. }
    by destruct e1. }
  destruct Hosc as (e2 & w2 & out2 & -> & Hp2 & Hwf2 & Hch2 & HL2 & Hfr2 & Hbt2 & Hbb2
                    & Hb2 & Hc2 & Hs2 & Hpa2).
  cbn [mbind Res_bind].
  unfold render_envelope, render_epilogue. rewrite streaming. cbn [andb].
  rewrite Hpa2. destruct (hasParent e) eqn:Epar; cbn [mbind Res_bind].
  - exists (upd_cacheable (set_cancel false) e2), w2, out2.
    split; [done|]. do 7 (split; [done|]). by destruct e2.
  - rewrite Hp2. cbn [lift mbind Res_bind].
    destruct (envelope (_adsr e2) (_cacheWriteIndex (cacheable e2)) out2 Hwf2)
      as (Hwf3 & Hch3 & HL3).
    destruct (ADSR_apply _ _ _) as [a out3]. cbn [snd] in *. cbn [mbind Res_bind].
    eexists _, _, out3. split; [reflexivity|].
    cbn [heap set_heap bytes_per_tick bytes_per_bar].
    split; [by rewrite lookup_insert_eq|].
    split; [done|]. split; [congruence|]. split; [congruence|].
    split. { intros q Hq. rewrite lookup_insert_ne by done. by apply Hfr2. }
    split; [done|]. split; [done|].
    destruct e2. cbn in *. done.
Qed.
End StreamingTotal.

(** ** [mixBuffer] when the engine streams *)

Section MixSnippet.
Context {FO : FloatOps} {CO : Collaborators} {EP : EngineProps}.
Hypothesis streaming : EVENT_CACHING = false.

(** When the engine streams, [calculateBuffers] returns and touches no
    buffer but the one the event owns. *)
Lemma calculateBuffers_streaming_frame fuel e w :
  0 ≤ OUTPUT_CHANNELS → 0 ≤ BUFFER_SIZE →
  ∃ e' w',
    calculateBuffers fuel e w = Ok (e', w')
    ∧ ∀ q b, heap w !! q = Some b → _buffer (base e) ≠ Some q → heap w' !! q = Some b.
Proof.
  intros Hc Hb.
  assert (Hfreed : ∀ q b, heap w !! q = Some b → _buffer (base e) ≠ Some q →
                          match _buffer (base e) with
                          | Some q0 => delete q0 (heap w)
                          | None => heap w
                          end !! q = Some b).
  { intros q b Hq Hne. destruct (_buffer (base e)) as [q0|]; [|done].
    rewrite lookup_delete_ne by congruence. done. }
  assert (Hnew : ∀ (h : gmap nat AudioBuffer) made q b,
             h !! q = Some b → <[fresh (dom h) := made]> h !! q = Some b).
  { intros h made q b Hq. rewrite lookup_insert_ne; [done|].
    intros Heq. pose proof (is_fresh (dom h)) as Hf. rewrite Heq in Hf.
    apply Hf. apply elem_of_dom. by eexists. }
  destruct (_locked (base e)) eqn:Hl.
  { unfold calculateBuffers, calculateBuffers_with. rewrite Hl.
    eexists _, _. split; [reflexivity|]. done. }
  destruct (isSequenced e) eqn:Hq.
  - destruct (calculateBuffers_streaming_spec fuel e w streaming Hl Hq Hc Hb)
      as (e' & w' & Hrun & _ & _ & _ & _ & _ & _ & _ & _ & _ & _ & _ & _ & _ & Hbuf).
    exists e', w'. split; [done|]. intros q b Hqb Hne.
    destruct (_ && _).
    + destruct Hbuf as [_ ->]. done.
    + destruct (hasParent e).
      * destruct Hbuf as [_ ->]. by apply Hfreed.
      * destruct Hbuf as (made & _ & _ & ->). apply Hnew. by apply Hfreed.
  - destruct (calculateBuffers_live_spec fuel e w Hl Hq Hc Hb)
      as (e' & w' & Hrun & _ & _ & _ & _ & _ & _ & _ & _ & _ & Hbuf).
    exists e', w'. split; [done|]. intros q b Hqb Hne.
    destruct (_ && _).
    + destruct Hbuf as [_ ->]. done.
    + destruct (hasParent e).
      * destruct Hbuf as [_ ->]. by apply Hfreed.
      * destruct Hbuf as (made & _ & _ & ->). apply Hnew. by apply Hfreed.
Qed.

Lemma all_ready_upd_cacheable f e : all_ready (upd_cacheable f e) ↔ all_ready e.
Proof. by destruct e. Qed.

Lemma osc_depth_upd_cacheable f e : osc_depth (upd_cacheable f e) = osc_depth e.
Proof. by destruct e. Qed.

End MixSnippet.

(** ** The restart of a cache from within [render] *)

Section LoopPlace.
Context {FO : FloatOps} {CO : Collaborators} {EP : EngineProps}.

(** Whatever the synthesis loop returns, the event is where it was in the
    sequencer. *)
Lemma generate_place i e r amp e' r' :
  generate i e r = Ok (amp, e', r') →
  position e' = position e ∧ length_ e' = length_ e.
Proof.
  unfold generate. destruct (_type e).
  1-5: by intros [= <- <- <-].
  - destruct (randomFloat r). by intros [= <- <- <-].
  - destruct (_ringBuffer e) as [rb|]; [|discriminate]. cbn [lift mbind Res_bind].
    destruct (dequeue rb). by intros [= <- <- <-].
Qed.

Lemma next_amplitude_place i e r amp e' r' :
  next_amplitude i e r = Ok (amp, e', r') →
  position e' = position e ∧ length_ e' = length_ e.
Proof.
  unfold next_amplitude.
  destruct (generate i e r) as [[[a e1] r1]| |] eqn:Eg; try discriminate.
  apply generate_place in Eg as [Hb Hs]. cbn [mbind Res_bind].
  set (e2 := match _type e1 with PWM => _ | _ => _ end).
  assert (H2 : position e2 = position e ∧ length_ e2 = length_ e).
  { unfold e2. destruct (_type e1); try done;
      match goal with |- context [if ?c then _ else _] => by destruct c end. }
  destruct H2 as [Hb2 Hs2].
  destruct (_arpeggiator e2) as [a0|]; [|by intros [= <- <- <-]].
  destruct (Arpeggiator_peek a0) as [stepped a1]. destruct stepped.
  - match goal with |- context [setFrequency ?f ?al ?st ?ev ?rv] =>
      pose proof (setFrequency_same_place f al st ev rv) as Hk;
      destruct (setFrequency f al st ev rv) as [e3 r3] end.
    intros [= <- <- <-]. cbn [fst] in Hk. destruct Hk as (_ & _ & Hp3 & Hl3 & _).
    split; [by rewrite Hp3|by rewrite Hl3].
  - by intros [= <- <- <-].
Qed.

Lemma render_sample_place b p i e w e' w' :
  render_sample b p i e w = Ok (e', w') →
  position e' = position e ∧ length_ e' = length_ e.
Proof.
  unfold render_sample, next_sample.
  destruct (next_amplitude i e (random w)) as [[[a e1] r1]| |] eqn:Ea; try discriminate.
  apply next_amplitude_place in Ea. cbn [mbind Res_bind].
  destruct (heap w !! p) as [out|]; [|discriminate]. cbn [lift mbind Res_bind].
  destruct (write_channels _ _ _ _ _ _); try discriminate. cbn [mbind Res_bind].
  by intros [= <- <-].
Qed.

Lemma render_samples_place b p n : ∀ i e w j e' w',
  render_samples n b p i e w = Ok (j, e', w') →
  position e' = position e ∧ length_ e' = length_ e.
Proof.
  induction n as [|n IH]; intros i e w j e' w'; cbn [render_samples].
  - by intros [= <- <- <-].
  - destruct (render_sample b p i e w) as [[e1 w1]| |] eqn:Es; try discriminate.
    apply render_sample_place in Es as [Hb Hs]. cbn [mbind Res_bind].
    destruct (_cancel (cacheable e1)); [by intros [= <- <- <-]|].
    intros Hrun. apply IH in Hrun as [Hb' Hs']. split; congruence.
Qed.

Lemma render_loop_place e p w j e' w' :
  render_loop e p w = Ok (j, e', w') →
  position e' = position e ∧ length_ e' = length_ e.
Proof.
  unfold render_loop. destruct (heap w !! p) as [out|]; [|discriminate].
  cbn [lift mbind Res_bind].
  match goal with |- context [if ?c then silence_at p w else Ok w] =>
    destruct (if c then silence_at p w else Ok w) as [w1| |]; try discriminate end.
  cbn [mbind Res_bind]. apply render_samples_place.
Qed.

(** The pluck of the string in [calculateBuffers] leaves the generator
    ready. *)
Lemma pluck_ready e r :
  ring_ready (match _type e with
              | KARPLUS_STRONG => initKarplusStrong e r
              | _ => (e, r)
              end).1.
Proof.
  destruct (_type e) eqn:Et; try (intros H; cbn [fst] in H; congruence).
  intros _. by destruct (initKarplusStrong_keeps e r) as (_ & _ & _ & _ & _ & _ & _ & H & _).
Qed.

(** [resetCache] on an event without a secondary oscillator. *)
Lemma resetCache_leaf e :
  _osc2 e = None → resetCache e = upd_cacheable BaseCacheableAudioEvent_resetCache e.
Proof. destruct e as [? ? ? ? ? ? ? ? ? ? ? ? ? ? ? ? ? ? ? ? ? ? ? ? [o|]]; done. Qed.

(** The window of a loop that starts at index 0 stays inside the
    buffer. *)
Lemma window_from_zero e L :
  renderStartOffset e = 0 → 0 ≤ L ≤ Int.INT_MAX →
  renderStartOffset e
  + Z.of_nat (Z.to_nat (renderEndOffset e L - renderStartOffset e)) ≤ L.
Proof.
  intros H0 HL. unfold renderEndOffset, clipped. rewrite H0.
  rewrite (add_fits 0 L) by (unfold Int.fits, Int.INT_MIN; lia).
  rewrite !Z.add_0_l, Z.sub_0_r.
  destruct (Z.ltb_spec (maxSampleIndex e) L); lia.
Qed.

(** [render] on an event without a secondary oscillator, up to its last
    part: the loop and the envelope return, and leave the end of [render]
    to run on an event that is where it was, with the flags it had, into
    a buffer of the same shape. *)
Lemma render_reaches_epilogue rec e p w out :
  envelope_keeps_shape →
  heap w !! p = Some out → wf_buffer out → ring_ready e → _osc2 e = None →
  0 ≤ renderStartOffset e →
  renderStartOffset e
  + Z.of_nat (Z.to_nat (renderEndOffset e (bufferSize out) - renderStartOffset e))
  ≤ bufferSize out →
  ∃ i e3 w3 out3,
    render_with rec e p w = render_epilogue rec i (maxSampleIndex e) e3 w3
    ∧ heap w3 !! p = Some out3 ∧ wf_buffer out3
    ∧ amountOfChannels out3 = amountOfChannels out
    ∧ bufferSize out3 = bufferSize out
    ∧ (∀ q, q ≠ p → heap w3 !! q = heap w !! q)
    ∧ bytes_per_tick w3 = bytes_per_tick w ∧ bytes_per_bar w3 = bytes_per_bar w
    ∧ base e3 = base e ∧ isSequenced e3 = isSequenced e
    ∧ hasParent e3 = hasParent e ∧ _osc2 e3 = None ∧ ring_ready e3
    ∧ position e3 = position e ∧ length_ e3 = length_ e
    ∧ _cancel (cacheable e3) = _cancel (cacheable e).
Proof.
  intros envelope Hp Hwf Hr Ho Hs Hn.
  destruct (render_loop_any e p w out Hp Hwf Hr Hs Hn)
    as (vs & e1 & r1 & Hvs & Hl & Hk & Hrun).
  destruct (render_loop_place _ _ _ _ _ _ Hrun) as [Hpos Hlen].
  pose proof (kept_cacheable _ _ Hk) as Hca.
  pose proof (kept_base _ _ Hk) as Hba.
  pose proof (kept_ring_ready _ _ Hk Hr) as Hr1.
  pose proof (kept_osc2_None _ _ Hk Ho) as Ho1.
  apply kept_eq in Hk as Hk'. destruct Hk' as (_ & _ & Hseq & Hpar & _).
  unfold render_with, render_voices. rewrite Hp. cbn [mbind Res_bind lift].
  rewrite Hrun. cbn [mbind Res_bind].
  unfold render_osc2. rewrite Ho.
  rewrite bool_decide_eq_false_2 by (by intros [? ?]). cbn [andb mbind Res_bind].
  match goal with |- context [set_heap (<[p := ?b]> (heap w)) (set_random r1 w)] =>
    set (out1 := b) end.
  assert (Hwf1 : wf_buffer out1).
  { apply wf_set_buffers; [done|by rewrite length_fmap|].
    apply Forall_fmap. eapply Forall_impl; [apply (wf_Forall _ Hwf)|].
    intros t Ht. cbn beta in *.
    apply length_spliced_window; [done| |done].
    rewrite Hl. destruct (_cancel (cacheable e)); lia. }
  unfold render_envelope. rewrite Hpar.
  destruct (hasParent e) eqn:Epar; cbn [mbind Res_bind].
  - eexists _, e1, _, out1. split; [reflexivity|].
    cbn [heap set_heap set_random bytes_per_tick bytes_per_bar].
    split; [by rewrite lookup_insert_eq|]. do 3 (split; [done|]).
    split; [intros q Hq; by rewrite lookup_insert_ne|].
    split; [by destruct w|]. split; [by destruct w|].
    do 7 (split; [done|]). by rewrite Hca.
  - cbn [heap set_heap set_random]. rewrite lookup_insert_eq. cbn [lift mbind Res_bind].
    destruct (envelope (_adsr e1) (_cacheWriteIndex (cacheable e1)) out1 Hwf1)
      as (Hwf3 & Hch3 & HL3).
    destruct (ADSR_apply _ _ _) as [a out3]. cbn [snd] in *. cbn [mbind Res_bind].
    eexists _, _, _, out3. split; [reflexivity|].
    cbn [heap set_heap bytes_per_tick bytes_per_bar].
    split; [by rewrite lookup_insert_eq|].
    split; [done|]. split; [done|]. split; [done|].
    split. { intros q Hq. by rewrite !lookup_insert_ne. }
    split; [by destruct w|]. split; [by destruct w|].
    destruct e1. cbn in *. subst. done.
Qed.
End LoopPlace.

Section Restart.
Context {FO : FloatOps} {CO : Collaborators} {EP : EngineProps}.
Hypothesis envelope : envelope_keeps_shape.

(** [render] on an event without a secondary oscillator returns when no
    cancellation is requested. *)
Lemma render_uncancelled fuel e p w out :
  heap w !! p = Some out → wf_buffer out → ring_ready e → _osc2 e = None →
  _cancel (cacheable e) = false →
  0 ≤ renderStartOffset e →
  renderStartOffset e
  + Z.of_nat (Z.to_nat (renderEndOffset e (bufferSize out) - renderStartOffset e))
  ≤ bufferSize out →
  ∃ e' w', render (S fuel) e p w = Ok (e', w').
Proof.
  intros Hp Hwf Hr Ho Hc Hs Hn.
  destruct (render_reaches_epilogue (render fuel) e p w out envelope Hp Hwf Hr Ho Hs Hn)
    as (i & e3 & w3 & out3 & Hrun & _ & _ & _ & _ & _ & _ & _ & _ & _ & _ & _ & _ & _ & _ & Hc3).
  cbn [render]. rewrite Hrun. unfold render_epilogue. cbv zeta.
  destruct (EVENT_CACHING && isSequenced e3); cbn [mbind Res_bind]; [|by eexists _, _].
  replace (_cancel (cacheable (upd_cacheable (set_caching false) e3))) with false
    by (rewrite <- Hc, <- Hc3; by destruct e3).
  cbn [mbind Res_bind]. by eexists _, _.
Qed.

(** The restart of the cache: when the engine caches and the reset of the
    cache withdraws the request, [calculateBuffers] on a sequenced event
    that is not caching returns, whether it keeps the buffer or allocates
    another, and whether or not it caches the event again. *)
Lemma calculateBuffers_restart fuel e w p b :
  EVENT_CACHING = true → reset_clears →
  isSequenced e = true → hasParent e = false → _osc2 e = None →
  _caching (cacheable e) = false →
  _buffer (base e) = Some p → heap w !! p = Some b → wf_buffer b →
  1 ≤ OUTPUT_CHANNELS ≤ Int.INT_MAX →
  0 ≤ cast_int (length_ e * of_int (bytes_per_tick w))%F →
  4 * (OUTPUT_CHANNELS * cast_int (length_ e * of_int (bytes_per_tick w))%F) ≤ Int.INT_MAX →
  ∃ e' w', calculateBuffers (S fuel) e w = Ok (e', w').
Proof.
  intros Hev Hreset Hq Hpar Ho Hcach Hbuf Hp Hwf Hoc HM Hby.
  unfold calculateBuffers, calculateBuffers_with.
  destruct (_locked (base e)); [by eexists _, _|].
  rewrite Hq, Hcach, Hev. cbv beta iota zeta.
  match goal with |- context [destroyBuffer ?E w] => set (e1 := E) end.
  assert (He1 : _buffer (base e1) = Some p
                ∧ _sampleLength (base e1)
                  = cast_int (length_ e * of_int (bytes_per_tick w))%F
                ∧ isSequenced e1 = true ∧ hasParent e1 = false ∧ _osc2 e1 = None).
  { unfold e1. destruct e. cbn in *. by subst. }
  clearbody e1. destruct He1 as (Hbuf1 & HM1 & Hq1 & Hpar1 & Ho1).
  match goal with |- ∃ e' w', (?m ≫= _) = _ =>
    assert (Hre : ∃ e6 w6 q b6,
               m = Ok (e6, w6) ∧ _buffer (base e6) = Some q
               ∧ heap w6 !! q = Some b6 ∧ wf_buffer b6
               ∧ isSequenced e6 = true ∧ hasParent e6 = false ∧ _osc2 e6 = None)
  end.
  { match goal with |- context [if ?c then _ else Ok (e1, w)] => destruct c end.
    - rewrite (destroyBuffer_Some _ _ p) by done. cbv beta iota.
      rewrite hasParent_upd_base, isSequenced_upd_base, Hpar1, Hq1.
      cbn [andb]. rewrite <- HM1 in HM, Hby.
      destruct (AudioBuffer_new_wf OUTPUT_CHANNELS (_sampleLength (base e1)))
        as (made & Hnew & Hwm & _); [done..|].
      replace (_sampleLength (base (upd_base (set_buffer None) e1)))
        with (_sampleLength (base e1)) by (by destruct e1).
      rewrite (new_AudioBuffer_Ok _ _ _ made Hnew). cbn [mbind Res_bind].
      eexists _, _, _, made. split; [reflexivity|].
      split; [by destruct e1|].
      cbn [heap set_heap]. split; [by rewrite lookup_insert_eq|].
      split; [done|]. by destruct e1.
    - by exists e1, w, p, b. }
  destruct Hre as (e6 & w6 & q & b6 & -> & Hbuf6 & Hp6 & Hwf6 & Hq6 & Hpar6 & Ho6).
  cbn [mbind Res_bind]. rewrite Hq6.
  match goal with |- context [initKarplusStrong ?E ?R] =>
    pose proof (pluck_keeps E R) as K; pose proof (pluck_ready E R) as Kr;
    cbv zeta in K;
    destruct (match _type E with
              | KARPLUS_STRONG => initKarplusStrong E R
              | _ => (E, R)
              end) as [e7 r7]
  end.
  cbn [fst] in K, Kr. destruct K as (Kb & Kc & _ & _ & _ & _ & Ks & Kh & Ko).
  rewrite (resetCache_leaf e7) by congruence.
  set (e8 := upd_cacheable BaseCacheableAudioEvent_resetCache e7).
  destruct (Hreset (cacheable e7)) as [Hc0 Hi0].
  assert (He8 : _cancel (cacheable e8) = false ∧ _cacheWriteIndex (cacheable e8) = 0
                ∧ _buffer (base e8) = Some q ∧ isSequenced e8 = true
                ∧ hasParent e8 = false ∧ _osc2 e8 = None ∧ ring_ready e8).
  { unfold e8. destruct e7. cbn in *. by subst. }
  clearbody e8. destruct He8 as (Hc8 & Hi8 & Hbuf8 & Hq8 & Hpar8 & Ho8 & Hr8).
  destruct (_autoCache (cacheable e8)); [|by eexists _, _].
  rewrite Hpar8. cbn [negb andb].
  destruct (_caching (cacheable e8)); cbn [negb]; [by eexists _, _|].
  unfold cache_with, doCache_with. rewrite Hbuf8.
  replace (_buffer (base (upd_cacheable (set_caching true) e8))) with (Some q)
    by (rewrite <- Hbuf8; by destruct e8).
  cbn [lift mbind Res_bind].
  set (e9 := upd_cacheable (set_caching true) e8).
  assert (He9 : _cancel (cacheable e9) = false ∧ renderStartOffset e9 = 0
                ∧ _osc2 e9 = None ∧ ring_ready e9).
  { unfold renderStartOffset, e9. rewrite Hev. destruct e8. cbn in *. by subst. }
  clearbody e9. destruct He9 as (Hc9 & Hs9 & Ho9 & Hr9).
  destruct (wf_bounds _ Hwf6) as (HL & _ & _).
  apply (render_uncancelled fuel e9 q _ b6); try done.
  - by rewrite Hs9.
  - apply window_from_zero; [done|]. unfold Int.INT_MAX. lia.
Qed.

End Restart.

Section RenderReturns.
Context {FO : FloatOps} {CO : Collaborators} {EP : EngineProps}.

(** C6.  Whatever call of [render] returns, returns with [_cancel]
    false; and the call returns, for every value of the flag on entry,
    once the fuel covers the secondary oscillators and a restart, while
    the envelope keeps the shape of the buffer: when the engine streams, for every event whose oscillators are ready,
    into every buffer of the constructor's shape; when the engine caches,
    for the call that [doCache] makes (a sequenced event without
    secondary oscillator rendered into its own cache) provided the reset
    of the cache withdraws the request, also when the request makes
    [render] restart the cache through [calculateBuffers] and that
    restart renders the event again. *)
Theorem render_clears_cancel fuel e p w out :
  envelope_keeps_shape →
  heap w !! p = Some out → wf_buffer out → all_ready e →
  (osc_depth e + 2 ≤ fuel)%nat →
  (EVENT_CACHING = true → reset_clears ∧ cached_render e p w out) →
  (∃ e' w', render fuel e p w = Ok (e', w') ∧ _cancel (cacheable e') = false)
  ∧ ∀ n e0 q w0 e' w',
      render n e0 q w0 = Ok (e', w') → _cancel (cacheable e') = false.
Proof.
  intros envelope Hp Hwf Ha Hfuel Hcache.
  split; [|intros n e0 q w0 e' w'; apply render_returned_clears].
  cut (∃ e' w', render fuel e p w = Ok (e', w')).
  { intros (e' & w' & Hrun). exists e', w'. split; [done|].
    by eapply render_returned_clears. }
  destruct EVENT_CACHING eqn:Hev.
  - destruct (Hcache eq_refl) as [Hreset [Hq Hpar Ho Hbuf HL Hi Hoc HM Hby]].
    apply all_ready_eq in Ha as [Hr _].
    destruct fuel as [|[|fuel]]; [lia..|].
    destruct (wf_bounds _ Hwf) as (HLb & _ & _).
    assert (Hstart : renderStartOffset e = _cacheWriteIndex (cacheable e)).
    { unfold renderStartOffset. by rewrite Hev, Hq. }
    destruct (window_written_out e (bufferSize out)) as [Hend _].
    { unfold Int.fits, Int.INT_MIN, Int.INT_MAX. lia. }
    { rewrite Hstart. unfold Int.fits, Int.INT_MIN, Int.INT_MAX. lia. }
    destruct (render_reaches_epilogue (render (S fuel)) e p w out envelope Hp Hwf Hr Ho)
      as (i & e3 & w3 & out3 & Hrun & Hp3 & Hwf3 & _ & _ & _ & Hbt & _ & Hb3 & Hq3
          & Hpar3 & Ho3 & Hr3 & _ & Hl3 & Hc3).
    { rewrite Hstart. lia. }
    { rewrite Hend, Hstart. lia. }
    change (render (S (S fuel)) e p w) with (render_with (render (S fuel)) e p w).
    rewrite Hrun. unfold render_epilogue. cbv zeta.
    rewrite Hev, Hq3, Hq. cbn [andb].
    set (e4 := upd_cacheable (set_caching false) e3).
    assert (He4 : _cancel (cacheable e4) = _cancel (cacheable e)
                  ∧ _caching (cacheable e4) = false ∧ base e4 = base e
                  ∧ isSequenced e4 = true ∧ hasParent e4 = false ∧ _osc2 e4 = None
                  ∧ length_ e4 = length_ e).
    { unfold e4. rewrite <- Hc3, <- Hb3, <- Hq, <- Hq3, <- Hpar, <- Hpar3, <- Hl3.
      destruct e3. cbn in *. by subst. }
    clearbody e4. destruct He4 as (Hc4 & Hca4 & Hb4 & Hq4 & Hpar4 & Ho4 & Hl4).
    rewrite Hc4. destruct (_cancel (cacheable e)).
    + fold (calculateBuffers (S fuel) e4 w3).
      destruct (calculateBuffers_restart envelope fuel e4 w3 p out3) as (e5 & w5 & Hre);
        try done.
      * by rewrite Hb4.
      * by rewrite Hl4, Hbt.
      * by rewrite Hl4, Hbt.
      * rewrite Hre. cbn [mbind Res_bind]. by eexists _, _.
    + cbn [mbind Res_bind]. by eexists _, _.
  - destruct (render_streaming_total Hev envelope fuel e p w out) as (e' & w' & _ & Hrun & _);
      [lia|done..|].
    by exists e', w'.
Qed.
End RenderReturns.

(** ** The properties on the examples *)

Import Binary32 Examples.

(** The buffers of the examples have the shape the constructor gives. *)
Lemma wf_quiet4 : wf_buffer quiet4.
Proof. wf_example. Qed.

Lemma wf_loop2 : wf_buffer loop2.
Proof. wf_example. Qed.

(** A loopable source of two frames merged at offset 3 into four frames. *)
Lemma mergeBuffers_writes_min_witness :
  ∃ bs', mergeBuffers (FO := ops) 0 (Some 1%nat) 0 3 one two_buffers
         = Ok (<[0%nat := set_buffers quiet4 bs']> two_buffers, 1)
         ∧ framed_upto 1 3 1 (_buffers quiet4) bs'
         ∧ (0%nat ≠ 1%nat → bs' = mixed_buffers (_buffers quiet4) (_buffers loop2) 3 0 1 one).
Proof.
  apply (mergeBuffers_writes_min (FO := ops) 0 1 3 one two_buffers quiet4 loop2);
    [reflexivity | reflexivity | exact wf_quiet4 | exact wf_loop2 | cbn; lia | cbn; lia].
Defined.

(** C1, as stated, fails: a loopable source of 2 frames merged at offset 0
    into a target of 4 frames writes 2 samples, not 4, and the read index is
    never wrapped. *)
Lemma loopable_source_writes_source_length :
  loopeable loop2 = true ∧ bufferSize loop2 = 2 ∧ bufferSize quiet4 = 4
  ∧ mergeBuffers (FO := ops) 0 (Some 1%nat) 0 0 one two_buffers
    = Ok (<[0%nat := quiet4_merged]> two_buffers, 2).
Proof. do 3 (split; [reflexivity|]). reflexivity. Qed.

(** The write offset 4 is the frame count of the target. *)
Lemma mergeBuffers_noop_witness :
  mergeBuffers (FO := ops) 0 (Some 1%nat) 0 4 one two_buffers = Ok (two_buffers, 0).
Proof.
  apply (mergeBuffers_noop (FO := ops) 0 (Some 1%nat) 0 4 one two_buffers).
  right. exists quiet4. split; [reflexivity | cbn; lia].
Defined.

(** The source read from index 1 on and merged at offset 2. *)
Lemma mergeBuffers_frame_distinct_witness :
  ∃ h' n tb',
    mergeBuffers (FO := ops) 0 (Some 1%nat) 1 2 one two_buffers = Ok (h', Z.of_nat n)
    ∧ h' !! 1%nat = Some loop2
    ∧ (∀ p, p ≠ 0%nat → h' !! p = two_buffers !! p)
    ∧ h' !! 0%nat = Some tb'
    ∧ loopeable tb' = loopeable quiet4
    ∧ amountOfChannels tb' = amountOfChannels quiet4
    ∧ bufferSize tb' = bufferSize quiet4
    ∧ length (_buffers tb') = length (_buffers quiet4)
    ∧ ∀ c t, _buffers quiet4 !! c = Some t →
             ∃ t', _buffers tb' !! c = Some t'
                   ∧ length t' = length t
                   ∧ (Z.min (amountOfChannels quiet4) (amountOfChannels loop2) ≤ Z.of_nat c
                      → t' = t)
                   ∧ ∀ j, (j < Z.to_nat 2 ∨ Z.to_nat 2 + n ≤ j)%nat → t' !! j = t !! j.
Proof.
  apply (mergeBuffers_frame_distinct (FO := ops) 0 1 1 2 one two_buffers quiet4 loop2);
    [lia | reflexivity | reflexivity | exact wf_quiet4 | exact wf_loop2 | lia | lia].
Defined.

(** C10, as stated, fails: a buffer merged into itself is the source of the
    call, and its samples are changed. *)
Lemma self_merge_changes_source :
  mergeBuffers (FO := ops) 0 (Some 0%nat) 0 0 one loop2_alone = Ok (<[0%nat := loop2_doubled]> loop2_alone, 2)
  ∧ loop2_alone !! 0%nat = Some loop2
  ∧ (<[0%nat := loop2_doubled]> loop2_alone : gmap nat AudioBuffer) !! 0%nat = Some loop2_doubled
  ∧ _buffers loop2_doubled ≠ _buffers loop2.
Proof.
  do 3 (split; [reflexivity|]). discriminate.
Qed.

(** The silent buffers have the shape the constructor gives, and a sawtooth
    needs no ring buffer. *)
Lemma wf_silent_6 : wf_buffer (silent_buffer 6).
Proof. wf_example. Qed.

Lemma wf_silent_8 : wf_buffer (silent_buffer 8).
Proof. wf_example. Qed.

Lemma ring_ready_saw b s p pos len m o : ring_ready (saw_voice b s p pos len m o).
Proof. intros Ht. discriminate Ht. Qed.

(** The example events are what the constructors build. *)
Lemma saw_note_cached :
  new_SynthEvent (EP := caching) 2 raw_base raw_cacheable 0 pitch 1 (of_Z 3) (saw false) false
                 no_buffers
  = Ok (saw_note, one_buffer (silent_buffer 6)).
Proof. reflexivity. Qed.

Lemma saw_note_streamed :
  new_SynthEvent (EP := streaming) 2 raw_base raw_cacheable 0 pitch 1 (of_Z 3) (saw false) false
                 no_buffers
  = Ok (saw_note, one_buffer (silent_buffer 8)).
Proof. reflexivity. Qed.

Lemma saw_pair_streamed :
  new_SynthEvent (EP := streaming) 2 raw_base raw_cacheable 0 pitch 1 (of_Z 3) (saw true) false
                 no_buffers
  = Ok (saw_pair, one_buffer (silent_buffer 8)).
Proof. reflexivity. Qed.

Lemma live_note_streamed :
  new_live_SynthEvent (EP := streaming) 2 raw_base raw_cacheable 0 pitch (saw false) no_buffers
  = Ok (live_note, one_buffer (silent_buffer 8)).
Proof. reflexivity. Qed.

(** With a cancellation requested, the loop of a note whose window is
    [0, 5) stops after its first pass; index 1, where a full pass stores
    0.125, still holds the silence of the cleared buffer. *)
Lemma cancelled_loop_stops_after_first_pass :
  renderStartOffset (EP := caching) saw_note_cancelled = 0
  ∧ renderEndOffset (EP := caching) saw_note_cancelled 6 = 5
  ∧ sample_values (EP := caching) 5 false 0 saw_note_cancelled 0
    = Ok ([zero; decimal 125 3; decimal 25 2; decimal 375 3; decimal 5 1],
          set_phase (decimal 625 3) saw_note_cancelled, 0)
  ∧ render_loop (EP := caching) saw_note_cancelled 0 (one_buffer (silent_buffer 6))
    = Ok (0, set_phase (decimal 125 3) saw_note_cancelled, one_buffer (silent_buffer 6)).
Proof. do 3 (split; [reflexivity|]). reflexivity. Qed.

(** C3, as stated, fails: the note with a secondary oscillator of the same
    frequency renders 1.5 times the samples of the note alone, not the same
    samples. *)
Lemma two_oscillators_render_differs :
  rendered 0 (render (EP := streaming) 2 saw_pair 0 (one_buffer (silent_buffer 8)))
  = Some (stereo [zero; decimal 1875 4; decimal 375 3; decimal 5625 4; decimal 75 2;
                  zero; zero; zero])
  ∧ rendered 0 (render (EP := streaming) 2 saw_note 0 (one_buffer (silent_buffer 8)))
    = Some (stereo [zero; decimal 125 3; decimal 25 2; decimal 375 3; decimal 5 1;
                    zero; zero; zero]).
Proof. split; reflexivity. Qed.

(** The same two notes rendered into their caches. *)
Lemma two_oscillators_cached :
  rendered 0 (render (EP := caching) 2 saw_pair 0 (one_buffer (silent_buffer 6)))
  = Some (stereo [zero; decimal 1875 4; decimal 375 3; decimal 5625 4; decimal 75 2; zero])
  ∧ rendered 0 (render (EP := caching) 2 saw_note 0 (one_buffer (silent_buffer 6)))
    = Some (stereo [zero; decimal 125 3; decimal 25 2; decimal 375 3; decimal 5 1; zero]).
Proof. split; reflexivity. Qed.

(** The note with its secondary oscillator, rendered into its cache of six
    frames: the window ends at index 5 and the temporary buffer has five
    frames. *)
Lemma render_voices_osc2_unscaled_witness :
  let L := 6 in
  let start := renderStartOffset (EP := caching) saw_pair in
  let stop := renderEndOffset (EP := caching) saw_pair L in
  let T := if EVENT_CACHING (EngineProps := caching) && isSequenced saw_pair
           then stop - start else L in
  let start2 := renderStartOffset (EP := caching) saw_second in
  let stop2 := renderEndOffset (EP := caching) saw_second T in
  ∃ a1 a2 e1 o1 o2 o3 r1 r2,
    amplitudes (EP := caching) (Z.to_nat (stop - start)) start saw_pair 0 = Ok (a1, e1, r1)
    ∧ _osc2 e1 = Some o1
    ∧ amplitudes (EP := caching) (Z.to_nat (stop2 - start2)) start2 o1 r1 = Ok (a2, o2, r2)
    ∧ render_voices (EP := caching) (render (EP := caching) 1) saw_pair 0
                    (one_buffer (silent_buffer 6))
      = Ok (stop, set_osc2 (Some o3) e1,
            set_heap
              (<[0%nat := set_buffers (silent_buffer 6)
                   ((λ t, mixed
                            (spliced (if clipped (EP := caching) saw_pair L
                                      then generateSilentBuffer L else t)
                                     (Z.to_nat start)
                                     ((λ a, (a * dec 5 1 * _volume saw_pair)%F) <$> a1))
                            (spliced (generateSilentBuffer T) (Z.to_nat start2)
                                     ((λ a, (a * _volume saw_second)%F) <$> a2))
                            (Z.to_nat start) 0 (Z.to_nat (Z.min T (L - start)))
                            (MAX_PHASE (EngineProps := caching)))
                      <$> _buffers (silent_buffer 6))]> (heap (one_buffer (silent_buffer 6))))
              (set_random r2 (one_buffer (silent_buffer 6)))).
Proof.
  apply (render_voices_osc2_unscaled (EP := caching) 0 saw_pair saw_second 0%nat
           (one_buffer (silent_buffer 6)) (silent_buffer 6));
    [reflexivity | exact wf_silent_6 | reflexivity | reflexivity | reflexivity
    | apply ring_ready_saw | apply ring_ready_saw | reflexivity | reflexivity
    | split; apply Z.leb_le; reflexivity | apply Z.leb_le; reflexivity
    | apply Z.leb_le; reflexivity | apply Z.leb_le; reflexivity].
Defined.

(** The note moved to step 4: [calculateBuffers] recomputes its start and
    its end. *)
Lemma calculateBuffers_geometry_witness :
  isSequenced (upd_base (set_sampleEnd 14) (upd_base (set_sampleStart 8)
                                                         (set_position 4 saw_note))) = true
  ∧ geometry_holds (upd_base (set_sampleEnd 14) (upd_base (set_sampleStart 8)
                                                          (set_position 4 saw_note))).
Proof.
  apply (calculateBuffers_geometry (EP := streaming) 0 (set_position 4 saw_note)
           (one_buffer (silent_buffer 8))
           (upd_base (set_sampleEnd 14) (upd_base (set_sampleStart 8) (set_position 4 saw_note)))
           (one_buffer (silent_buffer 8)));
    [reflexivity | left; reflexivity | reflexivity].
Defined.

(** A callback window that the note overlaps, and one that it does not. *)
Lemma mixBuffer_overlapping :
  rendered 1 (mixBuffer (EP := streaming) no_base_mix 2 1 0 0 0 false 0 false saw_note callback)
  = Some (stereo [one; one; one; decimal 1125 3; decimal 125 2; decimal 1375 3;
                  decimal 15 1; one]).
Proof. reflexivity. Qed.

Lemma mixBuffer_past_the_note :
  mixBuffer (EP := streaming) no_base_mix 2 1 8 0 0 false 0 false saw_note callback
  = Ok (saw_note, callback).
Proof. reflexivity. Qed.



(** A live event keeps the ring buffer it has: the frequency 441 Hz asks for
    100 places, the capacity stays at 169. *)
Lemma live_string_keeps_capacity :
  let plucked := (setFrequency (EP := streaming) (of_Z 260) true true
                               (set_type KARPLUS_STRONG live_note) 0).1 in
  let retuned := (setFrequency (EP := streaming) (of_Z 441) true true plucked 0).1 in
  (capacity <$> _ringBuffer plucked) = Some 169
  ∧ _ringBufferSize retuned = 100
  ∧ (capacity <$> _ringBuffer retuned) = Some 169.
Proof. split; [reflexivity|]. split; reflexivity. Qed.

(** The live note, queued for deletion, in a call for 8 frames. *)
Lemma synthesize_fades_witness :
  let amt := Z.quot 8 4 in
  let gains := fade_gains (FO := ops) (Z.to_nat amt) (MAX_PHASE (EngineProps := streaming))
                          (MAX_PHASE (EngineProps := streaming) / of_int amt)%F in
  ∃ e',
    synthesize (EP := streaming) 1 8 (setDeletable true live_note)
               (one_buffer (silent_buffer 8))
    = Ok (Some 0%nat, e',
          set_heap (<[0%nat := set_buffers (stereo ramp)
                                 ((λ t, faded t (Z.to_nat (8 - amt)) gains)
                                    <$> _buffers (stereo ramp))]>
                      (heap (one_buffer (stereo ramp))))
                   (one_buffer (stereo ramp)))
    ∧ _deleteMe (base e') = true ∧ _hasMinLength e' = true
    ∧ length gains = Z.to_nat amt
    ∧ (0 < amt → head gains = Some (MAX_PHASE (EngineProps := streaming))).
Proof.
  apply (synthesize_fades (EP := streaming) 1 8 (setDeletable true live_note)
           (one_buffer (silent_buffer 8))
           (upd_cacheable (set_cacheWriteIndex 8) (set_phase (FO := ops) one (setDeletable true live_note)))
           (one_buffer (stereo ramp)) 0%nat (stereo ramp));
    [reflexivity | reflexivity | right; apply Z.leb_le; reflexivity | reflexivity | reflexivity
    | wf_example | reflexivity].
Defined.

(** C9, as stated, fails: a buffer of 8 frames is faded over its last two
    frames with the gains 1 and 0.5; the last sample, 0.875 before the fade,
    is 0.4375 after it, not zero. *)
Lemma fade_ends_above_zero :
  rendered 0 (synthesize_render (EP := streaming) 2 8 (setDeletable true live_note)
                                (one_buffer (silent_buffer 8)))
  = Some (stereo ramp)
  ∧ rendered 0 (synthesize (EP := streaming) 2 8 (setDeletable true live_note)
                           (one_buffer (silent_buffer 8)))
    = Some (stereo [zero; decimal 125 3; decimal 25 2; decimal 375 3; decimal 5 1;
                    decimal 625 3; decimal 75 2; decimal 4375 4]).
Proof. split; reflexivity. Qed.

Lemma wf_left_right : wf_buffer left_right.
Proof. wf_example. Qed.

(** The looping source silenced. *)
Lemma silenceBuffers_restores_witness :
  ∃ b' made,
    silenceBuffers loop2 = Ok b'
    ∧ AudioBuffer_new (amountOfChannels loop2) (bufferSize loop2) = Ok made
    ∧ _buffers b' = _buffers made
    ∧ loopeable b' = loopeable loop2
    ∧ amountOfChannels b' = amountOfChannels loop2
    ∧ bufferSize b' = bufferSize loop2
    ∧ wf_buffer b'
    ∧ (∀ c t j s, _buffers b' !! c = Some t → t !! j = Some s → s = dec 0 1)
    ∧ silenceBuffers b' = Ok b'.
Proof. apply (silenceBuffers_restores (FO := ops) loop2). exact wf_loop2. Defined.

(** A gain of 2 on two channels. *)
Lemma adjustBufferVolumes_scales_witness :
  adjustBufferVolumes two left_right = Ok left_right_doubled ∧ wf_buffer left_right_doubled.
Proof. apply (adjustBufferVolumes_scales (FO := ops) two left_right). exact wf_left_right. Defined.

(** The second channel becomes the first. *)
Lemma applyMonoSource_copies_witness :
  ∃ mono,
    _buffers left_right !! 0%nat = Some mono
    ∧ applyMonoSource left_right
      = Ok (set_buffers left_right (replicate (length (_buffers left_right)) mono))
    ∧ wf_buffer (set_buffers left_right (replicate (length (_buffers left_right)) mono)).
Proof. apply (applyMonoSource_copies (FO := ops) left_right). exact wf_left_right. Defined.

Lemma applyMonoSource_left_right : applyMonoSource left_right = Ok left_left.
Proof. reflexivity. Qed.

(** The clone of the looping source does not loop. *)
Lemma clone_copies_witness :
  ∃ p h',
    clone 1 two_buffers = Ok (p, h')
    ∧ two_buffers !! p = None
    ∧ h' !! p = Some {| loopeable := false; amountOfChannels := amountOfChannels loop2;
                        bufferSize := bufferSize loop2; _buffers := _buffers loop2 |}
    ∧ ∀ q, q ≠ p → h' !! q = two_buffers !! q.
Proof.
  apply (clone_copies (FO := ops) 1 two_buffers loop2); [reflexivity | exact wf_loop2].
Defined.

(** The looping source read from its second sample. *)
Lemma mergeBuffers_count_witness :
  ∃ h', mergeBuffers (FO := ops) 0 (Some 1%nat) 1 0 one two_buffers = Ok (h', 2).
Proof.
  apply (mergeBuffers_count (FO := ops) 0 1 1 0 one two_buffers quiet4 loop2);
    [reflexivity | reflexivity | exact wf_quiet4 | exact wf_loop2 | lia | lia].
Defined.

(** A target without channels. *)
Lemma mergeBuffers_without_channels_witness :
  mergeBuffers (FO := ops) 0 (Some 1%nat) 0 0 one
               (<[0%nat := {| loopeable := false; amountOfChannels := 0; bufferSize := 4;
                              _buffers := [] |}]> two_buffers)
  = Fault.
Proof.
  apply (mergeBuffers_without_channels (FO := ops) 0 1 0 0 one _
           {| loopeable := false; amountOfChannels := 0; bufferSize := 4; _buffers := [] |}
           loop2);
    [reflexivity | reflexivity | cbn; lia | left; reflexivity].
Defined.

(** The looping source read from its second sample: 2, then 1. *)
Lemma mergeBuffers_loops_witness :
  mergeBuffers (FO := ops) 0 (Some 1%nat) 1 0 one two_buffers
  = Ok (<[0%nat := quiet4_wrapped]> two_buffers, 2).
Proof.
  apply (mergeBuffers_loops (FO := ops) 0 1 1 0 one two_buffers quiet4 loop2);
    [lia | reflexivity | reflexivity | exact wf_quiet4 | exact wf_loop2 | reflexivity
    | cbn; lia | lia].
Defined.

(** The live note while no key-up has come: nothing is faded. *)
Lemma synthesize_release_quiet_witness :
  ∃ e',
    synthesize_release (EP := streaming) 8 live_note (one_buffer (stereo ramp))
    = Ok (_buffer (base live_note), e', one_buffer (stereo ramp))
    ∧ _queuedForDeletion e' = _queuedForDeletion live_note
    ∧ (_deleteMe (base e') = true → _deleteMe (base live_note) = true)
    ∧ _minLength e'
      = (if _queuedForDeletion live_note then Int.sub (_minLength live_note) 8
         else _minLength live_note).
Proof.
  apply (synthesize_release_quiet (EP := streaming) 8 live_note (one_buffer (stereo ramp))).
  left. reflexivity.
Defined.

(** The note of three steps cached in one render of its six frames. *)
Lemma render_completes_cache_witness :
  ∃ e' w',
    render (EP := caching) 1 saw_note 0 (one_buffer (silent_buffer 6)) = Ok (e', w')
    ∧ _cachingCompleted (cacheable e') = true
    ∧ _caching (cacheable e') = false
    ∧ _cancel (cacheable e') = false
    ∧ _cacheWriteIndex (cacheable e')
      = _cacheWriteIndex (cacheable saw_note) + (_sampleLength (base saw_note) - 1)
    ∧ base e' = base saw_note
    ∧ getBuffer (EP := caching) 0 e' w' = Ok (_buffer (base saw_note), e', w').
Proof.
  apply (render_completes_cache (EP := caching) 0 0 saw_note 0 (one_buffer (silent_buffer 6))
                                (silent_buffer 6));
    [reflexivity | reflexivity | reflexivity | reflexivity | apply ring_ready_saw
    | reflexivity | reflexivity | exact wf_silent_6 | reflexivity
    | split; [apply Z.leb_le | apply Z.ltb_lt]; reflexivity].
Defined.

(** The note rendered over a buffer that held 1.0 in every frame. *)
Lemma render_streaming_overwrites_witness :
  let W := one_buffer (stereo [one; one; one; one; one; one; one; one]) in
  ∃ vs e1 r1,
    sample_values (EP := streaming) 5 false 0 saw_note (random W) = Ok (vs, e1, r1)
    ∧ length vs = 5%nat
    ∧ render (EP := streaming) 1 saw_note 0 W
      = Ok (upd_cacheable (set_cancel false)
              (upd_cacheable (set_cacheWriteIndex (Int.add 0 5)) (set_adsr (_adsr e1) e1)),
            set_heap
              (<[0%nat := set_buffers (stereo [one; one; one; one; one; one; one; one])
                            (replicate 2 (vs ++ replicate 3 zero))]> (heap W))
              (set_random r1 W)).
Proof.
  intros W.
  apply (render_streaming_overwrites (EP := streaming) eq_refl 0 saw_note 0
           (one_buffer (stereo [one; one; one; one; one; one; one; one]))
           (stereo [one; one; one; one; one; one; one; one]));
    [reflexivity | wf_example | reflexivity | apply ring_ready_saw | reflexivity].
Defined.

(** Five samples of the sawtooth, then silence: nothing is left of the
    ones. *)
Lemma saw_note_over_ones :
  render (EP := streaming) 1 saw_note 0
         (one_buffer (stereo [one; one; one; one; one; one; one; one]))
  = Ok (upd_cacheable (set_cacheWriteIndex 5)
          (set_phase (FO := ops) (decimal 625 3) saw_note),
        one_buffer (stereo [zero; decimal 125 3; decimal 25 2; decimal 375 3; decimal 5 1;
                            zero; zero; zero])).
Proof. reflexivity. Qed.

(** The note moved to step 4 and made two steps long: the sample range
    follows, and the buffer of eight frames is replaced. *)
Lemma calculateBuffers_follows_tempo_witness :
  let e := set_length_ (of_Z 2) (set_position 4 saw_note) in
  let w := one_buffer (silent_buffer 8) in
  ∃ e' w',
    calculateBuffers (EP := streaming) 0 e w = Ok (e', w')
    ∧ _sampleLength (base e') = 4 ∧ _sampleStart (base e') = 8
    ∧ _sampleEnd (base e') = 12
    ∧ _locked (base e') = false
    ∧ _updateAfterUnlock (base e') = false
    ∧ position e' = 4 ∧ length_ e' = of_Z 2
    ∧ _cancel (cacheable e') = false
    ∧ isSequenced e' = true ∧ hasParent e' = false
    ∧ _hasMinLength e' = true
    ∧ _deleteMe (base e') = false
    ∧ _osc2 e' = None
    ∧ ∃ made,
        AudioBuffer_new (FO := ops) 2 8 = Ok made
        ∧ _buffer (base e') = Some (fresh (dom (delete 0%nat (heap w))))
        ∧ heap w' = <[fresh (dom (delete 0%nat (heap w))) := made]> (delete 0%nat (heap w)).
Proof.
  intros e w.
  apply (calculateBuffers_follows_tempo (EP := streaming) 0 e w);
    [reflexivity | reflexivity | reflexivity | apply Z.leb_le; reflexivity
    | apply Z.leb_le; reflexivity].
Defined.

(** The note moved to step 4 while it is locked, and unlocked after the
    tempo has changed to three samples a step. *)
Lemma unlock_runs_deferred_witness :
  let e := upd_base (set_locked true) (set_position 4 saw_note) in
  let w := one_buffer (silent_buffer 8) in
  let w2 := {| heap := heap w; random := 0; bytes_per_tick := 3; bytes_per_bar := 96 |} in
  ∃ e1,
    calculateBuffers (EP := streaming) 0 e w = Ok (e1, w)
    ∧ _updateAfterUnlock (base e1) = true ∧ _locked (base e1) = true
    ∧ _sampleLength (base e1) = 6
    ∧ _sampleStart (base e1) = 2
    ∧ _sampleEnd (base e1) = 8
    ∧ _buffer (base e1) = Some 0%nat
    ∧ ∃ e2 w3,
        unlock (EP := streaming) 0 e1 w2 = Ok (e2, w3)
        ∧ _locked (base e2) = false ∧ _updateAfterUnlock (base e2) = false
        ∧ _sampleLength (base e2) = 9 ∧ _sampleStart (base e2) = 12
        ∧ _sampleEnd (base e2) = 21.
Proof.
  intros e w w2.
  apply (unlock_runs_deferred (EP := streaming) 0 e w w2);
    [reflexivity | reflexivity | reflexivity | apply Z.leb_le; reflexivity
    | apply Z.leb_le; reflexivity].
Defined.

(** The live note when the tempo changes: a bar of 64 samples is not the
    engine's buffer of 8 frames, so the buffer is replaced. *)
Lemma calculateBuffers_live_witness :
  let w := one_buffer (stereo ramp) in
  ∃ e' w',
    calculateBuffers (EP := streaming) 0 (setDeletable true live_note) w = Ok (e', w')
    ∧ _minLength e' = 2 ∧ _hasMinLength e' = false
    ∧ _sampleLength (base e') = 64
    ∧ cacheable e' = cacheable live_note
    ∧ position e' = 0 ∧ length_ e' = of_Z 1
    ∧ isSequenced e' = false ∧ hasParent e' = false
    ∧ _osc2 e' = None
    ∧ ∃ made,
        AudioBuffer_new (FO := ops) 2 8 = Ok made
        ∧ _buffer (base e') = Some (fresh (dom (delete 0%nat (heap w))))
        ∧ heap w' = <[fresh (dom (delete 0%nat (heap w))) := made]> (delete 0%nat (heap w)).
Proof.
  intros w.
  apply (calculateBuffers_live (EP := streaming) 0 (setDeletable true live_note) w);
    [reflexivity | reflexivity | apply Z.leb_le; reflexivity | apply Z.leb_le; reflexivity].
Defined.

(** The note moved to step 5 while its cache is rendered. *)
Lemma updateProperties_while_caching_witness :
  let e := upd_cacheable (set_caching true) saw_note in
  let w := one_buffer (silent_buffer 6) in
  ∃ e' w',
    updateProperties (EP := caching) 1 raw_base raw_cacheable 0 5 (of_Z 2) (saw false) 0 e w
    = Ok (e', w')
    ∧ cacheable e' = set_cancel true (cacheable e)
    ∧ base e' = base e
    ∧ position e' = 5 ∧ length_ e' = of_Z 2 ∧ _type e' = SAWTOOTH
    ∧ heap w' = heap w
    ∧ (∀ o, _osc2 e' = Some o → _cancel (cacheable o) = true)
    ∧ (osc2active (saw false) = false → _osc2 e' = None).
Proof.
  intros e w.
  apply (updateProperties_while_caching (EP := caching) 1 raw_base raw_cacheable 0 5 (of_Z 2)
           (saw false) 0 e w);
    [reflexivity | left; reflexivity].
Defined.

(** A note of two and a half steps is built as a note of two steps. *)
Lemma new_SynthEvent_whole_steps_witness :
  let p := fresh (dom (heap no_buffers)) in
  ∃ e' w' made,
    new_SynthEvent (EP := streaming) 0 raw_base raw_cacheable 0 pitch 1 (decimal 25 1)
                   (saw false) false no_buffers = Ok (e', w')
    ∧ isSequenced e' = true ∧ hasParent e' = false ∧ _osc2 e' = None
    ∧ position e' = 1 ∧ length_ e' = of_Z 2
    ∧ _sampleLength (base e') = 4 ∧ _sampleStart (base e') = 2
    ∧ _sampleEnd (base e') = 6
    ∧ _locked (base e') = false ∧ _deleteMe (base e') = false
    ∧ _hasMinLength e' = true
    ∧ AudioBuffer_new (FO := ops) 2 8 = Ok made
    ∧ _buffer (base e') = Some p
    ∧ heap no_buffers !! p = None
    ∧ heap w' = <[p := made]> (heap no_buffers).
Proof.
  intros p.
  apply (new_SynthEvent_whole_steps (EP := streaming) 0 raw_base raw_cacheable 0 pitch 1
           (decimal 25 1) (saw false) false no_buffers);
    [reflexivity | reflexivity | apply Z.leb_le; reflexivity | apply Z.leb_le; reflexivity].
Defined.

(** The pair of oscillators moved to step 4 with a length of two and a half
    steps: the secondary oscillator gets two steps and keeps the sample
    range of the three steps at step 1. *)
Lemma updateProperties_osc2_range_witness :
  let w := one_buffer (silent_buffer 8) in
  ∃ e' w' o',
    updateProperties (EP := streaming) 1 raw_base raw_cacheable 0 4 (decimal 25 1) (saw true) 0
                     saw_pair w
    = Ok (e', w')
    ∧ position e' = 4 ∧ length_ e' = decimal 25 1
    ∧ _osc2 e' = Some o'
    ∧ position o' = 4 ∧ length_ o' = of_Z 2
    ∧ _type o' = SAWTOOTH
    ∧ base o' = three_steps None.
Proof.
  intros w.
  apply (updateProperties_osc2_range (EP := streaming) 1 raw_base raw_cacheable 0 4
           (decimal 25 1) (saw true) 0 saw_pair w saw_second);
    [reflexivity | apply Z.leb_le; reflexivity | apply Z.leb_le; reflexivity
    | reflexivity | reflexivity].
Defined.

(** The note of three steps rendered into a cache of six frames that held
    1.0 in every frame: five values are stored from index 0 on, and index 5
    holds the silence of the cleared buffer. *)
Lemma render_loop_writes_window_witness :
  let ones := stereo [one; one; one; one; one; one] in
  ∃ vs e' r' out',
    sample_values (EP := caching) 5 false 0 saw_note 0 = Ok (vs, e', r')
    ∧ length vs = 5%nat ∧ kept saw_note e'
    ∧ render_loop (EP := caching) saw_note 0 (one_buffer ones)
      = Ok (0 + 5, e',
            set_heap (<[0%nat := out']> (heap (one_buffer ones)))
                     (set_random r' (one_buffer ones)))
    ∧ out' = set_buffers ones ((λ t, spliced (generateSilentBuffer 6) 0 vs) <$> _buffers ones)
    ∧ ∀ c t, _buffers ones !! c = Some t →
        ∃ t', _buffers out' !! c = Some t' ∧ length t' = length t
              ∧ (∀ k v, vs !! k = Some v → t' !! (0 + k)%nat = Some v)
              ∧ (∀ j, (j < length t)%nat → (j < 0 ∨ 0 + 5 ≤ j)%nat →
                      t' !! j = Some zero).
Proof.
  intros ones.
  apply (render_loop_writes_window (EP := caching) saw_note 0 (one_buffer ones) ones);
    [reflexivity | wf_example | apply ring_ready_saw
    | split; apply Z.leb_le; reflexivity | split; apply Z.leb_le; reflexivity
    | split; apply Z.leb_le; reflexivity | apply Z.leb_le; reflexivity].
Defined.

(** C2, as stated, fails: the note has six samples and its cache six frames,
    so the window from the write index 0 fits the event and, by the
    statement, indices 0 to 5 are written and nothing is silenced.  The loop
    stops before index 5, the last sample index of the event, and the
    buffer, which held 1.0 in every frame, was silenced: index 5 holds
    0.0. *)
Lemma full_window_leaves_last_index :
  let ones := stereo [one; one; one; one; one; one] in
  renderStartOffset (EP := caching) saw_note = 0
  ∧ _cancel (cacheable saw_note) = false
  ∧ bufferSize ones = _sampleLength (base saw_note)
  ∧ render_loop (EP := caching) saw_note 0 (one_buffer ones)
    = Ok (5, set_phase (decimal 625 3) saw_note,
          one_buffer (stereo [zero; decimal 125 3; decimal 25 2; decimal 375 3;
                              decimal 5 1; zero])).
Proof. do 3 (split; [reflexivity|]). reflexivity. Qed.

(** The envelope of the examples leaves the buffer as it is. *)
Lemma plain_envelope : envelope_keeps_shape (CO := plain).
Proof. by intros a i b H. Qed.

Lemma clearing_envelope : envelope_keeps_shape (CO := clearing).
Proof. by intros a i b H. Qed.


(** A restart from within [render]: the tempo has changed while the note
    was cached, the request is pending and the reset of the cache withdraws
    it. *)
Lemma render_clears_cancel_witness :
  (∃ e' w',
      render (CO := clearing) (EP := caching) 2 restarting_note 0 restarting_world
      = Ok (e', w')
      ∧ _cancel (cacheable e') = false)
  ∧ ∀ n e0 q w0 e' w',
      render (CO := clearing) (EP := caching) n e0 q w0 = Ok (e', w') →
      _cancel (cacheable e') = false.
Proof.
  apply (render_clears_cancel (CO := clearing) (EP := caching) 2 restarting_note 0%nat
                              restarting_world (silent_buffer 6)).
  - apply clearing_envelope.
  - reflexivity.
  - exact wf_silent_6.
  - split; [intros Ht; discriminate Ht | exact I].
  - apply Nat.leb_le. reflexivity.
  - intros _. split.
    + intros c. split; reflexivity.
    + constructor; try reflexivity.
      * split; apply Z.leb_le; reflexivity.
      * split; apply Z.leb_le; reflexivity.
      * apply Z.leb_le. reflexivity.
      * apply Z.leb_le. reflexivity.
Defined.

(** That restart, written out: the cache is replaced by one of twelve
    frames for the new tempo and filled up to the last sample index, the
    geometry follows the tempo, and no request is pending. *)
Lemma restart_caches_again :
  render (CO := clearing) (EP := caching) 2 restarting_note 0 restarting_world
  = Ok (set_phase (CO := clearing) (decimal 75 2)
          (set_cacheable {| _cancel := false; _caching := false; _cachingCompleted := true;
                            _autoCache := true; _bulkCacheable := false;
                            _cacheWriteIndex := 11 |}
             (set_base {| _buffer := Some 0%nat; _sampleStart := 4; _sampleEnd := 16;
                          _sampleLength := 12; _locked := false;
                          _updateAfterUnlock := false; _deleteMe := false |}
                       restarting_note)),
        mkWorld (CO := clearing)
          (<[0%nat := stereo [decimal 375 3; decimal 5 1; decimal 625 3; decimal 75 2;
                              decimal 875 3; zero; decimal 125 3; decimal 25 2;
                              decimal 375 3; decimal 5 1; decimal 625 3; zero]]> ∅)
          0 4 128).
Proof. reflexivity. Qed.

(** With the collaborators whose reset keeps the request, the restart caches
    the note again, the request is still pending, and the next [render]
    restarts in turn: thirty nested calls do not end it. *)
Lemma kept_request_restarts_again :
  render (EP := caching) 30 (upd_cacheable (set_autoCache true) saw_note_cancelled) 0
         (one_buffer (silent_buffer 6))
  = OutOfFuel.
Proof. reflexivity. Qed.
